(* ===== verification/_CoqProject ===== *)
-Q . S2P
Prelude.v
Text.v
Net.v
Commons.v
Buffer.v
BufferFacts.v
BufferProps.v
Protocol.v
ProtocolFacts.v
ProtocolProps.v
Hash.v
Keystore.v
Block.v
BlockProps.v
Store.v
Chain.v
ChainFacts.v
ChainProps.v
Ledger.v
ChainSigners.v
Replay.v
ChainExamples.v
Cache.v
CacheProps.v
Authority.v
AuthorityProps.v
Hosts.v
Filter.v
FilterProps.v
FilterExamples.v
Resolve.v
ResolveProps.v
Server.v
ServerProps.v
Client.v
ClientProps.v
ClientFuel.v
ParserProps.v
ClientExamples.v
Servers.v
ServersProps.v
Miner.v
MinerProps.v
MinerLiveness.v
MinerExamples.v
Context.v
ContextProps.v
Answers.v
Domains.v
DomainsProps.v
DomainsExamples.v
Ui.v
KeyGen.v
UiProps.v
Peers.v
PeersUpdate.v
Network.v
NetworkProps.v
NodeProps.v
PeersProps.v
Sockets.v
NodeExamples.v
Sync.v
Forks.v
Rivals.v
SyncExamples.v
Main.v
MainProps.v
Window.v
Locks.v
Program.v
ProgramProps.v
ProgramExamples.v
