(* ===== verification/Prelude.v ===== *)
(** * Ruvname: a verification development (root file)

    Ruvname is a node of a blockchain that holds domain names, with a DNS server
    that answers from it, a miner, a peer-to-peer network and a user interface.
    This library is a model of that program, file by file, with the theorems on
    its parts and on how they work together. The sources are under src/src/.

    ** The parts and how they interact

    The blockchain ([Chain.t]) is kept in a database ([Store.t]) and is shared by
    everything else in the program through the context. Blocks come to it from
    the network, where [Network.handle_block] checks them and adds, replaces or
    keeps them, and from the miner, where [Miner.submit] does. The miner gets its
    jobs from the user interface ([Domains.action_create_domain]), from the start
    of the program ([Context.create_genesis_if_needed]) and from the chain, which
    asks for signing blocks ([Chain.get_sign_block]). The DNS server hands each
    question to the resolver, which asks the local zones, the hosts files, the
    chain ([Filter]) and at last other servers ([Client]), and keeps the answers
    ([Cache]).

    ** Files

    - Base. [Prelude]: outcomes, monads, machine integers, and the framework
      [Steps] for properties that every action of a handler keeps. [Text]: Rust
      strings as their UTF-8 bytes. [Net]: addresses of the standard library.
      [Commons]: commons/mod.rs.
    - DNS messages. [Buffer]: the trait and the three buffers of dns/buffer.rs;
      [BufferFacts] the interface [ReadLaws] between buffers and readers, and
      name compression; [BufferProps] round trips and termination of names.
      [Protocol]: dns/protocol.rs; [ProtocolFacts] writers matched with readers
      ([Emits]); [ProtocolProps] the round trip and the size of packets;
      [ParserProps] the errors of the parser.
    - Blocks. [Hash]: bytes.rs and hash_utils.rs; [Keystore]: keystore.rs and
      crypto/crypto_box.rs; [Block]: block.rs, transaction.rs, types.rs;
      [BlockProps]: hexadecimal text and the order of blocks.
    - The chain. [Store]: the SQL statements on two tables; [Chain]: chain.rs,
      each function under its name; [ChainFacts] what the checks mean;
      [ChainProps] the invariant and the safety theorems; [Ledger] the abstract
      ledger and the refinement to it; [ChainSigners] the choice of signers;
      [Replay] one chain followed by another; [ChainExamples] runs, witnesses and
      counterexamples.
    - Answers. [Cache], [Authority], [Hosts], [Filter], [Resolve], [Server]:
      dns/cache.rs, authority.rs, hosts.rs, blockchain/filter.rs, dns/resolve.rs,
      dns/server.rs with dns/netutil.rs, each with its theorems in the file with
      [Props] in its name. [Answers] is the composition: a question, answered by
      the server from a ledger.
    - Clients and servers. [Client]: dns/client.rs, threads and timeouts as
      actions on the shared list; [ClientProps], [ClientFuel], [ClientExamples].
      [Servers]: the threads and channels of dns/server.rs; [ServersProps].
    - The miner. [Miner]: miner.rs, main loop and threads as actions;
      [MinerProps] the invariant and the found blocks, [MinerLiveness] starving
      jobs, [MinerExamples].
    - The start and the user. [Context]: settings.rs, context.rs, the key files
      of keystore.rs, commons/simplebus.rs, dns_utils.rs and the start in main.rs;
      [ContextProps]. [Domains] and [Ui]: web_ui.rs and event.rs; [DomainsProps],
      [DomainsExamples], [UiProps]. [KeyGen]: the threads of
      [keystore.rs: create_key], with their theorem. [Main]: main.rs, win_service.rs
      and commons/eventbus.rs; [MainProps]. [Window]: the window of web_ui.rs, its
      loop and the threads of the events, with what a name that cannot be read does
      to its owner.
    - The network. [Peers]: p2p/state.rs, message.rs, peer.rs, peers.rs and
      crypto/chacha.rs; [PeersUpdate]: the upkeep of peers.rs; [Network]:
      p2p/network.rs; [NetworkProps] on messages and frames, [NodeProps] on the
      event loop, [PeersProps] on peers; [NodeExamples]. [Sockets]: the loops that
      read and write a stream. [Sync]: a node that fetches the blocks of others;
      [Forks] what a node makes of a rival of its last block; [Rivals]: nodes with
      different last blocks; [SyncExamples].
    - The whole. [Locks]: what every thread locks, in which order. [Program]: the
      network, the miner, the page and the key generators on one context, with the
      bus between them; [ProgramProps], [ProgramExamples].

    ** How the code is rendered

    A function that can fail is an [outcome]: [Ok], [Err], [Panic] for a failed
    [unwrap], an index out of range or an overflow with checks, and [OutOfFuel].
    A method with [&mut self] is in the state monad [M]; [let!] and [let?] are
    the binds. Machine integers are [Z] with the operations [add_w], [sub_w],
    [add_s] and the like, which wrap or panic by the profile ([Build]). [Vec]s
    are lists, maps [gmap]s; a set whose order matters is a sorted list. Threads
    are lists of states, and a program with threads is a step relation made of
    actions: an action is what one thread does between two accesses to what it
    shares. The exact places are told in [Client],
    [Servers], [Miner], [KeyGen] and [Program]. In [Locks] the threads are scripts
    of locks taken and given back, which a panic or an endless loop may stop
    anywhere.

    Code outside the repository is a parameter: hashes and signatures
    ([Crypto]), serializers ([Serde], [JsonData], [Toml], and the wire format of
    [Peers]), encryption ([Ecies] and the cipher of [Peers]), Unicode tables
    ([Unicode]), the order of hash maps ([HashIter]), random numbers, clocks,
    files and sockets. Each reading of a clock or random number is an argument of
    the function that makes it. Laws of a library, where a theorem needs them,
    are its hypotheses: Ed25519 verifies what it signs, the hash library gives
    bytes, serializers read back what they write. The last is assumed of blocks and
    transactions only where no byte field is all zeros ([Ledger.whole]), since the
    sources have serde skip such a field ([ChainExamples.zero_field_lost]). Every
    such theorem is applied to a concrete instance, whose serializers skip these
    fields too. [ChainFacts.typed] says that the fields of a block are in their Rust
    types; it asks nothing of the number of a block beyond that, and
    [ChainFacts.numbered] is where a number is between 1 and 2^63-2.

    ** What the theorems show

    - The whole program, from its start on a database with a ledger and through
      every interleaving of the network, the miner, the page and the key
      generators, keeps a ledger grown from a beginning of the one it found
      ([program_refines_ledger]). The checks let one thing pass that ends this, a
      block with the number 0 (in a build without overflow checks) or 2^63-1; the
      theorems on the chain say that nothing else does ([ChainProps.broken]). A
      domain that the page lets through above a signing block, with a lower-case
      name and the other conditions of [DomainsProps.creatable], is taken by the
      chain when it is mined, and its name resolves for a year
      ([created_name_resolves]).
    - The chain is a linked, numbered list of blocks in every state that blocks
      from anywhere lead to, up to such a block ([chain_invariant]); it refines an
      abstract ledger ([chain_refines_ledger]), and its queries are reads of that
      list ([ledger_reads]). A good block is valid, follows the rules for
      transactions and takes no domain from its owner unless the last block
      registered it ([domain_ownership]); signing blocks come from the keys of a
      walk over the chain, which ends when it meets seven ([signers_chosen]).
    - The network node, its event loop with any bytes from the network included,
      changes the chain only by those steps ([node_refines_chain], a simulation
      with stuttering). A node that joins takes every block of the others, asking
      any of them, in any order after the first, and ends with their tables
      ([node_catches_up]). What a node makes of a rival of its last block follows
      from the histories of both ([Forks]): two nodes whose last blocks are rivals
      of one kind agree on the better one, unless a peer has claimed a height far
      above ([rivals_settled]); a node whose last block lost gets to the chain that
      was built on the rival ([fork_overtaken]).
      Connections follow their state machine, nothing but handshakes goes out
      unencrypted; frames and handshakes are read back, also in pieces of which
      only the contents of a message may be late ([message_crosses],
      [handshakes_cross]), and a write ends ([send_message_ends]); kept blocks are
      processed in a bounded number of turns.
    - The miner keeps the chain sound in every interleaving, what it finds is
      valid, and a state is exhibited that it never leaves.
    - DNS packets and names are read back as written, in bounded space, and a zone
      file as its records look on the wire ([zone_file_roundtrip]). Whatever
      bytes come, the parser returns a packet with fields in their ranges or an
      error of its buffer, unless a name never ends, and panics only at a short TLSA
      record in a checked build ([parser_errors]); so when overflow wraps only a
      name that never ends stops the UDP listener ([listener_survives]). Answers
      from the chain, the local zones and the cache are those of a declarative
      description; a name on the ledger that is not cached is answered over the
      wire ([ledger_name_answered]); a question that no filter answers goes to an
      upstream once per time to live ([forwarded_then_cached]); every request gets
      a reply with the records of the resolver and of the aliases it follows, as
      long as the resolver returns ([execute_query_reply]).
    - The client gives every caller an answer with the number of its query or a
      timeout, as long as no stray datagram poisons its lock, which one can. The
      UDP server neither loses nor repeats requests while its threads live; silent
      connections stop the TCP server.
    - The order of the locks lets the threads of the program come to the end of
      what they do ([operations_finish]), except for the founding of a chain, which
      can deadlock ([founding_can_deadlock]). A thread that panics poisons what it
      holds, and those that need it panic in their turn; one that loops with a lock,
      as the choice of signers can with the context, keeps it ([loop_blocks]).
    - Keys in use, mined and saved are strong and are read back, and the page reads
      back the names and data put into its scripts, for names that may be
      registered and data without other escapes than line feeds and quotes
      ([domain_shown]). A domain that a stranger registers for a key, with a name
      that is no text, stops the owner of the key ([unreadable_name_stops_owner]).

    Theorems that were found false of the code are kept as computed
    counterexamples in the files with [Examples] in their name.

    ** Fuel

    The loops without a structural measure take fuel. One more iteration than the
    buffer has bytes settles [read_qname] ([read_qname_fuel_enough]), 513 for a
    datagram ([ClientFuel.parse_settled]). The loop over kept blocks ends within
    their number ([future_blocks_end]). The choice of signers may not end
    ([signers_starve]), nor may the recursive resolver ([referrals_never_end]);
    theorems on the chain hold for every fuel, and those that say a function
    returns say with which.

    ** Not modelled

    The JavaScript of the page but for its string literals, logging and the texts
    made for it ([Display] and [Debug]), the parsing of the command line (its result
    is an argument of [Main.main]), and what the libraries do: SQLite, TLS and HTTP,
    the web view, the serializers, the cryptography. A socket is what the system
    answers to reads and writes. Thread priorities, and sleeps but for the clock,
    have no part in the models; nor has the exhaustion of memory. Each action of a
    thread is atomic; when threads wait for each other's locks is the subject of
    [Locks]. The models of the components end with the panic of a thread; what its
    poison does to the others is told for the locks of [Locks], for the client
    ([stray_response_poisons]) and for the bus ([bus_ends_with_a_panic]) only. The tests in the sources are not part of the program.

    ** Plan

    Left to do: forks in [Sync], where the stale cache of [replace_block] stands in
    the way; a fork of more than one block, and a full block against a signing
    block, where the nodes need not agree. *)

From Stdlib Require Import ZArith Lia.
From Stdlib Require Export Ascii String.
From stdpp Require Export base tactics decidable list numbers option gmap strings.

(** ** Outcomes of Rust code

    [Ok] and [Err] are the two constructors of [Result]; [Panic] is a Rust
    panic (failed [unwrap]/[expect]/[assert!], index out of range, overflow
    with overflow checks); [OutOfFuel] is returned by a loop of the model
    whose fuel ran out and by nothing else. *)

Declare Scope rust_scope.
Delimit Scope rust_scope with rust.

Inductive outcome (E A : Type) : Type :=
  | Ok (a : A)
  | Err (e : E)
  | Panic
  | OutOfFuel.
Arguments Ok {E A} a.
Arguments Err {E A} e.
Arguments Panic {E A}.
Arguments OutOfFuel {E A}.

(** Rust's [From] trait, as the [?] operator uses it on errors. *)
Class From (E1 E2 : Type) := from : E1 → E2.
#[export] Instance from_id E : From E E := λ e, e.

Definition obind {E1 E2 A B} `{From E1 E2} (m : outcome E1 A) (k : A → outcome E2 B) : outcome E2 B :=
  match m with
  | Ok a => k a
  | Err e => Err (from e)
  | Panic => Panic
  | OutOfFuel => OutOfFuel
  end.

(** A computation over a mutable state [S] ([&mut self]). *)
Definition M (S E A : Type) : Type := S → outcome E (A * S).

Definition mret {S E A} (a : A) : M S E A := λ s, Ok (a, s).
Definition mfail {S E A} (e : E) : M S E A := λ _, Err e.
Definition mpanic {S E A} : M S E A := λ _, Panic.
Definition mstuck {S E A} : M S E A := λ _, OutOfFuel.
Definition mget {S E A} (f : S → A) : M S E A := λ s, Ok (f s, s).
Definition mput {S E} (f : S → S) : M S E unit := λ s, Ok (tt, f s).
Definition mlift {S E A} (o : outcome E A) : M S E A := λ s, obind o (λ a, Ok (a, s)).

Definition mbind_ {S E1 E2 A B} `{From E1 E2} (m : M S E1 A) (k : A → M S E2 B) : M S E2 B :=
  λ s, obind (m s) (λ '(a, s'), k a s').

(** [let? x := m in k] is [let x = m?; k]; the state is threaded. *)
Notation "'let?' x ':=' m 'in' k" := (mbind_ m (λ x, k))
  (at level 10, x pattern, m at level 100, k at level 200) : rust_scope.
Notation "m ';?' k" := (mbind_ m (λ _, k))
  (at level 199, k at level 200, right associativity) : rust_scope.
(** The same without a state. *)
Notation "'let!' x ':=' m 'in' k" := (obind m (λ x, k))
  (at level 10, x pattern, m at level 100, k at level 200) : rust_scope.

Open Scope rust_scope.

Create HintDb ruvbuf.

(** [for x in l { f(x)?; }] *)
Fixpoint mfor {S E A} (l : list A) (f : A → M S E unit) : M S E unit :=
  match l with
  | [] => mret tt
  | x :: l' => f x ;? mfor l' f
  end.

(** [for _ in 0..n { v.push(f()?); }] *)
Fixpoint mrepeat {S E A} (n : nat) (f : M S E A) : M S E (list A) :=
  match n with
  | O => mret []
  | Datatypes.S n' => let? x := f in let? xs := mrepeat n' f in mret (x :: xs)
  end.

(** ** Build profile

    The release profile of Cargo.toml leaves overflow checks off (arithmetic
    wraps), the dev and test profiles leave them on (arithmetic panics). Every
    definition whose arithmetic can overflow takes the profile as a parameter,
    so a theorem stated over it holds for both builds. *)
Class Build := overflow_checks : bool.

Section Arith.
Context {BP : Build}.
Open Scope Z_scope.

Definition wrap (w z : Z) : Z := z mod 2 ^ w.
(** Two's complement reading of the low [w] bits ([as iN]). *)
Definition swrap (w z : Z) : Z :=
  let u := z mod 2 ^ w in if u <? 2 ^ (w - 1) then u else u - 2 ^ w.

Definition fits (w z : Z) : bool := (0 <=? z) && (z <? 2 ^ w).

Definition arith {E} (w z : Z) : outcome E Z :=
  if fits w z then Ok z else if overflow_checks then Panic else Ok (wrap w z).

Definition add_w {E} (w a b : Z) : outcome E Z := arith w (a + b).
Definition sub_w {E} (w a b : Z) : outcome E Z := arith w (a - b).

(** The same for the signed type of [w] bits. *)
Definition fits_s (w z : Z) : bool := (- 2 ^ (w - 1) <=? z) && (z <? 2 ^ (w - 1)).
Definition sarith {E} (w z : Z) : outcome E Z :=
  if fits_s w z then Ok z else if overflow_checks then Panic else Ok (swrap w z).
Definition add_s {E} (w a b : Z) : outcome E Z := sarith w (a + b).
Definition sub_s {E} (w a b : Z) : outcome E Z := sarith w (a - b).
End Arith.

(** The machine types of the source. *)
Definition is_u (w z : Z) : Prop := (0 <= z < 2 ^ w)%Z.
Abbreviation is_u8 := (is_u 8).
Abbreviation is_u16 := (is_u 16).
Abbreviation is_u32 := (is_u 32).
Abbreviation is_u64 := (is_u 64).

(** ** Bytes and strings

    A [Vec<u8>]/[&[u8]] is a list of integers; a Rust [String]/[&str] is the
    list of the bytes of its UTF-8 encoding. *)
Abbreviation bytes := (list Z).
Abbreviation rstr := (list Z).
Definition bytes_ok (b : bytes) : Prop := Forall is_u8 b.

Definition Z_of_ascii (c : ascii) : Z := Z.of_N (N_of_ascii c).
(** [str "text"]: a string literal of the source. *)
Definition str (s : string) : rstr := Z_of_ascii <$> list_ascii_of_string s.
Arguments str s%_string.

(** ** Computing with outcomes *)

Section Laws.
Context {S E1 E2 A B : Type} `{From E1 E2}.

Lemma obind_Ok (a : A) (k : A → outcome E2 B) : obind (Ok a : outcome E1 A) k = k a.
Proof. reflexivity. Qed.

Lemma mbind_run (m : M S E1 A) (k : A → M S E2 B) s a s' :
  m s = Ok (a, s') → mbind_ m k s = k a s'.
Proof. intros Hm. unfold mbind_. by rewrite Hm. Qed.

Lemma run_get (f : S → A) (k : A → M S E2 B) s : mbind_ (mget (E := E1) f) k s = k (f s) s.
Proof. done. Qed.
Lemma run_lift (o : outcome E1 A) (k : A → M S E2 B) s a : o = Ok a → mbind_ (mlift o) k s = k a s.
Proof. by intros ->. Qed.

Lemma mbind_ext (m : M S E1 A) (k1 k2 : A → M S E2 B) s :
  (∀ a s', m s = Ok (a, s') → k1 a s' = k2 a s') → mbind_ m k1 s = mbind_ m k2 s.
Proof. intros Hk. unfold mbind_. destruct (m s) as [[a s']| | |] eqn:Hm; simpl; auto. Qed.

Lemma mbind_inv (m : M S E1 A) (k : A → M S E2 B) s b s' :
  mbind_ m k s = Ok (b, s') → ∃ a s1, m s = Ok (a, s1) ∧ k a s1 = Ok (b, s').
Proof.
  unfold mbind_. destruct (m s) as [[a s1]| | |]; simpl; try discriminate. eauto.
Qed.

Lemma obind_inv (m : outcome E1 A) (k : A → outcome E2 B) b :
  obind m k = Ok b → ∃ a, m = Ok a ∧ k a = Ok b.
Proof. destruct m; simpl; try discriminate. eauto. Qed.
End Laws.

(** Run the head of a bind whose result is a hypothesis or a computation. *)
Ltac mrun :=
  match goal with
  | |- mbind_ ?m _ ?s = _ => erewrite mbind_run; [|first [eassumption | reflexivity]]
  end.

(** Take apart every successful bind among the hypotheses. *)
Ltac minv :=
  repeat match goal with
  | H : mbind_ _ _ _ = Ok (_, _) |- _ =>
      apply mbind_inv in H; let a := fresh "a" in let s := fresh "s" in
      let Hm := fresh "Hm" in destruct H as (a & s & Hm & H)
  | H : obind _ _ = Ok _ |- _ =>
      apply obind_inv in H; let a := fresh "a" in let Hm := fresh "Hm" in
      destruct H as (a & Hm & H)
  | H : mret _ _ = Ok _ |- _ => unfold mret in H
  | H : Ok _ = Ok _ |- _ => injection H as H
  end.

(** ** What a computation does to the state

    [Steps R m]: whatever [m] returns, the state before and the state after are
    related by [R], a reflexive and transitive relation. An invariant [P] is
    [preserved P]. *)

Definition Steps {S E A} (R : S → S → Prop) (m : M S E A) : Prop :=
  ∀ s a s', m s = Ok (a, s') → R s s'.
Definition preserved {S} (P : S → Prop) (s s' : S) : Prop := P s → P s'.

#[export] Instance preserved_preorder {S} (P : S → Prop) : PreOrder (preserved P).
Proof. split; [by intros s Hs|]. intros s1 s2 s3 H1 H2 Hs. by apply H2, H1. Qed.

Create HintDb steps.

Section Steps.
Context {S : Type} (R : S → S → Prop) `{!PreOrder R}.

Lemma steps_bind {E1 E2 A B} `{From E1 E2} (m : M S E1 A) (k : A → M S E2 B) :
  Steps R m → (∀ a, Steps R (k a)) → Steps R (mbind_ m k).
Proof. intros Hm Hk s b s' Hr. apply mbind_inv in Hr as (a & s1 & H1 & H2). etransitivity; [by eapply Hm|by eapply Hk]. Qed.
Lemma steps_ret {E A} (a : A) : Steps R (mret (E := E) a).
Proof. intros s a' s' Hr. injection Hr as _ <-. reflexivity. Qed.
Lemma steps_get {E A} (f : S → A) : Steps R (mget (E := E) f).
Proof. intros s a' s' Hr. injection Hr as _ <-. reflexivity. Qed.
Lemma steps_put {E} (f : S → S) : (∀ s, R s (f s)) → Steps R (mput (E := E) f).
Proof. intros Hf s a s' Hr. injection Hr as _ <-. apply Hf. Qed.
Lemma steps_lift {E A} (o : outcome E A) : Steps R (mlift o).
Proof. intros s a s' Hr. unfold mlift in Hr. apply obind_inv in Hr as (? & _ & Hr). injection Hr as _ <-. reflexivity. Qed.
Lemma steps_panic {E A} : Steps R (mpanic (E := E) (A := A)).
Proof. by intros s a s'. Qed.
Lemma steps_if {E A} (b : bool) (m1 m2 : M S E A) : Steps R m1 → Steps R m2 → Steps R (if b then m1 else m2).
Proof. by destruct b. Qed.
End Steps.

(** Go through a computation; hints of [steps] end the branches. *)
Ltac steps :=
  repeat first
    [ solve [eauto 3 with steps nocore] | apply steps_bind; [apply _| |intros ?] | apply steps_ret; apply _
    | apply steps_get; apply _ | apply steps_lift; apply _ | apply steps_panic | apply steps_if ].
(** The run [H] is a run of such a computation. *)
Ltac run_steps H := refine ((_ : Steps _ _) _ _ _ H).

(** What every step keeps or breaks holds until a step breaks it. *)
Lemma rtc_until {A} (R B : relation A) (I : A → Prop) x y :
  (∀ u v, I u → R u v → I v ∨ B u v) → rtc R x y → I x →
  I y ∨ ∃ u v, rtc R x u ∧ I u ∧ R u v ∧ B u v ∧ rtc R v y.
Proof.
  intros Hstep. induction 1 as [x|x u y Hs Hr IH]; intros Hx; [by left|].
  destruct (Hstep _ _ Hx Hs) as [Hu|Hb].
  - destruct (IH Hu) as [Hy|(v & w & Hv & Hrest)]; [by left|]. right. exists v, w. split; [by eapply rtc_l|done].
  - right. exists x, u. split; [apply rtc_refl|done].
Qed.

(** ** Integers *)

Section Integers.
Open Scope Z_scope.

Lemma fits_is_u w z : fits w z = true ↔ is_u w z.
Proof. unfold fits, is_u. rewrite andb_true_iff, Z.leb_le, Z.ltb_lt. done. Qed.

Lemma wrap_is_u w z : 0 <= w → is_u w (wrap w z).
Proof. intros Hw. unfold is_u, wrap. apply Z.mod_pos_bound. by apply Z.pow_pos_nonneg. Qed.

Lemma arith_fits {BP : Build} {E} w z : is_u w z → arith (E := E) w z = Ok z.
Proof. intros Hz. unfold arith. by rewrite (proj2 (fits_is_u w z) Hz). Qed.

Lemma arith_range {BP : Build} {E} w z r : 0 <= w → arith (E := E) w z = Ok r → is_u w r.
Proof.
  intros Hw. unfold arith. destruct (fits w z) eqn:Hf; [intros [= <-]; by apply fits_is_u|].
  destruct overflow_checks; [done|]. intros [= <-]. by apply wrap_is_u.
Qed.

Lemma sarith_fits {BP : Build} {E} w z : - 2 ^ (w - 1) <= z < 2 ^ (w - 1) → sarith (E := E) w z = Ok z.
Proof.
  intros [H1 H2]. unfold sarith, fits_s.
  by rewrite (proj2 (Z.leb_le _ _) H1), (proj2 (Z.ltb_lt _ _) H2).
Qed.

Lemma wrap_small w z : is_u w z → wrap w z = z.
Proof. intros Hz. unfold wrap. by apply Z.mod_small. Qed.

Lemma land_ones8 z : Z.land z 255 = z mod 2 ^ 8.
Proof. change 255 with (Z.ones 8). by rewrite Z.land_ones. Qed.

Lemma land_ones16 z : Z.land z 65535 = z mod 2 ^ 16.
Proof. change 65535 with (Z.ones 16). by rewrite Z.land_ones. Qed.

Lemma land_shiftl_low hi lo k : 0 <= k → is_u k lo → Z.land (Z.shiftl hi k) lo = 0.
Proof.
  intros Hk [Hlo Hhi]. apply Z.bits_inj'. intros n Hn.
  rewrite Z.land_spec, Z.bits_0. destruct (Z.lt_ge_cases n k) as [Hnk|Hnk].
  - by rewrite Z.shiftl_spec_low.
  - replace (Z.testbit lo n) with false; [by rewrite andb_false_r|].
    rewrite <- (Z.mod_small lo (2 ^ k)) by done. symmetry. apply Z.mod_pow2_bits_high. lia.
Qed.

(** [hi] above [lo]: disjoint bits, so [|] is addition. *)
Lemma lor_shiftl_add hi lo k : 0 <= k → is_u k lo → Z.lor (Z.shiftl hi k) lo = hi * 2 ^ k + lo.
Proof.
  intros Hk Hlo. rewrite <- Z.shiftl_mul_pow2 by done.
  rewrite <- Z.lxor_lor, <- Z.add_nocarry_lxor; auto using land_shiftl_low.
Qed.
End Integers.
