(* ===== verification/Text.v ===== *)
(** * Rust strings

    The [str]/[String]/[char] operations of the standard library that the
    source calls. A string is the list of its UTF-8 bytes; the operations on
    ASCII text are written out, and the three that consult Unicode tables on
    other text take those tables from the class [Unicode]. *)

From stdpp Require Import sorting fin_maps.
From S2P Require Import Prelude.
Open Scope Z_scope.

Class Unicode := {
  (** [String::from_utf8_lossy] on a byte string that is not ASCII. *)
  uni_lossy : bytes → rstr;
  (** [str::to_lowercase] on a string that is not ASCII. *)
  uni_lower : rstr → rstr;
  (** [s.chars().all(char::is_numeric)] on a string that is not ASCII. *)
  uni_numeric : rstr → bool;
  (** [str::trim] on a string that is not ASCII. *)
  uni_trim : rstr → rstr;
  (** [String::from_utf8] accepts a byte string that is not ASCII. *)
  uni_utf8 : bytes → bool;
}.

(** A table that suffices for ASCII inputs, for concrete runs. *)
Definition ascii_tables : Unicode :=
  {| uni_lossy := λ b, b; uni_lower := λ s, s; uni_numeric := λ _, false; uni_trim := λ s, s; uni_utf8 := λ _, false |}.

Definition is_ascii (b : bytes) : bool := forallb (λ c, (0 <=? c) && (c <? 128)) b.

Definition ascii_lower (c : Z) : Z := if (65 <=? c) && (c <=? 90) then c + 32 else c.
Definition is_ascii_digit (c : Z) : bool := (48 <=? c) && (c <=? 57).
Definition is_ascii_alphanumeric (c : Z) : bool :=
  is_ascii_digit c || ((65 <=? c) && (c <=? 90)) || ((97 <=? c) && (c <=? 122)).
Definition is_ascii_whitespace (c : Z) : bool := ((9 <=? c) && (c <=? 13)) || (c =? 32).

Definition from_utf8_lossy {U : Unicode} (b : bytes) : rstr := if is_ascii b then b else uni_lossy b.
Definition to_lowercase {U : Unicode} (s : rstr) : rstr :=
  if is_ascii s then ascii_lower <$> s else uni_lower s.

(** [String::from_utf8(b).is_ok()] *)
Definition from_utf8_ok {U : Unicode} (b : bytes) : bool := is_ascii b || uni_utf8 b.

Fixpoint drop_while (f : Z → bool) (s : rstr) : rstr :=
  match s with
  | c :: s' => if f c then drop_while f s' else s
  | [] => []
  end.
Definition trim {U : Unicode} (s : rstr) : rstr :=
  if is_ascii s
  then reverse (drop_while is_ascii_whitespace (reverse (drop_while is_ascii_whitespace s)))
  else uni_trim s.

(** [s.split(c)]: never empty, [""] gives [[""]]. *)
Fixpoint split (c : Z) (s : rstr) : list rstr :=
  match s with
  | [] => [[]]
  | x :: s' =>
      if x =? c then [] :: split c s'
      else match split c s' with
           | h :: t => (x :: h) :: t
           | [] => [[x]]
           end
  end.

(** [v.join(sep)] *)
Fixpoint join (sep : rstr) (v : list rstr) : rstr :=
  match v with
  | [] => []
  | [x] => x
  | x :: v' => x ++ sep ++ join sep v'
  end.

(** [s.splitn(n, c)] and [s.rsplitn(n, c)] (the latter yields from the right). *)
Definition splitn (n : nat) (c : Z) (s : rstr) : list rstr :=
  let ps := split c s in
  if decide (length ps ≤ n)%nat then ps else take (n - 1) ps ++ [join [c] (drop (n - 1) ps)].
Definition rsplitn (n : nat) (c : Z) (s : rstr) : list rstr :=
  let ps := reverse (split c s) in
  if decide (length ps ≤ n)%nat then ps
  else take (n - 1) ps ++ [join [c] (reverse (drop (n - 1) ps))].

(** [s.lines()]: no line after a final line break, no [\r] before one. *)
Definition strip_cr (s : rstr) : rstr :=
  match reverse s with 13 :: r => reverse r | _ => s end.
Definition lines (s : rstr) : list rstr :=
  let ls := split 10 s in
  strip_cr <$> (match reverse ls with [] :: r => reverse r | _ => ls end).

Definition starts_with (s p : rstr) : bool := bool_decide (p `prefix_of` s).
Definition ends_with (s p : rstr) : bool := bool_decide (p `suffix_of` s).

Definition is_char_boundary (s : rstr) (i : nat) : bool :=
  match i with
  | O => true
  | _ => match s !! i with
         | Some c => negb ((128 <=? c) && (c <? 192))
         | None => bool_decide (i = length s)
         end
  end.
(** [&s[a..b]] *)
Definition str_slice {E} (s : rstr) (a b : nat) : outcome E rstr :=
  if bool_decide (a ≤ b)%nat && is_char_boundary s a && is_char_boundary s b
  then Ok (take (b - a) (drop a s)) else Panic.

Definition hex_upper (d : Z) : Z := if d <? 10 then 48 + d else 55 + d.
Definition hex_value (c : Z) : option Z :=
  if is_ascii_digit c then Some (c - 48)
  else if (65 <=? c) && (c <=? 70) then Some (c - 55)
  else if (97 <=? c) && (c <=? 102) then Some (c - 87)
  else None.

Inductive ParseIntError := Empty | InvalidDigit | PosOverflow.

Fixpoint parse_digits (acc : Z) (s : rstr) : outcome ParseIntError Z :=
  match s with
  | [] => Ok acc
  | c :: s' =>
      match hex_value c with
      | None => Err InvalidDigit
      | Some d => if acc * 16 + d <? 256 then parse_digits (acc * 16 + d) s' else Err PosOverflow
      end
  end.
(** [u8::from_str_radix(s, 16)]: a leading [+] is accepted, a lone sign is not. *)
Definition u8_from_str_radix16 (s : rstr) : outcome ParseIntError Z :=
  match s with
  | [] => Err Empty
  | [43] | [45] => Err InvalidDigit
  | 43 :: s' => parse_digits 0 s'
  | _ => parse_digits 0 s
  end.

(** ** Lemmas *)

Lemma split_nonempty c s : split c s ≠ [].
Proof. induction s as [|x s IH]; simpl; [done|]. destruct (x =? c); [done|]. by destruct (split c s). Qed.

Lemma split_no_sep c s : Forall (λ l, c ∉ l) (split c s).
Proof.
  induction s as [|x s IH]; simpl; [apply Forall_singleton, not_elem_of_nil|].
  destruct (Z.eqb_spec x c) as [->|Hx]; [constructor; [apply not_elem_of_nil|done]|].
  destruct (split c s) as [|h t]; [by apply Forall_singleton, not_elem_of_cons; split; [|apply not_elem_of_nil]|].
  inversion IH; subst. constructor; [|done]. by apply not_elem_of_cons.
Qed.

Lemma join_cons sep x v : v ≠ [] → join sep (x :: v) = x ++ sep ++ join sep v.
Proof. by destruct v. Qed.

Lemma join_split c s : join [c] (split c s) = s.
Proof.
  induction s as [|x s IH]; simpl; [done|]. pose proof (split_nonempty c s) as Hne.
  destruct (Z.eqb_spec x c) as [->|Hx].
  - rewrite join_cons by done. by rewrite IH.
  - destruct (split c s) as [|h t]; [done|]. destruct t as [|h' t]; simpl in *; by rewrite IH.
Qed.

Lemma split_app_sep c x s : c ∉ x → split c (x ++ c :: s) = x :: split c s.
Proof.
  induction x as [|y x IH]; simpl; intros Hx; [by rewrite Z.eqb_refl|].
  rewrite (proj2 (Z.eqb_neq y c)) by set_solver. rewrite IH by set_solver. done.
Qed.

Lemma split_plain c x : c ∉ x → split c x = [x].
Proof.
  induction x as [|y x IH]; simpl; intros Hx; [done|].
  rewrite (proj2 (Z.eqb_neq y c)) by set_solver. by rewrite IH by set_solver.
Qed.

Lemma split_join c v : v ≠ [] → Forall (λ l, c ∉ l) v → split c (join [c] v) = v.
Proof.
  intros Hne Hv. induction Hv as [|x v Hx Hv IH]; [done|].
  destruct v as [|y v]; [by apply split_plain|].
  rewrite join_cons by done. change ([c] ++ ?t) with (c :: t).
  rewrite split_app_sep by done. by rewrite IH.
Qed.

Lemma is_ascii_spec b : is_ascii b = true ↔ Forall (λ c, 0 <= c < 128) b.
Proof.
  induction b as [|c b IH]; simpl; [done|]. rewrite !andb_true_iff, Forall_cons, IH, Z.leb_le, Z.ltb_lt. done.
Qed.

Lemma ascii_lower_ascii c : 0 <= c < 128 → 0 <= ascii_lower c < 128.
Proof. unfold ascii_lower. destruct (_ && _) eqn:E; lia. Qed.

Lemma is_ascii_lower s : is_ascii s = true → is_ascii (ascii_lower <$> s) = true.
Proof.
  rewrite !is_ascii_spec, Forall_fmap. intros Hs. eapply Forall_impl; [done|].
  intros c. apply ascii_lower_ascii.
Qed.

Lemma is_ascii_app s t : is_ascii (s ++ t) = is_ascii s && is_ascii t.
Proof. apply forallb_app. Qed.

(** What the name reader does to an ASCII label. *)
Lemma lossy_lower_ascii {U : Unicode} s :
  is_ascii s = true → to_lowercase (from_utf8_lossy s) = ascii_lower <$> s.
Proof. intros Hs. unfold from_utf8_lossy, to_lowercase. by rewrite !Hs. Qed.

Lemma hex_value_upper d : 0 <= d < 16 → hex_value (hex_upper d) = Some d.
Proof.
  intros Hd. unfold hex_upper, hex_value, is_ascii_digit. destruct (Z.ltb_spec d 10) as [Hlt|Hge].
  - rewrite (proj2 (andb_true_iff _ _)) by lia. f_equal. lia.
  - rewrite (proj2 (andb_false_iff _ _)) by lia. rewrite (proj2 (andb_true_iff _ _)) by lia.
    f_equal. lia.
Qed.

(** ** Ordered maps *)

(** [Ord for [T]]: lexicographic. *)
Fixpoint lex {A} (cmp : A → A → comparison) (a b : list A) : comparison :=
  match a, b with
  | [], [] => Eq
  | [], _ :: _ => Lt
  | _ :: _, [] => Gt
  | x :: a, y :: b => match cmp x y with Eq => lex cmp a b | c => c end
  end.

(** What the standard library asks of an [Ord]. *)
Class TotalOrder {A} (cmp : A → A → comparison) := {
  cmp_eq x y : cmp x y = Eq ↔ x = y;
  cmp_sym x y : cmp y x = CompOpp (cmp x y);
  cmp_trans x y z : cmp x y = Lt → cmp y z = Lt → cmp x z = Lt;
}.

#[export] Instance Z_order : TotalOrder Z.compare.
Proof.
  split; [apply Z.compare_eq_iff|intros; apply Z.compare_antisym|].
  intros x y z. rewrite !Z.compare_lt_iff. lia.
Qed.

#[export] Instance lex_order {A} (cmp : A → A → comparison) `{!TotalOrder cmp} : TotalOrder (lex cmp).
Proof.
  assert (Heq : ∀ x y, lex cmp x y = Eq ↔ x = y).
  { induction x as [|x a IH]; intros [|y b]; cbn; [done..|].
    destruct (cmp x y) eqn:Hc; [apply cmp_eq in Hc; rewrite IH; naive_solver|..];
      (split; [done|]); intros [= -> ->]; by rewrite (proj2 (cmp_eq y y) eq_refl) in Hc. }
  split; [done| |].
  - induction x as [|x a IH]; intros [|y b]; cbn; [done..|].
    rewrite (cmp_sym x y). destruct (cmp x y); cbn; auto.
  - induction x as [|x a IH]; intros [|y b] [|z c]; cbn; try done.
    destruct (cmp x y) eqn:Hxy; [apply cmp_eq in Hxy as ->| |done].
    + destruct (cmp y z); [apply IH|done..].
    + intros _. destruct (cmp y z) eqn:Hyz; [apply cmp_eq in Hyz as <-; by rewrite Hxy| |done].
      intros _. by rewrite (cmp_trans x y z).
Qed.

(** The order of [str] and of [Vec<u8>]. *)
Definition cmp_bytes : list Z → list Z → comparison := lex Z.compare.
#[export] Instance cmp_bytes_order : TotalOrder cmp_bytes := _.

Definition str_leb (a b : rstr) : bool := match cmp_bytes a b with Gt => false | _ => true end.

(** [BTreeMap::values]: in the order of the keys. *)
Definition btree_values {A} (m : gmap rstr A) : list A :=
  snd <$> merge_sort (λ a b : rstr * A, str_leb a.1 b.1) (map_to_list m).

Lemma elem_btree_values {A} (m : gmap rstr A) x : x ∈ btree_values m ↔ ∃ k, m !! k = Some x.
Proof.
  unfold btree_values. rewrite list_elem_of_fmap. split.
  - intros ([k y] & -> & Hin). rewrite merge_sort_Permutation in Hin. exists k. by apply elem_of_map_to_list.
  - intros [k Hk]. exists (k, x). split; [done|]. rewrite merge_sort_Permutation. by apply elem_of_map_to_list.
Qed.
