(* ===== verification/Net.v ===== *)
(** * Addresses of the standard library: [Ipv4Addr], [Ipv6Addr], [IpAddr],
    [SocketAddr], with the accessors and the [Display] output the source uses. *)

From S2P Require Import Prelude Text.
From Stdlib Require Import DecimalString.
Open Scope Z_scope.

Inductive Ipv4Addr := Ipv4 (a b c d : Z).
Inductive Ipv6Addr := Ipv6 (s0 s1 s2 s3 s4 s5 s6 s7 : Z).
Inductive IpAddr := V4 (a : Ipv4Addr) | V6 (a : Ipv6Addr).
Record SocketAddr := { ip : IpAddr; port : Z }.

#[export] Instance Ipv4Addr_eq_dec : EqDecision Ipv4Addr.
Proof. solve_decision. Defined.
#[export] Instance Ipv6Addr_eq_dec : EqDecision Ipv6Addr.
Proof. solve_decision. Defined.
#[export] Instance IpAddr_eq_dec : EqDecision IpAddr.
Proof. solve_decision. Defined.
#[export] Instance SocketAddr_eq_dec : EqDecision SocketAddr.
Proof. solve_decision. Defined.

Definition octets4 (x : Ipv4Addr) : list Z := let '(Ipv4 a b c d) := x in [a; b; c; d].
Definition segments (x : Ipv6Addr) : list Z :=
  let '(Ipv6 s0 s1 s2 s3 s4 s5 s6 s7) := x in [s0; s1; s2; s3; s4; s5; s6; s7].
(** [addr.octets()[0]] of an IPv6 address. *)
Definition first_octet6 (x : Ipv6Addr) : Z := let '(Ipv6 s0 _ _ _ _ _ _ _) := x in Z.shiftr s0 8.

Definition ip_key (x : IpAddr) : bool * list Z :=
  match x with V4 a => (false, octets4 a) | V6 a => (true, segments a) end.

#[export] Instance ip_key_inj : Inj (=) (=) ip_key.
Proof. intros [[]|[]] [[]|[]]; simpl; congruence. Qed.

#[export] Instance IpAddr_countable : Countable IpAddr := inj_countable ip_key
  (λ k, match k with
        | (false, [a; b; c; d]) => Some (V4 (Ipv4 a b c d))
        | (true, [a; b; c; d; e; f; g; h]) => Some (V6 (Ipv6 a b c d e f g h))
        | _ => None
        end) ltac:(by intros [[]|[]]).

(** [n.to_string()] of an unsigned integer. *)
Definition dec (n : Z) : rstr := str (NilZero.string_of_uint (N.to_uint (Z.to_N n))).

Definition display4 (x : Ipv4Addr) : rstr := join (str ".") (dec <$> octets4 x).

Definition hex_lower (d : Z) : Z := if d <? 10 then 48 + d else 87 + d.
(** ["{:x}"] of a [u16]: no leading zeros. *)
Definition hex16 (n : Z) : rstr :=
  let ds := [n / 4096 mod 16; n / 256 mod 16; n / 16 mod 16] in
  hex_lower <$> (drop_while (λ d, d =? 0) ds ++ [n mod 16]).

(** The first longest run of zero segments: (start, length). *)
Fixpoint zero_run (i : nat) (cur best : nat * nat) (s : list Z) : nat * nat :=
  match s with
  | [] => best
  | x :: s' =>
      if x =? 0 then
        let cur := if decide (snd cur = O) then (i, 1%nat) else (fst cur, S (snd cur)) in
        let best := if decide (snd best < snd cur)%nat then cur else best in
        zero_run (S i) cur best s'
      else zero_run (S i) (O, O) best s'
  end.

Definition display6 (x : Ipv6Addr) : rstr :=
  match x with
  | Ipv6 0 0 0 0 0 65535 g h =>
      str "::ffff:" ++ display4 (Ipv4 (g / 256) (g mod 256) (h / 256) (h mod 256))
  | _ =>
      let s := segments x in
      let '(start, len) := zero_run 0 (O, O) (O, O) s in
      if decide (1 < len)%nat then
        join (str ":") (hex16 <$> take start s) ++ str "::" ++
        join (str ":") (hex16 <$> drop (start + len) s)
      else join (str ":") (hex16 <$> s)
  end.

Definition display_ip (x : IpAddr) : rstr :=
  match x with V4 a => display4 a | V6 a => display6 a end.
Definition display_socket (x : SocketAddr) : rstr :=
  match ip x with
  | V4 a => display4 a ++ str ":" ++ dec (port x)
  | V6 a => str "[" ++ display6 a ++ str "]:" ++ dec (port x)
  end.

Definition is_loopback (x : IpAddr) : bool :=
  match x with
  | V4 (Ipv4 a _ _ _) => a =? 127
  | V6 a => bool_decide (a = Ipv6 0 0 0 0 0 0 0 1)
  end.
Definition is_private (x : Ipv4Addr) : bool :=
  let '(Ipv4 a b _ _) := x in
  (a =? 10) || ((a =? 172) && (16 <=? b) && (b <=? 31)) || ((a =? 192) && (b =? 168)).

Example display6_examples :
  display6 (Ipv6 64256 0 0 0 0 0 0 1) = str "fb00::1" ∧
  display6 (Ipv6 8193 3512 0 1 0 0 0 10) = str "2001:db8:0:1::a" ∧
  display6 (Ipv6 0 0 0 0 0 65535 258 772) = str "::ffff:1.2.3.4" ∧
  display4 (Ipv4 127 0 0 1) = str "127.0.0.1".
Proof. vm_compute. done. Qed.

(** ** [str::parse::<IpAddr>]

    The parser of the standard library: every function takes the rest of the
    input and returns the value with what is left, or nothing. *)
Section Parser.
Abbreviation parser A := (rstr → option (A * rstr)).

Definition digit_of (radix c : Z) : option Z :=
  match hex_value c with Some d => if d <? radix then Some d else None | None => None end.

(** [read_number]: at most [max_digits] digits, value below [limit]. *)
Fixpoint read_digits (radix limit : Z) (max_digits count : nat) (acc : Z) (s : rstr) : option (Z * nat * rstr) :=
  match s with
  | c :: s' =>
      match digit_of radix c with
      | Some d =>
          let acc := acc * radix + d in
          if limit <=? acc then None else
          if bool_decide (max_digits < S count)%nat then None else
          read_digits radix limit max_digits (S count) acc s'
      | None => Some (acc, count, s)
      end
  | [] => Some (acc, count, s)
  end.

Definition read_number (radix limit : Z) (max_digits : nat) (allow_zero_prefix : bool) : parser Z := λ s,
  let has_leading_zero := bool_decide (head s = Some 48) in
  match read_digits radix limit max_digits 0 0 s with
  | Some (v, count, rest) =>
      if bool_decide (count = 0)%nat then None else
      if negb allow_zero_prefix && has_leading_zero && bool_decide (1 < count)%nat then None else Some (v, rest)
  | None => None
  end.

Definition read_given_char (c : Z) (s : rstr) : option rstr :=
  match s with x :: s => if x =? c then Some s else None | [] => None end.

Definition read_separator {A} (sep : Z) (index : nat) (inner : parser A) : parser A := λ s,
  match index with
  | O => inner s
  | S _ => match read_given_char sep s with Some s => inner s | None => None end
  end.

Fixpoint read_octets (n index : nat) : parser (list Z) := λ s,
  match n with
  | O => Some ([], s)
  | S n =>
      match read_separator 46 index (read_number 10 256 3 false) s with
      | Some (v, s) => match read_octets n (S index) s with Some (vs, s) => Some (v :: vs, s) | None => None end
      | None => None
      end
  end.

Definition read_ipv4_addr : parser Ipv4Addr := λ s,
  match read_octets 4 0 s with
  | Some ([a; b; c; d], s) => Some (Ipv4 a b c d, s)
  | _ => None
  end.

(** [read_groups]: up to [n] groups from index [i]; the groups read,
    whether an IPv4 address ended them, and the rest of the input. *)
Fixpoint read_groups (n i : nat) (s : rstr) : list Z * bool * rstr :=
  match n with
  | O => ([], false, s)
  | S n =>
      match (if bool_decide (0 < n)%nat then read_separator 58 i read_ipv4_addr s else None) with
      | Some (Ipv4 a b c d, s) => ([a * 256 + b; c * 256 + d], true, s)
      | None =>
          match read_separator 58 i (read_number 16 65536 4 true) s with
          | Some (g, s) => let '(gs, v4, s) := read_groups n (S i) s in (g :: gs, v4, s)
          | None => ([], false, s)
          end
      end
  end.

Definition ipv6_of (gs : list Z) : option Ipv6Addr :=
  match gs with
  | [s0; s1; s2; s3; s4; s5; s6; s7] => Some (Ipv6 s0 s1 s2 s3 s4 s5 s6 s7)
  | _ => None
  end.

Definition read_ipv6_addr : parser Ipv6Addr := λ s,
  let '(head, head_ipv4, s) := read_groups 8 0 s in
  if bool_decide (length head = 8)%nat then (λ a, (a, s)) <$> ipv6_of head else
  if (head_ipv4 : bool) then None else
  match read_given_char 58 s ≫= read_given_char 58 with
  | None => None
  | Some s =>
      let '(tail, _, s) := read_groups (8 - (length head + 1)) 0 s in
      (λ a, (a, s)) <$> ipv6_of (head ++ replicate (8 - length head - length tail) 0 ++ tail)
  end.

Definition parse_ip (s : rstr) : option IpAddr :=
  let r := match read_ipv4_addr s with
           | Some (a, s) => Some (V4 a, s)
           | None => (λ '(a, s), (V6 a, s)) <$> read_ipv6_addr s
           end in
  match r with Some (a, []) => Some a | _ => None end.

(** [str::parse::<SocketAddr>]; the scope id of an IPv6 address is read and not kept. *)
Definition read_port (s : rstr) : option (Z * rstr) :=
  match read_given_char 58 s with
  | Some s => read_number 10 65536 (length s) true s
  | None => None
  end.

Definition read_scope_id (s : rstr) : option rstr :=
  match read_given_char 37 s with
  | Some s => snd <$> read_number 10 (2 ^ 32) (length s) true s
  | None => Some s
  end.

Definition read_socket_addr_v4 : parser SocketAddr := λ s,
  match read_ipv4_addr s with
  | Some (a, s) => (λ '(p, s), ({| ip := V4 a; port := p |}, s)) <$> read_port s
  | None => None
  end.

Definition read_socket_addr_v6 : parser SocketAddr := λ s,
  match read_given_char 91 s ≫= read_ipv6_addr with
  | Some (a, s) =>
      match read_scope_id s with
      | Some s =>
          match read_given_char 93 s ≫= read_port with
          | Some (p, s) => Some ({| ip := V6 a; port := p |}, s)
          | None => None
          end
      | None => None
      end
  | None => None
  end.

Definition parse_socket (s : rstr) : option SocketAddr :=
  let r := match read_socket_addr_v4 s with Some r => Some r | None => read_socket_addr_v6 s end in
  match r with Some (a, []) => Some a | _ => None end.
End Parser.

Example parse_ip_examples :
  parse_ip (str "127.0.0.1") = Some (V4 (Ipv4 127 0 0 1)) ∧ parse_ip (str "127.0.0.01") = None ∧
  parse_ip (str "1.2.3.256") = None ∧ parse_ip (str "1.2.3") = None ∧ parse_ip (str "1.2.3.4 ") = None ∧
  parse_ip (str "::1") = Some (V6 (Ipv6 0 0 0 0 0 0 0 1)) ∧ parse_ip (str "::") = Some (V6 (Ipv6 0 0 0 0 0 0 0 0)) ∧
  parse_ip (str "2001:db8:0:1::a") = Some (V6 (Ipv6 8193 3512 0 1 0 0 0 10)) ∧
  parse_ip (str "::ffff:1.2.3.4") = Some (V6 (Ipv6 0 0 0 0 0 65535 258 772)) ∧
  parse_ip (str "1:2:3:4:5:6:7:8") = Some (V6 (Ipv6 1 2 3 4 5 6 7 8)) ∧
  parse_ip (str "1:2:3:4:5:6:7::") = Some (V6 (Ipv6 1 2 3 4 5 6 7 0)) ∧
  parse_ip (str "1::2::3") = None ∧ parse_ip (str "12345::") = None ∧ parse_ip [] = None.
Proof. vm_compute. auto 20. Qed.

Example parse_socket_examples :
  parse_socket (str "10.1.2.3:6890") = Some {| ip := V4 (Ipv4 10 1 2 3); port := 6890 |} ∧
  parse_socket (str "[fe80::1%3]:80") = Some {| ip := V6 (Ipv6 65152 0 0 0 0 0 0 1); port := 80 |} ∧
  parse_socket (str "10.1.2.3") = None ∧ parse_socket (str "10.1.2.3:65536") = None ∧
  parse_socket (str "fe80::1:80") = None.
Proof. vm_compute. auto 10. Qed.
