(* ===== verification/Commons.v ===== *)
(** * Shared helpers (src/commons/mod.rs): hexadecimal text, domain-name
    checks, Ruvchain addresses. *)

From S2P Require Import Prelude Text Net.
Open Scope Z_scope.

(** Each byte as two upper-case hexadecimal digits. *)
Definition to_hex (buf : bytes) : rstr :=
  mjoin ((λ x, [hex_upper (x / 16); hex_upper (x mod 16)]) <$> buf).

Section Hex.
Context {BP : Build} {U : Unicode}.

(** The range [0..=(s.len() - n + 1) / 2] mapped to slices: slice [i] starts
    at byte [2 * i]. Every slice inside the string uses two more bytes, so
    [length s + 1] units of fuel are enough to reach the end or the panic. *)
Fixpoint split_from (fuel : nat) (s : rstr) (n : nat) (i : nat) (last : Z) : outcome ParseIntError (list rstr) :=
  match fuel with
  | O => OutOfFuel
  | S fuel =>
      if Z.of_nat i >? last then Ok [] else
      let! slice := str_slice s (2 * i) (2 * i + n) in
      let! rest := split_from fuel s n (i + 1) last in
      Ok (slice :: rest)
  end.

Definition split_n (s : rstr) (n : nat) : outcome ParseIntError (list rstr) :=
  let! d := sub_w 64 (Z.of_nat (length s)) (Z.of_nat n) in
  let! d := add_w 64 d 1 in
  split_from (length s + 2) s n 0 (d / 2).

Fixpoint parse_all (parts : list rstr) : outcome ParseIntError bytes :=
  match parts with
  | [] => Ok []
  | p :: ps =>
      let! b := u8_from_str_radix16 p in
      let! bs := parse_all ps in
      Ok (b :: bs)
  end.

Definition from_hex (string : rstr) : outcome ParseIntError bytes :=
  let! parts := split_n (trim string) 2 in
  parse_all parts.
End Hex.

(** [str.chars().all(char::is_numeric)] *)
Definition is_numeric {U : Unicode} (s : rstr) : bool :=
  if is_ascii s then forallb is_ascii_digit s else uni_numeric s.

(** The character loop of [check_domain]; a byte of a multi-byte character is
    not alphanumeric in ASCII, as its character is not. *)
Fixpoint check_chars (allow_dots last_dot last_hyphen : bool) (name : rstr) : bool :=
  match name with
  | [] => true
  | char :: rest =>
      if allow_dots && (char =? 46) then
        if last_dot then false else check_chars allow_dots true last_hyphen rest
      else if char =? 45 then
        if last_hyphen then false else check_chars allow_dots last_dot true rest
      else if negb (is_ascii_alphanumeric char) then false
      else check_chars allow_dots false false rest
  end.

Definition check_domain {U : Unicode} (name : rstr) (allow_dots : bool) : bool :=
  if starts_with name [46] || starts_with name [45] || ends_with name [46] || ends_with name [45]
  then false else
  match rsplitn 2 46 name with
  | [_; part] =>
      if bool_decide (length part < 3)%nat && is_numeric part then false
      else check_chars allow_dots false false name
  | _ => check_chars allow_dots false false name
  end.

Definition get_domain_zone (domain : rstr) : rstr :=
  match rsplitn 2 46 domain with
  | p :: _ => p
  | [] => []
  end.

(** [rngs] are the values of [rng.gen::<usize>()], one per character. *)
Definition random_string (rngs : list nat) : rstr :=
  let chars := str "abcdefghijklmnopqrstuvwxyzABCDEFGHIJKLMNOPQRSTUVWXYZ0123456789!?" in
  omap (λ r, chars !! (r mod length chars)%nat) rngs.

Definition is_ruvchain (addr : IpAddr) : bool :=
  match addr with
  | V6 ipv6 => let first_byte := first_octet6 ipv6 in (first_byte =? 250) || (first_byte =? 251)
  | V4 _ => false
  end.

(** ** The tests of the source, computed *)
Module CommonsTests.
#[local] Existing Instance ascii_tables.

Example test_check_domain :
  check_domain (str "abc0") false = true ∧ check_domain (str "ab.c") false = false ∧
  check_domain (str "a.b.c") true = true ∧ check_domain (str "ab..c") true = false ∧
  check_domain (str "a-b.c") true = true ∧ check_domain (str "a--b.c") true = false ∧
  check_domain (str "a-0-b.c") true = true ∧ check_domain (str "-ab.c") true = false ∧
  check_domain (str "ab.c-") true = false ∧ check_domain (str ".ab.c") true = false ∧
  check_domain (str "a.com") true = true ∧ check_domain (str "777.com") true = true ∧
  check_domain (str "77.com") true = false ∧ check_domain (str "7.com") true = false.
Proof. vm_compute. done. Qed.

Example test_is_ruvchain :
  is_ruvchain (V6 (Ipv6 64000 0 0 0 0 0 0 1)) = true ∧
  is_ruvchain (V6 (Ipv6 64256 0 0 0 0 0 0 1)) = true ∧
  is_ruvchain (V6 (Ipv6 8193 0 0 0 0 0 0 1)) = false.
Proof. vm_compute. done. Qed.
End CommonsTests.
