(* ===== verification/Buffer.v ===== *)
(** * Packet buffers (src/dns/buffer.rs)

    The trait [PacketBuffer] with its default methods, and its three
    implementations: the growing [VectorPacketBuffer] used to write replies,
    the [StreamPacketBuffer] that reads a TCP stream or a file, and the
    512-byte [BytePacketBuffer] used for UDP. Positions ([usize]) are [nat];
    bytes, [u16] and [u32] are integers. *)

From S2P Require Import Prelude Text.
Open Scope Z_scope.

Inductive BufferError := Io | EndOfBuffer.

(** [trait PacketBuffer]: the required methods. *)
Class PacketBuffer (B : Type) := {
  pb_read : M B BufferError Z;
  pb_get : nat → M B BufferError Z;
  pb_get_range : nat → nat → M B BufferError bytes;
  pb_write : Z → M B BufferError unit;
  pb_set : nat → Z → M B BufferError unit;
  pb_pos : B → nat;
  pb_seek : nat → M B BufferError unit;
  pb_step : nat → M B BufferError unit;
  pb_find_label : B → rstr → option nat;
  pb_save_label : rstr → nat → M B BufferError unit;
}.

(** ** Default methods *)
Section Defaults.
Context {B : Type} `{PacketBuffer B} {U : Unicode}.
Abbreviation io A := (M B BufferError A).

Definition write_u8 (val : Z) : io unit := pb_write val.

Definition set_u16 (p : nat) (val : Z) : io unit :=
  pb_set p (wrap 8 (Z.shiftr val 8)) ;?
  pb_set (p + 1) (wrap 8 (Z.land val 255)).

Definition write_u16 (val : Z) : io unit :=
  pb_write (wrap 8 (Z.shiftr val 8)) ;?
  pb_write (wrap 8 (Z.land val 255)).

Definition write_u32 (val : Z) : io unit :=
  pb_write (wrap 8 (Z.land (Z.shiftr val 24) 255)) ;?
  pb_write (wrap 8 (Z.land (Z.shiftr val 16) 255)) ;?
  pb_write (wrap 8 (Z.land (Z.shiftr val 8) 255)) ;?
  pb_write (wrap 8 (Z.land val 255)).

(** The loop of [write_qname] over the labels still to write; it returns
    [jump_performed]. *)
Fixpoint write_labels (labels : list rstr) : io bool :=
  match labels with
  | [] => mret false
  | label :: rest =>
      let search_lbl := join [46] (label :: rest) in
      let? found := mget (λ b, pb_find_label b search_lbl) in
      match found with
      | Some prev_pos =>
          write_u16 (Z.lor (wrap 16 (Z.of_nat prev_pos)) 49152) ;? mret true
      | None =>
          let? p := mget pb_pos in
          pb_save_label search_lbl p ;?
          write_u8 (wrap 8 (Z.of_nat (length label))) ;?
          mfor label write_u8 ;?
          write_labels rest
      end
  end.

Definition write_qname (qname : rstr) : io unit :=
  let? jump_performed := write_labels (split 46 qname) in
  if (jump_performed : bool) then mret tt else write_u8 0.

Definition read_u16 : io Z :=
  let? a := pb_read in
  let? b := pb_read in
  mret (Z.lor (Z.shiftl a 8) b).

Definition read_u32 : io Z :=
  let? a := pb_read in
  let? b := pb_read in
  let? c := pb_read in
  let? d := pb_read in
  mret (Z.lor (Z.lor (Z.lor (Z.shiftl a 24) (Z.shiftl b 16)) (Z.shiftl c 8)) d).

(** The loop of [read_qname]; one unit of fuel per iteration. *)
Fixpoint read_qname_loop (fuel : nat) (p : nat) (jumped : bool) (delim outstr : rstr)
    : io (nat * bool * rstr) :=
  match fuel with
  | O => mstuck
  | S fuel =>
      let? len := pb_get p in
      if Z.land len 192 >? 0 then
        (if jumped then mret tt else pb_seek (p + 2)) ;?
        let? b2 := pb_get (p + 1) in
        let offset := Z.lor (Z.shiftl (Z.lxor len 192) 8) b2 in
        read_qname_loop fuel (Z.to_nat offset) true delim outstr
      else if len =? 0 then mret ((p + 1)%nat, jumped, outstr)
      else
        let? str_buffer := pb_get_range (p + 1) (Z.to_nat len) in
        let outstr := outstr ++ delim ++ to_lowercase (from_utf8_lossy str_buffer) in
        read_qname_loop fuel (p + 1 + Z.to_nat len) jumped [46] outstr
  end.

Definition read_qname (fuel : nat) (outstr : rstr) : io rstr :=
  let? p := mget pb_pos in
  let? (p, jumped, outstr) := read_qname_loop fuel p false [] outstr in
  if (jumped : bool) then mret outstr else pb_seek p ;? mret outstr.
End Defaults.

(** ** [VectorPacketBuffer] *)
Module VectorPacketBuffer.
Record t := mk {
  buffer : bytes;
  pos : nat;
  label_lookup : gmap rstr nat;
}.

Definition new : t := mk [] 0 ∅.

Definition read : M t BufferError Z := λ s,
  match buffer s !! pos s with
  | Some res => Ok (res, mk (buffer s) (pos s + 1) (label_lookup s))
  | None => Panic
  end.

Definition get (p : nat) : M t BufferError Z := λ s,
  match buffer s !! p with
  | Some res => Ok (res, s)
  | None => Panic
  end.

Definition get_range (start len : nat) : M t BufferError bytes := λ s,
  if bool_decide (start + len ≤ length (buffer s))%nat
  then Ok (take len (drop start (buffer s)), s) else Panic.

Definition write (val : Z) : M t BufferError unit := λ s,
  Ok (tt, mk (buffer s ++ [val]) (pos s + 1) (label_lookup s)).

Definition set (p : nat) (val : Z) : M t BufferError unit := λ s,
  if bool_decide (p < length (buffer s))%nat
  then Ok (tt, mk (<[p := val]> (buffer s)) (pos s) (label_lookup s)) else Panic.

Definition seek (p : nat) : M t BufferError unit := λ s,
  Ok (tt, mk (buffer s) p (label_lookup s)).

Definition step (steps : nat) : M t BufferError unit := λ s,
  Ok (tt, mk (buffer s) (pos s + steps) (label_lookup s)).

Definition find_label (s : t) (label : rstr) : option nat := label_lookup s !! label.

Definition save_label (label : rstr) (p : nat) : M t BufferError unit := λ s,
  Ok (tt, mk (buffer s) (pos s) (<[label := p]> (label_lookup s))).

#[global] Instance packet_buffer : PacketBuffer t := {|
  pb_read := read; pb_get := get; pb_get_range := get_range; pb_write := write; pb_set := set;
  pb_pos := pos; pb_seek := seek; pb_step := step; pb_find_label := find_label;
  pb_save_label := save_label |}.
End VectorPacketBuffer.

(** ** [StreamPacketBuffer]: [stream] holds the bytes the reader has not delivered yet *)
Module StreamPacketBuffer.
Record t := mk {
  stream : bytes;
  buffer : bytes;
  pos : nat;
}.

Definition new (stream : bytes) : t := mk stream [] 0.

(** [while n > self.buffer.len() { self.stream.read_exact(..)?; .. }] *)
Fixpoint fill (n : nat) (stream buffer : bytes) : outcome BufferError (bytes * bytes) :=
  if bool_decide (length buffer < n)%nat then
    match stream with
    | [] => Err Io
    | c :: stream' => fill n stream' (buffer ++ [c])
    end
  else Ok (stream, buffer).

Definition read : M t BufferError Z := λ s,
  let! (stream', buffer') := fill (pos s + 1) (stream s) (buffer s) in
  match buffer' !! pos s with
  | Some res => Ok (res, mk stream' buffer' (pos s + 1))
  | None => Panic
  end.

Definition get (p : nat) : M t BufferError Z := λ s,
  let! (stream', buffer') := fill (p + 1) (stream s) (buffer s) in
  match buffer' !! p with
  | Some res => Ok (res, mk stream' buffer' (pos s))
  | None => Panic
  end.

Definition get_range (start len : nat) : M t BufferError bytes := λ s,
  let! (stream', buffer') := fill (start + len) (stream s) (buffer s) in
  if bool_decide (start + len ≤ length buffer')%nat
  then Ok (take len (drop start buffer'), mk stream' buffer' (pos s)) else Panic.

Definition write (val : Z) : M t BufferError unit := mpanic.
Definition set (p : nat) (val : Z) : M t BufferError unit := mpanic.

Definition seek (p : nat) : M t BufferError unit := λ s, Ok (tt, mk (stream s) (buffer s) p).
Definition step (steps : nat) : M t BufferError unit := λ s,
  Ok (tt, mk (stream s) (buffer s) (pos s + steps)).

Definition find_label (s : t) (label : rstr) : option nat := None.
Definition save_label (label : rstr) (p : nat) : M t BufferError unit := mpanic.

#[global] Instance packet_buffer : PacketBuffer t := {|
  pb_read := read; pb_get := get; pb_get_range := get_range; pb_write := write; pb_set := set;
  pb_pos := pos; pb_seek := seek; pb_step := step; pb_find_label := find_label;
  pb_save_label := save_label |}.
End StreamPacketBuffer.

(** ** [BytePacketBuffer] *)
Module BytePacketBuffer.
(** [buf : [u8; 512]]: a list of length 512 in every state the code builds. *)
Record t := mk {
  buf : bytes;
  pos : nat;
}.

Definition new : t := mk (replicate 512 0) 0.

Definition read : M t BufferError Z := λ s,
  if bool_decide (512 ≤ pos s)%nat then Err EndOfBuffer else
  match buf s !! pos s with
  | Some res => Ok (res, mk (buf s) (pos s + 1))
  | None => Panic
  end.

Definition get (p : nat) : M t BufferError Z := λ s,
  if bool_decide (512 ≤ p)%nat then Err EndOfBuffer else
  match buf s !! p with
  | Some res => Ok (res, s)
  | None => Panic
  end.

Definition get_range (start len : nat) : M t BufferError bytes := λ s,
  if bool_decide (512 ≤ start + len)%nat then Err EndOfBuffer else
  Ok (take len (drop start (buf s)), s).

Definition write (val : Z) : M t BufferError unit := λ s,
  if bool_decide (512 ≤ pos s)%nat then Err EndOfBuffer else
  Ok (tt, mk (<[pos s := val]> (buf s)) (pos s + 1)).

Definition set (p : nat) (val : Z) : M t BufferError unit := λ s,
  if bool_decide (p < length (buf s))%nat
  then Ok (tt, mk (<[p := val]> (buf s)) (pos s)) else Panic.

Definition seek (p : nat) : M t BufferError unit := λ s, Ok (tt, mk (buf s) p).
Definition step (steps : nat) : M t BufferError unit := λ s, Ok (tt, mk (buf s) (pos s + steps)).

Definition find_label (s : t) (label : rstr) : option nat := None.
Definition save_label (label : rstr) (p : nat) : M t BufferError unit := mret tt.

#[global] Instance packet_buffer : PacketBuffer t := {|
  pb_read := read; pb_get := get; pb_get_range := get_range; pb_write := write; pb_set := set;
  pb_pos := pos; pb_seek := seek; pb_step := step; pb_find_label := find_label;
  pb_save_label := save_label |}.
End BytePacketBuffer.

(** ** The tests of the source, computed *)
Module BufferTests.
Import VectorPacketBuffer.
#[local] Existing Instance ascii_tables.

(** [tests::test_write_qname] *)
Example test_write_qname :
  match (write_qname (str "ns1.google.com") ;? write_qname (str "ns2.google.com") ;?
         let? p := mget pb_pos in pb_seek 0 ;?
         let? str1 := read_qname 30 [] in let? str2 := read_qname 30 [] in mret (p, str1, str2)) new
  with
  | Ok (r, _) => r = (22%nat, str "ns1.google.com", str "ns2.google.com")
  | _ => False
  end.
Proof. vm_compute. reflexivity. Qed.
End BufferTests.
