(* ===== verification/BufferFacts.v ===== *)
(** * Reading interface of packet buffers, and name compression

    [ReadLaws] states what a reader of a buffer relies on; the three
    implementations satisfy it. Against that interface the name reader is
    proved to decode every name laid out in memory ([name_at]), and the name
    writer of [VectorPacketBuffer] is proved to lay names out that way,
    compression pointers included. *)

From S2P Require Import Prelude Text Buffer.
Open Scope nat_scope.

Class ReadLaws (B : Type) `{PacketBuffer B} := {
  (** all the bytes the buffer can deliver *)
  rl_content : B → bytes;
  (** how far [get_range] may reach in such a content *)
  rl_limit : bytes → nat;
  rl_read b v : rl_content b !! pb_pos b = Some v →
    ∃ b', pb_read b = Ok (v, b') ∧ rl_content b' = rl_content b ∧ pb_pos b' = S (pb_pos b);
  rl_get b p v : rl_content b !! p = Some v →
    ∃ b', pb_get p b = Ok (v, b') ∧ rl_content b' = rl_content b ∧ pb_pos b' = pb_pos b;
  rl_get_range b s n : s + n ≤ rl_limit (rl_content b) →
    ∃ b', pb_get_range s n b = Ok (take n (drop s (rl_content b)), b') ∧
          rl_content b' = rl_content b ∧ pb_pos b' = pb_pos b;
  rl_seek b p : ∃ b', pb_seek p b = Ok (tt, b') ∧ rl_content b' = rl_content b ∧ pb_pos b' = p;
  rl_step b n : ∃ b', pb_step n b = Ok (tt, b') ∧ rl_content b' = rl_content b ∧
                      pb_pos b' = pb_pos b + n;
}.

(** ** The three implementations *)

#[export] Program Instance vector_reads : ReadLaws VectorPacketBuffer.t := {|
  rl_content := VectorPacketBuffer.buffer;
  rl_limit c := length c;
|}.
Next Obligation.
  intros b v Hv. simpl in *. unfold VectorPacketBuffer.read. rewrite Hv.
  eexists; split; [done|]. simpl. split; [done|lia].
Qed.
Next Obligation. intros b p v Hv. simpl in *. unfold VectorPacketBuffer.get. rewrite Hv. eauto. Qed.
Next Obligation.
  intros b s n Hl. simpl in *. unfold VectorPacketBuffer.get_range.
  rewrite bool_decide_true by done. eauto.
Qed.
Next Obligation. intros b p. eexists; split; done. Qed.
Next Obligation. intros b n. eexists; split; done. Qed.

#[export] Program Instance byte_reads : ReadLaws BytePacketBuffer.t := {|
  rl_content b := take 512 (BytePacketBuffer.buf b);
  rl_limit _ := 511;
|}.
Next Obligation.
  intros b v Hv. simpl in *. apply lookup_take_Some in Hv as [Hv Hp].
  unfold BytePacketBuffer.read. rewrite bool_decide_false, Hv by lia.
  eexists; split; [done|]. simpl. split; [done|lia].
Qed.
Next Obligation.
  intros b p v Hv. simpl in *. apply lookup_take_Some in Hv as [Hv Hp].
  unfold BytePacketBuffer.get. rewrite bool_decide_false, Hv by lia. eauto.
Qed.
Next Obligation.
  intros b s n Hl. simpl in *. unfold BytePacketBuffer.get_range.
  rewrite bool_decide_false by lia. eexists; split.
  - rewrite skipn_firstn_comm, take_take, Nat.min_l by lia. reflexivity.
  - simpl. done.
Qed.
Next Obligation. intros b p. eexists; split; done. Qed.
Next Obligation. intros b n. eexists; split; done. Qed.

Lemma stream_fill_ok n stream buffer :
  n ≤ length (buffer ++ stream) →
  ∃ stream' buffer', StreamPacketBuffer.fill n stream buffer = Ok (stream', buffer') ∧
    buffer' ++ stream' = buffer ++ stream ∧ n ≤ length buffer'.
Proof.
  revert buffer. induction stream as [|c stream IH]; intros buffer Hn; simpl.
  - rewrite app_nil_r in Hn. rewrite bool_decide_false by lia. eauto 6.
  - case_bool_decide; [|eauto 6 with lia].
    destruct (IH (buffer ++ [c])) as (s' & b' & Hf & Heq & Hl).
    { rewrite !length_app in *. simpl in *. lia. }
    rewrite <- app_assoc in Heq. eauto.
Qed.

#[export] Program Instance stream_reads : ReadLaws StreamPacketBuffer.t := {|
  rl_content b := StreamPacketBuffer.buffer b ++ StreamPacketBuffer.stream b;
  rl_limit c := length c;
|}.
Next Obligation.
  intros b v Hv. simpl in *. pose proof (lookup_lt_Some _ _ _ Hv) as Hlt.
  unfold StreamPacketBuffer.read.
  destruct (stream_fill_ok (StreamPacketBuffer.pos b + 1) (StreamPacketBuffer.stream b)
    (StreamPacketBuffer.buffer b)) as (s' & b' & -> & Heq & Hl); [lia|]. simpl.
  rewrite <- Heq, lookup_app_l in Hv by lia. rewrite Hv.
  eexists; split; [done|]. simpl. split; [done|lia].
Qed.
Next Obligation.
  intros b p v Hv. simpl in *. pose proof (lookup_lt_Some _ _ _ Hv) as Hlt.
  unfold StreamPacketBuffer.get.
  destruct (stream_fill_ok (p + 1) (StreamPacketBuffer.stream b)
    (StreamPacketBuffer.buffer b)) as (s' & b' & -> & Heq & Hl); [lia|]. simpl.
  rewrite <- Heq, lookup_app_l in Hv by lia. rewrite Hv. eauto.
Qed.
Next Obligation.
  intros b s n Hn. simpl in *. unfold StreamPacketBuffer.get_range.
  destruct (stream_fill_ok (s + n) (StreamPacketBuffer.stream b)
    (StreamPacketBuffer.buffer b)) as (s' & b' & -> & Heq & Hl); [lia|]. simpl.
  rewrite bool_decide_true by lia. eexists; split.
  - rewrite <- Heq, drop_app_le, take_app_le by (rewrite ?length_drop; lia). reflexivity.
  - simpl. done.
Qed.
Next Obligation. intros b p. eexists; split; done. Qed.
Next Obligation. intros b n. eexists; split; done. Qed.

(** ** Memory views

    A view gives the bytes a fact relies on. [view None c] is the whole
    content [c]; [view (Some h) c] leaves out the two bytes at [h], where a
    length is still to be filled in by [set_u16]. *)

Abbreviation mem := (nat → option Z).
Definition view (hole : option nat) (c : bytes) : mem := λ i,
  match hole with
  | Some h => if bool_decide (h ≤ i < h + 2) then None else c !! i
  | None => c !! i
  end.

Definition msub (m1 m2 : mem) : Prop := ∀ i v, m1 i = Some v → m2 i = Some v.
Infix "⊑ₘ" := msub (at level 70).

#[export] Instance msub_preorder : PreOrder msub.
Proof. split; [intros m i v; done | intros m1 m2 m3 H1 H2 i v Hv; auto]. Qed.

Lemma view_app hole c x : view hole c ⊑ₘ view hole (c ++ x).
Proof.
  intros i v. destruct hole as [h|]; simpl; [case_bool_decide; [done|]|];
    intros Hv; by apply lookup_app_l_Some.
Qed.

Lemma view_fill hole c : view hole c ⊑ₘ view None c.
Proof. intros i v. destruct hole as [h|]; simpl; [case_bool_decide; done|done]. Qed.

Lemma view_open c x : view None c ⊑ₘ view (Some (length c)) (c ++ x).
Proof.
  intros i v Hv. simpl in *. pose proof (lookup_lt_Some _ _ _ Hv).
  rewrite bool_decide_false by lia. by apply lookup_app_l_Some.
Qed.

Lemma view_set c p v1 v2 : p + 2 ≤ length c → view (Some p) c ⊑ₘ view None (<[p+1:=v2]> (<[p:=v1]> c)).
Proof.
  intros Hp i v. simpl. case_bool_decide as Hi; [done|]. intros Hv.
  rewrite !list_lookup_insert_ne by lia. done.
Qed.

(** The bytes [bs] at position [p]. *)
Definition bytes_at (m : mem) (p : nat) (bs : bytes) : Prop :=
  ∀ i v, bs !! i = Some v → m (p + i) = Some v.

Lemma bytes_at_mono m1 m2 p bs : m1 ⊑ₘ m2 → bytes_at m1 p bs → bytes_at m2 p bs.
Proof. intros Hm Hb i v Hv. apply Hm. auto. Qed.

Lemma bytes_at_app m p bs1 bs2 :
  bytes_at m p (bs1 ++ bs2) ↔ bytes_at m p bs1 ∧ bytes_at m (p + length bs1) bs2.
Proof.
  split.
  - intros Hb. split; intros i v Hv.
    + apply Hb. by apply lookup_app_l_Some.
    + rewrite <- Nat.add_assoc. apply Hb. rewrite lookup_app_r by lia.
      by replace (length bs1 + i - length bs1) with i by lia.
  - intros [H1 H2] i v Hv. apply lookup_app_Some in Hv as [Hv|[Hl Hv]]; [by apply H1|].
    replace (p + i) with (p + length bs1 + (i - length bs1)) by lia. by apply H2.
Qed.

Lemma bytes_at_cons m p b bs : bytes_at m p (b :: bs) ↔ m p = Some b ∧ bytes_at m (S p) bs.
Proof.
  change (b :: bs) with ([b] ++ bs). rewrite bytes_at_app. simpl.
  replace (p + 1) with (S p) by lia. split; intros [H1 H2]; (split; [|done]).
  - rewrite <- (Nat.add_0_r p). by apply H1.
  - intros [|i] v Hv; [|done]. injection Hv as <-. by rewrite Nat.add_0_r.
Qed.

Lemma bytes_at_nil m p : bytes_at m p [].
Proof. by intros i v. Qed.

Lemma bytes_at_view c p bs : bytes_at (view None c) p bs → take (length bs) (drop p c) = bs.
Proof.
  intros Hb. apply list_eq. intros i. destruct (decide (i < length bs)) as [Hi|Hi].
  - rewrite lookup_take_lt, lookup_drop by done.
    destruct (bs !! i) as [v|] eqn:Hv; [by apply Hb|]. apply lookup_ge_None in Hv. lia.
  - rewrite lookup_take_ge by lia. symmetry. apply lookup_ge_None. lia.
Qed.

Lemma bytes_at_here c bs x : bytes_at (view None (c ++ bs ++ x)) (length c) bs.
Proof.
  intros i v Hv. simpl. rewrite lookup_app_r by lia.
  replace (length c + i - length c) with i by lia. by apply lookup_app_l_Some.
Qed.

(** ** Reading against a view *)
Section Reading.
Context {B : Type} `{ReadLaws B}.

Definition holds (m : mem) (c : bytes) : Prop :=
  ∀ i v, m i = Some v → c !! i = Some v ∧ i < rl_limit c.

(** [f], started at [p] of any buffer whose content agrees with [m], returns
    [a], stops at [p'] and leaves the content alone. *)
Definition Reads {E A} (m : mem) (f : M B E A) (p : nat) (a : A) (p' : nat) : Prop :=
  ∀ b, holds m (rl_content b) → pb_pos b = p →
  ∃ b', f b = Ok (a, b') ∧ rl_content b' = rl_content b ∧ pb_pos b' = p'.

Lemma reads_mono {E A} m1 m2 (f : M B E A) p a p' :
  m1 ⊑ₘ m2 → Reads m1 f p a p' → Reads m2 f p a p'.
Proof. intros Hm Hf b Hb Hp. apply Hf; [|done]. intros i v Hv. auto. Qed.

Lemma reads_bind {E1 E2 A C} `{From E1 E2} m (f : M B E1 A) (k : A → M B E2 C) p a p1 c p2 :
  Reads m f p a p1 → Reads m (k a) p1 c p2 → Reads m (mbind_ f k) p c p2.
Proof.
  intros Hf Hk b Hb Hp. destruct (Hf b Hb Hp) as (b1 & Hf1 & Hc1 & Hp1).
  destruct (Hk b1) as (b2 & Hk2 & Hc2 & Hp2); [by rewrite Hc1|done|].
  exists b2. rewrite (mbind_run _ _ _ _ _ Hf1). rewrite Hc2, Hc1. done.
Qed.

Lemma reads_ret {E A} m (a : A) p : Reads m (mret (E := E) a) p a p.
Proof. intros b Hb Hp. exists b. done. Qed.

Lemma reads_pos {E} m p : Reads m (mget (E := E) pb_pos) p p p.
Proof. intros b Hb Hp. exists b. unfold mget. by rewrite Hp. Qed.

Lemma reads_u8 m p v : m p = Some v → Reads m pb_read p v (S p).
Proof.
  intros Hv b Hb <-. destruct (Hb _ _ Hv) as [Hc _].
  destruct (rl_read b v Hc) as (b' & H1 & H2 & H3). eauto.
Qed.

Lemma reads_get m p q v : m q = Some v → Reads m (pb_get q) p v p.
Proof.
  intros Hv b Hb <-. destruct (Hb _ _ Hv) as [Hc _].
  destruct (rl_get b q v Hc) as (b' & H1 & H2 & H3). eauto.
Qed.

Lemma reads_seek m p q : Reads m (pb_seek q) p tt q.
Proof. intros b Hb Hp. apply rl_seek. Qed.

Lemma reads_step m p n : Reads m (pb_step n) p tt (p + n).
Proof. intros b Hb <-. apply rl_step. Qed.

Lemma reads_get_range m p q bs : bytes_at m q bs → bs ≠ [] →
  Reads m (pb_get_range q (length bs)) p bs p.
Proof.
  intros Hbs Hne b Hb <-.
  assert (bytes_at (view None (rl_content b)) q bs) as Hat.
  { intros i v Hv. simpl. by apply Hb, Hbs. }
  assert (q + length bs ≤ rl_limit (rl_content b)) as Hlim.
  { destruct (nil_or_length_pos bs) as [|Hl]; [done|].
    destruct (lookup_lt_is_Some_2 bs (length bs - 1)) as [v Hv]; [lia|].
    apply Hbs in Hv. apply Hb in Hv as [_ Hlt]. lia. }
  destruct (rl_get_range b q (length bs) Hlim) as (b' & Hr & Hc & Hp').
  rewrite (bytes_at_view _ _ _ Hat) in Hr. eauto.
Qed.
End Reading.

(** ** Big-endian integers *)
Section BigEndian.
Open Scope Z_scope.
Definition u16_bytes (v : Z) : bytes := [wrap 8 (Z.shiftr v 8); wrap 8 (Z.land v 255)].
Definition u32_bytes (v : Z) : bytes :=
  [wrap 8 (Z.land (Z.shiftr v 24) 255); wrap 8 (Z.land (Z.shiftr v 16) 255);
   wrap 8 (Z.land (Z.shiftr v 8) 255); wrap 8 (Z.land v 255)].

Lemma u16_combine v : is_u16 v →
  Z.lor (Z.shiftl (wrap 8 (Z.shiftr v 8)) 8) (wrap 8 (Z.land v 255)) = v.
Proof.
  intros Hv. unfold is_u in Hv. rewrite land_ones8. unfold wrap. rewrite Z.mod_mod by lia.
  rewrite lor_shiftl_add; [|lia|apply Z.mod_pos_bound; lia].
  rewrite Z.shiftr_div_pow2 by lia. rewrite (Z.mod_small (v / 2 ^ 8));
    [|split; [apply Z.div_pos; lia|apply Z.div_lt_upper_bound; lia]].
  pose proof (Z.div_mod v (2 ^ 8)). lia.
Qed.

Lemma u32_combine v : is_u32 v →
  Z.lor (Z.lor (Z.lor (Z.shiftl (wrap 8 (Z.land (Z.shiftr v 24) 255)) 24)
                      (Z.shiftl (wrap 8 (Z.land (Z.shiftr v 16) 255)) 16))
               (Z.shiftl (wrap 8 (Z.land (Z.shiftr v 8) 255)) 8))
        (wrap 8 (Z.land v 255)) = v.
Proof.
  intros Hv. unfold is_u in Hv. rewrite !land_ones8. unfold wrap. rewrite !Z.mod_mod by lia.
  rewrite !Z.shiftr_div_pow2 by lia.
  set (a := v / 2 ^ 24 mod 2 ^ 8). set (b := v / 2 ^ 16 mod 2 ^ 8).
  set (c := v / 2 ^ 8 mod 2 ^ 8). set (d := v mod 2 ^ 8).
  assert (0 <= b < 2 ^ 8 ∧ 0 <= c < 2 ^ 8 ∧ 0 <= d < 2 ^ 8) as (Hb & Hc & Hd).
  { repeat split; apply Z.mod_pos_bound; lia. }
  replace (Z.shiftl a 24) with (Z.shiftl (Z.shiftl (Z.shiftl a 8) 8) 8)
    by (rewrite !Z.shiftl_shiftl by lia; done).
  replace (Z.shiftl b 16) with (Z.shiftl (Z.shiftl b 8) 8)
    by (rewrite !Z.shiftl_shiftl by lia; done).
  rewrite <- !Z.shiftl_lor. rewrite !lor_shiftl_add by (lia || done).
  subst a b c d. Z.to_euclidean_division_equations. lia.
Qed.

Lemma length_u16 v : length (u16_bytes v) = 2%nat.
Proof. done. Qed.
Lemma length_u32 v : length (u32_bytes v) = 4%nat.
Proof. done. Qed.

Context {B : Type} `{ReadLaws B}.

Lemma reads_u16 m p v : bytes_at m p (u16_bytes v) → is_u16 v → Reads m read_u16 p v (p + 2).
Proof.
  intros Hb Hv. unfold u16_bytes in Hb. rewrite !bytes_at_cons in Hb. destruct Hb as (H1 & H2 & _).
  unfold read_u16. eapply reads_bind; [by apply reads_u8|].
  eapply reads_bind; [by apply reads_u8|]. rewrite u16_combine by done.
  replace (p + 2)%nat with (S (S p)) by lia. apply reads_ret.
Qed.

Lemma reads_u32 m p v : bytes_at m p (u32_bytes v) → is_u32 v → Reads m read_u32 p v (p + 4).
Proof.
  intros Hb Hv. unfold u32_bytes in Hb. rewrite !bytes_at_cons in Hb.
  destruct Hb as (H1 & H2 & H3 & H4 & _).
  unfold read_u32. do 4 (eapply reads_bind; [by apply reads_u8|]). rewrite u32_combine by done.
  replace (p + 4)%nat with (S (S (S (S p)))) by lia. apply reads_ret.
Qed.
End BigEndian.

(** ** Names in memory

    [name_at m p ls e k]: from position [p] the reader finds the labels [ls]
    in [k] steps; the encoding at [p] itself ends at [e]. *)
Inductive name_at (m : mem) : nat → list rstr → nat → nat → Prop :=
  | name_end p : m p = Some 0%Z → name_at m p [] (S p) 1
  | name_label p l ls e k :
      (1 ≤ length l ≤ 63) → is_ascii l = true →
      bytes_at m p (Z.of_nat (length l) :: l) →
      name_at m (S p + length l) ls e k →
      name_at m p (l :: ls) e (S k)
  | name_pointer p q ls e k :
      (Z.of_nat q < 16384)%Z →
      bytes_at m p (u16_bytes (Z.lor (Z.of_nat q) 49152)) →
      name_at m q ls e k →
      name_at m p ls (p + 2) (S k).

Lemma name_at_mono m1 m2 p ls e k : m1 ⊑ₘ m2 → name_at m1 p ls e k → name_at m2 p ls e k.
Proof.
  intros Hm Hn. induction Hn.
  - apply name_end; auto.
  - apply name_label; eauto using bytes_at_mono.
  - eapply name_pointer; eauto using bytes_at_mono.
Qed.

Definition lower (s : rstr) : rstr := ascii_lower <$> s.

(** How the reader accumulates labels: the first one after [delim]. *)
Fixpoint dotted (delim : rstr) (ls : list rstr) : rstr :=
  match ls with
  | [] => []
  | l :: ls' => delim ++ lower l ++ dotted [46%Z] ls'
  end.

Lemma dotted_join_dot ls : ls ≠ [] → dotted [46%Z] ls = 46%Z :: join [46%Z] (lower <$> ls).
Proof.
  induction ls as [|l [|l' ls] IH]; intros Hne; [done|simpl; by rewrite app_nil_r|].
  change (dotted [46%Z] (l :: l' :: ls)) with ([46%Z] ++ lower l ++ dotted [46%Z] (l' :: ls)).
  rewrite IH by done. by rewrite !fmap_cons, (join_cons _ (lower l)) by done.
Qed.

Lemma dotted_join ls : dotted [] ls = join [46%Z] (lower <$> ls).
Proof.
  destruct ls as [|l [|l' ls]]; [done|simpl; by rewrite app_nil_r|].
  change (dotted [] (l :: l' :: ls)) with (lower l ++ dotted [46%Z] (l' :: ls)).
  rewrite dotted_join_dot by done. by rewrite !fmap_cons, (join_cons _ (lower l)) by done.
Qed.

Lemma pointer_first_byte q : (0 ≤ q < 16384)%Z →
  wrap 8 (Z.shiftr (Z.lor q 49152) 8) = (192 + q / 256)%Z.
Proof.
  intros Hq. rewrite Z.shiftr_lor, (Z.shiftr_div_pow2 q) by lia. change (2 ^ 8)%Z with 256%Z. change (Z.shiftr 49152 8) with (Z.shiftl 3 6).
  rewrite Z.lor_comm, lor_shiftl_add; [|lia|].
  - rewrite wrap_small; [lia|]. unfold is_u. Z.to_euclidean_division_equations. lia.
  - unfold is_u. Z.to_euclidean_division_equations. lia.
Qed.

Lemma pointer_second_byte q : (0 ≤ q < 16384)%Z →
  wrap 8 (Z.land (Z.lor q 49152) 255) = (q mod 256)%Z.
Proof.
  intros Hq. rewrite land_ones8. replace (Z.lor q 49152) with (q + 192 * 256)%Z.
  - unfold wrap. rewrite Z.mod_mod by lia. change (2 ^ 8)%Z with 256%Z. by rewrite Z.mod_add.
  - change 49152%Z with (Z.shiftl 3 14). rewrite Z.lor_comm, lor_shiftl_add; [lia|lia|].
    unfold is_u. lia.
Qed.

(** The bits of a length byte and of the first byte of a pointer; [b] ranges
    over 64 values, so they are checked one by one. *)
Definition low_ok (b : nat) : bool :=
  let z := Z.of_nat b in
  (Z.land z 192 =? 0)%Z && (Z.land (192 + z) 192 =? 192)%Z && (Z.lxor (192 + z) 192 =? z)%Z.

Lemma low_bits z : (0 ≤ z < 64)%Z →
  Z.land z 192 = 0%Z ∧ Z.land (192 + z) 192 = 192%Z ∧ Z.lxor (192 + z) 192 = z.
Proof.
  intros Hz. assert (forallb low_ok (seq 0 64) = true) as Hall by (vm_compute; done).
  rewrite forallb_forall in Hall. specialize (Hall (Z.to_nat z)).
  unfold low_ok in Hall. rewrite Z2Nat.id in Hall by lia.
  rewrite !andb_true_iff, !Z.eqb_eq in Hall. apply and_assoc, Hall, in_seq. lia.
Qed.

Section ReadName.
Context {B : Type} `{ReadLaws B} {U : Unicode}.

Lemma read_loop_name m p ls e k fuel jumped delim out p0 :
  name_at m p ls e k → k ≤ fuel →
  ∃ q j p1,
    Reads m (read_qname_loop fuel p jumped delim out) p0 (q, j, out ++ dotted delim ls) p1 ∧
    if (jumped : bool) then j = true ∧ p1 = p0
    else if (j : bool) then p1 = e else q = e ∧ p1 = p0.
Proof.
  intros Hn. revert fuel jumped delim out p0.
  induction Hn as [p Hz|p l ls e k Hl Ha Hb _ IH|p q ls e k Hq Hb Hn IH];
    intros fuel jumped delim out p0 Hf; destruct fuel as [|fuel]; try lia; simpl.
  - exists (p + 1), jumped, p0. split.
    + eapply reads_bind; [by apply reads_get|]. simpl. rewrite app_nil_r. apply reads_ret.
    + replace (p + 1) with (S p) by lia. destruct jumped; done.
  - apply bytes_at_cons in Hb as [Hlen Hb].
    destruct (IH fuel jumped [46%Z] (out ++ delim ++ lower l) p0) as (q & j & p1 & Hr & Hj); [lia|].
    exists q, j, p1. split; [|done].
    destruct (low_bits (Z.of_nat (length l))) as (Hland & _); [lia|].
    eapply reads_bind; [by apply reads_get|]. rewrite Hland. simpl.
    rewrite (proj2 (Z.eqb_neq _ _)) by lia. rewrite Nat2Z.id.
    replace (p + 1) with (S p) by lia.
    eapply reads_bind; [apply reads_get_range; [done|by destruct l; simpl in *; lia || done]|].
    rewrite lossy_lower_ascii by done. rewrite <- !app_assoc in Hr. apply Hr.
  - unfold u16_bytes in Hb. rewrite pointer_first_byte, pointer_second_byte in Hb by lia.
    rewrite !bytes_at_cons in Hb. destruct Hb as (Hb1 & Hb2 & _).
    destruct (low_bits (Z.of_nat q / 256)) as (_ & Hland & Hxor);
      [Z.to_euclidean_division_equations; lia|].
    destruct (IH fuel true delim out (if jumped then p0 else p + 2)) as (q' & j & p1 & Hr & -> & ->); [lia|].
    exists q', true, (if jumped then p0 else p + 2). split; [|by destruct jumped].
    eapply reads_bind; [by apply reads_get|]. rewrite Hland. simpl.
    eapply (reads_bind _ _ _ _ tt (if jumped then p0 else p + 2));
      [destruct jumped; [apply reads_ret|apply reads_seek]|].
    replace (p + 1) with (S p) by lia.
    eapply reads_bind; [by apply reads_get|]. rewrite Hxor.
    rewrite lor_shiftl_add; [|lia|unfold is_u; Z.to_euclidean_division_equations; lia].
    replace (Z.to_nat (Z.of_nat q / 256 * 2 ^ 8 + Z.of_nat q mod 256)) with q; [done|].
    change (2 ^ 8)%Z with 256%Z. rewrite Z.mul_comm, <- Z.div_mod by lia. by rewrite Nat2Z.id.
Qed.

(** The reader finds the name of [name_at], lowercased, and stops at the end
    of its encoding. *)
Lemma reads_qname m p ls e k fuel out :
  name_at m p ls e k → k ≤ fuel →
  Reads m (read_qname fuel out) p (out ++ join [46%Z] (lower <$> ls)) e.
Proof.
  intros Hn Hf. rewrite <- dotted_join. unfold read_qname.
  destruct (read_loop_name m p ls e k fuel false [] out p Hn Hf) as (q & j & p1 & Hr & Hj).
  eapply reads_bind; [apply reads_pos|]. eapply reads_bind; [apply Hr|]. simpl.
  destruct j; [subst; apply reads_ret|]. destruct Hj as [-> ->].
  eapply reads_bind; [apply reads_seek|]. apply reads_ret.
Qed.
End ReadName.

(** ** Writing to a [VectorPacketBuffer] *)
Module Writing.
Import VectorPacketBuffer.

(** Writing goes on where the buffer ends: true of every buffer that was
    only written to. *)
Definition synced (s : t) : Prop := pos s = length (buffer s).

Definition push (bs : bytes) (s : t) : t :=
  mk (buffer s ++ bs) (pos s + length bs) (label_lookup s).

Lemma push_push bs1 bs2 s : push bs2 (push bs1 s) = push (bs1 ++ bs2) s.
Proof. unfold push; simpl. f_equal; [by rewrite app_assoc|rewrite length_app; lia]. Qed.

Lemma push_synced bs s : synced s → synced (push bs s).
Proof. unfold synced, push; simpl. rewrite length_app. lia. Qed.

Lemma write_u8_push v s : write_u8 v s = Ok (tt, push [v] s).
Proof. done. Qed.

Lemma write_u16_push v s : write_u16 v s = Ok (tt, push (u16_bytes v) s).
Proof.
  unfold write_u16, mbind_. simpl. unfold push, write. simpl. do 2 f_equal.
  f_equal; [by rewrite <- app_assoc|lia].
Qed.

Lemma write_u32_push v s : write_u32 v s = Ok (tt, push (u32_bytes v) s).
Proof.
  unfold write_u32, mbind_. simpl. unfold push, write. simpl. do 2 f_equal.
  f_equal; [by rewrite <- !app_assoc|lia].
Qed.

Lemma write_all_push bs s : mfor bs write_u8 s = Ok (tt, push bs s).
Proof.
  revert s. induction bs as [|b bs IH]; intros s; simpl.
  - unfold mret, push. rewrite app_nil_r, Nat.add_0_r. by destruct s.
  - unfold mbind_. rewrite write_u8_push. simpl. rewrite IH, push_push. done.
Qed.

Lemma set_u16_ok p v s : p + 2 ≤ length (buffer s) →
  set_u16 p v s = Ok (tt, mk (<[p + 1 := wrap 8 (Z.land v 255)]>
                             (<[p := wrap 8 (Z.shiftr v 8)]> (buffer s))) (pos s) (label_lookup s)).
Proof.
  intros Hp. unfold set_u16, mbind_. simpl. unfold set.
  rewrite bool_decide_true by lia. simpl. rewrite bool_decide_true; [done|].
  rewrite length_insert. lia.
Qed.

(** *** The label table *)

Definition label_ok (l : rstr) : Prop := (1 ≤ length l ≤ 63) ∧ is_ascii l = true ∧ 46%Z ∉ l.
Definition name_ok (s : rstr) : Prop := Forall label_ok (split 46 s).

(** A table entry is good when the name it stands for is in memory. *)
Definition good_label (m : mem) (lab : rstr) (p : nat) : Prop :=
  ∃ e k, name_at m p (split 46 lab) e k ∧ k ≤ 2 * length (split 46 lab) + 1.

Definition labels_up_to (n : nat) (hole : option nat) (s : t) : Prop :=
  ∀ lab p, label_lookup s !! lab = Some p → length lab ≤ n →
  p < length (buffer s) ∧ good_label (view hole (buffer s)) lab p.

(** Every entry is good: the invariant of the writer between two names. *)
Definition labels_good (hole : option nat) (s : t) : Prop :=
  ∀ lab p, label_lookup s !! lab = Some p →
  p < length (buffer s) ∧ good_label (view hole (buffer s)) lab p.

Lemma good_label_mono m1 m2 lab p : m1 ⊑ₘ m2 → good_label m1 lab p → good_label m2 lab p.
Proof. intros Hm (e & k & Hn & Hk). exists e, k. eauto using name_at_mono. Qed.

Lemma labels_good_mono hole hole' s s' :
  label_lookup s' = label_lookup s → length (buffer s) ≤ length (buffer s') →
  view hole (buffer s) ⊑ₘ view hole' (buffer s') → labels_good hole s → labels_good hole' s'.
Proof.
  intros Hl Hlen Hm Hg lab p Hp. rewrite Hl in Hp. destruct (Hg lab p Hp) as [H1 H2].
  split; [lia|]. by eapply good_label_mono.
Qed.

Lemma labels_good_push hole bs s : labels_good hole s → labels_good hole (push bs s).
Proof.
  apply labels_good_mono; [done|simpl; rewrite length_app; lia|apply view_app].
Qed.

Lemma length_join_cons l ls : 1 ≤ length l →
  length (join [46%Z] ls) < length (join [46%Z] (l :: ls)).
Proof.
  intros Hl. destruct ls as [|l' ls]; [simpl; lia|].
  rewrite (join_cons _ l) by done. rewrite !length_app. change (length [46%Z]) with 1. lia.
Qed.

(** What a run of the label loop leaves: the labels at the old end of the
    buffer once the terminator is in place. *)
Definition written (hole : option nat) (s : t) (ls : list rstr) (j : bool) (s' : t) : Prop :=
  let c := buffer s' ++ (if j then [] else [0%Z]) in
  (∃ k, name_at (view hole c) (length (buffer s)) ls (length c) k ∧ k ≤ 2 * length ls + 2) ∧
  (∀ lab p, label_lookup s' !! lab = Some p →
     label_lookup s !! lab = Some p ∨
     (p < length (buffer s') ∧ good_label (view hole c) lab p)).

Lemma bytes_at_end hole c bs x : (∀ h, hole = Some h → h + 2 ≤ length c) →
  bytes_at (view hole (c ++ bs ++ x)) (length c) bs.
Proof.
  intros Hh i v Hv. pose proof (bytes_at_here c bs x i v Hv) as Hb. unfold view in *.
  destruct hole as [h|]; [|done]. specialize (Hh h eq_refl).
  rewrite bool_decide_false by lia. done.
Qed.

(** A pointer to an earlier copy ends the name. *)
Lemma pointer_written hole s ls prev :
  (∀ h, hole = Some h → h + 2 ≤ length (buffer s)) → split 46 (join [46%Z] ls) = ls → 0 < length ls →
  prev < length (buffer s) → good_label (view hole (buffer s)) (join [46%Z] ls) prev →
  let s' := push (u16_bytes (Z.lor (wrap 16 (Z.of_nat prev)) 49152)) s in
  (Z.of_nat (length (buffer s')) < 16384)%Z → written hole s ls true s'.
Proof.
  intros Hh Hsplit Hls Hprev (e & k & Hn & Hk) s' Hbound. rewrite Hsplit in Hn, Hk. subst s'.
  set (bs := u16_bytes _) in *. simpl in Hbound. rewrite length_app in Hbound. unfold written.
  rewrite app_nil_r. simpl buffer. split; [|by auto]. exists (S k). split; [|lia].
  rewrite length_app. change (length bs) with 2. apply name_pointer with (q := prev) (e := e); [lia| |].
  - subst bs. rewrite wrap_small by (unfold is_u; lia). rewrite <- (app_nil_r (u16_bytes _)). by apply bytes_at_end.
  - eapply name_at_mono; [apply view_app|done].
Qed.

(** The state after one label is written, and remembered with those after it. *)
Definition labelled (full l : rstr) (s : t) : t :=
  push (Z.of_nat (length l) :: l) (mk (buffer s) (pos s) (<[full := pos s]> (label_lookup s))).

Lemma label_written hole s full l ls j s' bs :
  label_ok l → synced s → (∀ h, hole = Some h → h + 2 ≤ length (buffer s)) →
  split 46 full = l :: ls →
  buffer s' = buffer (labelled full l s) ++ bs →
  written hole (labelled full l s) ls j s' → written hole s (l :: ls) j s'.
Proof.
  intros (Hl & Ha & _) Hs Hh Hsplit Hb [(k & Hn & Hk) Htab]. unfold written.
  set (c := buffer s' ++ (if j then [] else [0%Z])) in *.
  assert (name_at (view hole c) (length (buffer s)) (l :: ls) (length c) (S k)) as Hname.
  { apply name_label; [done|done| |].
    - subst c. rewrite Hb. simpl buffer. rewrite <- !app_assoc. by apply (bytes_at_end hole (buffer s) (Z.of_nat (length l) :: l)).
    - simpl in Hn. rewrite length_app in Hn. simpl in Hn.
      by replace (S (length (buffer s)) + length l) with (length (buffer s) + S (length l)) by lia. }
  split; [exists (S k); split; [done|simpl; lia]|].
  intros lab p Hp. destruct (Htab lab p Hp) as [Hold|]; [|by right].
  simpl in Hold. apply lookup_insert_Some in Hold as [[<- <-]|[_ Hold]]; [|by left].
  right. rewrite Hs. split; [rewrite Hb; simpl; rewrite !length_app; simpl; lia|].
  exists (length c), (S k). rewrite Hsplit. simpl. split; [done|lia].
Qed.

Lemma write_labels_written ls hole s :
  Forall label_ok ls → synced s → (∀ h, hole = Some h → h + 2 ≤ length (buffer s)) →
  labels_up_to (length (join [46%Z] ls)) hole s →
  ∃ j s' bs,
    write_labels ls s = Ok (j, s') ∧ synced s' ∧ buffer s' = buffer s ++ bs ∧
    ((Z.of_nat (length (buffer s')) < 16384)%Z → written hole s ls j s').
Proof.
  intros Hok. revert s. induction Hok as [|l ls Hlab Hok IH]; intros s Hs Hh Hg.
  - exists false, s, []. rewrite app_nil_r. split_and!; [done..|]. intros _. split; [|auto].
    exists 1. split; [|simpl; lia]. rewrite length_app. simpl. rewrite Nat.add_1_r.
    apply name_end. apply bytes_at_cons with (bs := []). by apply (bytes_at_end hole (buffer s) [0%Z] []).
  - pose proof Hlab as (Hl & Ha & Hdot). assert (Forall (λ l, 46%Z ∉ l) (l :: ls)) as Hdots.
    { constructor; [done|]. eapply Forall_impl; [done|]. by intros ? (_ & _ & ?). }
    assert (split 46 (join [46%Z] (l :: ls)) = l :: ls) as Hsplit by by apply split_join.
    pose proof (length_join_cons l ls ltac:(lia)) as Hlen. cbn [write_labels].
    set (full := join [46%Z] (l :: ls)) in *.
    rewrite (mbind_run _ _ s _ s eq_refl). simpl. unfold find_label.
    destruct (label_lookup s !! full) as [prev|] eqn:Hfind.
    + destruct (Hg _ _ Hfind) as [Hprev Hgood]; [lia|]. eexists true, (push _ s), _.
      rewrite (mbind_run _ _ _ _ _ (write_u16_push _ _)).
      split_and!; [done|by apply push_synced|done|]. apply pointer_written; done || (simpl; lia).
    + destruct (IH (labelled full l s)) as (j & s' & bs & Hw & Hs' & Hb & Hwr).
      { by apply push_synced. }
      { intros h Hhole. specialize (Hh h Hhole). simpl. rewrite length_app. lia. }
      { intros lab p Hp Hle. simpl in Hp. rewrite lookup_insert_ne in Hp by (intros ->; lia).
        destruct (Hg lab p Hp) as [H1 H2]; [lia|]. simpl. rewrite length_app. split; [lia|].
        eapply good_label_mono; [apply view_app|done]. }
      exists j, s', ((Z.of_nat (length l) :: l) ++ bs).
      split_and!; [|done|rewrite Hb; simpl; by rewrite <- app_assoc|].
      * rewrite <- Hw. unfold mbind_ at 1. simpl. rewrite wrap_small by (unfold is_u; lia).
        do 2 (erewrite mbind_run; [|reflexivity]). erewrite mbind_run; [|apply write_all_push].
        f_equal. unfold labelled, push; simpl. f_equal; [by rewrite <- app_assoc|lia].
      * intros Hbound. by eapply label_written; [..|apply Hwr].
Qed.

(** Compression pointers hold 14 bits: names are laid out as intended while
    the buffer stays below that. *)
Definition in_reach (s : t) : Prop := (Z.of_nat (length (buffer s)) < 16384)%Z.

Definition name_fuel (name : rstr) : nat := 2 * length name + 4.

Lemma length_split c s : length (split c s) ≤ S (length s).
Proof.
  induction s as [|x s IH]; simpl; [done|]. destruct (x =? c)%Z; simpl; [lia|].
  pose proof (split_nonempty c s). destruct (split c s); simpl in *; [done|lia].
Qed.

Lemma labels_good_up_to n hole s : labels_good hole s → labels_up_to n hole s.
Proof. intros Hg lab p Hp _. by apply Hg. Qed.

Lemma write_qname_written name hole s :
  name_ok name → synced s → (∀ h, hole = Some h → h + 2 ≤ length (buffer s)) →
  labels_good hole s →
  ∃ s' bs,
    write_qname name s = Ok (tt, s') ∧ synced s' ∧ buffer s' = buffer s ++ bs ∧
    (in_reach s' → labels_good hole s' ∧
       ∃ k, name_at (view hole (buffer s')) (length (buffer s)) (split 46 name)
              (length (buffer s')) k ∧ k ≤ name_fuel name).
Proof.
  intros Hok Hs Hh Hg.
  destruct (write_labels_written (split 46 name) hole s Hok Hs Hh (labels_good_up_to _ _ _ Hg))
    as (j & s1 & bs & Hw & Hs1 & Hb & Hwr).
  exists (push (if j then [] else [0%Z]) s1), (bs ++ if j then [] else [0%Z]).
  unfold write_qname. rewrite (mbind_run _ _ _ _ _ Hw). split_and!.
  - destruct j; [|done]. unfold mret, push. rewrite app_nil_r, Nat.add_0_r. by destruct s1.
  - by apply push_synced.
  - simpl. by rewrite Hb, app_assoc.
  - intros Hreach. unfold in_reach, push in Hreach. simpl in Hreach. rewrite length_app in Hreach.
    destruct Hwr as [(k & Hn & Hk) Htab]; [lia|]. split.
    + intros lab p Hp. destruct (Htab lab p Hp) as [Hold|[Hlt Hgood]].
      * destruct (Hg lab p Hold) as [Hlt Hgood]. simpl. rewrite Hb, !length_app. split; [lia|].
        eapply good_label_mono; [|done]. rewrite <- app_assoc. apply view_app.
      * simpl. rewrite length_app. split; [lia|done].
    + exists k. split; [done|]. pose proof (length_split 46 name). unfold name_fuel. lia.
Qed.

(** Writing a name never fails. *)
Lemma write_labels_total ls s : synced s → ∃ j s' bs,
  write_labels ls s = Ok (j, s') ∧ synced s' ∧ buffer s' = buffer s ++ bs.
Proof.
  revert s. induction ls as [|l ls IH]; intros s Hs; [exists false, s, []; by rewrite app_nil_r|].
  cbn [write_labels]. rewrite (mbind_run _ _ s _ s eq_refl). simpl. unfold find_label.
  destruct (label_lookup s !! _) as [prev|].
  - rewrite (mbind_run _ _ _ _ _ (write_u16_push _ _)).
    eexists true, _, _. split; [done|]. split; [by apply push_synced|done].
  - rewrite (mbind_run _ _ s _ s eq_refl). do 2 (erewrite mbind_run; [|reflexivity]).
    erewrite mbind_run; [|apply write_all_push].
    match goal with |- context [write_labels ls ?s1] => destruct (IH s1) as (j & s' & bs & -> & Hs' & Hb) end.
    { unfold synced in *. simpl. rewrite !length_app. simpl. lia. }
    exists j, s', ([wrap 8 (Z.of_nat (length l))] ++ l ++ bs). rewrite Hb. simpl.
    by rewrite <- !app_assoc.
Qed.

Lemma write_qname_total name s : synced s → ∃ s' bs,
  write_qname name s = Ok (tt, s') ∧ synced s' ∧ buffer s' = buffer s ++ bs.
Proof.
  intros Hs. destruct (write_labels_total (split 46 name) s Hs) as (j & s1 & bs & Hw & Hs1 & Hb).
  unfold write_qname. rewrite (mbind_run _ _ _ _ _ Hw). destruct j.
  - exists s1, bs. done.
  - eexists (push [0%Z] s1), (bs ++ [0%Z]). split_and!; [done|by apply push_synced|].
    simpl. by rewrite Hb, app_assoc.
Qed.

(** [s'] is [s] after more bytes were appended. *)
Definition extends (s s' : t) : Prop := synced s' ∧ buffer s `prefix_of` buffer s'.

Lemma extends_trans s1 s2 s3 : extends s1 s2 → extends s2 s3 → extends s1 s3.
Proof. intros [_ H1] [H2 H3]. split; [done|by etrans]. Qed.

Lemma extends_length s s' : extends s s' → length (buffer s) ≤ length (buffer s').
Proof. intros [_ H]. by apply prefix_length. Qed.

Lemma extends_reach s s' : extends s s' → in_reach s' → in_reach s.
Proof. intros He%extends_length. unfold in_reach. lia. Qed.

Lemma extends_view hole s s' : extends s s' → view hole (buffer s) ⊑ₘ view hole (buffer s').
Proof. intros [_ [x ->]]. apply view_app. Qed.

Lemma push_extends bs s : synced s → extends s (push bs s).
Proof. intros Hs. split; [by apply push_synced|by eexists]. Qed.

Lemma write_qname_extends name s s' :
  synced s → write_qname name s = Ok (tt, s') → extends s s'.
Proof.
  intros Hs Hw. destruct (write_qname_total name s Hs) as (s1 & bs & Hw1 & Hs1 & Hb).
  rewrite Hw1 in Hw. injection Hw as <-. split; [done|]. rewrite Hb. by eexists.
Qed.

Lemma write_qname_good name hole s s' :
  name_ok name → synced s → (∀ h, hole = Some h → h + 2 ≤ length (buffer s)) →
  labels_good hole s → write_qname name s = Ok (tt, s') → in_reach s' →
  labels_good hole s' ∧
  ∃ k, name_at (view hole (buffer s')) (length (buffer s)) (split 46 name) (length (buffer s')) k ∧
       k ≤ name_fuel name.
Proof.
  intros Hok Hs Hh Hg Hw Hreach.
  destruct (write_qname_written name hole s Hok Hs Hh Hg) as (s1 & bs & Hw1 & _ & _ & Hr).
  rewrite Hw1 in Hw. injection Hw as <-. by apply Hr.
Qed.

(** A loop of writers that extend the buffer extends it. *)
Lemma mfor_extends {A E} (f : A → M t E unit) l s s' :
  (∀ x s s', synced s → f x s = Ok (tt, s') → extends s s') →
  synced s → mfor l f s = Ok (tt, s') → extends s s'.
Proof.
  intros Hf. revert s. induction l as [|x l IH]; intros s Hs Hw; cbn [mfor] in Hw.
  - injection Hw as <-. by split.
  - apply mbind_inv in Hw as ([] & s1 & Hx & Hw). pose proof (Hf _ _ _ Hs Hx) as He.
    eapply extends_trans; [done|]. apply IH; [apply He|done].
Qed.

Lemma new_good : labels_good None new.
Proof. by intros lab p. Qed.
End Writing.
Export Writing.

Lemma lower_join v : join [46%Z] (lower <$> v) = lower (join [46%Z] v).
Proof.
  induction v as [|x [|y v] IH]; [done|done|].
  rewrite !fmap_cons in *. rewrite (join_cons _ (lower x)), (join_cons _ x), IH by done.
  unfold lower. by rewrite !fmap_app.
Qed.

(** What reading a written name returns. *)
Lemma reads_written_name `{ReadLaws B} {U : Unicode} m p name e k fuel :
  name_at m p (split 46 name) e k → k ≤ fuel →
  Reads m (read_qname fuel []) p (lower name) e.
Proof.
  intros Hn Hk. pose proof (reads_qname m p (split 46 name) e k fuel [] Hn Hk) as Hr.
  by rewrite lower_join, join_split in Hr.
Qed.

(** ** Checking the conditions on concrete names and buffers *)

Lemma name_ok_dec_ok s : forallb (λ l, (1 <=? length l) && (length l <=? 63) && is_ascii l) (split 46 s) = true →
  name_ok s.
Proof.
  intros Hall. rewrite forallb_forall in Hall. pose proof (split_no_sep 46 s) as Hdots.
  unfold name_ok. rewrite Forall_forall in *. intros l Hl.
  specialize (Hall l (proj1 (list_elem_of_In _ _) Hl)). rewrite !andb_true_iff in Hall.
  destruct Hall as [[H1 H2] H3]. apply Nat.leb_le in H1, H2. split_and!; [done|done|done|by apply Hdots].
Qed.

Lemma holds_stream c : holds (B := StreamPacketBuffer.t) (view None c) (rl_content (StreamPacketBuffer.new c)).
Proof. intros i v Hv. split; [done|]. by apply lookup_lt_Some in Hv. Qed.

#[export] Hint Resolve push_synced push_extends new_good : ruvbuf.
