(* ===== verification/BufferProps.v ===== *)
(** * Properties of the packet buffers *)

From S2P Require Import Prelude Text Buffer BufferFacts.
Open Scope nat_scope.

(** ** Names *)

Lemma write_names_reads names s s' :
  Forall name_ok names → synced s → labels_good None s →
  mfor names write_qname s = Ok (tt, s') → in_reach s' →
  ∀ B `(HB : ReadLaws B) `(HU : Unicode) m fuel,
    view None (VectorPacketBuffer.buffer s') ⊑ₘ m → Forall (λ n, name_fuel n ≤ fuel) names →
    Reads m (mrepeat (length names) (read_qname fuel [])) (length (VectorPacketBuffer.buffer s))
      (lower <$> names) (length (VectorPacketBuffer.buffer s')).
Proof.
  intros Hok. revert s. induction Hok as [|n names Hn Hok IH]; intros s Hs Hg Hw Hreach;
    cbn [mfor] in Hw; intros B ? HB HU m fuel Hm Hf.
  - injection Hw as <-. apply reads_ret.
  - apply mbind_inv in Hw as ([] & s1 & Hw1 & Hw).
    pose proof (write_qname_extends _ _ _ Hs Hw1) as He1.
    pose proof (mfor_extends _ _ _ _ (λ n s s', write_qname_extends n s s') (proj1 He1) Hw) as He2.
    destruct (write_qname_good n None s s1 Hn Hs ltac:(done) Hg Hw1 (extends_reach _ _ He2 Hreach))
      as (Hg1 & k & Hname & Hk).
    apply Forall_cons in Hf as [Hf1 Hf]. simpl.
    eapply reads_bind; [|eapply reads_bind; [by apply (IH s1 (proj1 He1))|apply reads_ret]].
    eapply reads_written_name; [|by etrans].
    eapply name_at_mono; [|done]. etrans; [by apply extends_view|done].
Qed.

(** Any list of well-formed names (labels of 1 to 63 ASCII bytes) written
    one after the other by [write_qname], compression pointers included, is
    read back by [read_qname] from any of the three buffer kinds as the same
    names in lower case, as long as the message stays below the 2^14 bytes that
    a pointer can address. *)
Theorem qname_list_roundtrip `{RL : ReadLaws B} `{U : Unicode} names s fuel (b : B) :
  Forall name_ok names →
  mfor names write_qname VectorPacketBuffer.new = Ok (tt, s) → in_reach s →
  Forall (λ n, name_fuel n ≤ fuel) names →
  holds (view None (VectorPacketBuffer.buffer s)) (rl_content b) → pb_pos b = 0 →
  ∃ b', mrepeat (length names) (read_qname fuel []) b = Ok (lower <$> names, b') ∧
        pb_pos b' = length (VectorPacketBuffer.buffer s).
Proof.
  intros Hok Hw Hreach Hf Hb Hp.
  pose proof (write_names_reads names VectorPacketBuffer.new s Hok eq_refl new_good Hw Hreach B _ _ _ fuel
    (reflexivity _) Hf) as Hr.
  destruct (Hr b Hb Hp) as (b' & Hb1 & _ & Hb2). eauto.
Qed.

Lemma qname_list_roundtrip_witness :
  let names := [str "A.google.com"; str "b.google.com"; str "google.com"] in
  ∃ s, mfor names write_qname VectorPacketBuffer.new = Ok (tt, s) ∧ in_reach s ∧
    length (VectorPacketBuffer.buffer s) = 20 ∧
    ∃ b', mrepeat 3 (read_qname (U := ascii_tables) 40 []) (StreamPacketBuffer.new (VectorPacketBuffer.buffer s))
          = Ok ([str "a.google.com"; str "b.google.com"; str "google.com"], b') ∧ pb_pos b' = 20.
Proof.
  intros names. eexists. split; [vm_compute; reflexivity|].
  split; [vm_compute; reflexivity|]. split; [reflexivity|].
  refine (qname_list_roundtrip (U := ascii_tables) names _ 40 _ _ _ _ _ (holds_stream _) eq_refl).
  - repeat (apply Forall_cons; split; [apply name_ok_dec_ok; vm_compute; reflexivity|]). apply Forall_nil; exact I.
  - vm_compute; reflexivity.
  - vm_compute; reflexivity.
  - repeat (apply Forall_cons; split; [vm_compute; lia|]). apply Forall_nil; exact I.
Defined.

(** ** Termination of the name reader

    A name whose pointers lead back into it is followed for ever: nothing in
    [read_qname] bounds the number of jumps. *)

(** [read_qname] does not return on a cyclic chain of compression
    pointers: if every position of a set [P] holds a pointer to a position of
    [P], a read that starts in [P] runs out of any fuel, on every buffer kind. *)
Theorem read_qname_diverges `{RL : ReadLaws B} `{U : Unicode} (P : nat → Prop) m (b : B) fuel out :
  holds m (rl_content b) →
  (∀ p, P p → ∃ q, P q ∧ (Z.of_nat q < 16384)%Z ∧ bytes_at m p (u16_bytes (Z.lor (Z.of_nat q) 49152))) →
  P (pb_pos b) → read_qname fuel out b = OutOfFuel.
Proof.
  intros Hm HP Hpos. unfold read_qname. rewrite (mbind_run _ _ b _ b eq_refl). unfold mbind_ at 1.
  enough (∀ p jumped delim out b0, P p → rl_content b0 = rl_content b →
    read_qname_loop fuel p jumped delim out b0 = OutOfFuel) as -> by done.
  clear Hpos. induction fuel as [|fuel IH]; intros p jumped delim out0 b0 Hp Hc; [done|].
  destruct (HP p Hp) as (q & Hq & Hlt & Hb).
  unfold u16_bytes in Hb. rewrite pointer_first_byte, pointer_second_byte in Hb by lia.
  rewrite !bytes_at_cons in Hb. destruct Hb as (Hb1 & Hb2 & _).
  destruct (low_bits (Z.of_nat q / 256)) as (_ & Hland & Hxor); [Z.to_euclidean_division_equations; lia|].
  assert (holds m (rl_content b0)) as Hm0 by by rewrite Hc.
  destruct (reads_get m (pb_pos b0) p _ Hb1 b0 Hm0 eq_refl) as (b1 & R1 & C1 & P1).
  cbn [read_qname_loop]. rewrite (mbind_run _ _ _ _ _ R1), Hland. simpl.
  assert (∃ b2, (if jumped then mret tt else pb_seek (p + 2)) b1 = Ok (tt, b2) ∧ rl_content b2 = rl_content b1)
    as (b2 & R2 & C2).
  { destruct jumped; [by exists b1|]. destruct (rl_seek b1 (p + 2)) as (b2 & ? & ? & _). eauto. }
  rewrite (mbind_run _ _ _ _ _ R2).
  assert (holds m (rl_content b2)) as Hm2 by by rewrite C2, C1.
  replace (p + 1) with (S p) by lia.
  destruct (reads_get m (pb_pos b2) (S p) _ Hb2 b2 Hm2 eq_refl) as (b3 & R3 & C3 & P3).
  rewrite (mbind_run _ _ _ _ _ R3), Hxor.
  rewrite lor_shiftl_add; [|lia|unfold is_u; Z.to_euclidean_division_equations; lia].
  apply IH; [|congruence].
  replace (Z.to_nat (Z.of_nat q / 256 * 2 ^ 8 + Z.of_nat q mod 256)) with q; [done|].
  change (2 ^ 8)%Z with 256%Z. rewrite Z.mul_comm, <- Z.div_mod by lia. by rewrite Nat2Z.id.
Qed.

(** Two bytes are enough. *)
Lemma read_qname_diverges_witness :
  read_qname (U := ascii_tables) 1000 [] (BytePacketBuffer.mk [192; 0]%Z 0) = OutOfFuel.
Proof.
  apply (read_qname_diverges (U := ascii_tables) (λ p, p = 0) (view None [192; 0]%Z)).
  - intros i v Hv. simpl in Hv |- *. split; [done|]. apply lookup_lt_Some in Hv. simpl in Hv. lia.
  - intros p ->. exists 0. split; [done|]. split; [done|]. apply (bytes_at_here [] [192; 0]%Z []).
  - done.
Defined.

(** *** How much fuel is enough

    On a buffer of [n] bytes a read that makes [n + 1] steps has been at one
    position twice, and then never ends; so fuel [n + 1] settles whether
    [read_qname] returns, and with what. *)
Section Fuel.
Context {U : Unicode}.

Section Walk.
(** [range e]: a read of bytes up to position [e] succeeds. *)
Context (range : nat → bool).

(** Where one iteration goes on; [None] when the loop ends there. *)
Definition next (c : bytes) (p : nat) : option nat :=
  match c !! p with
  | None => None
  | Some len =>
      if (Z.land len 192 >? 0)%Z then
        match c !! (p + 1) with
        | None => None
        | Some b2 => Some (Z.to_nat (Z.lor (Z.shiftl (Z.lxor len 192) 8) b2))
        end
      else if (len =? 0)%Z then None
      else if range (p + 1 + Z.to_nat len) then Some (p + 1 + Z.to_nat len) else None
  end.

Fixpoint walk (c : bytes) (n p : nat) : option nat :=
  match n with
  | O => Some p
  | S n => match next c p with Some q => walk c n q | None => None end
  end.

Lemma walk_add c a n p : walk c (a + n) p = walk c a p ≫= walk c n.
Proof.
  revert p. induction a as [|a IH]; intros p; simpl; [done|]. by destruct (next c p).
Qed.

Lemma walk_prefix c n m p : m ≤ n → is_Some (walk c n p) → is_Some (walk c m p).
Proof.
  intros Hm [q Hq]. replace n with (m + (n - m)) in Hq by lia. rewrite walk_add in Hq.
  destruct (walk c m p); simpl in *; eauto.
Qed.

Lemma next_lt c p q : next c p = Some q → p < length c.
Proof. unfold next. destruct (c !! p) eqn:Hp; [|done]. by apply lookup_lt_Some in Hp. Qed.

(** A walk that comes back goes on for ever. *)
Lemma walk_cycle c i d p q :
  walk c i p = Some q → walk c (i + S d) p = Some q → ∀ n, is_Some (walk c n p).
Proof.
  intros Hi Hj n. induction n as [n IH] using lt_wf_ind.
  destruct (decide (n ≤ i + S d)) as [Hn|Hn]; [by eapply walk_prefix; eauto|].
  destruct (IH (n - S d)) as [x Hx]; [lia|]. exists x.
  replace n with (i + S d + (n - (i + S d))) by lia. rewrite walk_add, Hj. simpl.
  replace (n - S d) with (i + (n - (i + S d))) in Hx by lia. rewrite walk_add, Hi in Hx. done.
Qed.

Lemma walk_long c p : is_Some (walk c (S (length c)) p) → ∀ n, is_Some (walk c n p).
Proof.
  intros Hlong.
  assert (∀ i, i ≤ length c → ∃ q, walk c i p = Some q ∧ q < length c) as Hpos.
  { intros i Hi. destruct (walk_prefix c (S (length c)) (i + 1) p ltac:(lia) Hlong) as [q Hq].
    rewrite walk_add in Hq. destruct (walk c i p) as [x|]; [|done]. exists x. split; [done|].
    simpl in Hq. destruct (next c x) eqn:Hx; [by eapply next_lt|done]. }
  set (pos_at := λ i, default 0 (walk c i p)).
  destruct (decide (NoDup (pos_at <$> seq 0 (S (length c))))) as [Hnd|Hdup].
  - exfalso. assert (length (pos_at <$> seq 0 (S (length c))) ≤ length (seq 0 (length c))) as Hle.
    { apply submseteq_length, NoDup_submseteq; [done|]. intros x.
      rewrite list_elem_of_fmap. intros (i & -> & Hi). apply elem_of_seq in Hi.
      destruct (Hpos i) as (q & Hq & Hlt); [lia|]. apply elem_of_seq. unfold pos_at. rewrite Hq. simpl. lia. }
    rewrite length_fmap, !length_seq in Hle. lia.
  - intros n. apply dec_stable. intros Hno. apply Hdup.
    assert (∀ i j, i < j ≤ length c → pos_at i = pos_at j → False) as Hrep.
    { intros i j Hij Heq. apply Hno.
      destruct (Hpos i) as (q & Hq & _); [lia|]. destruct (Hpos j) as (q' & Hq' & _); [lia|].
      unfold pos_at in Heq. rewrite Hq, Hq' in Heq. simpl in Heq. subst q'.
      apply (walk_cycle c i (j - i - 1) p q Hq). by replace (i + S (j - i - 1)) with j by lia. }
    apply NoDup_fmap_2_strong; [|apply NoDup_seq]. intros i j Hi Hj Heq. apply elem_of_seq in Hi, Hj.
    destruct (lt_eq_lt_dec i j) as [[H1|]|H1]; [|done|]; exfalso;
      [apply (Hrep i j)|apply (Hrep j i)]; (lia || done).
Qed.

End Walk.

Section Vector.
Import VectorPacketBuffer.
Abbreviation in_buffer s := (λ e, bool_decide (e ≤ length (buffer s))).

Lemma loop_walk fuel p jumped delim out s :
  read_qname_loop fuel p jumped delim out s = OutOfFuel ↔ is_Some (walk (in_buffer s) (buffer s) fuel p).
Proof.
  revert p jumped delim out s. induction fuel as [|fuel IH]; intros p jumped delim out s; [split; eauto|].
  cbn [read_qname_loop walk]. unfold next, mbind_ at 1. simpl. unfold get at 1.
  destruct (buffer s !! p) as [len|] eqn:Hp; simpl; [|split; [done|by intros []]].
  destruct (Z.land len 192 >? 0)%Z.
  - destruct jumped; unfold mbind_; simpl; unfold get; simpl;
      (destruct (buffer s !! (p + 1)) as [b2|]; simpl; [|split; [done|by intros []]]);
      [apply IH|apply (IH _ _ _ _ (mk (buffer s) (p + 2) (label_lookup s)))].
  - destruct (len =? 0)%Z; [split; [done|by intros []]|]. unfold mbind_. simpl. unfold get_range.
    case_bool_decide; simpl; [apply IH|split; [done|by intros []]].
Qed.

(** Fuel for one more iteration than the buffer has bytes decides
    [read_qname]: when that is not enough, no fuel is, the loop of the source
    does not end. *)
Theorem read_qname_fuel_enough s out :
  read_qname (S (length (buffer s))) out s = OutOfFuel → ∀ fuel, read_qname fuel out s = OutOfFuel.
Proof.
  assert (∀ fuel, read_qname fuel out s = OutOfFuel ↔ read_qname_loop fuel (pos s) false [] out s = OutOfFuel) as Hq.
  { intros fuel. unfold read_qname. rewrite (mbind_run _ _ s _ s eq_refl). unfold mbind_ at 1. simpl.
    destruct (read_qname_loop fuel (pos s) false [] out s) as [[[[q []] o] s']| | |]; simpl; done. }
  intros Hout fuel. rewrite Hq in *. rewrite loop_walk in *. by apply walk_long.
Qed.
End Vector.

(** The 512-byte buffer ends a read that reaches its last byte. *)
Section Byte.
Import BytePacketBuffer.

Lemma byte_loop_walk fuel p jumped delim out s :
  length (buf s) = 512 →
  read_qname_loop fuel p jumped delim out s = OutOfFuel ↔
  is_Some (walk (λ e, bool_decide (e < 512)) (buf s) fuel p).
Proof.
  revert p jumped delim out s. induction fuel as [|fuel IH]; intros p jumped delim out s Hs; [split; eauto|].
  assert (∀ q s', buf s' = buf s →
    get q s' = match buf s !! q with Some b => Ok (b, s') | None => Err EndOfBuffer end) as Hget.
  { intros q s' Hb. unfold get. rewrite Hb. case_bool_decide; [by rewrite lookup_ge_None_2 by lia|].
    destruct (lookup_lt_is_Some_2 (buf s) q) as [b ->]; [lia|done]. }
  cbn [read_qname_loop walk]. unfold next, mbind_ at 1. simpl. rewrite Hget by done.
  destruct (buf s !! p) as [len|] eqn:Hp; simpl; [|split; [done|by intros []]].
  destruct (Z.land len 192 >? 0)%Z.
  - destruct jumped; unfold mbind_; simpl; rewrite Hget by done;
      (destruct (buf s !! (p + 1)) as [b2|]; simpl; [|split; [done|by intros []]]);
      [by apply IH|by apply (IH _ _ _ _ (mk (buf s) (p + 2)))].
  - destruct (len =? 0)%Z; [split; [done|by intros []]|]. unfold mbind_. simpl. unfold get_range.
    destruct (decide (p + 1 + Z.to_nat len < 512)) as [Hl|Hl].
    + rewrite bool_decide_false by lia. rewrite bool_decide_true by done. by apply IH.
    + rewrite bool_decide_true by lia. rewrite bool_decide_false by done. split; [done|by intros []].
Qed.

Lemma byte_qname_fuel s out :
  length (buf s) = 512 → read_qname 513 out s = OutOfFuel → ∀ fuel, read_qname fuel out s = OutOfFuel.
Proof.
  intros Hs.
  assert (∀ fuel, read_qname fuel out s = OutOfFuel ↔ read_qname_loop fuel (pos s) false [] out s = OutOfFuel) as Hq.
  { intros fuel. unfold read_qname. rewrite (mbind_run _ _ s _ s eq_refl). unfold mbind_ at 1. simpl.
    destruct (read_qname_loop fuel (pos s) false [] out s) as [[[[q []] o] s']| | |]; simpl; done. }
  intros Hout fuel. rewrite Hq in *. rewrite byte_loop_walk in * by done. apply walk_long. by rewrite Hs.
Qed.
End Byte.
End Fuel.

Lemma read_qname_fuel_enough_witness :
  read_qname (U := ascii_tables) 123456 [] (VectorPacketBuffer.mk [1; 97; 192; 0]%Z 0 ∅) = OutOfFuel.
Proof.
  apply (read_qname_fuel_enough (U := ascii_tables)). vm_compute. reflexivity.
Defined.
