(* ===== verification/Protocol.v ===== *)
(** * The DNS message format (src/dns/protocol.rs)

    Query types, resource records, header, question and packet, with their
    readers and writers over any [PacketBuffer]. [TransientTtl(u32)] is its
    integer. Reading names takes the fuel of [read_qname]. *)

From S2P Require Import Prelude Text Net Commons Buffer.
Open Scope Z_scope.

Inductive ProtocolError := BufferErr (e : BufferError) | IoErr.
#[export] Instance buffer_protocol : From BufferError ProtocolError := BufferErr.

(** ** Query types *)
Module QueryType.
Inductive t :=
  | UNKNOWN (x : Z) | A | NS | CNAME | SOA | PTR | MX | TXT | AAAA | SRV | OPT | TLSA.

#[global] Instance t_eq_dec : EqDecision t.
Proof. solve_decision. Defined.

Definition to_num (q : t) : Z :=
  match q with
  | UNKNOWN x => x
  | A => 1 | NS => 2 | CNAME => 5 | SOA => 6 | PTR => 12 | MX => 15
  | TXT => 16 | AAAA => 28 | SRV => 33 | OPT => 41 | TLSA => 52
  end.

Definition from_num (num : Z) : t :=
  match num with
  | 1 => A | 2 => NS | 5 => CNAME | 6 => SOA | 12 => PTR | 15 => MX
  | 16 => TXT | 28 => AAAA | 33 => SRV | 41 => OPT | 52 => TLSA
  | _ => UNKNOWN num
  end.
End QueryType.

(** ** Resource records *)
Module DnsRecord.
Inductive t :=
  | UNKNOWN (domain : rstr) (qtype data_len ttl : Z)
  | A (domain : rstr) (addr : Ipv4Addr) (ttl : Z)
  | NS (domain host : rstr) (ttl : Z)
  | CNAME (domain host : rstr) (ttl : Z)
  | SOA (domain m_name r_name : rstr) (serial refresh retry expire minimum ttl : Z)
  | PTR (domain data : rstr) (ttl : Z)
  | MX (domain : rstr) (priority : Z) (host : rstr) (ttl : Z)
  | TXT (domain data : rstr) (ttl : Z)
  | AAAA (domain : rstr) (addr : Ipv6Addr) (ttl : Z)
  | SRV (domain : rstr) (priority weight port : Z) (host : rstr) (ttl : Z)
  | OPT (packet_len flags : Z) (data : rstr)
  | TLSA (domain : rstr) (certificate_usage selector matching_type : Z) (data : bytes) (ttl : Z).

#[global] Instance t_eq_dec : EqDecision t.
Proof. solve_decision. Defined.

Definition get_querytype (r : t) : QueryType.t :=
  match r with
  | A _ _ _ => QueryType.A
  | AAAA _ _ _ => QueryType.AAAA
  | NS _ _ _ => QueryType.NS
  | CNAME _ _ _ => QueryType.CNAME
  | SRV _ _ _ _ _ _ => QueryType.SRV
  | PTR _ _ _ => QueryType.PTR
  | MX _ _ _ _ => QueryType.MX
  | UNKNOWN _ qtype _ _ => QueryType.UNKNOWN qtype
  | SOA _ _ _ _ _ _ _ _ _ => QueryType.SOA
  | TXT _ _ _ => QueryType.TXT
  | OPT _ _ _ => QueryType.OPT
  | TLSA _ _ _ _ _ _ => QueryType.TLSA
  end.

Definition get_domain (r : t) : option rstr :=
  match r with
  | A domain _ _ | AAAA domain _ _ | NS domain _ _ | CNAME domain _ _
  | SRV domain _ _ _ _ _ | PTR domain _ _ | MX domain _ _ _ | UNKNOWN domain _ _ _
  | SOA domain _ _ _ _ _ _ _ _ | TXT domain _ _ | TLSA domain _ _ _ _ _ => Some domain
  | OPT _ _ _ => None
  end.

Definition get_ttl (r : t) : Z :=
  match r with
  | A _ _ ttl | AAAA _ _ ttl | NS _ _ ttl | CNAME _ _ ttl | SRV _ _ _ _ _ ttl
  | PTR _ _ ttl | MX _ _ _ ttl | UNKNOWN _ _ _ ttl | SOA _ _ _ _ _ _ _ _ ttl
  | TXT _ _ ttl | TLSA _ _ _ _ _ ttl => ttl
  | OPT _ _ _ => 0
  end.

Section ReadWrite.
Context {B : Type} `{PacketBuffer B} {U : Unicode} {BP : Build}.
Abbreviation io A := (M B ProtocolError A).

Definition read_rdata (fuel : nat) (domain : rstr) (qtype_num class ttl data_len : Z) : io t :=
  match QueryType.from_num qtype_num with
  | QueryType.A =>
      let? raw_addr := read_u32 in
      mret (A domain (Ipv4 (wrap 8 (Z.land (Z.shiftr raw_addr 24) 255))
                           (wrap 8 (Z.land (Z.shiftr raw_addr 16) 255))
                           (wrap 8 (Z.land (Z.shiftr raw_addr 8) 255))
                           (wrap 8 (Z.land raw_addr 255))) ttl)
  | QueryType.AAAA =>
      let? raw_addr1 := read_u32 in
      let? raw_addr2 := read_u32 in
      let? raw_addr3 := read_u32 in
      let? raw_addr4 := read_u32 in
      mret (AAAA domain (Ipv6 (wrap 16 (Z.land (Z.shiftr raw_addr1 16) 65535))
                              (wrap 16 (Z.land raw_addr1 65535))
                              (wrap 16 (Z.land (Z.shiftr raw_addr2 16) 65535))
                              (wrap 16 (Z.land raw_addr2 65535))
                              (wrap 16 (Z.land (Z.shiftr raw_addr3 16) 65535))
                              (wrap 16 (Z.land raw_addr3 65535))
                              (wrap 16 (Z.land (Z.shiftr raw_addr4 16) 65535))
                              (wrap 16 (Z.land raw_addr4 65535))) ttl)
  | QueryType.NS => let? ns := read_qname fuel [] in mret (NS domain ns ttl)
  | QueryType.CNAME => let? cname := read_qname fuel [] in mret (CNAME domain cname ttl)
  | QueryType.SRV =>
      let? priority := read_u16 in
      let? weight := read_u16 in
      let? port := read_u16 in
      let? srv := read_qname fuel [] in
      mret (SRV domain priority weight port srv ttl)
  | QueryType.PTR => let? ptr := read_qname fuel [] in mret (PTR domain ptr ttl)
  | QueryType.MX =>
      let? priority := read_u16 in
      let? mx := read_qname fuel [] in
      mret (MX domain priority mx ttl)
  | QueryType.SOA =>
      let? m_name := read_qname fuel [] in
      let? r_name := read_qname fuel [] in
      let? serial := read_u32 in
      let? refresh := read_u32 in
      let? retry := read_u32 in
      let? expire := read_u32 in
      let? minimum := read_u32 in
      mret (SOA domain m_name r_name serial refresh retry expire minimum ttl)
  | QueryType.TXT =>
      let? cur_pos := mget pb_pos in
      let? data := pb_get_range cur_pos (Z.to_nat data_len) in
      pb_step (Z.to_nat data_len) ;?
      mret (TXT domain (from_utf8_lossy data) ttl)
  | QueryType.OPT =>
      let? cur_pos := mget pb_pos in
      let? data := pb_get_range cur_pos (Z.to_nat data_len) in
      pb_step (Z.to_nat data_len) ;?
      mret (OPT class ttl (from_utf8_lossy data))
  | QueryType.TLSA =>
      let? certificate_usage := pb_read in
      let? selector := pb_read in
      let? matching_type := pb_read in
      let? cur_pos := mget pb_pos in
      let? data_len := mlift (sub_w 16 data_len 3) in
      let? data := pb_get_range cur_pos (Z.to_nat data_len) in
      pb_step (Z.to_nat data_len) ;?
      mret (TLSA domain certificate_usage selector matching_type data ttl)
  | QueryType.UNKNOWN _ =>
      pb_step (Z.to_nat data_len) ;?
      mret (UNKNOWN domain qtype_num data_len ttl)
  end.

Definition read (fuel : nat) : io t :=
  let? domain := read_qname fuel [] in
  let? qtype_num := read_u16 in
  let? class := read_u16 in
  let? ttl := read_u32 in
  let? data_len := read_u16 in
  read_rdata fuel domain qtype_num class ttl data_len.

(** The lines every branch of [write] starts with. *)
Definition write_head (domain : rstr) (qtype : QueryType.t) (ttl : Z) : io unit :=
  write_qname domain ;?
  write_u16 (QueryType.to_num qtype) ;?
  write_u16 1 ;?
  write_u32 ttl ;?
  mret tt.

(** The lines of the branches that write a length of 0, the data, and then go
    back to fill the length in. *)
Definition write_sized (data : M B BufferError unit) : io unit :=
  let? p := mget pb_pos in
  write_u16 0 ;?
  data ;?
  let? e := mget pb_pos in
  let size := (e - (p + 2))%nat in
  set_u16 p (wrap 16 (Z.of_nat size)) ;?
  mret tt.

Definition write_record (r : t) : io unit :=
  match r with
  | A domain addr ttl =>
      write_head domain QueryType.A ttl ;?
      write_u16 4 ;?
      mfor (octets4 addr) write_u8 ;?
      mret tt
  | AAAA domain addr ttl =>
      write_head domain QueryType.AAAA ttl ;?
      write_u16 16 ;?
      mfor (segments addr) write_u16 ;?
      mret tt
  | NS domain host ttl =>
      write_head domain QueryType.NS ttl ;?
      write_sized (write_qname host)
  | CNAME domain host ttl =>
      write_head domain QueryType.CNAME ttl ;?
      write_sized (write_qname host)
  | SRV domain priority weight port host ttl =>
      write_head domain QueryType.SRV ttl ;?
      write_sized (write_u16 priority ;? write_u16 weight ;? write_u16 port ;? write_qname host)
  | PTR domain data ttl =>
      write_head domain QueryType.PTR ttl ;?
      write_sized (write_qname data)
  | MX domain priority host ttl =>
      write_head domain QueryType.MX ttl ;?
      write_sized (write_u16 priority ;? write_qname host)
  | SOA domain m_name r_name serial refresh retry expire minimum ttl =>
      write_head domain QueryType.SOA ttl ;?
      write_sized (write_qname m_name ;? write_qname r_name ;? write_u32 serial ;?
                   write_u32 refresh ;? write_u32 retry ;? write_u32 expire ;? write_u32 minimum)
  | TXT domain data ttl =>
      write_head domain QueryType.TXT ttl ;?
      write_u16 (wrap 16 (Z.of_nat (length data) + 1)) ;?
      write_u8 (wrap 8 (Z.of_nat (length data))) ;?
      mfor data write_u8 ;?
      mret tt
  | TLSA domain certificate_usage selector matching_type data ttl =>
      write_head domain QueryType.TLSA ttl ;?
      write_u16 (wrap 16 (Z.of_nat (length data) + 3)) ;?
      write_u8 certificate_usage ;?
      write_u8 selector ;?
      write_u8 matching_type ;?
      mfor data write_u8 ;?
      mret tt
  | OPT packet_len flags data =>
      write_u8 0 ;?
      write_u16 (QueryType.to_num QueryType.OPT) ;?
      write_u16 packet_len ;?
      write_u32 flags ;?
      write_u16 (wrap 16 (Z.of_nat (length data))) ;?
      mfor data write_u8 ;?
      mret tt
  | UNKNOWN _ _ _ _ => mret tt
  end.

(** Returns the number of bytes written. *)
Definition write (r : t) : io nat :=
  let? start_pos := mget pb_pos in
  write_record r ;?
  mget (λ b, (pb_pos b - start_pos)%nat).
End ReadWrite.

Definition get_data (r : t) : option rstr :=
  match r with
  | A _ addr _ => Some (display4 addr)
  | AAAA _ addr _ => Some (display6 addr)
  | NS _ host _ | CNAME _ host _ | SRV _ _ _ _ host _ => Some host
  | PTR _ data _ => Some data
  | MX _ _ host _ => Some host
  | TXT _ data _ => Some data
  | SOA _ m_name r_name _ _ _ _ _ _ => Some (m_name ++ str " @ " ++ r_name)
  | UNKNOWN domain _ _ _ => Some domain
  | TLSA domain certificate_usage selector matching_type data _ =>
      Some (join (str " ") [domain; dec certificate_usage; dec selector; dec matching_type; to_hex data])
  | OPT _ _ _ => None
  end.
End DnsRecord.

(** [is_ruvchain_record] of src/commons/mod.rs. *)
Definition is_ruvchain_record (record : DnsRecord.t) : bool :=
  match record with
  | DnsRecord.AAAA _ addr _ => is_ruvchain (V6 addr)
  | _ => false
  end.

(** ** Result codes *)
Module ResultCode.
Inductive t := NOERROR | FORMERR | SERVFAIL | NXDOMAIN | NOTIMP | REFUSED.

#[global] Instance t_eq_dec : EqDecision t.
Proof. solve_decision. Defined.

(** [self.rescode as u8] *)
Definition to_num (r : t) : Z :=
  match r with NOERROR => 0 | FORMERR => 1 | SERVFAIL => 2 | NXDOMAIN => 3 | NOTIMP => 4 | REFUSED => 5 end.

Definition from_num (num : Z) : t :=
  match num with
  | 1 => FORMERR | 2 => SERVFAIL | 3 => NXDOMAIN | 4 => NOTIMP | 5 => REFUSED | _ => NOERROR
  end.
End ResultCode.

(** ** Header *)
Module DnsHeader.
Record t := mk {
  id : Z;
  recursion_desired : bool;
  truncated_message : bool;
  authoritative_answer : bool;
  opcode : Z;
  response : bool;
  rescode : ResultCode.t;
  checking_disabled : bool;
  authed_data : bool;
  z : bool;
  recursion_available : bool;
  questions : Z;
  answers : Z;
  authoritative_entries : Z;
  resource_entries : Z;
}.

Definition new : t :=
  mk 0 false false false 0 false ResultCode.NOERROR false false false false 0 0 0 0.

Definition bit (b : bool) : Z := if b then 1 else 0.

(** The two flag bytes. [opcode << 3] and the other shifts are on [u8]: bits
    shifted out are lost. *)
Definition flags_a (h : t) : Z :=
  Z.lor (Z.lor (Z.lor (Z.lor (bit (recursion_desired h))
    (wrap 8 (Z.shiftl (bit (truncated_message h)) 1)))
    (wrap 8 (Z.shiftl (bit (authoritative_answer h)) 2)))
    (wrap 8 (Z.shiftl (opcode h) 3)))
    (wrap 8 (Z.shiftl (bit (response h)) 7)).
Definition flags_b (h : t) : Z :=
  Z.lor (Z.lor (Z.lor (Z.lor (ResultCode.to_num (rescode h))
    (wrap 8 (Z.shiftl (bit (checking_disabled h)) 4)))
    (wrap 8 (Z.shiftl (bit (authed_data h)) 5)))
    (wrap 8 (Z.shiftl (bit (z h)) 6)))
    (wrap 8 (Z.shiftl (bit (recursion_available h)) 7)).

Definition binary_len (h : t) : nat := 12.

Section ReadWrite.
Context {B : Type} `{PacketBuffer B}.

Definition write (h : t) : M B ProtocolError unit :=
  write_u16 (id h) ;?
  write_u8 (flags_a h) ;?
  write_u8 (flags_b h) ;?
  write_u16 (questions h) ;?
  write_u16 (answers h) ;?
  write_u16 (authoritative_entries h) ;?
  write_u16 (resource_entries h) ;?
  mret tt.

(** Every field is overwritten, so the old header is not an argument. *)
Definition read : M B ProtocolError t :=
  let? id := read_u16 in
  let? flags := read_u16 in
  let a := wrap 8 (Z.shiftr flags 8) in
  let b := wrap 8 (Z.land flags 255) in
  let? questions := read_u16 in
  let? answers := read_u16 in
  let? authoritative_entries := read_u16 in
  let? resource_entries := read_u16 in
  mret {|
    id := id;
    recursion_desired := Z.land a 1 >? 0;
    truncated_message := Z.land a 2 >? 0;
    authoritative_answer := Z.land a 4 >? 0;
    opcode := Z.land (Z.shiftr a 3) 15;
    response := Z.land a 128 >? 0;
    rescode := ResultCode.from_num (Z.land b 15);
    checking_disabled := Z.land b 16 >? 0;
    authed_data := Z.land b 32 >? 0;
    z := Z.land b 64 >? 0;
    recursion_available := Z.land b 128 >? 0;
    questions := questions;
    answers := answers;
    authoritative_entries := authoritative_entries;
    resource_entries := resource_entries |}.
End ReadWrite.

(** Field updates of the packet code. *)
Definition set_truncated (h : t) : t :=
  mk (id h) (recursion_desired h) true (authoritative_answer h) (opcode h) (response h) (rescode h)
     (checking_disabled h) (authed_data h) (z h) (recursion_available h)
     (questions h) (answers h) (authoritative_entries h) (resource_entries h).
Definition set_counts (h : t) (q an au re : Z) : t :=
  mk (id h) (recursion_desired h) (truncated_message h) (authoritative_answer h) (opcode h) (response h)
     (rescode h) (checking_disabled h) (authed_data h) (z h) (recursion_available h) q an au re.
Definition set_rescode (h : t) (r : ResultCode.t) : t :=
  mk (id h) (recursion_desired h) (truncated_message h) (authoritative_answer h) (opcode h) (response h)
     r (checking_disabled h) (authed_data h) (z h) (recursion_available h)
     (questions h) (answers h) (authoritative_entries h) (resource_entries h).
Definition set_authoritative (h : t) : t :=
  mk (id h) (recursion_desired h) (truncated_message h) true (opcode h) (response h)
     (rescode h) (checking_disabled h) (authed_data h) (z h) (recursion_available h)
     (questions h) (answers h) (authoritative_entries h) (resource_entries h).
End DnsHeader.

(** ** Question *)
Module DnsQuestion.
Record t := new { name : rstr; qtype : QueryType.t }.

Definition binary_len (q : t) : nat :=
  fold_left (λ x y, (x + y)%nat) ((λ x, (length x + 1)%nat) <$> split 46 (name q)) 1%nat.

Section ReadWrite.
Context {B : Type} `{PacketBuffer B} {U : Unicode}.

Definition write (q : t) : M B ProtocolError unit :=
  write_qname (name q) ;?
  let typenum := QueryType.to_num (qtype q) in
  write_u16 typenum ;?
  write_u16 1 ;?
  mret tt.

Definition read (fuel : nat) (q : t) : M B ProtocolError t :=
  let? name := read_qname fuel (name q) in
  let? num := read_u16 in
  let? _ := read_u16 in
  mret (new name (QueryType.from_num num)).
End ReadWrite.
End DnsQuestion.

(** ** Packet *)
Module DnsPacket.
Record t := mk {
  header : DnsHeader.t;
  questions : list DnsQuestion.t;
  answers : list DnsRecord.t;
  authorities : list DnsRecord.t;
  resources : list DnsRecord.t;
}.

Definition new : t := mk DnsHeader.new [] [] [] [].

Definition set_header (p : t) (h : DnsHeader.t) : t :=
  mk h (questions p) (answers p) (authorities p) (resources p).

Section Read.
Context {B : Type} `{PacketBuffer B} {U : Unicode} {BP : Build}.

Definition from_buffer (fuel : nat) : M B ProtocolError t :=
  let? header := DnsHeader.read in
  let? questions := mrepeat (Z.to_nat (DnsHeader.questions header))
                      (DnsQuestion.read fuel (DnsQuestion.new [] (QueryType.UNKNOWN 0))) in
  let? answers := mrepeat (Z.to_nat (DnsHeader.answers header)) (DnsRecord.read fuel) in
  let? authorities := mrepeat (Z.to_nat (DnsHeader.authoritative_entries header)) (DnsRecord.read fuel) in
  let? resources := mrepeat (Z.to_nat (DnsHeader.resource_entries header)) (DnsRecord.read fuel) in
  mret (mk header questions answers authorities resources).
End Read.

Definition get_ttl_from_soa (p : t) : option Z :=
  head (omap (λ r, match r with
                   | DnsRecord.SOA _ _ _ _ _ _ _ minimum _ => Some minimum
                   | _ => None
                   end) (authorities p)).

(** [random] is the value of [random::<usize>()]. *)
Definition get_random_a (random : nat) (p : t) : option rstr :=
  if bool_decide (answers p = []) then None else
  match answers p !! (random mod length (answers p))%nat with
  | Some (DnsRecord.A _ addr _) => Some (display4 addr)
  | _ => None
  end.

(** Whether some answer has the type asked for and the name [host]. *)
Definition cname_matched (p : t) (qtype : QueryType.t) (host : rstr) : bool :=
  existsb (λ answer2,
    match qtype, answer2 with
    | QueryType.A, DnsRecord.A domain _ _ => bool_decide (domain = host)
    | QueryType.AAAA, DnsRecord.AAAA domain _ _ => bool_decide (domain = host)
    | _, _ => false
    end) (answers p).

Definition get_unresolved_cnames (p : t) (qtype : QueryType.t) : list DnsRecord.t :=
  List.filter (λ answer,
    match answer with
    | DnsRecord.CNAME _ host _ => negb (cname_matched p qtype host)
    | _ => false
    end) (answers p).

Definition resolved_authorities (p : t) (qname : rstr) : list DnsRecord.t :=
  mjoin ((λ auth,
    match auth with
    | DnsRecord.NS domain host _ =>
        if negb (ends_with qname domain) then [] else
        omap (λ rsrc,
          match rsrc with
          | DnsRecord.A domain addr ttl =>
              if bool_decide (domain = host) then Some (DnsRecord.A host addr ttl) else None
          | _ => None
          end) (resources p)
    | _ => []
    end) <$> authorities p).

Definition get_resolved_ns (random : nat) (p : t) (qname : rstr) : option rstr :=
  let new_authorities := resolved_authorities p qname in
  if bool_decide (new_authorities = []) then None else
  match new_authorities !! (random mod length new_authorities)%nat with
  | Some (DnsRecord.A _ addr _) => Some (display4 addr)
  | _ => None
  end.

Definition get_unresolved_ns (random : nat) (p : t) (qname : rstr) : option rstr :=
  let new_authorities := omap (λ auth,
    match auth with
    | DnsRecord.NS domain host _ => if negb (ends_with qname domain) then None else Some host
    | _ => None
    end) (authorities p) in
  if bool_decide (new_authorities = []) then None else
  new_authorities !! (random mod length new_authorities)%nat.

Section Write.
Context {B : Type} `{PacketBuffer B} {BP : Build}.

(** [self.answers.iter().chain(self.authorities.iter()).chain(self.resources.iter())] *)
Definition records (p : t) : list DnsRecord.t := answers p ++ authorities p ++ resources p.

(** The sizing loop over the records: [i] is the index of the first record of
    [recs], [tb] the test buffer. Returns the header and [record_count]. *)
Fixpoint count_records (p : t) (max_size : nat) (recs : list DnsRecord.t) (i size : nat)
    (h : DnsHeader.t) (tb : VectorPacketBuffer.t) : outcome ProtocolError (DnsHeader.t * nat) :=
  match recs with
  | [] => Ok (h, length (records p))
  | rec :: recs =>
      let! (n, tb) := DnsRecord.write rec tb in
      let size := (size + n)%nat in
      if bool_decide (max_size < size)%nat then Ok (DnsHeader.set_truncated h, i) else
      let q := DnsHeader.questions h in
      let an := DnsHeader.answers h in
      let au := DnsHeader.authoritative_entries h in
      let re := DnsHeader.resource_entries h in
      let! h :=
        (if bool_decide (i < length (answers p))%nat then
          let! an := add_w 16 an 1 in Ok (DnsHeader.set_counts h q an au re)
        else if bool_decide (i < length (answers p) + length (authorities p))%nat then
          let! au := add_w 16 au 1 in Ok (DnsHeader.set_counts h q an au re)
        else
          let! re := add_w 16 re 1 in Ok (DnsHeader.set_counts h q an au re)
         : outcome ProtocolError DnsHeader.t) in
      count_records p max_size recs (i + 1) size h tb
  end.

(** The sizing phase: questions into the test buffer, then the records. *)
Definition measure (p : t) (max_size : nat) : outcome ProtocolError (DnsHeader.t * nat) :=
  let size := fold_left (λ x q, (x + DnsQuestion.binary_len q)%nat) (questions p)
                (DnsHeader.binary_len (header p)) in
  let! (_, test_buffer) := mfor (questions p) DnsQuestion.write VectorPacketBuffer.new in
  count_records p max_size (records p) 0 size (header p) test_buffer.

(** [DnsPacket::write]: returns the updated packet and writes to the buffer. *)
Definition write (p : t) (max_size : nat) : M B ProtocolError t :=
  let? (h, record_count) := mlift (measure p max_size) in
  let h := DnsHeader.set_counts h (wrap 16 (Z.of_nat (length (questions p))))
             (DnsHeader.answers h) (DnsHeader.authoritative_entries h) (DnsHeader.resource_entries h) in
  DnsHeader.write h ;?
  mfor (questions p) DnsQuestion.write ;?
  mfor (take record_count (records p)) (λ rec, DnsRecord.write rec ;? mret tt) ;?
  mret (set_header p h).
End Write.
End DnsPacket.

(** ** The tests of the source, computed *)
Module ProtocolTests.
#[local] Existing Instance ascii_tables.

Definition ns_record (host : rstr) : DnsRecord.t := DnsRecord.NS (str "google.com") host 3600.

(** [tests::test_packet] *)
Definition packet : DnsPacket.t :=
  DnsPacket.mk
    (DnsHeader.mk 1337 false false false 0 true ResultCode.NOERROR false false false false 0 0 0 0)
    [DnsQuestion.new (str "google.com") QueryType.NS]
    [ns_record (str "ns1.google.com"); ns_record (str "ns2.google.com");
     ns_record (str "ns3.google.com"); ns_record (str "ns4.google.com")] [] [].

Example test_packet (bp : Build) :
  match (DnsPacket.write packet (Z.to_nat 65535) ;? pb_seek 0 ;? DnsPacket.from_buffer 40)
          VectorPacketBuffer.new with
  | Ok (parsed, _) => DnsPacket.questions parsed = DnsPacket.questions packet ∧
                      DnsPacket.answers parsed = DnsPacket.answers packet
  | _ => False
  end.
Proof. destruct bp; vm_compute; done. Qed.
End ProtocolTests.
