(* ===== verification/ProtocolFacts.v ===== *)
(** * Writers and readers of DNS data, matched

    [Emits hole w f a]: whatever the writer [w] appends to a
    [VectorPacketBuffer], the reader [f] reads back as [a] from any buffer
    with that content. The relation composes with the two monads, so the proof
    for a record follows the text of its writer and its reader. *)

From S2P Require Import Prelude Text Net Buffer BufferFacts Protocol.
Open Scope nat_scope.

Abbreviation vbuf := VectorPacketBuffer.t.
Abbreviation content := VectorPacketBuffer.buffer.
Abbreviation size s := (length (content s)).

(** A pending length field lies inside what is already written. *)
Definition hole_in (hole : option nat) (s : vbuf) : Prop := ∀ h, hole = Some h → h + 2 ≤ size s.

Lemma hole_in_extends hole s s' : extends s s' → hole_in hole s → hole_in hole s'.
Proof. intros He%extends_length Hh h Hs. specialize (Hh h Hs). lia. Qed.

(** A writer that only appends. *)
Definition Appends {E A} (w : M vbuf E A) : Prop :=
  ∀ s a s', synced s → w s = Ok (a, s') → extends s s'.

Section Emits.
Context {B : Type} `{RL : ReadLaws B}.

Definition Readable {E1 E2 A} (hole : option nat) (w : M vbuf E1 unit) (f : M B E2 A) (a : A) : Prop :=
  ∀ s s', synced s → hole_in hole s → labels_good hole s → w s = Ok (tt, s') → in_reach s' →
  labels_good hole s' ∧ Reads (view hole (content s')) f (size s) a (size s').

Definition Emits {E1 E2 A} (hole : option nat) (w : M vbuf E1 unit) (f : M B E2 A) (a : A) : Prop :=
  Appends w ∧ Readable hole w f a.

Lemma appends_bind {E1 E2 A C} `{From E1 E2} (w : M vbuf E1 A) (k : A → M vbuf E2 C) :
  Appends w → (∀ a, Appends (k a)) → Appends (mbind_ w k).
Proof.
  intros Hw Hk s c s' Hs Hrun. apply mbind_inv in Hrun as (a & s1 & H1 & H2).
  pose proof (Hw _ _ _ Hs H1) as He. eapply extends_trans; [done|].
  eapply Hk; [apply He|done].
Qed.

Lemma appends_ret {E A} (a : A) : Appends (mret (E := E) a).
Proof. intros s a' s' Hs Hr. unfold mret in Hr. injection Hr as <- <-. by split. Qed.

Lemma appends_get {E A} (g : vbuf → A) : Appends (mget (E := E) g).
Proof. intros s a' s' Hs Hr. unfold mget in Hr. injection Hr as <- <-. by split. Qed.

Lemma emits_bind {E1 E2 E3 E4 A C} `{From E1 E2, From E3 E4} hole
    (w1 : M vbuf E1 unit) (w2 : M vbuf E2 unit) (f : M B E3 A) (k : A → M B E4 C) a c :
  Emits hole w1 f a → Emits hole w2 (k a) c → Emits hole (w1 ;? w2) (mbind_ f k) c.
Proof.
  intros [A1 R1] [A2 R2]. split; [by apply appends_bind|].
  intros s s' Hs Hh Hg Hw Hreach. apply mbind_inv in Hw as ([] & s1 & Hw1 & Hw2).
  pose proof (A1 _ _ _ Hs Hw1) as He1. pose proof (A2 _ _ _ (proj1 He1) Hw2) as He2.
  destruct (R1 s s1 Hs Hh Hg Hw1) as [Hg1 Hr1]; [by eapply extends_reach|].
  destruct (R2 s1 s') as [Hg2 Hr2]; [apply He1|by eapply hole_in_extends|done|done|done|].
  split; [done|]. eapply reads_bind; [|done]. eapply reads_mono; [by apply extends_view|done].
Qed.

Lemma emits_ret {E1 E2 A} hole (a : A) : Emits hole (mret (E := E1) tt) (mret (E := E2) a) a.
Proof.
  split; [apply appends_ret|]. intros s s' Hs Hh Hg Hw Hreach. injection Hw as <-.
  split; [done|apply reads_ret].
Qed.

(** A reader step that consumes nothing the writer wrote. *)
Lemma emits_read_bind {E1 E3 E4 A C} `{From E3 E4} hole
    (w : M vbuf E1 unit) (f : M B E3 A) (k : A → M B E4 C) a c :
  (∀ m p, Reads m f p a p) → Emits hole w (k a) c → Emits hole w (mbind_ f k) c.
Proof.
  intros Hf [HA R]. split; [done|]. intros s s' Hs Hh Hg Hw Hreach.
  destruct (R s s' Hs Hh Hg Hw Hreach) as [Hg' Hr]. split; [done|]. by eapply reads_bind.
Qed.

(** The last reader step may compute the result from the value read. *)
Lemma emits_last {E1 E2 E3 A C} `{From E2 E3} hole (w : M vbuf E1 unit) (f : M B E2 A)
    (k : A → M B E3 C) a c :
  Emits hole w f a → k a = mret c → Emits hole w (mbind_ f k) c.
Proof.
  intros [HA R] Hk. split; [done|]. intros s s' Hs Hh Hg Hw Hreach.
  destruct (R s s' Hs Hh Hg Hw Hreach) as [Hg' Hr]. split; [done|].
  eapply reads_bind; [done|]. rewrite Hk. apply reads_ret.
Qed.

(** Trailing [Ok(())], and sequences nested to the left. *)
Lemma bind_ret_ok {E1 E2} `{From E1 E2} (w : M vbuf E1 unit) s s' :
  (w ;? mret (E := E2) tt) s = Ok (tt, s') → w s = Ok (tt, s').
Proof. intros Hw. apply mbind_inv in Hw as ([] & s1 & Hw & Hr). by injection Hr as <-. Qed.

Lemma appends_done {E1 E2} `{From E1 E2} (w : M vbuf E1 unit) :
  Appends w → Appends (w ;? mret (E := E2) tt).
Proof. intros Hw. apply appends_bind; [done|intros; apply appends_ret]. Qed.

Lemma emits_done {E1 E2 E3 A} `{From E1 E2} hole (w : M vbuf E1 unit) (f : M B E3 A) a :
  Emits hole w f a → Emits hole (w ;? mret (E := E2) tt) f a.
Proof.
  intros [HA R]. split; [by apply appends_done|]. intros s s' Hs Hh Hg Hw%bind_ret_ok Hreach. by apply R.
Qed.

Lemma bind_assoc_ok {E1 E2 E3} `{From E1 E2, From E2 E3, From E1 E3} (w1 : M vbuf E1 unit)
    (w2 : M vbuf E2 unit) (w3 : M vbuf E3 unit) s s' :
  ((w1 ;? w2) ;? w3) s = Ok (tt, s') → (w1 ;? (w2 ;? w3)) s = Ok (tt, s').
Proof.
  intros Hw. apply mbind_inv in Hw as ([] & s2 & Hw & Hw3).
  apply mbind_inv in Hw as ([] & s1 & Hw1 & Hw2).
  rewrite (mbind_run _ _ _ _ _ Hw1), (mbind_run _ _ _ _ _ Hw2). done.
Qed.

Lemma emits_assoc {E1 E2 E3 E4 A} `{From E1 E2, From E2 E3, From E1 E3} hole (w1 : M vbuf E1 unit)
    (w2 : M vbuf E2 unit) (w3 : M vbuf E3 unit) (f : M B E4 A) a :
  Emits hole (w1 ;? (w2 ;? w3)) f a → Emits hole ((w1 ;? w2) ;? w3) f a.
Proof.
  intros [HA R]. split.
  - intros s [] s' Hs Hw%bind_assoc_ok. by eapply HA.
  - intros s s' Hs Hh Hg Hw%bind_assoc_ok Hreach. by apply R.
Qed.

(** *** The primitive fields *)

Lemma emits_push {E1 E2 A} hole bs (w : M vbuf E1 unit) (f : M B E2 A) a :
  (∀ s, w s = Ok (tt, push bs s)) →
  (∀ m p, (Z.of_nat (length bs) < 16384)%Z → bytes_at m p bs → Reads m f p a (p + length bs)) →
  Emits hole w f a.
Proof.
  intros Hw Hf. split.
  - intros s [] s' Hs Hrun. rewrite Hw in Hrun. injection Hrun as <-. by apply push_extends.
  - intros s s' Hs Hh Hg Hrun Hreach. rewrite Hw in Hrun. injection Hrun as <-.
    unfold in_reach in Hreach. simpl in *. rewrite length_app in *.
    split; [by apply labels_good_push|]. apply Hf; [lia|].
    rewrite <- (app_nil_r bs) at 1. by apply bytes_at_end.
Qed.

Lemma emits_u8 hole v : Emits hole (write_u8 v) pb_read v.
Proof.
  apply (emits_push _ [v]); [apply write_u8_push|].
  intros m p _ Hb. apply bytes_at_cons in Hb as [Hb _]. rewrite Nat.add_1_r. by apply reads_u8.
Qed.

Lemma emits_u16 hole v : is_u16 v → Emits hole (write_u16 v) read_u16 v.
Proof.
  intros Hv. apply (emits_push _ (u16_bytes v)); [apply write_u16_push|].
  intros m p _ Hb. by apply reads_u16.
Qed.

Lemma emits_u32 hole v : is_u32 v → Emits hole (write_u32 v) read_u32 v.
Proof.
  intros Hv. apply (emits_push _ (u32_bytes v)); [apply write_u32_push|].
  intros m p _ Hb. by apply reads_u32.
Qed.

Context {U : Unicode}.

Lemma emits_name hole name fuel : name_ok name → name_fuel name ≤ fuel →
  Emits hole (write_qname name) (read_qname fuel []) (lower name).
Proof.
  intros Hn Hf. split; [intros s [] s' Hs; by apply write_qname_extends|].
  intros s s' Hs Hh Hg Hw Hreach.
  destruct (write_qname_good name hole s s' Hn Hs Hh Hg Hw Hreach) as (Hg' & k & Hat & Hk).
  split; [done|]. eapply reads_written_name; [done|lia].
Qed.

(** The root name: a single zero byte. *)
Lemma emits_root hole fuel : 1 ≤ fuel → Emits hole (write_u8 0) (read_qname fuel []) [].
Proof.
  intros Hf. apply (emits_push _ [0%Z]); [apply write_u8_push|].
  intros m p _ Hb. apply bytes_at_cons in Hb as [Hb _]. rewrite Nat.add_1_r.
  change ([] : rstr) with ([] ++ join [46%Z] (lower <$> []) : rstr).
  apply (reads_qname m p [] (S p) 1 fuel [] (name_end m p Hb) Hf).
Qed.

(** *** Blocks of raw data *)

Lemma reads_block {C} m q v p bs (g : bytes → C) :
  m q = Some v → p = S q → bytes_at m p bs →
  Reads m (let? cur_pos := mget pb_pos in
           let? data := pb_get_range cur_pos (length bs) in
           pb_step (length bs) ;? mret (E := ProtocolError) (g data)) p (g bs) (p + length bs).
Proof.
  intros Hv -> Hb. eapply reads_bind; [apply reads_pos|].
  eapply reads_bind; [|eapply reads_bind; [apply reads_step|apply reads_ret]].
  destruct bs as [|b0 bs]; [|by apply reads_get_range].
  intros b Hb' Hp. destruct (Hb' _ _ Hv) as [_ Hlt].
  destruct (rl_get_range b (S q) 0) as (b' & Hr & Hc & Hp'); [lia|].
  exists b'. rewrite Hp in Hp'. done.
Qed.

(** A 16-bit length [n0 + length bs], [hd], then the block. *)
Lemma bytes_at_counted m p v hd bs :
  bytes_at m p (u16_bytes v ++ hd ++ bs) →
  bytes_at m p (u16_bytes v) ∧ bytes_at m (p + 2) hd ∧ bytes_at m (p + 2 + length hd) bs ∧
  ∃ x, m (p + 1 + length hd) = Some x.
Proof.
  rewrite !bytes_at_app. intros (H1 & H2 & H3). change (length (u16_bytes v)) with 2 in *.
  split_and!; [done..|]. destruct (decide (hd = [])) as [->|Hne].
  - simpl. rewrite Nat.add_0_r. exists (wrap 8 (Z.land v 255)). by apply H1.
  - destruct (lookup_lt_is_Some_2 hd (length hd - 1)) as [x Hx];
      [destruct hd; simpl in *; [done|lia]|].
    exists x. apply H2 in Hx. assert (1 ≤ length hd) by (destruct hd; simpl; [done|lia]).
    by replace (p + 1 + length hd) with (p + 2 + (length hd - 1)) by lia.
Qed.

(** ** Repeated fields *)
Lemma appends_for {E A} (l : list A) (f : A → M vbuf E unit) :
  Forall (λ x, Appends (f x)) l → Appends (mfor l f).
Proof. induction 1; [apply appends_ret|]. by apply appends_bind. Qed.

Lemma emits_for {E1 E2 A C} hole (l : list A) (w : A → M vbuf E1 unit) (f : M B E2 C) (g : A → C) :
  Forall (λ x, Emits hole (w x) f (g x)) l →
  Emits hole (mfor l w) (mrepeat (length l) f) (g <$> l).
Proof.
  induction 1 as [|x l Hx Hl IH]; [apply emits_ret|]. cbn [mfor mrepeat length].
  rewrite fmap_cons. eapply emits_bind; [done|]. by eapply emits_last.
Qed.
End Emits.

(** ** Records *)
Section Records.
Context {B : Type} {PB : PacketBuffer B} {RL : ReadLaws B} {U : Unicode} {BP : Build}.

Lemma bytes_at_set c p v : p + 2 ≤ length c →
  bytes_at (view None (<[p + 1 := wrap 8 (Z.land v 255)]> (<[p := wrap 8 (Z.shiftr v 8)]> c))) p (u16_bytes v).
Proof.
  intros Hp i x Hx. simpl. destruct i as [|[|i]]; simpl in Hx; [..|done]; injection Hx as <-.
  - rewrite Nat.add_0_r, list_lookup_insert_ne by lia. apply list_lookup_insert_eq. lia.
  - apply list_lookup_insert_eq. rewrite length_insert. lia.
Qed.

(** The steps of [write_sized]. *)
Lemma write_sized_inv data s s' : synced s → Appends data → DnsRecord.write_sized data s = Ok (tt, s') →
  ∃ s2 v, data (push (u16_bytes 0) s) = Ok (tt, s2) ∧ is_u16 v ∧
    extends (push (u16_bytes 0) s) s2 ∧ size s' = size s2 ∧ synced s' ∧
    VectorPacketBuffer.label_lookup s' = VectorPacketBuffer.label_lookup s2 ∧
    content s' = <[size s + 1 := wrap 8 (Z.land v 255)]> (<[size s := wrap 8 (Z.shiftr v 8)]> (content s2)).
Proof.
  intros Hs HA Hw. unfold DnsRecord.write_sized in Hw. rewrite (mbind_run _ _ s _ s eq_refl) in Hw.
  rewrite (mbind_run _ _ _ _ _ (write_u16_push _ _)) in Hw.
  apply mbind_inv in Hw as ([] & s2 & Hd & Hw). pose proof (HA _ _ _ (push_synced _ _ Hs) Hd) as He.
  rewrite (mbind_run _ _ s2 _ s2 eq_refl) in Hw. apply bind_ret_ok in Hw.
  pose proof (extends_length _ _ He) as Hlen. simpl in Hlen. rewrite length_app in Hlen. simpl in Hlen.
  change (pb_pos s) with (VectorPacketBuffer.pos s) in Hw.
  rewrite Hs, set_u16_ok in Hw by lia. injection Hw as <-. simpl.
  match goal with |- context [wrap 8 (Z.shiftr ?v 8)] => exists s2, v end.
  split_and!; try done; [by apply wrap_is_u|by rewrite !length_insert|].
  unfold synced. simpl. rewrite !length_insert. apply He.
Qed.

Lemma emits_sized {C} (data : M vbuf BufferError unit) (k : Z → M B ProtocolError C) c :
  (∀ h n, Emits (Some h) data (k n) c) → Emits None (DnsRecord.write_sized data) (mbind_ read_u16 k) c.
Proof.
  intros Hd. assert (Appends data) as HA by apply (Hd 0 0%Z).
  assert (∀ s s2, size (push (u16_bytes 0) s) ≤ size s2 → size s + 2 ≤ size s2) as Hroom.
  { intros s s2. simpl. rewrite length_app. done. }
  split.
  - intros s [] s' Hs Hw. destruct (write_sized_inv data s s' Hs HA Hw)
      as (s2 & v & _ & _ & He & _ & Hs' & _ & Hc). split; [done|]. rewrite Hc.
    pose proof (Hroom s s2 (extends_length _ _ He)) as Hlen.
    destruct He as [_ [x ->]]. simpl. rewrite <- app_assoc. exists ([wrap 8 (Z.shiftr v 8); wrap 8 (Z.land v 255)] ++ x).
    rewrite insert_app_r_alt, insert_app_r_alt by lia.
    replace (size s - size s) with 0 by lia. by replace (size s + 1 - size s) with 1 by lia.
  - intros s s' Hs Hh Hg Hw Hreach. destruct (write_sized_inv data s s' Hs HA Hw)
      as (s2 & v & Hrun & Hv & He & Hsz & Hs' & Hl & Hc).
    pose proof (Hroom s s2 (extends_length _ _ He)) as Hlen.
    assert (in_reach s2) as Hreach2 by (unfold in_reach in *; by rewrite <- Hsz).
    destruct (Hd (size s) v) as [_ HR].
    destruct (HR (push (u16_bytes 0) s) s2) as [Hg2 Hr]; [by apply push_synced| | |done|done|].
    { intros h [= <-]. simpl. rewrite length_app. simpl. lia. }
    { eapply labels_good_mono; [| |apply view_open|done]; [done|simpl; rewrite length_app; lia]. }
    assert (view (Some (size s)) (content s2) ⊑ₘ view None (content s')) as Hm.
    { rewrite Hc. by apply view_set. }
    split; [eapply labels_good_mono; [done| |done|done]; by rewrite Hsz|].
    eapply reads_bind; [apply reads_u16; [|done]|].
    + rewrite Hc. by apply bytes_at_set.
    + eapply reads_mono; [done|]. rewrite Hsz. simpl in Hr. by rewrite length_app in Hr.
Qed.

(** *** The head of a record *)
Lemma emits_head domain q ttl (w : M vbuf ProtocolError unit) fuel r :
  name_ok domain → name_fuel domain ≤ fuel → is_u32 ttl →
  Emits None w (let? data_len := read_u16 in
                DnsRecord.read_rdata fuel (lower domain) (QueryType.to_num q) 1 ttl data_len) r →
  is_u16 (QueryType.to_num q) →
  Emits None (DnsRecord.write_head domain q ttl ;? w) (DnsRecord.read fuel) r.
Proof.
  intros Hd Hf Ht Hw Hq. unfold DnsRecord.write_head, DnsRecord.read.
  apply emits_assoc. eapply emits_bind; [by apply emits_name|].
  apply emits_assoc. eapply emits_bind; [by apply emits_u16|].
  apply emits_assoc. eapply emits_bind; [by apply emits_u16|].
  apply emits_assoc. eapply emits_bind; [by apply emits_u32|].
  destruct Hw as [HA R]. split.
  - apply appends_bind; [apply appends_ret|done].
  - intros s s' Hs Hh Hg Hrun. apply R; [done..|]. apply Hrun.
Qed.

(** What a record looks like to the reader of the wire: names in lower case,
    and the length byte the writer puts in front of the text of a TXT. *)
Definition wire_image (r : DnsRecord.t) : DnsRecord.t :=
  match r with
  | DnsRecord.A d a ttl => DnsRecord.A (lower d) a ttl
  | DnsRecord.AAAA d a ttl => DnsRecord.AAAA (lower d) a ttl
  | DnsRecord.NS d h ttl => DnsRecord.NS (lower d) (lower h) ttl
  | DnsRecord.CNAME d h ttl => DnsRecord.CNAME (lower d) (lower h) ttl
  | DnsRecord.PTR d h ttl => DnsRecord.PTR (lower d) (lower h) ttl
  | DnsRecord.MX d p h ttl => DnsRecord.MX (lower d) p (lower h) ttl
  | DnsRecord.SRV d p w o h ttl => DnsRecord.SRV (lower d) p w o (lower h) ttl
  | DnsRecord.SOA d m r s f t e i ttl => DnsRecord.SOA (lower d) (lower m) (lower r) s f t e i ttl
  | DnsRecord.TXT d t ttl =>
      DnsRecord.TXT (lower d) (from_utf8_lossy (wrap 8 (Z.of_nat (length t)) :: t)) ttl
  | DnsRecord.TLSA d u s m t ttl => DnsRecord.TLSA (lower d) u s m t ttl
  | DnsRecord.OPT l f t => DnsRecord.OPT l f (from_utf8_lossy t)
  | DnsRecord.UNKNOWN _ _ _ _ => r
  end.

(** The names of a record. *)
Definition names_of (r : DnsRecord.t) : list rstr :=
  match r with
  | DnsRecord.A d _ _ | DnsRecord.AAAA d _ _ | DnsRecord.TXT d _ _
  | DnsRecord.TLSA d _ _ _ _ _ | DnsRecord.UNKNOWN d _ _ _ => [d]
  | DnsRecord.NS d h _ | DnsRecord.CNAME d h _ | DnsRecord.PTR d h _
  | DnsRecord.MX d _ h _ | DnsRecord.SRV d _ _ _ h _ => [d; h]
  | DnsRecord.SOA d m r _ _ _ _ _ _ => [d; m; r]
  | DnsRecord.OPT _ _ _ => []
  end.

(** The integers of a record fit their Rust types. *)
Definition ints_ok (r : DnsRecord.t) : Prop :=
  match r with
  | DnsRecord.A _ a ttl => Forall is_u8 (octets4 a) ∧ is_u32 ttl
  | DnsRecord.AAAA _ a ttl => Forall is_u16 (segments a) ∧ is_u32 ttl
  | DnsRecord.MX _ p _ ttl => is_u16 p ∧ is_u32 ttl
  | DnsRecord.SRV _ p w o _ ttl => is_u16 p ∧ is_u16 w ∧ is_u16 o ∧ is_u32 ttl
  | DnsRecord.SOA _ _ _ s f t e i ttl =>
      is_u32 s ∧ is_u32 f ∧ is_u32 t ∧ is_u32 e ∧ is_u32 i ∧ is_u32 ttl
  | DnsRecord.OPT l f _ => is_u16 l ∧ is_u32 f
  | DnsRecord.NS _ _ ttl | DnsRecord.CNAME _ _ ttl | DnsRecord.PTR _ _ ttl
  | DnsRecord.TXT _ _ ttl | DnsRecord.TLSA _ _ _ _ _ ttl => is_u32 ttl
  | DnsRecord.UNKNOWN _ _ _ _ => False
  end.

(** Records the writer has a wire form for. *)
Definition record_ok (r : DnsRecord.t) : Prop := Forall name_ok (names_of r) ∧ ints_ok r.

Lemma octets_u32 a b c d : is_u8 a → is_u8 b → is_u8 c → is_u8 d →
  ∃ v, is_u32 v ∧ u32_bytes v = [a; b; c; d].
Proof.
  intros Ha Hb Hc Hd. unfold is_u in *. exists (a * 2 ^ 24 + b * 2 ^ 16 + c * 2 ^ 8 + d)%Z. split; [lia|].
  unfold u32_bytes. rewrite !land_ones8, !Z.shiftr_div_pow2 by lia. unfold wrap. rewrite !Z.mod_mod by lia.
  repeat f_equal; Z.to_euclidean_division_equations; lia.
Qed.

Lemma segments_u32 a b : is_u16 a → is_u16 b →
  ∃ v, is_u32 v ∧ u32_bytes v = u16_bytes a ++ u16_bytes b ∧
    wrap 16 (Z.land (Z.shiftr v 16) 65535) = a ∧ wrap 16 (Z.land v 65535) = b.
Proof.
  intros Ha Hb. unfold is_u in *. exists (a * 2 ^ 16 + b)%Z. split; [lia|].
  unfold u32_bytes, u16_bytes. rewrite !land_ones8, !land_ones16, !Z.shiftr_div_pow2 by lia. unfold wrap.
  rewrite !Z.mod_mod by lia. simpl. split; [repeat apply (f_equal2 cons); [..|done]|split]; Z.to_euclidean_division_equations; lia.
Qed.

(** *** The data of each record type *)

Lemma emits_a4 hole fuel d q cls ttl a n : q = QueryType.to_num QueryType.A → Forall is_u8 (octets4 a) →
  Emits hole (mfor (octets4 a) write_u8) (DnsRecord.read_rdata fuel d q cls ttl n) (DnsRecord.A d a ttl).
Proof.
  intros -> Ha. destruct a as [a1 a2 a3 a4]. simpl in Ha.
  rewrite !Forall_cons in Ha. destruct Ha as (H1 & H2 & H3 & H4 & _).
  destruct (octets_u32 a1 a2 a3 a4) as (v & Hv & Hb); [done..|].
  apply (emits_push _ [a1; a2; a3; a4]); [apply write_all_push|]. intros m p _ Hat.
  rewrite <- Hb in Hat. unfold DnsRecord.read_rdata. simpl.
  eapply reads_bind; [by apply reads_u32|].
  unfold u32_bytes in Hb. injection Hb as <- <- <- <-. apply reads_ret.
Qed.

Lemma write_words_push ws s : mfor ws write_u16 s = Ok (tt, push (mjoin (u16_bytes <$> ws)) s).
Proof.
  revert s. induction ws as [|w ws IH]; intros s; cbn [mfor].
  - unfold mret, push. simpl. rewrite app_nil_r, Nat.add_0_r. by destruct s.
  - rewrite (mbind_run _ _ _ _ _ (write_u16_push _ _)), IH, push_push. done.
Qed.

Lemma emits_a6 hole fuel d q cls ttl a n : q = QueryType.to_num QueryType.AAAA → Forall is_u16 (segments a) →
  Emits hole (mfor (segments a) write_u16) (DnsRecord.read_rdata fuel d q cls ttl n) (DnsRecord.AAAA d a ttl).
Proof.
  intros -> Ha. destruct a as [a0 a1 a2 a3 a4 a5 a6 a7]. simpl in Ha.
  rewrite !Forall_cons in Ha. destruct Ha as (H0 & H1 & H2 & H3 & H4 & H5 & H6 & H7 & _).
  destruct (segments_u32 a0 a1) as (v0 & Hv0 & Hb0 & Hx0 & Hy0); [done..|].
  destruct (segments_u32 a2 a3) as (v1 & Hv1 & Hb1 & Hx1 & Hy1); [done..|].
  destruct (segments_u32 a4 a5) as (v2 & Hv2 & Hb2 & Hx2 & Hy2); [done..|].
  destruct (segments_u32 a6 a7) as (v3 & Hv3 & Hb3 & Hx3 & Hy3); [done..|].
  apply (emits_push _ (u32_bytes v0 ++ u32_bytes v1 ++ u32_bytes v2 ++ u32_bytes v3)).
  { intros s. rewrite write_words_push, Hb0, Hb1, Hb2, Hb3. done. }
  intros m p _ Hat. rewrite !bytes_at_app in Hat. destruct Hat as (Ht0 & Ht1 & Ht2 & Ht3).
  unfold DnsRecord.read_rdata. simpl (QueryType.from_num _). cbv iota.
  eapply reads_bind; [by apply reads_u32|]. eapply reads_bind; [by apply reads_u32|].
  eapply reads_bind; [by apply reads_u32|]. eapply reads_bind; [by apply reads_u32|].
  rewrite Hx0, Hy0, Hx1, Hy1, Hx2, Hy2, Hx3, Hy3.
  change (length (u32_bytes v0 ++ _)) with 16. replace (p + 16) with (p + 4 + 4 + 4 + 4) by lia.
  apply reads_ret.
Qed.

(** Length, fixed bytes and a block of raw data, as in TXT, OPT and TLSA. *)
Lemma emits_counted {C} hole hd bs (w : M vbuf ProtocolError unit) (k : Z → M B ProtocolError C) c :
  (∀ s, w s = Ok (tt, push (u16_bytes (wrap 16 (Z.of_nat (length (hd ++ bs)))) ++ hd ++ bs) s)) →
  (∀ m p x, (Z.of_nat (length (hd ++ bs)) < 2 ^ 16)%Z →
     bytes_at m p hd → m (p + length hd - 1) = Some x → 1 ≤ p → bytes_at m (p + length hd) bs →
     Reads m (k (Z.of_nat (length (hd ++ bs)))) p c (p + length hd + length bs)) →
  Emits hole w (mbind_ read_u16 k) c.
Proof.
  intros Hw Hk. eapply emits_push; [done|]. intros m p Hlen Hat.
  rewrite !length_app in Hlen. change (length (u16_bytes _)) with 2 in Hlen.
  apply bytes_at_counted in Hat as (H1 & H2 & H3 & x & Hx).
  eapply reads_bind; [apply reads_u16; [done|by apply wrap_is_u]|].
  rewrite wrap_small by (unfold is_u; rewrite length_app; lia).
  rewrite (length_app (u16_bytes _)). change (length (u16_bytes _)) with 2.
  rewrite (length_app hd bs), !Nat.add_assoc, <- (length_app hd bs).
  apply (Hk m (p + 2) x); [rewrite length_app; lia|done| |lia|done].
  by replace (p + 2 + length hd - 1) with (p + 1 + length hd) by lia.
Qed.

Definition record_fuel (r : DnsRecord.t) : nat := S (list_max (name_fuel <$> names_of r)).

Lemma names_fuel r fuel : record_fuel r ≤ fuel → Forall (λ n, name_fuel n ≤ fuel) (names_of r) ∧ 1 ≤ fuel.
Proof.
  unfold record_fuel. intros Hf. split; [|lia].
  assert (list_max (name_fuel <$> names_of r) ≤ fuel) as Hmax by lia.
  apply list_max_le in Hmax. by rewrite Forall_map in Hmax.
Qed.

(** Field by field; the last field goes into the record built from it. *)
Ltac emit_fields :=
  unfold DnsRecord.read_rdata; simpl (QueryType.from_num _); cbv iota;
  repeat (eapply emits_bind; [first [apply emits_u16 | apply emits_u32 | apply emits_name]; assumption|]);
  eapply emits_last; [first [apply emits_u32 | apply emits_name]; assumption|reflexivity].

Lemma emits_txt fuel d ttl data :
  Emits None (write_u16 (wrap 16 (Z.of_nat (length data) + 1)) ;?
              write_u8 (wrap 8 (Z.of_nat (length data))) ;? mfor data write_u8 ;? mret (E := ProtocolError) tt)
    (let? n := read_u16 in DnsRecord.read_rdata fuel d (QueryType.to_num QueryType.TXT) 1 ttl n)
    (DnsRecord.TXT d (from_utf8_lossy (wrap 8 (Z.of_nat (length data)) :: data)) ttl).
Proof.
  set (bs := wrap 8 (Z.of_nat (length data)) :: data).
  apply (emits_counted _ [] bs).
  - intros s. rewrite (mbind_run _ _ _ _ _ (write_u16_push _ _)), (mbind_run _ _ _ _ _ (write_u8_push _ _)).
    rewrite (mbind_run _ _ _ _ _ (write_all_push _ _)). unfold mret. rewrite !push_push.
    replace (Z.of_nat (length ([] ++ bs))) with (Z.of_nat (length data) + 1)%Z by (simpl; lia). done.
  - intros m p x _ _ Hx Hp Hb. simpl in *. rewrite Nat.add_0_r in *.
    unfold DnsRecord.read_rdata. simpl (QueryType.from_num _). cbv iota. rewrite Nat2Z.id.
    apply (reads_block m (p - 1) x p bs (λ data, DnsRecord.TXT d (from_utf8_lossy data) ttl)); [done|lia|done].
Qed.

Lemma emits_opt fuel d cls ttl data :
  Emits None (write_u16 (wrap 16 (Z.of_nat (length data))) ;? mfor data write_u8 ;? mret (E := ProtocolError) tt)
    (let? n := read_u16 in DnsRecord.read_rdata fuel d (QueryType.to_num QueryType.OPT) cls ttl n)
    (DnsRecord.OPT cls ttl (from_utf8_lossy data)).
Proof.
  apply (emits_counted _ [] data).
  - intros s. rewrite (mbind_run _ _ _ _ _ (write_u16_push _ _)), (mbind_run _ _ _ _ _ (write_all_push _ _)).
    unfold mret. by rewrite push_push.
  - intros m p x _ _ Hx Hp Hb. simpl in *. rewrite Nat.add_0_r in *.
    unfold DnsRecord.read_rdata. simpl (QueryType.from_num _). cbv iota. rewrite Nat2Z.id.
    apply (reads_block m (p - 1) x p data (λ data, DnsRecord.OPT cls ttl (from_utf8_lossy data))); [done|lia|done].
Qed.

Lemma emits_tlsa fuel d ttl u sel mt data :
  Emits None (write_u16 (wrap 16 (Z.of_nat (length data) + 3)) ;? write_u8 u ;? write_u8 sel ;? write_u8 mt ;?
              mfor data write_u8 ;? mret (E := ProtocolError) tt)
    (let? n := read_u16 in DnsRecord.read_rdata fuel d (QueryType.to_num QueryType.TLSA) 1 ttl n)
    (DnsRecord.TLSA d u sel mt data ttl).
Proof.
  apply (emits_counted _ [u; sel; mt] data).
  - intros s. rewrite (mbind_run _ _ _ _ _ (write_u16_push _ _)).
    do 3 rewrite (mbind_run _ _ _ _ _ (write_u8_push _ _)).
    rewrite (mbind_run _ _ _ _ _ (write_all_push _ _)). unfold mret. rewrite !push_push.
    replace (Z.of_nat (length ([u; sel; mt] ++ data))) with (Z.of_nat (length data) + 3)%Z by (simpl; lia). done.
  - intros m p x Hlen Hhd Hx Hp Hb. rewrite !bytes_at_cons in Hhd. destruct Hhd as (Hu & Hsel & Hmt & _).
    unfold DnsRecord.read_rdata. simpl (QueryType.from_num _). cbv iota.
    do 3 (eapply reads_bind; [by apply reads_u8|]).
    eapply reads_bind; [apply reads_pos|]. simpl in Hlen.
    eapply (reads_bind _ _ _ _ (Z.of_nat (length data)) (S (S (S p)))).
    + intros b Hb' Hp'. exists b. unfold mlift, sub_w. simpl length.
      rewrite (arith_fits 16) by (unfold is_u; lia). simpl. split_and!; [|done|done]. do 2 f_equal. lia.
    + rewrite Nat2Z.id. simpl in Hb. replace (p + 3) with (S (S (S p))) in * by lia. simpl length. replace (p + 3) with (S (S (S p))) in * by lia.
      assert (1 ≤ 3) by lia.
      pose proof (reads_block m (S (S p)) mt (S (S (S p))) data (λ data, DnsRecord.TLSA d u sel mt data ttl)
        Hmt eq_refl Hb) as Hr.
      intros b Hb' Hp'. destruct (Hr b Hb' Hp') as (b' & Hrun & Hrest). exists b'.
      split; [|done]. apply mbind_inv in Hrun as (q & b0 & Hq & Hrun). injection Hq as <- <-.
      rewrite Hp' in Hrun. done.
Qed.

(** A record written by [write_record] is read back by [read] as its wire image. *)
Lemma emits_record r fuel : record_ok r → record_fuel r ≤ fuel →
  Emits None (DnsRecord.write_record r) (DnsRecord.read fuel) (wire_image r).
Proof.
  intros [Hn Hi] [Hf Hf1]%names_fuel.
  destruct r; simpl in Hn, Hi, Hf; rewrite ?Forall_cons in Hn, Hf; destruct_and?; try done;
    try (apply emits_head; [done|done|done| |by vm_compute]).
  - eapply emits_bind; [by apply emits_u16|]. apply emits_done. by apply emits_a4.
  - apply emits_sized; intros h n; emit_fields.
  - apply emits_sized; intros h n; emit_fields.
  - apply emits_sized; intros h n; emit_fields.
  - apply emits_sized; intros h n; emit_fields.
  - apply emits_sized; intros h n; emit_fields.
  - apply emits_txt.
  - eapply emits_bind; [by apply emits_u16|]. apply emits_done. by apply emits_a6.
  - apply emits_sized; intros h n; emit_fields.
  - unfold DnsRecord.read. simpl wire_image.
    eapply emits_bind; [by apply emits_root|]. do 2 (eapply emits_bind; [by apply emits_u16|]).
    eapply emits_bind; [by apply emits_u32|]. apply emits_opt.
  - apply emits_tlsa.
Qed.

(** [DnsRecord::write] is [write_record], returning how much was written. *)
Lemma write_inv r s n s' : DnsRecord.write r s = Ok (n, s') →
  DnsRecord.write_record r s = Ok (tt, s') ∧
  n = VectorPacketBuffer.pos s' - VectorPacketBuffer.pos s.
Proof.
  unfold DnsRecord.write. rewrite (mbind_run _ _ s _ s eq_refl). intros Hw.
  apply mbind_inv in Hw as ([] & s1 & Hw & Hr). unfold mget in Hr. injection Hr as <- <-. done.
Qed.
(** The tests that decide it, for concrete records. *)
Lemma record_ok_dec r :
  forallb (λ n, forallb (λ l, (1 <=? length l) && (length l <=? 63) && is_ascii l) (split 46 n)) (names_of r) = true →
  ints_ok r → record_ok r.
Proof.
  intros Hn Hi. split; [|done]. rewrite forallb_forall in Hn. rewrite Forall_forall. intros n Hin.
  apply name_ok_dec_ok, Hn. by apply list_elem_of_In.
Qed.

End Records.

(** ** Writers that never fail and whose output size does not depend on where
    they write

    [DnsPacket::write] measures a packet in a scratch buffer that has no
    header in it, so every position there is smaller than in the real buffer. *)
Section Uniform.
Context {BP : Build}.
Import VectorPacketBuffer.

Definition shifted (d : nat) (s1 s2 : vbuf) : Prop :=
  pos s2 = pos s1 + d ∧ label_lookup s2 = (λ p, p + d) <$> label_lookup s1.

Definition Uniform {E A} (w : M vbuf E A) : Prop := ∀ d s1 s2,
  synced s1 → synced s2 → shifted d s1 s2 →
  ∃ a s1' s2', w s1 = Ok (a, s1') ∧ w s2 = Ok (a, s2') ∧ extends s1 s1' ∧ extends s2 s2' ∧ shifted d s1' s2'.

Lemma uniform_bind {E1 E2 A C} `{From E1 E2} (w : M vbuf E1 A) (k : A → M vbuf E2 C) :
  Uniform w → (∀ a, Uniform (k a)) → Uniform (mbind_ w k).
Proof.
  intros Hw Hk d s1 s2 Hs1 Hs2 Hd.
  destruct (Hw d s1 s2 Hs1 Hs2 Hd) as (a & t1 & t2 & R1 & R2 & X1 & X2 & Hd').
  destruct (Hk a d t1 t2 (proj1 X1) (proj1 X2) Hd') as (c & u1 & u2 & R1' & R2' & Y1 & Y2 & Hd'').
  exists c, u1, u2. rewrite (mbind_run _ _ _ _ _ R1), (mbind_run _ _ _ _ _ R2).
  do 2 (split; [done|]). eauto using extends_trans.
Qed.

Lemma uniform_ret {E A} (a : A) : Uniform (mret (E := E) a).
Proof. intros d s1 s2 Hs1 Hs2 Hd. exists a, s1, s2. do 2 (split; [done|]). by repeat split; destruct Hd. Qed.

Lemma uniform_push {E} bs (w : M vbuf E unit) : (∀ s, w s = Ok (tt, push bs s)) → Uniform w.
Proof.
  intros Hw d s1 s2 Hs1 Hs2 [Hp Hl]. exists tt, (push bs s1), (push bs s2).
  do 2 (split; [done|]). do 2 (split; [by apply push_extends|]). split; [simpl; lia|done].
Qed.

Lemma uniform_u8 v : Uniform (write_u8 v).
Proof. by apply (uniform_push [v]). Qed.
Lemma uniform_u16 v : Uniform (write_u16 v).
Proof. apply (uniform_push (u16_bytes v)), write_u16_push. Qed.
Lemma uniform_u32 v : Uniform (write_u32 v).
Proof. apply (uniform_push (u32_bytes v)), write_u32_push. Qed.
Lemma uniform_bytes bs : Uniform (mfor bs write_u8).
Proof. apply (uniform_push bs), write_all_push. Qed.

Lemma uniform_for {E A} (l : list A) (f : A → M vbuf E unit) :
  (∀ x, Uniform (f x)) → Uniform (mfor l f).
Proof. intros Hf. induction l; [apply uniform_ret|]. by apply uniform_bind. Qed.

Lemma uniform_save {A} lbl (k : M vbuf BufferError A) :
  Uniform k → Uniform (let? p := mget pb_pos in pb_save_label lbl p ;? k).
Proof.
  intros Hk d s1 s2 Hs1 Hs2 [Hp Hl].
  rewrite (mbind_run _ _ s1 _ s1 eq_refl), (mbind_run _ _ s2 _ s2 eq_refl).
  apply (Hk d (mk (buffer s1) (pos s1) (<[lbl := pos s1]> (label_lookup s1)))
              (mk (buffer s2) (pos s2) (<[lbl := pos s2]> (label_lookup s2)))); [done..|].
  split; [done|]. simpl. by rewrite Hl, Hp, fmap_insert.
Qed.

Lemma uniform_find {A} lbl (k : option nat → M vbuf BufferError A) :
  (∀ p p', ∃ w1 w2 : M vbuf BufferError A, k (Some p) = w1 ∧ k (Some p') = w2 ∧
     ∀ d s1 s2, synced s1 → synced s2 → shifted d s1 s2 →
     ∃ a s1' s2', w1 s1 = Ok (a, s1') ∧ w2 s2 = Ok (a, s2') ∧ extends s1 s1' ∧ extends s2 s2' ∧ shifted d s1' s2') →
  Uniform (k None) → Uniform (let? found := mget (λ b, pb_find_label b lbl) in k found).
Proof.
  intros Hsome Hnone d s1 s2 Hs1 Hs2 Hd.
  rewrite (mbind_run _ _ s1 _ s1 eq_refl), (mbind_run _ _ s2 _ s2 eq_refl). simpl. unfold find_label.
  rewrite (proj2 Hd), lookup_fmap. destruct (label_lookup s1 !! lbl) as [p|]; simpl; [|by apply Hnone].
  destruct (Hsome p (p + d)) as (w1 & w2 & -> & -> & Hw). by apply Hw.
Qed.

Lemma uniform_labels ls : Uniform (write_labels ls).
Proof.
  induction ls as [|l ls IH]; [apply uniform_ret|]. cbn [write_labels].
  apply uniform_find; [|apply uniform_save].
  - intros p p'. do 2 eexists. split; [reflexivity|]. split; [reflexivity|].
    intros d s1 s2 Hs1 Hs2 [Hp Hl]. rewrite !(mbind_run _ _ _ _ _ (write_u16_push _ _)).
    do 3 eexists. split; [reflexivity|]. split; [reflexivity|].
    do 2 (split; [by apply push_extends|]). split; [simpl; lia|done].
  - apply uniform_bind; [apply uniform_u8|intros _]. apply uniform_bind; [apply uniform_bytes|done].
Qed.

Lemma uniform_qname name : Uniform (write_qname name).
Proof.
  apply uniform_bind; [apply uniform_labels|]. intros []; [apply uniform_ret|apply uniform_u8].
Qed.

Lemma uniform_sized data : Uniform data → Uniform (DnsRecord.write_sized data).
Proof.
  intros Hdata d s1 s2 Hs1 Hs2 Hd. unfold DnsRecord.write_sized.
  rewrite (mbind_run _ _ s1 _ s1 eq_refl), (mbind_run _ _ s2 _ s2 eq_refl).
  rewrite !(mbind_run _ _ _ _ _ (write_u16_push _ _)).
  destruct (Hdata d (push (u16_bytes 0) s1) (push (u16_bytes 0) s2))
    as ([] & t1 & t2 & R1 & R2 & X1 & X2 & Hd'); [by apply push_synced..| |].
  { destruct Hd as [Hp Hl]. split; [simpl; lia|done]. }
  rewrite (mbind_run _ _ _ _ _ R1), (mbind_run _ _ _ _ _ R2).
  rewrite (mbind_run _ _ t1 _ t1 eq_refl), (mbind_run _ _ t2 _ t2 eq_refl).
  change (pb_pos s1) with (pos s1). change (pb_pos s2) with (pos s2). rewrite Hs1, Hs2.
  assert (∀ s t v, synced s → extends (push (u16_bytes 0) s) t →
    ∃ u, (set_u16 (size s) v ;? mret (E := ProtocolError) tt) t = Ok (tt, u) ∧ extends s u ∧
         pos u = pos t ∧ label_lookup u = label_lookup t) as Hset.
  { intros s t v Hs He. pose proof (extends_length _ _ He) as Hlen.
    simpl in Hlen. rewrite length_app in Hlen. simpl in Hlen.
    rewrite (mbind_run _ _ _ _ _ (set_u16_ok (size s) v t ltac:(lia))).
    eexists. split; [reflexivity|]. split; [|done]. destruct He as [Ht [x Hx]].
    split; [unfold synced in *; simpl; by rewrite !length_insert|]. simpl. rewrite Hx. simpl.
    rewrite <- app_assoc, !insert_app_r_alt by lia. by eexists. }
  destruct (Hset s1 t1 (wrap 16 (Z.of_nat (pb_pos t1 - (size s1 + 2))))) as (u1 & U1 & Y1 & P1 & L1); [done..|].
  destruct (Hset s2 t2 (wrap 16 (Z.of_nat (pb_pos t2 - (size s2 + 2))))) as (u2 & U2 & Y2 & P2 & L2); [done..|].
  exists tt, u1, u2. split; [done|]. split; [done|]. do 2 (split; [done|]).
  destruct Hd' as [Hp Hl]. split; [by rewrite P1, P2|by rewrite L1, L2].
Qed.

Ltac uniform := repeat match goal with
  | |- Uniform (mbind_ _ _) => apply uniform_bind; [|intros ?]
  | |- Uniform (DnsRecord.write_sized _) => apply uniform_sized
  | |- Uniform (mret _) => apply uniform_ret
  | |- Uniform (write_u8 _) => apply uniform_u8
  | |- Uniform (write_u16 _) => apply uniform_u16
  | |- Uniform (write_u32 _) => apply uniform_u32
  | |- Uniform (write_qname _) => apply uniform_qname
  | |- Uniform (mfor _ _) => apply uniform_for; intros ?
  end.

Lemma uniform_record r : Uniform (DnsRecord.write_record r).
Proof. destruct r; unfold DnsRecord.write_record, DnsRecord.write_head; uniform. Qed.

Lemma uniform_question q : Uniform (DnsQuestion.write q).
Proof. unfold DnsQuestion.write. uniform. Qed.

Lemma uniform_write r : Uniform (DnsRecord.write r).
Proof.
  intros d s1 s2 Hs1 Hs2 Hd. unfold DnsRecord.write.
  rewrite (mbind_run _ _ s1 _ s1 eq_refl), (mbind_run _ _ s2 _ s2 eq_refl).
  destruct (uniform_record r d s1 s2 Hs1 Hs2 Hd) as ([] & t1 & t2 & R1 & R2 & X1 & X2 & Hd').
  rewrite (mbind_run _ _ _ _ _ R1), (mbind_run _ _ _ _ _ R2). unfold mget.
  do 3 eexists. split; [reflexivity|]. split; [|done]. do 2 f_equal. simpl.
  destruct Hd as [-> _], Hd' as [-> _]. lia.
Qed.

Lemma uniform_total {E A} (w : M vbuf E A) s : Uniform w → synced s → ∃ a s', w s = Ok (a, s') ∧ extends s s'.
Proof.
  intros Hw Hs. destruct (Hw 0 s s Hs Hs) as (a & s' & _ & R & _ & X & _ & _); [|eauto].
  split; [lia|]. rewrite <- (map_fmap_id (label_lookup s)) at 1. apply map_fmap_ext. intros. simpl. lia.
Qed.
End Uniform.
