(* ===== verification/ProtocolProps.v ===== *)
(** * Properties of the DNS message format *)

From S2P Require Import Prelude Text Net Buffer BufferFacts Protocol ProtocolFacts.
Open Scope nat_scope.

(** ** Header *)
Module Header.
Import DnsHeader.
Open Scope Z_scope.

Definition header_ok (h : t) : Prop :=
  is_u16 (id h) ∧ 0 <= opcode h < 16 ∧ is_u16 (questions h) ∧ is_u16 (answers h) ∧
  is_u16 (authoritative_entries h) ∧ is_u16 (resource_entries h).

(** The flag bytes are decoded bit by bit; the opcode has 16 values. *)
Definition flags_a_ok (h : t) : bool :=
  let a := flags_a h in
  fits 8 a && bool_decide ((Z.land a 1 >? 0) = recursion_desired h) &&
  bool_decide ((Z.land a 2 >? 0) = truncated_message h) &&
  bool_decide ((Z.land a 4 >? 0) = authoritative_answer h) &&
  (Z.land (Z.shiftr a 3) 15 =? opcode h) && bool_decide ((Z.land a 128 >? 0) = response h).

Definition with_flags (rd tc aa rs : bool) (op : Z) : t :=
  mk 0 rd tc aa op rs ResultCode.NOERROR false false false false 0 0 0 0.

Lemma flags_a_all : forallb (λ rd, forallb (λ tc, forallb (λ aa, forallb (λ rs,
    forallb (λ op, flags_a_ok (with_flags rd tc aa rs (Z.of_nat op))) (seq 0 16))
    [true; false]) [true; false]) [true; false]) [true; false] = true.
Proof. vm_compute. done. Qed.

Lemma both_bools (f : bool → bool) b : forallb f [true; false] = true → f b = true.
Proof. simpl. rewrite !andb_true_iff. intros (? & ? & _). by destruct b. Qed.

Lemma flags_a_decode h : 0 <= opcode h < 16 → flags_a_ok h = true.
Proof.
  intros Ho. pose proof flags_a_all as Hall.
  apply (both_bools _ (recursion_desired h)), (both_bools _ (truncated_message h)),
    (both_bools _ (authoritative_answer h)), (both_bools _ (response h)) in Hall.
  rewrite forallb_forall in Hall. specialize (Hall (Z.to_nat (opcode h)) ltac:(apply in_seq; lia)).
  rewrite Z2Nat.id in Hall by lia. destruct h. exact Hall.
Qed.

Lemma flags_b_decode h : let b := flags_b h in
  is_u8 b ∧ ResultCode.from_num (Z.land b 15) = rescode h ∧ (Z.land b 16 >? 0) = checking_disabled h ∧
  (Z.land b 32 >? 0) = authed_data h ∧ (Z.land b 64 >? 0) = z h ∧ (Z.land b 128 >? 0) = recursion_available h.
Proof.
  destruct h as [????? ? r cd ad zz ra ????]. unfold flags_b, is_u. simpl.
  destruct r, cd, ad, zz, ra; by vm_compute.
Qed.

Definition header_bytes (h : t) : bytes :=
  u16_bytes (id h) ++ [flags_a h; flags_b h] ++ u16_bytes (questions h) ++ u16_bytes (answers h) ++
  u16_bytes (authoritative_entries h) ++ u16_bytes (resource_entries h).

Lemma header_push h s : write h s = Ok (tt, push (header_bytes h) s).
Proof.
  unfold write. rewrite (mbind_run _ _ _ _ _ (write_u16_push _ _)).
  do 2 rewrite (mbind_run _ _ _ _ _ (write_u8_push _ _)).
  do 4 rewrite (mbind_run _ _ _ _ _ (write_u16_push _ _)). unfold mret. by rewrite !push_push.
Qed.

Lemma two_bytes a b : is_u8 a → is_u8 b → let v := a * 256 + b in
  is_u16 v ∧ u16_bytes v = [a; b] ∧ wrap 8 (Z.shiftr v 8) = a ∧ wrap 8 (Z.land v 255) = b.
Proof.
  intros Ha Hb v. assert (wrap 8 (Z.shiftr v 8) = a ∧ wrap 8 (Z.land v 255) = b) as [E1 E2].
  { rewrite land_ones8, Z.shiftr_div_pow2 by lia. unfold wrap, is_u in *. rewrite Z.mod_mod by lia.
    subst v. split; Z.to_euclidean_division_equations; lia. }
  unfold u16_bytes. rewrite E1, E2. split_and!; [|done..]. unfold is_u in *. lia.
Qed.

Lemma emits_header `{RL : ReadLaws B} hole h : header_ok h → Emits hole (write h) read h.
Proof.
  intros (Hid & Ho & Hq & Han & Hau & Hre). apply (emits_push _ (header_bytes h)); [apply header_push|].
  pose proof (flags_a_decode h Ho) as Ha. unfold flags_a_ok in Ha.
  rewrite !andb_true_iff, !bool_decide_eq_true, Z.eqb_eq, fits_is_u in Ha.
  destruct Ha as (((((Hafits & Hrd) & Htc) & Haa) & Hop) & Hrs).
  destruct (flags_b_decode h) as (Hbfits & Hrc & Hcd & Had & Hz & Hra).
  destruct (two_bytes (flags_a h) (flags_b h) Hafits Hbfits) as (Hv & Hbytes & Hhi & Hlo).
  intros m p _ Hb. unfold header_bytes in Hb. rewrite <- Hbytes, !bytes_at_app in Hb.
  destruct Hb as (B1 & B2 & B3 & B4 & B5 & B6). unfold read.
  do 2 (eapply reads_bind; [by apply reads_u16|]). rewrite Hhi, Hlo.
  do 4 (eapply reads_bind; [by apply reads_u16|]).
  rewrite Hrd, Htc, Haa, Hop, Hrs, Hrc, Hcd, Had, Hz, Hra.
  change (length (header_bytes h)) with 12%nat.
  replace (p + 12)%nat with (p + 2 + 2 + 2 + 2 + 2 + 2)%nat by lia. destruct h. apply reads_ret.
Qed.
End Header.

(** ** Packets *)
Module Packet.
Import DnsPacket.

Definition question_ok (q : DnsQuestion.t) : Prop :=
  name_ok (DnsQuestion.name q) ∧ is_u16 (QueryType.to_num (DnsQuestion.qtype q)).
Definition wire_question (q : DnsQuestion.t) : DnsQuestion.t :=
  DnsQuestion.new (lower (DnsQuestion.name q)) (QueryType.from_num (QueryType.to_num (DnsQuestion.qtype q))).

(** The first [k] records of a packet, section by section. *)
Definition answers_of (k : nat) (p : t) := take k (answers p).
Definition authorities_of (k : nat) (p : t) := take (k - length (answers p)) (authorities p).
Definition resources_of (k : nat) (p : t) :=
  take (k - length (answers p) - length (authorities p)) (resources p).

Lemma take_records k p : take k (records p) = answers_of k p ++ authorities_of k p ++ resources_of k p.
Proof. unfold records. by rewrite !take_app. Qed.

(** The header of a packet of which [k] records are sent. *)
Definition counted (h : DnsHeader.t) (p : t) (k : nat) : DnsHeader.t :=
  DnsHeader.set_counts h (DnsHeader.questions h) (Z.of_nat (length (answers_of k p)))
    (Z.of_nat (length (authorities_of k p))) (Z.of_nat (length (resources_of k p))).

(** A packet as the callers build it: counts at zero, sections that a 16-bit
    count can express. *)
Definition packet_ok (p : t) : Prop :=
  DnsHeader.answers (header p) = 0%Z ∧ DnsHeader.authoritative_entries (header p) = 0%Z ∧
  DnsHeader.resource_entries (header p) = 0%Z ∧
  (Z.of_nat (length (questions p)) < 2 ^ 16)%Z ∧ (Z.of_nat (length (answers p)) < 2 ^ 16)%Z ∧
  (Z.of_nat (length (authorities p)) < 2 ^ 16)%Z ∧ (Z.of_nat (length (resources p)) < 2 ^ 16)%Z.

(** The size that [k] records take after the questions. *)
Section Measure.
Context {BP : Build}.

Lemma counted_succ h p i (r : outcome ProtocolError DnsHeader.t) :
  packet_ok p → i < length (records p) →
  r = (let q := DnsHeader.questions h in
       let an := Z.of_nat (length (answers_of i p)) in
       let au := Z.of_nat (length (authorities_of i p)) in
       let re := Z.of_nat (length (resources_of i p)) in
       if bool_decide (i < length (answers p)) then
         let! an := add_w 16 an 1 in Ok (DnsHeader.set_counts h q an au re)
       else if bool_decide (i < length (answers p) + length (authorities p)) then
         let! au := add_w 16 au 1 in Ok (DnsHeader.set_counts h q an au re)
       else let! re := add_w 16 re 1 in Ok (DnsHeader.set_counts h q an au re)) →
  r = Ok (counted h p (S i)).
Proof.
  intros (_ & _ & _ & _ & Han & Hau & Hre) Hi ->. unfold records in Hi. rewrite !length_app in Hi.
  unfold counted, answers_of, authorities_of, resources_of, add_w. rewrite !length_take.
  case_bool_decide; [|case_bool_decide]; rewrite arith_fits by (unfold is_u; lia); rewrite obind_Ok;
    do 2 f_equal; lia.
Qed.

Definition write_all (rs : list DnsRecord.t) : M vbuf ProtocolError unit :=
  mfor rs (λ r, DnsRecord.write r ;? mret tt).

Lemma uniform_all rs : Uniform (write_all rs).
Proof. apply uniform_for. intros r. apply uniform_bind; [apply uniform_write|intros; apply uniform_ret]. Qed.

(** What the sizing loop finds: it stops at some record [k], either the end or
    the first one past the limit; the records before it fit. *)
Lemma count_records_spec p max h recs i size0 tb :
  packet_ok p → recs = drop i (records p) → i ≤ length (records p) → synced tb →
  ∃ k tb', i ≤ k ≤ length (records p) ∧
    write_all (take (k - i) recs) tb = Ok (tt, tb') ∧
    (i < k → size0 + (size tb' - size tb) ≤ max) ∧
    count_records p max recs i size0 (counted h p i) tb =
      Ok (if bool_decide (k < length (records p)) then DnsHeader.set_truncated (counted h p k)
          else counted h p k, k).
Proof.
  intros Hp. revert i size0 tb. induction recs as [|r recs IH]; intros i size0 tb Hd Hi Htb.
  - exists i, tb. assert (i = length (records p)) as ->.
    { symmetry in Hd. apply (f_equal length) in Hd. rewrite length_drop in Hd. simpl in Hd. lia. }
    rewrite bool_decide_false by lia. split_and!; [lia|lia|by rewrite take_nil|lia|done].
  - assert (i < length (records p)) as Hlt.
    { symmetry in Hd. apply (f_equal length) in Hd. rewrite length_drop in Hd. simpl in Hd. lia. }
    destruct (uniform_total _ tb (uniform_write r) Htb) as (n & tb1 & Hw & He).
    cbn [count_records]. rewrite Hw, obind_Ok. case_bool_decide as Hmax.
    + exists i, tb. rewrite bool_decide_true by done. rewrite Nat.sub_diag. split_and!; [lia|lia|done|lia|done].
    + assert (recs = drop (S i) (records p)) as Hd1.
      { change recs with (drop 1 (r :: recs)). rewrite Hd, drop_drop. f_equal. lia. }
      destruct (IH (S i) (size0 + n) tb1 Hd1 ltac:(lia) (proj1 He)) as (k & tb' & Hk & Hrun & Hsize & Hc).
      exists k, tb'. split_and!; [lia|lia| | |].
      * replace (k - i) with (S (k - S i)) by lia. unfold write_all. cbn [take mfor].
        rewrite (mbind_run (DnsRecord.write r ;? mret tt) _ tb tt tb1); [exact Hrun|].
        exact (mbind_run _ (λ _, mret tt) _ _ _ Hw).
      * intros _. apply write_inv in Hw as [_ Hn]. pose proof (proj1 He) as Hs1. unfold synced in Htb, Hs1.
        destruct (decide (S i < k)) as [Hik|Hik].
        { specialize (Hsize Hik). lia. }
        { replace (k - S i) with 0 in Hrun by lia. injection Hrun as <-. lia. }
      * match goal with |- (let! h := ?r in _) = _ => rewrite (counted_succ h p i r Hp Hlt eq_refl) end.
        rewrite obind_Ok.
        by replace (i + 1) with (S i) by lia.
Qed.

(** The header of the packet that is sent when [k] records are kept. *)
Definition sent_header (p : t) (k : nat) : DnsHeader.t :=
  let h := counted (header p) p k in
  let h := if bool_decide (k < length (records p)) then DnsHeader.set_truncated h else h in
  DnsHeader.set_counts h (wrap 16 (Z.of_nat (length (questions p))))
    (DnsHeader.answers h) (DnsHeader.authoritative_entries h) (DnsHeader.resource_entries h).

Definition start_size (p : t) : nat :=
  fold_left (λ x q, x + DnsQuestion.binary_len q) (questions p) (DnsHeader.binary_len (header p)).

Lemma counted_0 p : packet_ok p → counted (header p) p 0 = header p.
Proof.
  intros (Han & Hau & Hre & _). unfold counted, answers_of, authorities_of, resources_of. simpl.
  destruct (header p). simpl in *. by subst.
Qed.

Lemma measure_spec p max : packet_ok p → ∃ k tb1 tb,
  k ≤ length (records p) ∧
  mfor (questions p) DnsQuestion.write VectorPacketBuffer.new = Ok (tt, tb1) ∧ synced tb1 ∧
  write_all (take k (records p)) tb1 = Ok (tt, tb) ∧
  (0 < k → start_size p + (size tb - size tb1) ≤ max) ∧
  (let h := counted (header p) p k in
   measure p max = Ok (if bool_decide (k < length (records p)) then DnsHeader.set_truncated h else h, k)).
Proof.
  intros Hp.
  destruct (uniform_total (mfor (questions p) DnsQuestion.write) VectorPacketBuffer.new) as ([] & tb1 & Hq & He);
    [by apply uniform_for, uniform_question|done|].
  destruct (count_records_spec p max (header p) (records p) 0 (start_size p) tb1 Hp eq_refl ltac:(lia) (proj1 He))
    as (k & tb & Hk & Hw & Hsize & Hc).
  rewrite Nat.sub_0_r in Hw. rewrite counted_0 in Hc by done.
  exists k, tb1, tb. split_and!; [lia|done|apply He|done|done|].
  unfold measure. rewrite Hq, obind_Ok. done.
Qed.

(** [DnsPacket::write] always succeeds; it sends the header, the questions and
    the first [k] records. *)
Lemma write_spec p max : packet_ok p → ∃ k tb1 tb b1 b,
  k ≤ length (records p) ∧
  mfor (questions p) DnsQuestion.write VectorPacketBuffer.new = Ok (tt, tb1) ∧
  write_all (take k (records p)) tb1 = Ok (tt, tb) ∧
  (0 < k → start_size p + (size tb - size tb1) ≤ max) ∧
  mfor (questions p) DnsQuestion.write (push (Header.header_bytes (sent_header p k)) VectorPacketBuffer.new) = Ok (tt, b1) ∧
  write_all (take k (records p)) b1 = Ok (tt, b) ∧
  write p max VectorPacketBuffer.new = Ok (set_header p (sent_header p k), b) ∧
  extends tb1 tb ∧ extends b1 b ∧ size b1 = size tb1 + 12 ∧ size b = size tb + 12.
Proof.
  intros Hp. destruct (measure_spec p max Hp) as (k & tb1 & tb & Hk & Hq & Hs1 & Hw & Hsize & Hm).
  set (hb := push (Header.header_bytes (sent_header p k)) VectorPacketBuffer.new).
  assert (synced hb) as Hhb by by apply push_synced.
  destruct (uniform_for (questions p) DnsQuestion.write uniform_question 12 VectorPacketBuffer.new hb)
    as ([] & tb1' & b1 & Q1 & Q2 & Y1 & Y2 & Hd1); [done|done|by split|].
  rewrite Hq in Q1. injection Q1 as <-.
  destruct (uniform_all (take k (records p)) 12 tb1 b1) as ([] & tb' & b & R1 & R2 & X1 & X2 & Hd2);
    [done|apply Y2|done|]. rewrite Hw in R1. injection R1 as <-.
  exists k, tb1, tb, b1, b. do 6 (split; [done|]). split.
  - unfold write. unfold mlift at 1. unfold mbind_ at 1. rewrite Hm. simpl obind. cbv iota beta.
    unfold sent_header in *. rewrite (mbind_run _ _ _ _ _ (Header.header_push _ _)).
    subst hb. rewrite (mbind_run _ _ _ _ _ Q2). rewrite (mbind_run _ _ _ _ _ R2). done.
  - do 2 (split; [done|]). destruct Hd1 as [P1 _], Hd2 as [P2 _].
    rewrite <- (proj1 Y1), <- (proj1 Y2), <- (proj1 X1), <- (proj1 X2). done.
Qed.

(** *** Sizes *)

Lemma sum_list_cons x l : sum_list (x :: l) = x + sum_list l.
Proof. done. Qed.

Lemma fold_add l a : fold_left (λ x y, x + y) l a = a + sum_list l.
Proof. revert a. induction l as [|x l IH]; intros a; simpl; [lia|]. rewrite IH. lia. Qed.

Lemma labels_size ls s j s' : write_labels ls s = Ok (j, s') →
  size s' ≤ size s + sum_list ((λ x, length x + 1) <$> ls) + (if j then 1 else 0).
Proof.
  revert s. induction ls as [|l ls IH]; intros s Hw; cbn [write_labels] in Hw.
  - injection Hw as <- <-. simpl. lia.
  - rewrite (mbind_run _ _ s _ s eq_refl) in Hw. simpl in Hw.
    destruct (VectorPacketBuffer.find_label _ _) as [prev|].
    + rewrite (mbind_run _ _ _ _ _ (write_u16_push _ _)) in Hw. injection Hw as <- <-.
      simpl. rewrite length_app. simpl. lia.
    + rewrite (mbind_run _ _ s _ s eq_refl) in Hw.
      do 2 (erewrite (mbind_run _ _ _ tt) in Hw; [|reflexivity]).
      rewrite (mbind_run _ _ _ _ _ (write_all_push _ _)) in Hw.
      apply IH in Hw. rewrite fmap_cons. simpl in Hw. rewrite !length_app in Hw. simpl in Hw.
      rewrite sum_list_cons. lia.
Qed.

Lemma question_size q s s' : DnsQuestion.write q s = Ok (tt, s') → size s' ≤ size s + DnsQuestion.binary_len q + 4.
Proof.
  unfold DnsQuestion.write, write_qname. intros Hw.
  apply mbind_inv in Hw as ([] & s1 & Hn & Hw). apply mbind_inv in Hn as (j & s0 & Hl & Hj).
  do 2 rewrite (mbind_run _ _ _ _ _ (write_u16_push _ _)) in Hw. injection Hw as <-.
  apply labels_size in Hl. unfold DnsQuestion.binary_len. rewrite fold_add.
  destruct j; injection Hj as <-; simpl; rewrite !length_app; simpl; lia.
Qed.

Lemma start_size_sum p : start_size p = 12 + sum_list (DnsQuestion.binary_len <$> questions p).
Proof.
  unfold start_size. change (DnsHeader.binary_len _) with 12. generalize 12.
  induction (questions p) as [|q qs IH]; intros n; [simpl; lia|].
  cbn [fold_left]. rewrite IH, fmap_cons, sum_list_cons. lia.
Qed.

Lemma questions_size qs s s' : mfor qs DnsQuestion.write s = Ok (tt, s') →
  size s' ≤ size s + sum_list (DnsQuestion.binary_len <$> qs) + 4 * length qs.
Proof.
  revert s. induction qs as [|q qs IH]; intros s Hw; cbn [mfor] in Hw.
  - injection Hw as <-. simpl. lia.
  - apply mbind_inv in Hw as ([] & s1 & Hq & Hw). apply question_size in Hq. apply IH in Hw.
    rewrite fmap_cons, sum_list_cons. simpl length. lia.
Qed.
End Measure.

(** *** Reading a packet back *)
Section Read.
Context {B : Type} {PB : PacketBuffer B} {RL : ReadLaws B} {U : Unicode} {BP : Build}.

Lemma emits_question q fuel : question_ok q → name_fuel (DnsQuestion.name q) ≤ fuel →
  Emits None (DnsQuestion.write q) (DnsQuestion.read fuel (DnsQuestion.new [] (QueryType.UNKNOWN 0))) (wire_question q).
Proof.
  intros [Hn Hq] Hf. unfold DnsQuestion.write, DnsQuestion.read.
  eapply emits_bind; [by apply emits_name|]. eapply emits_bind; [by apply emits_u16|].
  apply emits_done. eapply emits_last; [by apply (emits_u16 _ 1)|done].
Qed.

Lemma emits_all rs fuel : Forall record_ok rs → Forall (λ r, record_fuel r ≤ fuel) rs →
  Emits None (write_all rs) (mrepeat (length rs) (DnsRecord.read fuel)) (wire_image <$> rs).
Proof.
  intros Hok Hf. apply emits_for. rewrite Forall_forall in *. intros r Hr.
  assert (Emits None (DnsRecord.write_record r) (DnsRecord.read fuel) (wire_image r)) as [HA HR]
    by (apply emits_record; auto).
  assert (∀ s s' : vbuf, (DnsRecord.write r ;? mret (E := ProtocolError) tt) s = Ok (tt, s') →
    DnsRecord.write_record r s = Ok (tt, s')) as Hinv.
  { intros s s' Hw. apply mbind_inv in Hw as (n & s1 & Hw & Hs). injection Hs as <-. by apply write_inv in Hw as [Hw _]. }
  split; [intros s [] s' Hs Hw%Hinv; by eapply HA|].
  intros s s' Hs Hh Hg Hw%Hinv Hreach. by apply HR.
Qed.

Definition fuel_ok (fuel : nat) (p : t) : Prop :=
  Forall (λ q, name_fuel (DnsQuestion.name q) ≤ fuel) (questions p) ∧
  Forall (λ r, record_fuel r ≤ fuel) (records p).

(** What the reader makes of a packet of which the first [k] records were sent. *)
Definition wire_packet (p : t) (k : nat) : t :=
  mk (sent_header p k) (wire_question <$> questions p) (wire_image <$> answers_of k p)
     (wire_image <$> authorities_of k p) (wire_image <$> resources_of k p).

Definition sendable (p : t) : Prop :=
  packet_ok p ∧ is_u16 (DnsHeader.id (header p)) ∧ (0 ≤ DnsHeader.opcode (header p) < 16)%Z ∧
  Forall question_ok (questions p) ∧ Forall record_ok (records p).

Lemma sent_header_ok p k : sendable p → Header.header_ok (sent_header p k).
Proof.
  intros ((_ & _ & _ & Hq & Han & Hau & Hre) & Hid & Hop & _).
  unfold sent_header, counted, answers_of, authorities_of, resources_of.
  case_bool_decide; (split_and!; simpl; [done|apply Hop|apply Hop|by apply wrap_is_u|..]);
    unfold is_u; rewrite length_take; lia.
Qed.

Lemma mfor_app {S E A} (f : A → M S E unit) l1 l2 s s' :
  mfor (l1 ++ l2) f s = Ok (tt, s') → ∃ s1, mfor l1 f s = Ok (tt, s1) ∧ mfor l2 f s1 = Ok (tt, s').
Proof.
  revert s. induction l1 as [|x l1 IH]; intros s Hw; cbn [mfor app] in *; [by exists s|].
  apply mbind_inv in Hw as ([] & s0 & Hx & Hw). apply IH in Hw as (s1 & H1 & H2).
  exists s1. by rewrite (mbind_run _ _ _ _ _ Hx).
Qed.

Lemma sent_counts p k : packet_ok p → let h := sent_header p k in
  Z.to_nat (DnsHeader.questions h) = length (questions p) ∧
  Z.to_nat (DnsHeader.answers h) = length (answers_of k p) ∧
  Z.to_nat (DnsHeader.authoritative_entries h) = length (authorities_of k p) ∧
  Z.to_nat (DnsHeader.resource_entries h) = length (resources_of k p).
Proof.
  intros (_ & _ & _ & Hq & _). unfold sent_header. rewrite wrap_small by (unfold is_u; lia).
  case_bool_decide; simpl; rewrite !Nat2Z.id; done.
Qed.

(** The writer of [DnsPacket::write] after the sizing, against [from_buffer]. *)
Lemma emits_packet p k fuel : sendable p → fuel_ok fuel p →
  Emits None
    (DnsHeader.write (sent_header p k) ;? mfor (questions p) DnsQuestion.write ;?
     write_all (answers_of k p) ;? write_all (authorities_of k p) ;? write_all (resources_of k p) ;? mret tt)
    (from_buffer fuel) (wire_packet p k).
Proof.
  intros Hs [Hfq Hfr]. pose proof (sent_header_ok p k Hs) as Hh.
  destruct Hs as (Hp & _ & _ & Hq & Hr). destruct (sent_counts p k Hp) as (Cq & Can & Cau & Cre).
  assert (Forall (λ r, record_ok r ∧ record_fuel r ≤ fuel) (take k (records p))) as Hall
    by (apply Forall_take, Forall_and; done).
  rewrite take_records, !Forall_app, !Forall_and in Hall. destruct Hall as ([A1 A2] & [B1 B2] & [C1 C2]).
  unfold from_buffer. eapply emits_bind; [by apply Header.emits_header|]. rewrite Cq, Can, Cau, Cre.
  eapply emits_bind.
  { apply emits_for. rewrite Forall_forall in Hq, Hfq. rewrite Forall_forall.
    intros q Hin. apply emits_question; auto. }
  eapply emits_bind; [by apply emits_all|]. eapply emits_bind; [by apply emits_all|].
  apply emits_done. eapply emits_last; [by apply emits_all|done].
Qed.

End Read.

(** C14: the packet that [DnsPacket::write] sends is the packet its receiver
    parses. For a packet as the program builds it (counts at zero, opcode of 4
    bits, names of ASCII labels of 1 to 63 bytes, integers of their Rust types,
    no UNKNOWN record) [write] succeeds and keeps some number [k] of the
    records; [from_buffer] on any buffer kind that holds the bytes returns the
    header with the right counts and flags, the questions, and exactly the
    first [k] records, each in its section, names in lower case, compression
    pointers resolved. All is kept unless the truncation bit says otherwise. *)
Theorem packet_roundtrip `{RL : ReadLaws B} `{U : Unicode} `{BP : Build} p max fuel :
  sendable p → fuel_ok fuel p →
  ∃ k p' s, write p max VectorPacketBuffer.new = Ok (p', s) ∧ k ≤ length (records p) ∧
    header p' = sent_header p k ∧
    (DnsHeader.truncated_message (header p) = false →
     (DnsHeader.truncated_message (header p') = false ↔ k = length (records p))) ∧
    (in_reach s → ∀ b : B, holds (view None (content s)) (rl_content b) → pb_pos b = 0 →
     ∃ b', from_buffer fuel b = Ok (wire_packet p k, b') ∧ pb_pos b' = size s).
Proof.
  intros Hs Hf.
  destruct (write_spec p max (proj1 Hs)) as (k & tb1 & tb & b1 & s & Hk & _ & _ & _ & Hq & Hw & Hrun & _ & _ & _ & _).
  exists k, (set_header p (sent_header p k)), s. split; [done|]. split; [done|]. split; [done|]. split.
  - intros Ht. simpl. unfold sent_header. case_bool_decide; simpl; [split; [done|lia]|]. split; [lia|done].
  - intros Hreach b Hb Hpos. destruct (emits_packet p k fuel Hs Hf) as [_ HR].
    rewrite take_records in Hw. apply mfor_app in Hw as (s2 & Ha & Hw). apply mfor_app in Hw as (s3 & Hau & Hre).
    destruct (HR VectorPacketBuffer.new s) as [_ Hr]; [done|done|apply new_good| |done|].
    { rewrite (mbind_run _ _ _ _ _ (Header.header_push _ _)), (mbind_run _ _ _ _ _ Hq).
      unfold write_all. rewrite (mbind_run _ _ _ _ _ Ha), (mbind_run _ _ _ _ _ Hau), (mbind_run _ _ _ _ _ Hre). done. }
    destruct (Hr b Hb Hpos) as (b' & H1 & _ & H2). eauto.
Qed.

(** C38: [DnsPacket::write] never fails on a packet as the program builds it, and
    the message is at most [max_size] bytes long (or what the header and the
    questions take when that alone is more) plus 4 bytes for every question:
    the type and class of a question are not counted by [binary_len]. *)
Theorem packet_size_bound `{BP : Build} p max : packet_ok p →
  ∃ p' s, write p max VectorPacketBuffer.new = Ok (p', s) ∧
    size s ≤ Nat.max max (12 + sum_list (DnsQuestion.binary_len <$> questions p)) + 4 * length (questions p).
Proof.
  intros Hp. destruct (write_spec p max Hp)
    as (k & tb1 & tb & b1 & s & Hk & Hq & Hw & Hsize & _ & _ & Hrun & He & _ & _ & Hlen).
  eexists _, s. split; [done|]. rewrite Hlen. apply questions_size in Hq. simpl in Hq.
  rewrite start_size_sum in Hsize. apply extends_length in He.
  destruct (decide (0 < k)) as [Hk0|Hk0]; [specialize (Hsize Hk0); lia|].
  replace k with 0 in Hw by lia. injection Hw as <-. lia.
Qed.
End Packet.

(** ** Concrete packets *)
Module Examples.
Import DnsPacket Packet.
#[local] Existing Instance ascii_tables.

Definition query : t := ProtocolTests.packet.

Lemma query_ok : packet_ok query.
Proof. by vm_compute. Qed.

Lemma query_sendable : sendable query.
Proof.
  split; [apply query_ok|]. split; [by vm_compute|]. split; [by vm_compute|]. split.
  - apply Forall_singleton. split; [apply name_ok_dec_ok|]; by vm_compute.
  - repeat (apply Forall_cons; split; [apply record_ok_dec; by vm_compute|]). by apply Forall_nil.
Qed.

Lemma packet_roundtrip_witness :
  ∃ k p' s, write (BP := true) query 512 VectorPacketBuffer.new = Ok (p', s) ∧ k ≤ 4 ∧ size s = 100 ∧
    ∃ b', from_buffer (U := ascii_tables) (BP := true) 40 (StreamPacketBuffer.new (content s)) = Ok (wire_packet query k, b').
Proof.
  destruct (packet_roundtrip (B := StreamPacketBuffer.t) (U := ascii_tables) (BP := true) query 512 40)
    as (k & p' & s & Hw & Hk & _ & _ & Hr).
  - apply query_sendable.
  - split; [apply Forall_singleton|repeat (apply Forall_cons; split); [..|by apply Forall_nil]]; vm_compute; lia.
  - exists k, p', s. split; [exact Hw|]. split; [exact Hk|].
    assert (size s = 100) as Hsize.
    { apply (f_equal (λ o, match o with Ok (_, s) => size s | _ => 0 end)) in Hw. by vm_compute in Hw. }
    split; [exact Hsize|].
    destruct (Hr ltac:(unfold in_reach; rewrite Hsize; reflexivity) (StreamPacketBuffer.new (content s)) (holds_stream _) eq_refl)
      as (b' & Hb & _). by exists b'.
Defined.

(** A reply that the limit of 512 bytes lets through. *)
Definition txt_query : t :=
  mk (DnsHeader.mk 1 true false false 0 true ResultCode.NOERROR false false false false 0 0 0 0)
     [DnsQuestion.new (str "example.ygg") QueryType.TXT]
     [DnsRecord.TXT (str "example.ygg") (repeat 97%Z 240) 60; DnsRecord.TXT (str "example.ygg") (repeat 98%Z 221) 60] [] [].

Lemma packet_size_bound_witness :
  packet_ok txt_query ∧
  ∃ p' s, write (BP := true) txt_query 512 VectorPacketBuffer.new = Ok (p', s) ∧ size s ≤ 516.
Proof.
  split; [by vm_compute|].
  destruct (packet_size_bound (BP := true) txt_query 512 ltac:(by vm_compute)) as (p' & s & Hw & Hs).
  exists p', s. split; [exact Hw|]. vm_compute in Hs |- *. exact Hs.
Defined.

(** A reply cut to 512 bytes may be 516 bytes long. *)
Example oversized_reply :
  match write (BP := true) txt_query 512 VectorPacketBuffer.new with
  | Ok (p', s) => size s = 516 ∧ DnsHeader.truncated_message (header p') = false
  | _ => False
  end.
Proof. by vm_compute. Qed.
End Examples.
