(* ===== verification/Hash.v ===== *)
(** * Bytes and hashes (src/bytes.rs, src/blockchain/hash_utils.rs)

    SHA-256, Blakeout and Ed25519 are libraries the source calls; they are the
    operations of the class [Crypto]. *)

From S2P Require Import Prelude Text Commons.
Open Scope Z_scope.

Class Crypto := {
  sha256 : bytes → bytes;
  blakeout : bytes → bytes;
  (** [VerifyingKey::from_bytes] accepts these 32 bytes. *)
  ed_key_valid : bytes → bool;
  (** [VerifyingKey::verify]: key, message, signature. *)
  ed_verify : bytes → bytes → bytes → bool;
  (** [SigningKey::verifying_key] of a secret. *)
  ed_public : bytes → bytes;
  ed_sign : bytes → bytes → bytes;
}.

(** ** [Bytes] *)
Module Bytes.
Definition is_zero (data : bytes) : bool := forallb (λ x, x =? 0) data.

(** [u64::from_be_bytes] *)
Definition from_be_bytes (b : bytes) : Z := fold_left (λ acc x, acc * 256 + x) b 0.

Definition get_tail_u64 {E} {BP : Build} (data : bytes) : outcome E Z :=
  let! index := sub_w 64 (Z.of_nat (length data)) 8 in
  if index <=? Z.of_nat (length data) then
    let tail := drop (Z.to_nat index) data in
    if bool_decide (length tail = 8%nat) then Ok (from_be_bytes tail) else Panic
  else Panic.

Definition zero32 : bytes := replicate 32 0.
Definition zero64 : bytes := replicate 64 0.

(** [BigUint::from_bytes_le] *)
Fixpoint from_bytes_le (b : bytes) : Z :=
  match b with
  | [] => 0
  | x :: b => x + 256 * from_bytes_le b
  end.
Definition cmp (a b : bytes) : comparison := from_bytes_le a ?= from_bytes_le b.

Inductive DeError := Expected.

(** The deserializer of the hexadecimal form; [unwrap] panics on bad digits. *)
Definition visit_str {BP : Build} {U : Unicode} (value : rstr) : outcome DeError bytes :=
  if negb (bool_decide (value = [])) && (Z.of_nat (length value) mod 2 =? 0) then
    match from_hex value with
    | Ok b => Ok b
    | Err _ => Panic
    | Panic => Panic
    | OutOfFuel => OutOfFuel
    end
  else if bool_decide (value = []) then Ok []
  else Err Expected.

Definition visit_bytes (value : bytes) : bytes :=
  if bool_decide (value ≠ []) then value else [].
End Bytes.

(** ** Hash functions *)
Section HashUtils.
Context {CR : Crypto}.

Fixpoint same_loop (result : bool) (l r : bytes) : bool :=
  match l, r with
  | x :: l, y :: r => same_loop (if x =? y then result else false) l r
  | _, _ => result
  end.
Definition same_hash (l r : bytes) : bool :=
  if bool_decide (length l ≠ length r) then false else same_loop true l r.

Definition hash_sha256 (data : bytes) : bytes := sha256 data.
Definition blakeout_data (data : bytes) : bytes := blakeout data.

Definition hash_identity (identity : rstr) (key : option bytes) : bytes :=
  let base := hash_sha256 identity in
  let identity := hash_sha256 base in
  match key with
  | None => identity
  | Some key => hash_sha256 (base ++ key)
  end.

Definition leading_zeros64 (z : Z) : Z := if z =? 0 then 64 else 63 - Z.log2 z.
Fixpoint trailing_zeros_pos (p : positive) : Z :=
  match p with
  | xO p => 1 + trailing_zeros_pos p
  | _ => 0
  end.
Definition trailing_zeros64 (z : Z) : Z :=
  match z with
  | Zpos p => trailing_zeros_pos p
  | _ => 64
  end.

(** [hash[..8]] and [hash[hash.len() - 8..]] panic on a shorter hash. *)
Definition hash_difficulty {E} (hash : bytes) : outcome E Z :=
  if bool_decide (length hash < 8)%nat then Panic else
  let int_start := Bytes.from_be_bytes (take 8 hash) in
  let int_end := Bytes.from_be_bytes (drop (length hash - 8) hash) in
  Ok (leading_zeros64 int_start + trailing_zeros64 int_end).

Definition key_hash_difficulty {E} (hash : bytes) : outcome E Z :=
  if bool_decide (length hash < 8)%nat then Panic else
  Ok (leading_zeros64 (Bytes.from_be_bytes (take 8 hash))).

End HashUtils.

(** ** The tests of the source, computed *)
Module HashTests.
Example test_tail_bytes :
  Bytes.get_tail_u64 (E := unit) (BP := true) [0; 255; 255; 255; 0; 255; 255; 255] = Ok 72057589759737855.
Proof. reflexivity. Qed.

Example test_deref : same_hash Bytes.zero32 (replicate 32 0) = true.
Proof. reflexivity. Qed.
End HashTests.

(** ** Lemmas *)

Lemma same_loop_spec result a b : length a = length b → same_loop result a b = result && bool_decide (a = b).
Proof.
  revert result b. induction a as [|x a IH]; intros result [|y b] Hl; simpl in *; try done.
  - by rewrite andb_true_r.
  - rewrite IH by lia. destruct (Z.eqb_spec x y) as [->|Hne].
    + destruct result; simpl; [|done]. apply bool_decide_ext. split; [by intros ->|congruence].
    + simpl. rewrite (bool_decide_false (x :: a = y :: b)) by congruence. by rewrite andb_false_r.
Qed.

(** The constant-time comparison of [Bytes] is equality. *)
Lemma same_hash_eq a b : same_hash a b = bool_decide (a = b).
Proof.
  unfold same_hash. case_bool_decide as Hl.
  - rewrite bool_decide_false; [done|]. intros ->. by apply Hl.
  - rewrite same_loop_spec by lia. done.
Qed.

Lemma from_be_bytes_app a b : Bytes.from_be_bytes (a ++ b) = Bytes.from_be_bytes a * 256 ^ Z.of_nat (length b) + Bytes.from_be_bytes b.
Proof.
  unfold Bytes.from_be_bytes. rewrite fold_left_app. generalize (fold_left (λ acc x, acc * 256 + x) a 0).
  induction b as [|x b IH]; intros z; [simpl; lia|]. cbn [fold_left length].
  rewrite IH, (IH (0 * 256 + x)), Nat2Z.inj_succ, Z.pow_succ_r by lia. ring.
Qed.

Lemma from_be_bytes_bound b : bytes_ok b → 0 <= Bytes.from_be_bytes b < 256 ^ Z.of_nat (length b).
Proof.
  induction b as [|x b IH] using rev_ind; intros Hb; [by vm_compute|].
  apply Forall_app in Hb as [Hb Hx]. rewrite Forall_singleton in Hx. unfold is_u in Hx. specialize (IH Hb).
  rewrite from_be_bytes_app, length_app, Nat2Z.inj_add, Z.pow_add_r by lia.
  change (Bytes.from_be_bytes [x]) with x. change (256 ^ Z.of_nat (length [x])) with 256. lia.
Qed.

Lemma leading_zeros_bound z : 0 <= z < 2 ^ 64 → 0 <= leading_zeros64 z <= 64.
Proof.
  intros Hz. unfold leading_zeros64. destruct (Z.eqb_spec z 0); [lia|].
  assert (0 <= Z.log2 z < 64) by (split; [apply Z.log2_nonneg|apply Z.log2_lt_pow2; lia]). lia.
Qed.

Lemma trailing_zeros_pos_spec p : 0 <= trailing_zeros_pos p ∧ 2 ^ trailing_zeros_pos p <= Zpos p.
Proof.
  induction p as [p IH|p IH|]; cbn [trailing_zeros_pos]; [lia| |lia].
  destruct IH as [IH1 IH2]. split; [lia|]. rewrite Z.pow_add_r by lia. lia.
Qed.

Lemma trailing_zeros_bound z : 0 <= z < 2 ^ 64 → 0 <= trailing_zeros64 z <= 64.
Proof.
  intros Hz. unfold trailing_zeros64. destruct z as [|p|p]; [lia| |lia].
  destruct (trailing_zeros_pos_spec p) as [H1 H2]. split; [done|].
  apply Z.lt_le_incl, (Z.pow_lt_mono_r_iff 2); lia.
Qed.

Lemma hash_difficulty_bound {E} h d : bytes_ok h → hash_difficulty (E := E) h = Ok d → 0 <= d <= 128.
Proof.
  unfold hash_difficulty. case_bool_decide as Hl; [done|]. intros Hb [= <-].
  assert (∀ b, bytes_ok b → length b = 8%nat → 0 <= Bytes.from_be_bytes b < 2 ^ 64) as Hbound.
  { intros b Hok Hlen. pose proof (from_be_bytes_bound b Hok) as Hbb. by rewrite Hlen in Hbb. }
  pose proof (leading_zeros_bound _ (Hbound (take 8 h) (Forall_take _ _ _ Hb) ltac:(rewrite length_take; lia))).
  pose proof (trailing_zeros_bound _ (Hbound (drop (length h - 8) h) (Forall_drop _ _ _ Hb) ltac:(rewrite length_drop; lia))).
  lia.
Qed.

Lemma key_hash_difficulty_bound {E} h d : bytes_ok h → key_hash_difficulty (E := E) h = Ok d → 0 <= d <= 64.
Proof.
  unfold key_hash_difficulty. case_bool_decide as Hl; [done|]. intros Hb [= <-].
  apply leading_zeros_bound. pose proof (from_be_bytes_bound (take 8 h) (Forall_take _ _ _ Hb)) as Hbb.
  by rewrite length_take_le in Hbb by lia.
Qed.
