(* ===== verification/Keystore.v ===== *)
(** * Keystores (src/keystore.rs, src/crypto/crypto_box.rs)

    A signing key pair with its strength check, and the ECIES box that hides
    domain names. The ECIES library is the class [Ecies]. *)

From S2P Require Import Prelude Text Commons Hash.
Open Scope Z_scope.

Class Ecies := {
  (** [PublicKey::from_secret] *)
  ecies_public : bytes → bytes;
  (** [SecretKey::from_bytes] and [PublicKey::from_bytes] accept the bytes. *)
  ecies_secret_valid : bytes → bool;
  ecies_public_valid : bytes → bool;
  (** [encrypt] with the random bytes it draws, and [decrypt]. *)
  ecies_encrypt : bytes → bytes → bytes → option bytes;
  ecies_decrypt : bytes → bytes → option bytes;
}.

(** ** [CryptoBox] *)
Module CryptoBox.
Record t := mk { secret : bytes; public : bytes }.
Section Ops.
Context {EC : Ecies} {BP : Build} {U : Unicode}.

Definition new {E} (seed : bytes) : outcome E t :=
  if ecies_secret_valid seed then Ok (mk seed (ecies_public seed)) else Panic.

(** [unwrap] of the two results. *)
Definition from_strings {E} (secret public : rstr) : outcome E t :=
  match from_hex secret with
  | Ok s =>
      if negb (ecies_secret_valid s) then Panic else
      match from_hex public with
      | Ok p => if ecies_public_valid p then Ok (mk s p) else Panic
      | _ => Panic
      end
  | _ => Panic
  end.

Definition hide (rnd : bytes) (b : t) (msg : bytes) : option bytes := ecies_encrypt (public b) msg rnd.
Definition reveal (b : t) (msg : bytes) : option bytes := ecies_decrypt (secret b) msg.
Definition clone {E} (b : t) : outcome E t := new (secret b).
Definition encrypt {E} (rnd public message : bytes) : outcome E (option bytes) :=
  if ecies_public_valid public then Ok (ecies_encrypt public message rnd) else Panic.
Definition decrypt {E} (secret message : bytes) : outcome E (option bytes) :=
  if ecies_secret_valid secret then Ok (ecies_decrypt secret message) else Panic.
End Ops.
End CryptoBox.

(** ** [Keystore] *)
Module Keystore.
Record t := mk {
  keypair : bytes;
  hash : bytes;
  path : rstr;
  crypto_box : CryptoBox.t;
  old : bool;
}.

Section Ops.
Context {CR : Crypto} {EC : Ecies} {BP : Build} {U : Unicode}.

(** [buf] are the random bytes of the signing key, [box] the generated box. *)
Definition new (buf : bytes) (box : CryptoBox.t) : t := mk buf [] [] box false.

(** [from_bytes] and [from_random_bytes]: the seed must have 32 bytes. *)
Definition from_bytes {E} (seed : bytes) (box : CryptoBox.t) : outcome E t :=
  if bool_decide (length seed = 32%nat) then Ok (new seed box) else Panic.

Definition get_public (k : t) : bytes := ed_public (keypair k).
Definition get_private (k : t) : bytes := keypair k.
Definition get_encryption_public (k : t) : bytes := CryptoBox.public (crypto_box k).

(** The hash is computed once and kept in the cell. *)
Definition get_hash (k : t) : bytes * t :=
  if bool_decide (hash k = []) then
    let h := blakeout_data (get_public k) in
    (h, mk (keypair k) h (path k) (crypto_box k) (old k))
  else (hash k, k).

Definition sign (k : t) (message : bytes) : bytes := ed_sign (keypair k) message.

Definition check {E} (message public_key signature : bytes) : outcome E bool :=
  if bool_decide (length public_key ≠ 32%nat) then Panic else
  if negb (ed_key_valid public_key) then Panic else
  if bool_decide (length signature = 64%nat) then Ok (ed_verify public_key message signature)
  else Ok false.

Definition check_public_key_strength {E} (key : bytes) (strength : Z) : outcome E bool :=
  let bytes := blakeout_data key in
  let! d := key_hash_difficulty bytes in
  Ok (strength <=? d).

Definition encrypt {E} (rnd : bytes) (k : t) (message : bytes) : outcome E bytes :=
  match CryptoBox.hide rnd (crypto_box k) message with Some e => Ok e | None => Panic end.
Definition decrypt (k : t) (message : bytes) : bytes :=
  match CryptoBox.reveal (crypto_box k) message with Some d => d | None => [] end.

Definition clone {E} (k : t) : outcome E t :=
  let! box := CryptoBox.clone (E := E) (crypto_box k) in
  Ok (mk (keypair k) [] (path k) box (old k)).
Definition eqb (a b : t) : bool := bool_decide (keypair a = keypair b).

(** The loop of [generate_key]; each element of [rng] is what one iteration
    draws and whether mining is still on after it. *)
Fixpoint generate_key {E} (difficulty : Z) (rng : list (bytes * bool)) (box : CryptoBox.t)
    : outcome E (option t) :=
  match rng with
  | [] => OutOfFuel
  | (buf, mining) :: rng =>
      let! d := key_hash_difficulty (E := E) (blakeout (ed_public buf)) in
      if difficulty <=? d then
        let! k := from_bytes (E := E) buf box in Ok (Some k)
      else if negb mining then Ok None
      else generate_key difficulty rng box
  end.
End Ops.
End Keystore.
