(* ===== verification/Block.v ===== *)
(** * Blocks and transactions (src/blockchain/block.rs, transaction.rs, types.rs)

    The serializers are generated by [serde] for [serde_json], [bincode] and
    [serde_cbor]: they are the operations of the class [Serde]. *)

From S2P Require Import Prelude Text Commons Hash Keystore Net Buffer Protocol.
Open Scope Z_scope.

(** ** Constants (src/commons/constants.rs) *)
Definition DB_VERSION : Z := 0.
Definition CHAIN_VERSION : Z := 1.
Definition ORIGIN_DIFFICULTY : Z := 28.
Definition DOMAIN_DIFFICULTY : Z := 24.
Definition SIGNER_DIFFICULTY : Z := 16.
Definition KEYSTORE_DIFFICULTY : Z := 23.
Definition BLOCKS_WITHOUT_DISCOUNT : Z := 4999.
Definition BLOCK_SIGNERS_START : Z := 35.
Definition BLOCK_SIGNERS_ALL : Z := 7.
Definition BLOCK_SIGNERS_MIN : Z := 4.
Definition LIMITED_CONFIDENCE_DEPTH : Z := 4.
Definition NEW_DOMAINS_INTERVAL : Z := 86400.
Definition ONE_WEEK : Z := 604800.
Definition DOMAIN_LIFETIME : Z := 31536000.
Definition DOMAIN_RENEW_TIME : Z := 2592000.
Definition MAX_RECORDS : nat := 30.
Definition MAX_DATA_LEN : nat := 255.
Definition CLASS_ORIGIN : rstr := str "origin".
Definition CLASS_DOMAIN : rstr := str "domain".

(** ** Transactions *)
Record ContactsData := { c_name : rstr; c_value : rstr }.

Record DomainData := {
  encrypted : bytes;
  zone : rstr;
  info : rstr;
  records : list DnsRecord.t;
  contacts : list ContactsData;
}.

Inductive DomainState :=
  | NotFound
  | Alive (renewed_time until : Z)
  | Expired (renewed_time until : Z)
  | Free (renewed_time : Z).

Inductive TransactionType := Unknown | Signing | Domain | Origin_.

Module Transaction.
Record t := new {
  identity : bytes;
  confirmation : bytes;
  class : rstr;
  data : rstr;
  signing : bytes;
  encryption : bytes;
}.
#[global] Instance t_eq_dec : EqDecision t.
Proof. solve_decision. Defined.
End Transaction.

Module Block.
Record t := from_params {
  index : Z;
  timestamp : Z;
  version : Z;
  difficulty : Z;
  random : Z;
  nonce : Z;
  hash : bytes;
  prev_block_hash : bytes;
  pub_key : bytes;
  signature : bytes;
  transaction : option Transaction.t;
  hash_good : bool;
}.
#[global] Instance t_eq_dec : EqDecision t.
Proof. solve_decision. Defined.
End Block.

Class Serde := {
  json_of_transaction : Transaction.t → rstr;
  json_transaction : rstr → option Transaction.t;
  json_domain_data : rstr → option DomainData;
  (** [serde_json::to_string(&Origin { zones })] *)
  json_of_origin : bytes → rstr;
  bincode_block : Block.t → bytes;
  cbor_of_block : Block.t → bytes;
  cbor_block : bytes → option Block.t;
}.

Section Transactions.
Context {CR : Crypto} {SD : Serde}.
Import Transaction.

Definition transaction_from_str (identity method data : rstr) (signing encryption : bytes) : t :=
  let hash := hash_identity identity None in
  let confirmation := hash_identity identity (Some signing) in
  new hash confirmation method data signing encryption.

Definition transaction_origin (hash signing encryption : bytes) : t :=
  let data := json_of_origin hash in
  new [] [] CLASS_ORIGIN data signing encryption.

Definition check_identity (t : t) (domain : rstr) : bool :=
  let hash := hash_identity domain None in
  let confirmation := hash_identity domain (Some (signing t)) in
  same_hash (identity t) hash && same_hash (Transaction.confirmation t) confirmation.

Definition get_domain_data (t : t) : option DomainData :=
  if bool_decide (class t = CLASS_DOMAIN) then json_domain_data (data t) else None.

Definition get_type (what : option Transaction.t) : TransactionType :=
  match what with
  | None => Signing
  | Some transaction =>
      if bool_decide (class transaction = CLASS_DOMAIN) then Domain
      else if bool_decide (class transaction = CLASS_ORIGIN) then Origin_
      else Unknown
  end.

Definition set_signing (t : t) (owner : bytes) : Transaction.t :=
  new (identity t) (confirmation t) (class t) (data t) owner (encryption t).
End Transactions.

(** ** Blocks *)
Section Blocks.
Context {CR : Crypto} {SD : Serde} {BP : Build}.
Import Block.

Definition block_new (transaction : option Transaction.t) (pub_key prev_block_hash : bytes) (difficulty : Z) : t :=
  {| index := 0; timestamp := 0; version := 0; difficulty := difficulty; random := 0; nonce := 0;
     hash := []; prev_block_hash := prev_block_hash; pub_key := pub_key; signature := [];
     transaction := transaction; hash_good := false |}.

Definition from_all_params (index timestamp version difficulty random nonce : Z)
    (prev_block_hash hash pub_key signature : bytes) (transaction : option Transaction.t) : t :=
  {| index := index; timestamp := timestamp; version := version; difficulty := difficulty; random := random;
     nonce := nonce; hash := hash; prev_block_hash := prev_block_hash; pub_key := pub_key;
     signature := signature; transaction := transaction; hash_good := false |}.

(** Field updates of the block code and of its users. *)
Definition set_hash_good (b : t) (good : bool) : t :=
  from_params (index b) (timestamp b) (version b) (difficulty b) (random b) (nonce b) (hash b)
    (prev_block_hash b) (pub_key b) (signature b) (transaction b) good.
Definition set_hash (b : t) (h : bytes) : t :=
  from_params (index b) (timestamp b) (version b) (difficulty b) (random b) (nonce b) h
    (prev_block_hash b) (pub_key b) (signature b) (transaction b) (hash_good b).
Definition set_signature (b : t) (s : bytes) : t :=
  from_params (index b) (timestamp b) (version b) (difficulty b) (random b) (nonce b) (hash b)
    (prev_block_hash b) (pub_key b) s (transaction b) (hash_good b).
Definition set_place (b : t) (i : Z) (prev : bytes) : t :=
  from_params i (timestamp b) (version b) (difficulty b) (random b) (nonce b) (hash b)
    prev (pub_key b) (signature b) (transaction b) (hash_good b).

Definition is_genesis (b : t) : bool :=
  (index b =? 1) && (match get_type (transaction b) with Origin_ => true | _ => false end) &&
  same_hash (prev_block_hash b) [].

Definition as_bytes (b : t) : bytes := cbor_of_block b.
Definition as_bytes_compact (b : t) : bytes := bincode_block b.

(** [check_block_hash] of hash_utils.rs: the verdict and the block with the
    verdict remembered in its cell. *)
Definition check_block_hash (b : t) : bool * t :=
  if hash_good b then (true, b) else
  let copy := set_signature (set_hash b []) [] in
  let good := same_hash (blakeout_data (as_bytes_compact copy)) (hash b) in
  (good, set_hash_good b good).

Definition check_block_signature {E} (b : t) : outcome E bool :=
  let copy := set_signature b [] in
  Keystore.check (as_bytes_compact copy) (pub_key copy) (signature b).

(** [(hash_diff << 16) + (hash.get_tail_u64() % 0xFFFF) as u32] *)
Definition rank {E} (b : t) : outcome E Z :=
  let! d := hash_difficulty (E := E) (hash b) in
  let! k := key_hash_difficulty (E := E) (hash b) in
  let! hash_diff := add_w (E := E) 32 d k in
  let! tail := Bytes.get_tail_u64 (E := E) (hash b) in
  add_w 32 (wrap 32 (Z.shiftl hash_diff 16)) (wrap 32 (tail mod 65535)).

Definition is_some {A} (o : option A) : bool := match o with Some _ => true | None => false end.

Definition is_better_than {E} (b other : t) : outcome E bool :=
  if is_some (transaction b) && negb (is_some (transaction other)) then Ok true else
  let! my_diff := rank (E := E) b in
  let! it_diff := rank (E := E) other in
  if it_diff <? my_diff then Ok true else
  if (my_diff =? it_diff) && negb (nonce b =? nonce other) then Ok (nonce b <? nonce other)
  else Ok false.
End Blocks.

(** ** Results of checks (src/blockchain/types.rs) *)
Inductive BlockQuality := Good | Twin | Future | Rewind | Bad | Fork.
#[export] Instance BlockQuality_eq_dec : EqDecision BlockQuality.
Proof. solve_decision. Defined.

Inductive MineResult :=
  | Fine | WrongName | WrongData | WrongKey | WrongZone | NotOwned | Cooldown (time : Z).
#[export] Instance MineResult_eq_dec : EqDecision MineResult.
Proof. solve_decision. Defined.

Record Options := { o_origin : rstr; o_version : Z }.
Record ZoneData := { z_name : rstr; ruvchain : bool }.
