(* ===== verification/BlockProps.v ===== *)
(** * Properties of hexadecimal text, names and blocks *)

From S2P Require Import Prelude Text Net Commons Hash Keystore Buffer Protocol Block.
Open Scope Z_scope.

(** ** Hexadecimal text *)
Section Hex.
Context {BP : Build} {U : Unicode}.

Lemma to_hex_cons x b : to_hex (x :: b) = hex_upper (x / 16) :: hex_upper (x mod 16) :: to_hex b.
Proof. done. Qed.

Lemma length_to_hex b : length (to_hex b) = (2 * length b)%nat.
Proof. induction b as [|x b IH]; [done|]. rewrite to_hex_cons. simpl. rewrite IH. lia. Qed.

Lemma hex_upper_range d : 0 <= d < 16 → 48 <= hex_upper d < 128 ∧ is_ascii_whitespace (hex_upper d) = false ∧ hex_upper d ≠ 43.
Proof.
  intros Hd. unfold hex_upper, is_ascii_whitespace. destruct (Z.ltb_spec d 10); split_and!; lia.
Qed.

Lemma to_hex_chars b : bytes_ok b →
  Forall (λ c, 48 <= c < 128 ∧ is_ascii_whitespace c = false ∧ c ≠ 43) (to_hex b).
Proof.
  induction 1 as [|x b Hx Hb IH]; [constructor|]. unfold is_u in Hx. rewrite to_hex_cons.
  constructor; [apply hex_upper_range; Z.to_euclidean_division_equations; lia|].
  constructor; [apply hex_upper_range; Z.to_euclidean_division_equations; lia|done].
Qed.

Lemma drop_while_head (f : Z → bool) s : (∀ c, head s = Some c → f c = false) → drop_while f s = s.
Proof. destruct s as [|c s]; [done|]. intros Hf. simpl. by rewrite (Hf c eq_refl). Qed.

Lemma trim_hex b : bytes_ok b → trim (to_hex b) = to_hex b.
Proof.
  intros Hb. pose proof (to_hex_chars b Hb) as Hc. unfold trim.
  assert (is_ascii (to_hex b) = true) as ->.
  { apply is_ascii_spec. eapply Forall_impl; [exact Hc|]. simpl. lia. }
  assert (∀ s, Forall (λ c, 48 <= c < 128 ∧ is_ascii_whitespace c = false ∧ c ≠ 43) s →
    drop_while is_ascii_whitespace s = s) as Hdrop.
  { intros s Hs. apply drop_while_head. intros c Hh. destruct s; [done|]. injection Hh as ->.
    by apply Forall_inv in Hs as (_ & ? & _). }
  rewrite (Hdrop _ Hc), (Hdrop _ (proj2 (Forall_reverse _ _) Hc)). apply reverse_involutive.
Qed.

Lemma parse_pair x : is_u8 x → u8_from_str_radix16 [hex_upper (x / 16); hex_upper (x mod 16)] = Ok x.
Proof.
  intros Hx. unfold is_u in Hx.
  assert (0 <= x / 16 < 16 ∧ 0 <= x mod 16 < 16) as [H1 H2] by (split; Z.to_euclidean_division_equations; lia).
  assert (parse_digits 0 [hex_upper (x / 16); hex_upper (x mod 16)] = Ok x) as Hp.
  { simpl. rewrite (hex_value_upper (x / 16)), (hex_value_upper (x mod 16)) by done.
    rewrite (proj2 (Z.ltb_lt _ _)) by lia.
    rewrite (proj2 (Z.ltb_lt _ _)) by (Z.to_euclidean_division_equations; lia).
    f_equal. Z.to_euclidean_division_equations. lia. }
  destruct (hex_upper_range (x / 16) H1) as (Hr & _ & Hne).
  unfold u8_from_str_radix16. set (c := hex_upper (x / 16)) in *.
  assert (c = 45 → False) by lia. rewrite <- Hp.
  destruct c as [|p|p]; try done.
  do 7 (try (destruct p as [p|p|]; try done; try lia)).
Qed.

(** The slices of a text made of pairs. *)
Lemma char_boundary_ascii s i : Forall (λ c, 48 <= c < 128) s → (i <= length s)%nat → is_char_boundary s i = true.
Proof.
  intros Hs Hi. unfold is_char_boundary. destruct i as [|i]; [done|].
  destruct (s !! S i) as [c|] eqn:Hc.
  - rewrite Forall_lookup in Hs. specialize (Hs _ _ Hc). lia.
  - apply lookup_ge_None in Hc. apply bool_decide_eq_true. lia.
Qed.

Lemma split_pairs pre b fuel : bytes_ok (pre ++ b) → (length b < fuel)%nat →
  split_from fuel (to_hex (pre ++ b)) 2 (length pre) (Z.of_nat (length (pre ++ b)) - 1) =
    Ok ((λ x, [hex_upper (x / 16); hex_upper (x mod 16)]) <$> b).
Proof.
  revert pre fuel. induction b as [|x b IH]; intros pre fuel Hok Hf; (destruct fuel as [|fuel]; [lia|]); cbn [split_from].
  - rewrite app_nil_r. rewrite Z.gtb_ltb, (proj2 (Z.ltb_lt _ _)) by lia. done.
  - rewrite Z.gtb_ltb, (proj2 (Z.ltb_ge _ _)) by (rewrite length_app; simpl; lia).
    assert (Forall (λ c, 48 <= c < 128) (to_hex (pre ++ x :: b))) as Hc.
    { eapply Forall_impl; [by apply to_hex_chars|]. simpl. tauto. }
    assert (length (to_hex (pre ++ x :: b)) = (2 * length pre + 2 + 2 * length b)%nat) as Hlen.
    { rewrite length_to_hex, length_app. simpl. lia. }
    unfold str_slice at 1. rewrite bool_decide_true by lia.
    rewrite !char_boundary_ascii by (done || lia). simpl (true && true && true). cbv iota. rewrite obind_Ok.
    replace (pre ++ x :: b) with ((pre ++ [x]) ++ b) in * by by rewrite <- app_assoc.
    specialize (IH (pre ++ [x]) fuel Hok).
    replace (length (pre ++ [x])) with (length pre + 1)%nat in IH by (rewrite length_app; done).
    rewrite IH by (simpl in Hf; lia). rewrite obind_Ok, fmap_cons. do 2 f_equal.
    replace (2 * length pre + 2 - 2 * length pre)%nat with 2%nat by lia.
    rewrite <- app_assoc. unfold to_hex at 1. rewrite fmap_app, join_app.
    change (mjoin (_ <$> pre)) with (to_hex pre). rewrite drop_app_length' by (by rewrite length_to_hex). done.
Qed.

(** Hexadecimal text is read back: [from_hex] of [to_hex] is the identity on
    every non-empty byte string (on the empty one [from_hex] panics). *)
Theorem hex_roundtrip b : bytes_ok b → b ≠ [] → 2 * Z.of_nat (length b) < 2 ^ 64 →
  from_hex (to_hex b) = Ok b.
Proof.
  intros Hb Hne Hlen. unfold from_hex. rewrite trim_hex by done. unfold split_n.
  assert (1 <= length b)%nat as H1 by (destruct b; simpl; [done|lia]).
  rewrite length_to_hex. unfold sub_w, add_w.
  rewrite arith_fits by (unfold is_u; lia). rewrite obind_Ok.
  rewrite arith_fits by (unfold is_u; lia). rewrite obind_Ok.
  replace ((Z.of_nat (2 * length b) - Z.of_nat 2 + 1) / 2) with (Z.of_nat (length b) - 1)
    by (Z.to_euclidean_division_equations; lia).
  pose proof (split_pairs [] b (2 * length b + 2) Hb ltac:(lia)) as Hs. simpl app in Hs. simpl (length []) in Hs.
  rewrite Hs, obind_Ok. clear -Hb. induction Hb as [|x b Hx Hb IH]; [done|].
  rewrite fmap_cons. cbn [parse_all]. rewrite parse_pair by done. rewrite obind_Ok, IH, obind_Ok. done.
Qed.

Lemma from_hex_empty : from_hex [] = Panic.
Proof. unfold from_hex, trim. simpl. unfold split_n. simpl. unfold sub_w, arith, fits, overflow_checks. simpl. by destruct BP. Qed.
End Hex.

Lemma hex_roundtrip_witness : from_hex (BP := true) (U := ascii_tables) (to_hex [0; 255; 16]) = Ok [0; 255; 16].
Proof.
  apply hex_roundtrip; [|done|by vm_compute]. repeat constructor; by vm_compute.
Defined.

(** ** The order of blocks *)
Section Better.
Context {CR : Crypto} {SD : Serde} {BP : Build}.

(** The integer that [is_better_than] compares: the difficulty of the hash and
    of its start above 16 bits of its tail. *)
Definition rank_of (b : Block.t) : Z :=
  let h := Block.hash b in
  let start := Bytes.from_be_bytes (take 8 h) in
  let tail := Bytes.from_be_bytes (drop (length h - 8) h) in
  (leading_zeros64 start + trailing_zeros64 tail + leading_zeros64 start) * 65536 + tail mod 65535.

Definition hash_wide (b : Block.t) : Prop :=
  bytes_ok (Block.hash b) ∧ (8 <= length (Block.hash b))%nat ∧ Z.of_nat (length (Block.hash b)) < 2 ^ 64.

Lemma rank_ok {E} b : hash_wide b → rank (E := E) b = Ok (rank_of b) ∧ 0 <= rank_of b < 2 ^ 24.
Proof.
  intros (Hb & Hl & Hl'). unfold rank, hash_difficulty, key_hash_difficulty, Bytes.get_tail_u64, rank_of.
  rewrite !bool_decide_false by lia. rewrite !obind_Ok.
  set (h := Block.hash b) in *.
  set (start := Bytes.from_be_bytes (take 8 h)). set (tail := Bytes.from_be_bytes (drop (length h - 8) h)).
  assert (0 <= start < 2 ^ 64) as Hs.
  { pose proof (from_be_bytes_bound (take 8 h) (Forall_take _ _ _ Hb)) as H. by rewrite length_take_le in H. }
  assert (0 <= tail < 2 ^ 64) as Ht.
  { pose proof (from_be_bytes_bound (drop (length h - 8) h) (Forall_drop _ _ _ Hb)) as H.
    rewrite length_drop in H. by replace (length h - (length h - 8))%nat with 8%nat in H by lia. }
  pose proof (leading_zeros_bound start Hs) as Hls. pose proof (trailing_zeros_bound tail Ht) as Htt.
  unfold add_w, sub_w. rewrite arith_fits by (unfold is_u; lia). rewrite obind_Ok.
  rewrite arith_fits by (unfold is_u; lia). rewrite obind_Ok.
  rewrite (proj2 (Z.leb_le _ _)) by lia.
  replace (Z.to_nat (Z.of_nat (length h) - 8)) with (length h - 8)%nat by lia.
  rewrite bool_decide_true by (rewrite length_drop; lia). rewrite obind_Ok. fold tail.
  set (d := leading_zeros64 start + trailing_zeros64 tail + leading_zeros64 start) in *.
  pose proof (Z.mod_pos_bound tail 65535 ltac:(lia)) as Hm.
  rewrite Z.shiftl_mul_pow2 by lia. change (2 ^ 16) with 65536.
  rewrite !wrap_small by (unfold is_u; lia). rewrite arith_fits by (unfold is_u; lia). split; [done|lia].
Qed.

(** [is_better_than] never panics or overflows on hashes of at least eight
    bytes, and between two blocks that both carry a transaction, or both do not,
    it is a strict order: the larger rank first, then the smaller nonce. A block
    with a transaction is always better than one without. *)
Theorem better_order {E} a b : hash_wide a → hash_wide b →
  is_better_than (E := E) a b =
    Ok (bool_decide (is_some (Block.transaction a) = true ∧ is_some (Block.transaction b) = false ∨
                     rank_of b < rank_of a ∨ rank_of a = rank_of b ∧ Block.nonce a < Block.nonce b)).
Proof.
  intros Ha Hb. unfold is_better_than. destruct (rank_ok (E := E) a Ha) as [-> _].
  destruct (rank_ok (E := E) b Hb) as [-> _].
  rewrite !obind_Ok.
  destruct (is_some (Block.transaction a)), (is_some (Block.transaction b)); cbn [andb negb];
    try (by rewrite bool_decide_true by auto);
    (destruct (Z.ltb_spec (rank_of b) (rank_of a)); [by rewrite bool_decide_true by auto|]);
    (destruct (Z.eqb_spec (rank_of a) (rank_of b)); cbn [andb];
      [|rewrite bool_decide_false; [done|intuition (done || lia)]]);
    (destruct (Z.eqb_spec (Block.nonce a) (Block.nonce b)); cbn [negb];
      [rewrite bool_decide_false; [done|intuition (done || lia)]|]);
    f_equal; symmetry; (destruct (Z.ltb_spec (Block.nonce a) (Block.nonce b));
      [apply bool_decide_eq_true; auto|apply bool_decide_eq_false; intuition (done || lia)]).
Qed.
End Better.

(** ** A concrete comparison *)
Module BetterExample.
#[local] Instance no_serde : Serde := {|
  json_of_transaction := λ _, []; json_transaction := λ _, None; json_domain_data := λ _, None;
  json_of_origin := λ h, h; bincode_block := λ _, []; cbor_of_block := λ _, []; cbor_block := λ _, None |}.
Definition sample (nonce : Z) (h : bytes) : Block.t := from_all_params 5 0 1 16 0 nonce [] h [] [] None.
Definition a : Block.t := sample 1 (replicate 16 0 ++ [1]).
Definition b : Block.t := sample 2 (replicate 16 1).
End BetterExample.

Lemma better_order_witness : is_better_than (BP := true) (E := unit) BetterExample.a BetterExample.b = Ok true.
Proof.
  rewrite better_order; [vm_compute; reflexivity| |].
  - split; [repeat constructor; by vm_compute|]. split; [vm_compute; lia|by vm_compute].
  - split; [repeat constructor; by vm_compute|]. split; [vm_compute; lia|by vm_compute].
Defined.
