(* ===== verification/Store.v ===== *)
(** * The block database (data/create_db.sql, the SQL of chain.rs)

    The tables [blocks] and [domains] are maps from their primary key; a row
    keeps the columns, which are signed 64-bit integers, text and blobs. Each
    SQL statement of chain.rs is a function on the tables. *)

From stdpp Require Import sorting.
From S2P Require Import Prelude.
Open Scope Z_scope.

Module Store.
Record brow := Brow {
  b_id : Z; b_timestamp : Z; b_version : Z; b_difficulty : Z; b_random : Z; b_nonce : Z;
  b_transaction : rstr;
  b_prev_block_hash : bytes; b_hash : bytes; b_pub_key : bytes; b_signature : bytes;
}.
Record drow := Drow {
  d_id : Z; d_timestamp : Z;
  d_identity : bytes; d_confirmation : bytes; d_data : rstr; d_signing : bytes; d_encryption : bytes;
}.
Record t := mk {
  blocks : gmap Z brow;
  domains : gmap Z drow;
  options : list (rstr * rstr);
}.

(** [SQL_CREATE_TABLES] *)
Definition create_tables : t := mk ∅ ∅ [].

(** [... WHERE cond ORDER BY id DESC LIMIT 1] *)
Definition last_where {R} (cond : R → bool) (rows : gmap Z R) : option (Z * R) :=
  map_fold (λ id r best,
    if cond r then
      match best with
      | Some (id', _) => if id' <? id then Some (id, r) else best
      | None => Some (id, r)
      end
    else best) None rows.

(** The same, without the key. *)
Definition last_row {R} (cond : R → bool) (rows : gmap Z R) : option R := snd <$> last_where cond rows.

(** Rows in the order of their key. *)
Definition by_id {R} (rows : gmap Z R) : list R :=
  snd <$> merge_sort (H := λ a b : Z * R, decide (a.1 <= b.1)) (λ a b : Z * R, a.1 <= b.1) (map_to_list rows).

Definition full (r : brow) : bool := negb (bool_decide (b_transaction r = [])).

(** [SQL_ADD_BLOCK]: a second row with the same id is refused. *)
Definition sql_add_block (r : brow) (db : t) : option t :=
  match blocks db !! b_id r with
  | Some _ => None
  | None => Some (mk (<[b_id r := r]> (blocks db)) (domains db) (options db))
  end.
(** [SQL_GET_LAST_BLOCK] *)
Definition sql_get_last_block (db : t) : option brow := last_row (λ _, true) (blocks db).
(** [SQL_TRUNCATE_BLOCKS], [SQL_TRUNCATE_DOMAINS] *)
Definition sql_truncate_blocks (i : Z) (db : t) : t :=
  mk (filter (λ '(id, _), id < i) (blocks db)) (domains db) (options db).
Definition sql_truncate_domains (i : Z) (db : t) : t :=
  mk (blocks db) (filter (λ '(id, _), id < i) (domains db)) (options db).
(** [SQL_ADD_DOMAIN] *)
Definition sql_add_domain (r : drow) (db : t) : option t :=
  match domains db !! d_id r with
  | Some _ => None
  | None => Some (mk (blocks db) (<[d_id r := r]> (domains db)) (options db))
  end.
(** [SQL_GET_BLOCK_BY_ID] *)
Definition sql_get_block_by_id (i : Z) (db : t) : option brow := blocks db !! i.
(** [SQL_GET_LAST_FULL_BLOCK], [SQL_GET_LAST_FULL_BLOCK_FOR_KEY] *)
Definition sql_get_last_full_block (before : Z) (db : t) : option brow :=
  last_row (λ r, (b_id r <? before) && full r) (blocks db).
Definition sql_get_last_full_block_for_key (before : Z) (key : bytes) (db : t) : option brow :=
  last_row (λ r, (b_id r <? before) && full r && bool_decide (b_pub_key r = key)) (blocks db).
(** [SQL_GET_DOMAIN_OWNER_BY_ID], [SQL_GET_DOMAIN_BY_ID] *)
Definition sql_get_domain (identity : bytes) (before : Z) (db : t) : option drow :=
  last_row (λ r, bool_decide (d_identity r = identity) && (d_id r <? before)) (domains db).
(** [SQL_GET_DOMAINS_BY_KEY] *)
Definition sql_get_domains_by_key (key : bytes) (db : t) : list drow :=
  List.filter (λ r, bool_decide (d_signing r = key)) (by_id (domains db)).
(** [SQL_GET_DOMAINS_COUNT], [SQL_GET_USERS_COUNT] *)
Definition sql_get_domains_count (db : t) : Z :=
  Z.of_nat (size (list_to_set (d_identity <$> by_id (domains db)) : gset bytes)).
Definition sql_get_users_count (db : t) : Z :=
  Z.of_nat (size (list_to_set (b_pub_key <$> by_id (blocks db)) : gset bytes)).
(** [SQL_GET_USER_BLOCK_COUNT] *)
Definition sql_get_user_block_count (key : bytes) (before : Z) (db : t) : Z :=
  Z.of_nat (size (filter (λ '(_, r), b_pub_key r = key ∧ b_id r < before) (blocks db))).
(** [SQL_GET_DOMAIN_UPDATE_TIME]: the join on the id. *)
Definition sql_get_domain_update_time (identity : bytes) (db : t) : option Z :=
  d_timestamp <$> last_row (λ r, bool_decide (d_identity r = identity) &&
    match blocks db !! d_id r with Some b => 23 <=? b_difficulty b | None => false end) (domains db).

(** ** Lemmas *)
Section Lemmas.
Context {R : Type}.
Implicit Types (cond : R → bool) (rows : gmap Z R).

Lemma last_where_spec cond rows :
  match last_where cond rows with
  | Some (i, r) => rows !! i = Some r ∧ cond r = true ∧ ∀ j r', rows !! j = Some r' → cond r' = true → j <= i
  | None => ∀ j r', rows !! j = Some r' → cond r' = false
  end.
Proof.
  unfold last_where.
  apply (map_fold_weak_ind (λ best m, match best with
    | Some (i, r) => m !! i = Some r ∧ cond r = true ∧ ∀ j r', m !! j = Some r' → cond r' = true → j <= i
    | None => ∀ j r', m !! j = Some r' → cond r' = false end)).
  - intros j r'. by rewrite lookup_empty.
  - intros id r m best Hid IH. destruct (cond r) eqn:Hr.
    + destruct best as [[i b]|].
      * destruct IH as (Hi & Hb & Hmax). destruct (Z.ltb_spec i id) as [Hlt|Hge].
        -- rewrite lookup_insert_eq. split_and!; [done|done|]. intros j r' [[<- <-]|[Hne Hj]]%lookup_insert_Some Hc; [lia|].
           specialize (Hmax j r' Hj Hc). lia.
        -- rewrite lookup_insert_ne by congruence. split_and!; [done|done|].
           intros j r' [[<- <-]|[Hne Hj]]%lookup_insert_Some Hc; [done|eauto].
      * rewrite lookup_insert_eq. split_and!; [done|done|].
        intros j r' [[<- <-]|[Hne Hj]]%lookup_insert_Some Hc; [lia|]. rewrite (IH j r' Hj) in Hc. done.
    + destruct best as [[i b]|].
      * destruct IH as (Hi & Hb & Hmax). rewrite lookup_insert_ne by congruence. split_and!; [done|done|].
        intros j r' [[<- <-]|[Hne Hj]]%lookup_insert_Some Hc; [congruence|eauto].
      * intros j r' [[<- <-]|[Hne Hj]]%lookup_insert_Some; [done|eauto].
Qed.

Lemma last_row_Some cond rows r : last_row cond rows = Some r →
  ∃ i, rows !! i = Some r ∧ cond r = true ∧ ∀ j r', rows !! j = Some r' → cond r' = true → j <= i.
Proof.
  unfold last_row. pose proof (last_where_spec cond rows) as Hs.
  destruct (last_where cond rows) as [[i r0]|]; [|done]. intros [= <-]. eauto.
Qed.

Lemma last_row_None cond rows : last_row cond rows = None ↔ ∀ j r, rows !! j = Some r → cond r = false.
Proof.
  unfold last_row. pose proof (last_where_spec cond rows) as Hs.
  destruct (last_where cond rows) as [[i r0]|]; [|done]. simpl. split; [done|].
  intros Hall. destruct Hs as (Hi & Hc & _). rewrite (Hall i r0 Hi) in Hc. done.
Qed.

Lemma last_row_unique cond rows i r :
  rows !! i = Some r → cond r = true →
  (∀ j r', rows !! j = Some r' → cond r' = true → j <= i) → last_row cond rows = Some r.
Proof.
  intros Hi Hc Hmax. unfold last_row. pose proof (last_where_spec cond rows) as Hs.
  destruct (last_where cond rows) as [[i' r']|]; simpl.
  - destruct Hs as (Hi' & Hc' & Hmax'). specialize (Hmax i' r' Hi' Hc'). specialize (Hmax' i r Hi Hc).
    assert (i = i') as <- by lia. congruence.
  - rewrite (Hs i r Hi) in Hc. done.
Qed.
End Lemmas.
End Store.
