(* ===== verification/Chain.v ===== *)
(** * The blockchain (src/blockchain/chain.rs)

    State: the database, the cached last blocks, the zones and the cache of
    signers. Operations that only read are functions of the state; operations
    that write it (the signer cache is written by [&self] methods through a
    [RefCell]) are in the state monad. The clock is the argument [now]. *)

From S2P Require Import Prelude Text Commons Hash Keystore Net Buffer Protocol Block Store.
Import Store.
Open Scope Z_scope.

Inductive DbError := db_error.

(** [WRONG_HASHES] *)
Definition wrong_hash (s : rstr) : bytes :=
  match from_hex (BP := false) (U := ascii_tables) s with Ok b => b | _ => [] end.
Definition WRONG_HASHES : list bytes :=
  [wrong_hash (str "5B2D63CD8BD854B23A34A49AD850BF520BDD8D4514F9B20A3DF01430A59F0000");
   wrong_hash (str "4448E0582878FCB982C0DDAFEB441A03A30FB62FA6ECD1EA4D51C29A30980000")].

(** [MAX]: [i64::MAX as u64] *)
Definition MAX : Z := 9223372036854775807.

(** [ZONES_TXT]: the text of data/zones.txt. *)
Definition ZONES_TXT : rstr :=
  join [10] (str <$> ["ruv"; "mesh"; "node"; "dnet"; "p2p"; "tamb"; "tmb"; "dweb"; "dht"; "hub"]%string) ++ [10].

Definition ruvchain_zones : list rstr :=
  str <$> ["ruv"; "mesh"; "node"; "dnet"; "p2p"; "tamb"; "tmb"]%string.

Definition load_zones {U : Unicode} (text : rstr) : list ZoneData :=
  let zones_text := List.filter (λ c, negb (c =? 13)) text in
  (λ zone, {| z_name := zone; ruvchain := bool_decide (zone ∈ ruvchain_zones) |}) <$>
    List.filter (λ s, negb (bool_decide (s = []))) (trim <$> lines zones_text).

Example load_zones_txt :
  (λ z, (z_name z, ruvchain z)) <$> load_zones (U := ascii_tables) ZONES_TXT =
  [(str "ruv", true); (str "mesh", true); (str "node", true); (str "dnet", true); (str "p2p", true);
   (str "tamb", true); (str "tmb", true); (str "dweb", false); (str "dht", false); (str "hub", false)].
Proof. vm_compute. reflexivity. Qed.

Definition get_zones_hash {CR : Crypto} : bytes := hash_sha256 ZONES_TXT.

(** [x as i64] of a [u64]. *)
Definition as_i64 (x : Z) : Z := swrap 64 x.

Module Chain.
Record t := mk {
  origin : bytes;
  last_block : option Block.t;
  last_full_block : option Block.t;
  max_height : Z;
  db : Store.t;
  zones : list ZoneData;
  cache_index : Z;
  cache_signers : list bytes;
}.

Definition with_last (c : t) (b : option Block.t) : t :=
  mk (origin c) b (last_full_block c) (max_height c) (db c) (zones c) (cache_index c) (cache_signers c).
Definition with_last_full (c : t) (b : option Block.t) : t :=
  mk (origin c) (last_block c) b (max_height c) (db c) (zones c) (cache_index c) (cache_signers c).
Definition with_db (c : t) (d : Store.t) : t :=
  mk (origin c) (last_block c) (last_full_block c) (max_height c) d (zones c) (cache_index c) (cache_signers c).
Definition with_cache (c : t) (i : Z) (s : list bytes) : t :=
  mk (origin c) (last_block c) (last_full_block c) (max_height c) (db c) (zones c) i s.

Section Ops.
Context {CR : Crypto} {SD : Serde} {EC : Ecies} {U : Unicode} {BP : Build}.
Abbreviation io A := (M t DbError A).

(** ** Rows *)

(** [get_block_from_statement] *)
Definition block_of_row (r : brow) : Block.t :=
  from_all_params (wrap 64 (b_id r)) (b_timestamp r) (wrap 32 (b_version r)) (wrap 32 (b_difficulty r))
    (wrap 32 (b_random r)) (wrap 64 (b_nonce r)) (b_prev_block_hash r) (b_hash r) (b_pub_key r)
    (b_signature r) (json_transaction (b_transaction r)).

(** The values that [add_block_to_table] binds. *)
Definition row_of_block (b : Block.t) : brow :=
  Brow (as_i64 (Block.index b)) (Block.timestamp b) (Block.version b) (Block.difficulty b)
    (Block.random b) (as_i64 (Block.nonce b))
    (match Block.transaction b with None => [] | Some transaction => json_of_transaction transaction end)
    (Block.prev_block_hash b) (Block.hash b) (Block.pub_key b) (Block.signature b).

Definition add_block_to_table (b : Block.t) : io unit := λ c,
  match sql_add_block (row_of_block b) (db c) with
  | Some d => Ok (tt, with_db c d)
  | None => Err db_error
  end.

Definition add_transaction_to_table (index timestamp : Z) (tx : Transaction.t) : io unit := λ c,
  if bool_decide (Transaction.class tx = CLASS_DOMAIN) then
    match sql_add_domain (Drow (as_i64 index) timestamp (Transaction.identity tx) (Transaction.confirmation tx)
             (Transaction.data tx) (Transaction.signing tx) (Transaction.encryption tx)) (db c) with
    | Some d => Ok (tt, with_db c d)
    | None => Err db_error
    end
  else if bool_decide (Transaction.class tx = CLASS_ORIGIN) then Ok (tt, c)
  else Err db_error.

(** ** Reading *)

Definition get_block (c : t) (index : Z) : option Block.t :=
  block_of_row <$> sql_get_block_by_id (as_i64 index) (db c).

Definition get_height (c : t) : Z :=
  match last_block c with None => 0 | Some block => Block.index block end.

Definition get_last_full_block (c : t) (before : Z) (pub_key : option bytes) : option Block.t :=
  let from_db :=
    block_of_row <$>
      match pub_key with
      | None => sql_get_last_full_block (as_i64 before) (db c)
      | Some pub_key => sql_get_last_full_block_for_key (as_i64 before) pub_key (db c)
      end in
  match last_full_block c with
  | Some block =>
      if Block.index block <? before then
        match pub_key with
        | None => Some block
        | Some key => if bool_decide (Block.pub_key block = key) then Some block else from_db
        end
      else from_db
  | None => from_db
  end.

Definition get_last_hash (c : t) : bytes :=
  match last_block c with None => [] | Some block => Block.hash block end.

Definition get_soa_serial (c : t) : Z :=
  match last_full_block c with None => 0 | Some block => wrap 32 (Block.timestamp block) end.

Definition get_max_height (c : t) : Z := max_height c.
Definition update_max_height (c : t) (height : Z) : t :=
  mk (origin c) (last_block c) (last_full_block c) height (db c) (zones c) (cache_index c) (cache_signers c).

Definition next_allowed_full_block {E} (c : t) : outcome E Z :=
  let! next := add_w 64 (get_height c) 1 in
  match last_full_block c with
  | None => Ok next
  | Some block =>
      if Block.index block <? BLOCK_SIGNERS_START then Ok next
      else let! locked := add_w 64 (Block.index block) BLOCK_SIGNERS_MIN in Ok (Z.max locked next)
  end.

Definition is_available_zone (c : t) (zone : rstr) : bool :=
  existsb (λ z, bool_decide (z_name z = zone)) (zones c).

Definition is_domain_in_blockchain (c : t) (height : Z) (id : bytes) : bool :=
  is_some (sql_get_domain id (as_i64 height) (db c)).

(** [timestamp < time - DOMAIN_LIFETIME] *)
Definition too_old {E} (time timestamp : Z) : outcome E bool :=
  let! limit := sub_s 64 time DOMAIN_LIFETIME in Ok (timestamp <? limit).

Definition get_domain_renewal_time {E} (c : t) (time : Z) (identity_hash : bytes) : outcome E (option Z) :=
  match sql_get_domain_update_time identity_hash (db c) with
  | Some timestamp => let! old := too_old time timestamp in Ok (if (old : bool) then None else Some timestamp)
  | None => Ok None
  end.

Definition get_domain_update_time {E} (c : t) (identity_hash : bytes) (height time : Z) : outcome E (option Z) :=
  match sql_get_domain identity_hash (as_i64 height) (db c) with
  | Some r => let! old := too_old time (d_timestamp r) in Ok (if (old : bool) then None else Some (d_timestamp r))
  | None => Ok None
  end.

Definition domain_state {E} (timestamp time : Z) : outcome E DomainState :=
  let! until := add_s 64 timestamp DOMAIN_LIFETIME in
  if time <=? until then Ok (Alive timestamp until) else
  let! until := add_s 64 until DOMAIN_RENEW_TIME in
  if time <=? until then Ok (Expired timestamp until) else Ok (Free timestamp).

Definition transaction_of_row (r : drow) : Transaction.t :=
  Transaction.new (d_identity r) (d_confirmation r) CLASS_DOMAIN (d_data r) (d_signing r) (d_encryption r).

Definition get_identity_transaction_and_state {E} (c : t) (identity_hash : bytes) (height time : Z)
    : outcome E (option Transaction.t * DomainState) :=
  match sql_get_domain identity_hash (as_i64 height) (db c) with
  | Some r =>
      let! state := domain_state (d_timestamp r) time in
      Ok (Some (transaction_of_row r), state)
  | None => Ok (None, NotFound)
  end.

Definition get_domain_transaction_and_state {E} (now : Z) (c : t) (domain : rstr)
    : outcome E (option Transaction.t * DomainState) :=
  if bool_decide (domain = []) then Ok (None, NotFound) else
  let identity_hash := hash_identity domain None in
  let! (transaction, state) := get_identity_transaction_and_state c identity_hash (get_height c) now in
  match transaction with
  | Some transaction =>
      if check_identity transaction domain then Ok (Some transaction, state) else Ok (None, NotFound)
  | None => Ok (None, NotFound)
  end.

Definition get_domain_info {E} (now : Z) (c : t) (domain : rstr) : outcome E (option rstr) :=
  let! r := get_domain_transaction_and_state now c domain in
  match r with
  | (Some transaction, Alive _ _) => Ok (Some (Transaction.data transaction))
  | _ => Ok None
  end.

Definition get_domains_count (c : t) : Z := sql_get_domains_count (db c).
Definition get_users_count (c : t) : Z := sql_get_users_count (db c).
Definition get_user_block_count (c : t) (pub_key : bytes) (max_height : Z) : Z :=
  sql_get_user_block_count pub_key (as_i64 max_height) (db c).

(** The domains of a keystore: name, time and data by identity. *)
Fixpoint my_domains {E : Type} (now : Z) (c : t) (keystore : Keystore.t) (rows : list drow)
    (result : gmap bytes (rstr * Z * DomainData)) : outcome E (gmap bytes (rstr * Z * DomainData)) :=
  match rows with
  | [] => Ok result
  | r :: rows =>
      let! (transaction, _) := get_identity_transaction_and_state c (d_identity r) (get_height c) now in
      let skip := match transaction with
                  | Some transaction => negb (same_hash (Transaction.signing transaction) (d_signing r))
                  | None => false
                  end in
      if skip then my_domains now c keystore rows result else
      match json_domain_data (d_data r) with
      | Some data =>
          let decrypted := Keystore.decrypt keystore (encrypted data) in
          if negb (from_utf8_ok decrypted) then Panic else
          let domain := if bool_decide (decrypted = []) then str "unknown" else decrypted in
          let! renewed := get_domain_renewal_time c (d_timestamp r) (d_identity r) in
          let time := match renewed with None => d_timestamp r | Some t => t end in
          my_domains now c keystore rows (<[d_identity r := (domain, time, data)]> result)
      | None => my_domains now c keystore rows result
      end
  end.

Definition get_my_domains {E : Type} (now : Z) (c : t) (keystore : option Keystore.t)
    : outcome E (gmap bytes (rstr * Z * DomainData)) :=
  match keystore with
  | None => Ok ∅
  | Some keystore =>
      my_domains now c keystore (sql_get_domains_by_key (Keystore.get_public keystore) (db c)) ∅
  end.

(** ** Who may mine what *)

Definition can_mine_identity {E} (c : t) (identity_hash : bytes) (height time : Z) (pub_key : bytes)
    : outcome E MineResult :=
  match get_last_full_block c height (Some pub_key) with
  | Some last =>
      let want_new_domain := negb (is_domain_in_blockchain c height identity_hash) in
      let! next := add_s 64 (Block.timestamp last) NEW_DOMAINS_INTERVAL in
      let! time := sub_s 64 next time in
      Ok (if want_new_domain && (0 <? time) then Cooldown time else Fine)
  | None => Ok Fine
  end.

Definition can_mine_domain {E} (now : Z) (c : t) (height : Z) (domain : rstr) (pub_key : bytes)
    : outcome E MineResult :=
  let name := to_lowercase domain in
  if negb (check_domain name true) then Ok WrongName else
  let zone := get_domain_zone name in
  if negb (is_available_zone c zone) then Ok WrongZone else
  let! (transaction, state) := get_domain_transaction_and_state now c name in
  let not_owned :=
    match transaction, state with
    | Some transaction, (Alive _ _ | Expired _ _) => negb (same_hash (Transaction.signing transaction) pub_key)
    | _, _ => false
    end in
  if not_owned then Ok NotOwned else
  let identity_hash := hash_identity name None in
  can_mine_identity c identity_hash height now pub_key.

Definition is_id_available {E} (c : t) (height time : Z) (identity public_key : bytes) : outcome E bool :=
  let! (transaction, state) := get_identity_transaction_and_state c identity height time in
  match transaction with
  | None => Ok true
  | Some transaction =>
      if same_hash (Transaction.signing transaction) public_key then Ok true else
      match state with
      | NotFound => Ok true
      | Alive _ _ => Ok false
      | Expired _ _ => Ok false
      | Free _ => Ok true
      end
  end.

(** ** Difficulty *)

Definition get_identity_discount {E} (c : t) (identity : bytes) (renewal : bool) (height time : Z) : outcome E Z :=
  let! updated := get_domain_update_time c identity height time in
  match updated with
  | None => Ok 0
  | Some timestamp =>
      if renewal || (get_height c <? BLOCKS_WITHOUT_DISCOUNT) then Ok 1 else
      let! diff := sub_s 64 time timestamp in
      Ok (wrap 32 (Z.min (Z.quot diff ONE_WEEK) 7 + 1))
  end.

Definition U32_MAX : Z := 4294967295.

Definition get_difficulty_for_transaction {E} (c : t) (transaction : Transaction.t) (height time : Z) : outcome E Z :=
  if bool_decide (Transaction.class transaction = CLASS_DOMAIN) then
    let! discount := get_identity_discount c (Transaction.identity transaction) false height time in
    match json_domain_data (Transaction.data transaction) with
    | Some _ => sub_w 32 DOMAIN_DIFFICULTY discount
    | None => Ok U32_MAX
    end
  else if bool_decide (Transaction.class transaction = CLASS_ORIGIN) then Ok ORIGIN_DIFFICULTY
  else Ok U32_MAX.

(** ** Signers *)

Definition has_signers_for (c : t) (index : Z) : bool :=
  (cache_index c =? index) && negb (bool_decide (cache_signers c = [])).

(** The loop of [get_block_signers]; [set] and [result] hold the same keys. *)
Fixpoint signers_loop {E} (fuel : nat) (c : t) (block : Block.t) (minimum_block_count window : Z)
    (tail count : Z) (mitigated : bool) (result : list bytes) : outcome E (list bytes) :=
  if BLOCK_SIGNERS_ALL <=? Z.of_nat (length result) then Ok result else
  match fuel with
  | O => OutOfFuel
  | S fuel =>
      let index := wrap 64 (tail * count) mod window + 1 in
      let next result :=
        let count := count + 1 in
        if negb mitigated && (5000 <? count)
        then signers_loop fuel c block minimum_block_count window (tail / 13) count true result
        else signers_loop fuel c block minimum_block_count window tail count mitigated result in
      match get_block c index with
      | Some b =>
          if get_user_block_count c (Block.pub_key b) (Block.index block) <? minimum_block_count then
            signers_loop fuel c block minimum_block_count window tail (count + 1) mitigated result
          else if negb (bool_decide (Block.pub_key b = Block.pub_key block)) &&
                  negb (bool_decide (Block.pub_key b ∈ result)) then
            next (result ++ [Block.pub_key b])
          else next result
      | None => next result
      end
  end.

Definition get_block_signers (fuel : nat) (block : Block.t) : io (list bytes) := λ c,
  let minimum_block_count :=
    if Block.index block <? 855 then 1 else Z.quot (as_i64 (Block.index block)) 100 in
  if (Block.index block <? BLOCK_SIGNERS_START) || (get_height c <? Block.index block) then Ok ([], c) else
  if negb (is_some (Block.transaction block)) then Panic else
  if has_signers_for c (Block.index block) then Ok (cache_signers c, c) else
  let! tail := Bytes.get_tail_u64 (Block.signature block) in
  let! window := sub_w 64 (Block.index block) 1 in
  let! result := signers_loop fuel c block minimum_block_count window tail 1 false [] in
  Ok (result, with_cache c (Block.index block) result).

(** The loop [for i in (full_block.index + 1)..block.index]. *)
Fixpoint not_signed_yet {E} (c : t) (block : Block.t) (ids : list Z) : outcome E bool :=
  match ids with
  | [] => Ok true
  | i :: ids =>
      match get_block c i with
      | None => Panic
      | Some signer =>
          if same_hash (Block.pub_key signer) (Block.pub_key block) then Ok false
          else not_signed_yet c block ids
      end
  end.

Definition is_good_signer_for_block (fuel : nat) (block full_block : Block.t) : io bool :=
  let? signers := get_block_signers fuel full_block in
  if negb (bool_decide (Block.pub_key block ∈ signers)) then mret false else
  let? from := mlift (add_w 64 (Block.index full_block) 1) in
  λ c, let! ok := not_signed_yet c block (seqZ from (Block.index block - from)) in Ok (ok, c).

Definition is_good_sign_block (fuel : nat) (block : Block.t) (last_full_block : option Block.t) : io bool :=
  if is_some (Block.transaction block) then mret true else
  match last_full_block with
  | None => mret true
  | Some full_block =>
      let? height := mget get_height in
      let? sign_count := mlift (sub_w 64 height (Block.index full_block)) in
      if sign_count <? BLOCK_SIGNERS_MIN then
        if (Block.index full_block <? Block.index block) && is_some (Block.transaction block) then mret false
        else
          let? good := is_good_signer_for_block fuel block full_block in
          mret good
      else if (sign_count <? BLOCK_SIGNERS_ALL) && negb (is_some (Block.transaction block)) then
        let? good := is_good_signer_for_block fuel block full_block in
        mret good
      else mret true
  end.

(** ** Checking a block *)

(** The record rules of a ruvchain-only zone; [true] when they are violated. *)
Fixpoint bad_record (records : list DnsRecord.t) : bool :=
  match records with
  | [] => false
  | record :: records =>
      if negb (is_ruvchain_record record) then true else
      match DnsRecord.get_data record with
      | Some data => if bool_decide (MAX_DATA_LEN < length data)%nat then true else bad_record records
      | None => bad_record records
      end
  end.

Definition bad_zone_records (c : t) (block_data : DomainData) : bool :=
  existsb (λ z, bool_decide (z_name z = zone block_data) && ruvchain z && bad_record (records block_data)) (zones c).

Definition bad_domain_data (c : t) (transaction : Transaction.t) : bool :=
  match get_domain_data transaction with
  | None => false
  | Some block_data =>
      if bool_decide (MAX_RECORDS < length (records block_data))%nat then true
      else bad_zone_records c block_data
  end.

(** The difficulty [check_block] asks for. *)
Definition needed_difficulty {E} (c : t) (block : Block.t) : outcome E Z :=
  match Block.transaction block with
  | None => Ok (if Block.index block =? 1 then ORIGIN_DIFFICULTY else SIGNER_DIFFICULTY)
  | Some tx => get_difficulty_for_transaction c tx (Block.index block) (Block.timestamp block)
  end.

(** The part on the transaction; [true] when the block is bad. *)
Definition bad_transaction {E} (now : Z) (c : t) (block : Block.t) : outcome E bool :=
  match Block.transaction block with
  | None => Ok false
  | Some transaction =>
      let! strong := Keystore.check_public_key_strength (Block.pub_key block) KEYSTORE_DIFFICULTY in
      if negb strong then Ok true else
      let! prev := sub_w 64 (Block.index block) 1 in
      let! available := is_id_available c prev now (Transaction.identity transaction) (Block.pub_key block) in
      if negb available then Ok true else
      let! mine := can_mine_identity c (Transaction.identity transaction) (Block.index block)
                     (Block.timestamp block) (Block.pub_key block) in
      if negb (bool_decide (mine = Fine)) then Ok true else
      Ok (bad_domain_data c transaction)
  end.

(** The [match last_block] at the end of [check_block]. *)
Definition check_position (fuel : nat) (block : Block.t) (last_block last_full_block : option Block.t)
    : io BlockQuality :=
  let? c := mget (λ c, c) in
  match last_block with
  | None =>
      if negb (is_genesis block) then mret Future
      else if negb (Bytes.is_zero (origin c)) && negb (same_hash (Block.hash block) (origin c)) then mret Bad
      else mret Good
  | Some last_block =>
      if (Block.timestamp block <? Block.timestamp last_block) && (Block.index last_block <? Block.index block)
      then mret Bad else
      let? next := mlift (add_w 64 (Block.index last_block) 1) in
      if next <? Block.index block then mret Future else
      let? good :=
        (if BLOCK_SIGNERS_START <? Block.index block then is_good_sign_block fuel block last_full_block
         else mret true) in
      if negb good then mret Bad else
      if Block.index block <=? Block.index last_block then
        if (Block.index block =? Block.index last_block) && same_hash (Block.hash last_block) (Block.hash block)
        then mret Twin else
        match get_block c (Block.index block) with
        | Some my_block =>
            if negb (same_hash (Block.hash my_block) (Block.hash block)) then mret Fork else mret Twin
        | None => mret Good
        end
      else if negb (same_hash (Block.prev_block_hash block) (Block.hash last_block)) then mret Bad
      else mret Good
  end.

(** [check_block]: the verdict, and the block with its hash flag as the check
    leaves it. *)
Definition check_block (now : Z) (fuel : nat) (block : Block.t) (last_block last_full_block : option Block.t)
    : io (BlockQuality * Block.t) :=
  let? c := mget (λ c, c) in
  if CHAIN_VERSION <? Block.version block then mret (Bad, block) else
  if bool_decide (Block.hash block ∈ WRONG_HASHES) then mret (Bad, block) else
  let? soon := mlift (add_s 64 now 60) in
  if soon <? Block.timestamp block then mret (Bad, block) else
  let? future := mlift (match last_block with
                        | Some last => let! next := add_w 64 (Block.index last) 1 in Ok (next <? Block.index block)
                        | None => Ok false
                        end) in
  if (future : bool) then mret (Future, block) else
  let? difficulty := mlift (needed_difficulty c block) in
  if Block.difficulty block <? difficulty then mret (Bad, block) else
  let? d := mlift (hash_difficulty (Block.hash block)) in
  if d <? Block.difficulty block then mret (Bad, block) else
  let (hash_good, block) := check_block_hash block in
  if negb hash_good then mret (Bad, block) else
  let? signature_good := mlift (check_block_signature block) in
  if negb signature_good then mret (Bad, block) else
  let? prev_index := mlift (sub_w 64 (Block.index block) 1) in
  let prev_wrong := match get_block c prev_index with
                    | Some prev_block => negb (same_hash (Block.prev_block_hash block) (Block.hash prev_block))
                    | None => false
                    end in
  if prev_wrong then
    let? limit := mlift (sub_w 64 (get_height c) LIMITED_CONFIDENCE_DEPTH) in
    mret (if Block.index block <? limit then Bad else Rewind, block)
  else
  let? bad := mlift (bad_transaction now c block) in
  if (bad : bool) then mret (Bad, block) else
  let? quality := check_position fuel block last_block last_full_block in
  mret (quality, block).

Definition check_new_block (now : Z) (fuel : nat) (block : Block.t) : io (BlockQuality * Block.t) := λ c,
  check_block now fuel block (last_block c) (last_full_block c) c.

(** ** Adding and replacing blocks *)

(** A failed insert is logged and otherwise ignored; a transaction that cannot
    be stored panics. *)
Definition add_block (block : Block.t) : io unit := λ c,
  match add_block_to_table block c with
  | Ok (_, c) =>
      let c := with_last c (Some block) in
      match Block.transaction block with
      | Some transaction =>
          let c := with_last_full c (Some block) in
          let transaction :=
            if bool_decide (Transaction.signing transaction = []) then set_signing transaction (Block.pub_key block)
            else transaction in
          match add_transaction_to_table (Block.index block) (Block.timestamp block) transaction c with
          | Ok r => Ok r
          | Err _ => Panic
          | Panic => Panic
          | OutOfFuel => OutOfFuel
          end
      | None => Ok (tt, c)
      end
  | Err _ => Ok (tt, c)
  | Panic => Panic
  | OutOfFuel => OutOfFuel
  end.

Definition truncate_db_from_block (index : Z) : io unit :=
  mput (λ c, with_db c (sql_truncate_domains (as_i64 index) (sql_truncate_blocks (as_i64 index) (db c)))).

Definition replace_block (block : Block.t) : io unit :=
  mput (λ c, with_cache c 0 []) ;?
  truncate_db_from_block (Block.index block) ;?
  add_block block ;?
  mret tt.

(** ** Signing blocks *)

(** Whether [keystore] mined one of the blocks [ids]. *)
Fixpoint already_mined {E} (c : t) (key : bytes) (ids : list Z) : outcome E bool :=
  match ids with
  | [] => Ok false
  | index :: ids =>
      match get_block c index with
      | None => Panic
      | Some b => if same_hash (Block.pub_key b) key then Ok true else already_mined c key ids
      end
  end.

Fixpoint eligible_keys {E} (c : t) (signers : list bytes) (ids : list Z) (keys : list Keystore.t)
    : outcome E (list Keystore.t) :=
  match keys with
  | [] => Ok []
  | k :: keys =>
      if bool_decide (Keystore.get_public k ∈ signers) then
        let! mined := already_mined c (Keystore.get_public k) ids in
        let! rest := eligible_keys c signers ids keys in
        Ok (if (mined : bool) then rest else k :: rest)
      else eligible_keys c signers ids keys
  end.

(** [choice] is the random number of [choose]. *)
Definition get_sign_block (now : Z) (fuel choice : nat) (keys : list Keystore.t)
    : io (option (Block.t * Keystore.t)) :=
  let? c := mget (λ c, c) in
  if get_height c <? BLOCK_SIGNERS_START then mret None else
  if bool_decide (keys = []) then mret None else
  if get_height c <? get_max_height c then mret None else
  match last_full_block c with
  | None => mret None
  | Some block =>
      let? sign_count := mlift (sub_w 64 (get_height c) (Block.index block)) in
      if BLOCK_SIGNERS_MIN <=? sign_count then mret None else
      let? wait := mlift (match last_block c with
                          | Some block => let! soon := add_s 64 (Block.timestamp block) 60 in Ok (now <? soon)
                          | None => Ok false
                          end) in
      if (wait : bool) then mret None else
      match last_block c with
      | None => mret None
      | Some last =>
          let? signers := get_block_signers fuel block in
          let? keystores := mlift (eligible_keys c signers (seqZ (Block.index block) (get_height c + 1 - Block.index block)) keys) in
          match keystores !! (choice mod length keystores)%nat with
          | Some keystore =>
              let? next := mlift (add_w 64 (Block.index last) 1) in
              mret (Some (set_place (block_new None [] (Block.hash last) SIGNER_DIFFICULTY) next (Block.hash last), keystore))
          | None => mret None
          end
      end
  end.

Definition update_sign_block_for_mining {E} (c : t) (block : Block.t) : outcome E (option Block.t) :=
  match last_full_block c with
  | Some full_block =>
      let! sign_count := sub_w 64 (get_height c) (Block.index full_block) in
      if BLOCK_SIGNERS_MIN <=? sign_count then Ok None else
      match last_block c with
      | Some last =>
          let! next := add_w 64 (Block.index last) 1 in
          Ok (Some (set_place block next (Block.hash last)))
      | None => Ok None
      end
  | None => Ok None
  end.

Definition is_waiting_signers {E} (c : t) : outcome E bool :=
  if get_height c <? BLOCK_SIGNERS_START then Ok false else
  match last_full_block c with
  | Some full_block =>
      let! sign_count := sub_w 64 (get_height c) (Block.index full_block) in
      Ok (sign_count <? BLOCK_SIGNERS_MIN)
  | None => Ok false
  end.

(** ** The check of the stored chain *)

Fixpoint check_chain_loop (now : Z) (fuel : nat) (ids : list Z) (last_block last_full_block : option Block.t) : io unit :=
  match ids with
  | [] => mret tt
  | id :: ids =>
      let? c := mget (λ c, c) in
      match get_block c id with
      | None => mpanic
      | Some block =>
          if Block.index block =? 1 then
            if negb (same_hash (Block.hash block) (origin c)) then mpanic
            else check_chain_loop now fuel ids (Some block) last_full_block
          else if bool_decide (Block.hash block ∈ WRONG_HASHES) then
            truncate_db_from_block (Block.index block)
          else
            let? (quality, block) := check_block now fuel block last_block last_full_block in
            if negb (bool_decide (quality = Good)) then truncate_db_from_block (Block.index block)
            else if is_some (Block.transaction block) then
              mput (λ c, with_last_full c (Some block)) ;?
              check_chain_loop now fuel ids (Some block) (Some block)
            else check_chain_loop now fuel ids (Some block) last_full_block
      end
  end.

(** [load_last_block] once the tables exist. *)
Definition load_last_block (c : t) : option Block.t := block_of_row <$> sql_get_last_block (db c).

Definition check_chain (now : Z) (fuel : nat) (count : Z) : io unit :=
  let? c := mget (λ c, c) in
  let height := get_height c in
  let? start := mlift (if count <? height then
                         let! d := sub_w 64 height count in add_w 64 d 1
                       else Ok 1) in
  let? last_block :=
    (if 1 <? start then
       let? i := mlift (sub_w 64 start 1) in mret (get_block c i)
     else mret None) in
  let last_full_block :=
    match last_block with
    | Some last =>
        match Block.transaction last with
        | None => get_last_full_block c (Block.index last) None
        | Some _ => Some last
        end
    | None => None
    end in
  check_chain_loop now fuel (seqZ start (height + 1 - start)) last_block last_full_block ;?
  mput (λ c, with_last c (load_last_block c)) ;?
  mput (λ c, with_last_full c (get_last_full_block c MAX None)) ;?
  mret tt.

(** ** Opening the database *)

(** [str::parse::<u32>] *)
Fixpoint parse_decimal (n : Z) (s : rstr) : option Z :=
  match s with
  | [] => Some n
  | c :: s =>
      if is_ascii_digit c then
        let n := n * 10 + (c - 48) in if n <? 2 ^ 32 then parse_decimal n s else None
      else None
  end.
Definition parse_u32 (s : rstr) : option Z :=
  let digits := match s with 43 :: s => s | _ => s end in
  if bool_decide (digits = []) then None else parse_decimal 0 digits.

(** The rows of the table [options], in their order: the last one of a name counts. *)
Definition read_option {E} (o : outcome E (rstr * Z)) (row : rstr * rstr) : outcome E (rstr * Z) :=
  let! (origin, version) := o in
  let (name, value) := row in
  if bool_decide (name = str "origin") then Ok (value, version)
  else if bool_decide (name = str "version") then
    match parse_u32 value with Some n => Ok (origin, n) | None => Panic end
  else Ok (origin, version).
Definition get_options {E} (d : option Store.t) : outcome E (rstr * Z) :=
  match d with
  | None => Ok ([], 0)
  | Some d => fold_left read_option (options d) (Ok ([], 0))
  end.
Definition stored_origin (d : option Store.t) : rstr :=
  match d with
  | None => []
  | Some d => fold_left (λ o '(name, value), if bool_decide (name = str "origin") then value else o) (options d) []
  end.

Lemma options_origin {E} d o v : get_options (E := E) d = Ok (o, v) → o = stored_origin d.
Proof.
  destruct d as [d|]; [|by intros [= <- _]]. simpl. generalize (options d) as rows. intros rows.
  assert (∀ r0 : rstr * Z, fold_left (read_option (E := E)) rows (Ok r0) = Ok (o, v) →
    o = fold_left (λ o '(name, value), if bool_decide (name = str "origin") then value else o) rows r0.1) as H; [|apply H].
  induction rows as [|[name value] rows IH]; intros [o0 v0]; [by intros [= -> _]|]. cbn.
  case_bool_decide; [apply (IH (value, v0))|]. case_bool_decide; [|apply (IH (o0, v0))].
  destruct (parse_u32 value) as [n|]; [apply (IH (o0, n))|]. intros Hp. exfalso. clear IH.
  assert (∀ rows, fold_left (read_option (E := E)) rows Panic = Panic) as Hpanic by (clear; induction rows; done).
  by rewrite Hpanic in Hp.
Qed.

(** [Chain::new] and [init_db] of a database whose options can be read: [disk] is
    what [sqlite::open] finds, [None] when there are no tables yet. [clear_db]
    removes the file. The version option only selects a migration, and
    [migrate_db] does nothing. *)
Definition new (origin : bytes) (zones : list ZoneData) (disk : option Store.t) : t :=
  let chain d := mk origin None None 0 d zones 0 [] in
  let disk :=
    if negb (Bytes.is_zero origin) && negb (bool_decide (stored_origin disk = [])) &&
       negb (bool_decide (to_hex origin = stored_origin disk))
    then None else disk in
  match disk with
  | None => chain create_tables
  | Some d =>
      let c := chain d in
      match load_last_block c with
      | Some block =>
          let c := with_last c (Some block) in
          match Block.transaction block with
          | Some _ => with_last_full c (Some block)
          | None => with_last_full c (get_last_full_block c MAX None)
          end
      | None => c
      end
  end.

(** The whole of it: a version that is no number panics. *)
Definition open {E} (origin : bytes) (zones : list ZoneData) (disk : option Store.t) : outcome E t :=
  let! _ := get_options (E := E) disk in Ok (new origin zones disk).

Lemma open_inv {E} origin zones disk c : open (E := E) origin zones disk = Ok c → c = new origin zones disk.
Proof. intros (o & _ & [= <-])%obind_inv. done. Qed.
End Ops.
End Chain.
