(* ===== verification/ChainFacts.v ===== *)
(** * Facts about the chain operations

    What each check leaves unchanged, what a verdict means, and what the
    database looks like after a block is added. *)

From S2P Require Import Prelude Text Commons Hash Keystore Net Buffer Protocol Block Store Chain.
Import Store Chain.
Open Scope Z_scope.

(** ** Casts *)
Lemma as_i64_id z : 0 <= z < 2 ^ 63 → as_i64 z = z.
Proof.
  intros Hz. unfold as_i64, swrap. rewrite Z.mod_small by lia.
  change (64 - 1) with 63. by rewrite (proj2 (Z.ltb_lt _ _)) by lia.
Qed.

Lemma wrap64_as_i64 z : is_u64 z → wrap 64 (as_i64 z) = z.
Proof.
  intros Hz. unfold is_u, as_i64, swrap, wrap in *. rewrite (Z.mod_small z) by lia.
  destruct (Z.ltb_spec z (2 ^ (64 - 1))); [by apply Z.mod_small|].
  replace (z - 2 ^ 64) with (z + (-1) * 2 ^ 64) by lia. rewrite Z.mod_add by lia. by apply Z.mod_small.
Qed.

(** Take apart a successful run of a check. *)
Ltac crush_check :=
  repeat match goal with
  | H : mbind_ _ _ _ = Ok _ |- _ => apply mbind_inv in H; destruct H as (? & ? & ? & H)
  | H : mlift _ _ = Ok _ |- _ => unfold mlift in H
  | H : mget _ _ = Ok _ |- _ => unfold mget in H
  | H : mret _ _ = Ok _ |- _ => unfold mret in H
  | H : obind ?o _ = Ok _ |- _ => apply obind_inv in H; destruct H as (? & ? & H)
  | H : Ok (_, _) = Ok (_, _) |- _ => injection H as H; subst
  | H : Ok _ = Ok _ |- _ => injection H as H; subst
  | H : (if ?b then _ else _) _ = Ok _ |- _ => destruct b eqn:?
  | H : (if ?b then _ else _) = Ok _ |- _ => destruct b eqn:?
  | H : (_, _) = (_, _) |- _ => injection H as H; subst
  end.

Section Facts.
Context {CR : Crypto} {SD : Serde} {EC : Ecies} {U : Unicode} {BP : Build}.

Lemma mlift_inv {S E1 E2 A} `{From E1 E2} (o : outcome E1 A) (s : S) a s' :
  mlift (E := E1) o s = Ok (a, s') → o = Ok a ∧ s' = s.
Proof. unfold mlift. destruct o; simpl; try done. by intros [= -> ->]. Qed.

(** ** The signer cache is all that a check writes *)

Definition same_but_cache (c c' : t) : Prop := ∃ i s, c' = with_cache c i s.

#[export] Instance same_but_cache_preorder : PreOrder same_but_cache.
Proof.
  split.
  - intros [????????]. by eexists _, _.
  - intros c1 c2 c3 (i & s & ->) (i' & s' & ->). by exists i', s'.
Qed.

Lemma signers_cache fuel block c r c' : get_block_signers fuel block c = Ok (r, c') → same_but_cache c c'.
Proof.
  unfold get_block_signers. intros H. crush_check; try done; try by eexists _, _.
Qed.

Lemma good_signer_cache fuel block full c r c' :
  is_good_signer_for_block fuel block full c = Ok (r, c') → same_but_cache c c'.
Proof.
  unfold is_good_signer_for_block. intros H. crush_check;
    match goal with H : get_block_signers _ _ _ = Ok _ |- _ => apply signers_cache in H end; done.
Qed.

Lemma good_sign_cache fuel block full c r c' :
  is_good_sign_block fuel block full c = Ok (r, c') → same_but_cache c c'.
Proof.
  unfold is_good_sign_block. intros H. destruct full as [full|]; crush_check; try done;
    eapply good_signer_cache; eassumption.
Qed.

Lemma position_cache fuel block last full c r c' :
  check_position fuel block last full c = Ok (r, c') → same_but_cache c c'.
Proof.
  unfold check_position. intros H. destruct last as [last|]; crush_check; try done;
    try (destruct (get_block _ _); crush_check); try done; eapply good_sign_cache; eassumption.
Qed.

Lemma check_cache now fuel block last full c q b' c' :
  check_block now fuel block last full c = Ok ((q, b'), c') → same_but_cache c c'.
Proof.
  unfold check_block. intros H. crush_check; try done;
    destruct (check_block_hash block) as [good bl] eqn:?; crush_check; try done.
  eapply position_cache; eassumption.
Qed.

Lemma sign_cache now fuel choice keys c r c' : get_sign_block now fuel choice keys c = Ok (r, c') → same_but_cache c c'.
Proof.
  unfold get_sign_block. intros H. crush_check; try done.
  destruct (last_full_block _) as [full|]; crush_check; try done.
  destruct (last_block _) as [last|]; crush_check; try done.
  match goal with H : get_block_signers _ _ _ = Ok _ |- _ => apply signers_cache in H end.
  destruct (_ !! _); crush_check; done.
Qed.

(** ** What the verdicts mean *)

(** The conditions that every verdict but Bad, Future and Rewind implies. [b]
    is the block after the check, with its hash flag set. *)
Record checked (now : Z) (c : t) (b : Block.t) : Prop := {
  ch_version : Block.version b <= CHAIN_VERSION;
  ch_listed : Block.hash b ∉ WRONG_HASHES;
  ch_time : ∃ soon, add_s (E := DbError) 64 now 60 = Ok soon ∧ Block.timestamp b <= soon;
  ch_work : ∃ need d, needed_difficulty (E := DbError) c b = Ok need ∧ need <= Block.difficulty b ∧
              hash_difficulty (E := DbError) (Block.hash b) = Ok d ∧ Block.difficulty b <= d;
  ch_signature : check_block_signature (E := DbError) b = Ok true;
  ch_prev : ∃ i, sub_w (E := DbError) 64 (Block.index b) 1 = Ok i ∧
              ∀ prev, get_block c i = Some prev → Block.prev_block_hash b = Block.hash prev;
  ch_transaction : bad_transaction (E := DbError) now c b = Ok false;
}.

(** The hash of a block was found to be its Blakeout hash, now or before. *)
Definition hash_ok (b : Block.t) : Prop :=
  Block.hash_good b = true ∨
  blakeout_data (as_bytes_compact (set_signature (set_hash b []) [])) = Block.hash b.

Lemma hash_check_good b b' : check_block_hash b = (true, b') → b' = set_hash_good b true ∧ hash_ok b.
Proof.
  unfold check_block_hash, hash_ok. destruct (Block.hash_good b) eqn:Hg.
  - intros [= <-]. split; [|by left]. destruct b; simpl in *; by subst.
  - intros [= Hgood <-]. split; [by rewrite Hgood|]. right. rewrite same_hash_eq, bool_decide_eq_true in Hgood. done.
Qed.

Lemma check_block_inv now fuel b last full c q b' c' :
  check_block now fuel b last full c = Ok ((q, b'), c') → q ∉ [Bad; Future; Rewind] →
  b' = set_hash_good b true ∧ hash_ok b ∧ checked now c b' ∧
  check_position fuel b' last full c = Ok (q, c').
Proof.
  unfold check_block. intros H Hq. crush_check; try (exfalso; apply Hq; set_solver).
  destruct (check_block_hash b) as [good b1] eqn:Hhash.
  crush_check; try (exfalso; apply Hq; repeat case_match; set_solver).
  destruct good; [|done]. apply hash_check_good in Hhash as [-> Hok].
  split; [done|]. split; [done|]. split; [|done].
  rewrite ?Z.ltb_ge, ?bool_decide_eq_false, ?negb_false_iff in *. subst. split; simpl; eauto 8.
  eexists. split; [eassumption|]. intros prev Hprev. rewrite Hprev in *.
  by rewrite negb_false_iff, same_hash_eq, bool_decide_eq_true in *.
Qed.

(** The converse: what passes these conditions gets the verdict of its position. *)
Lemma check_block_run now fuel b last full c q c' :
  hash_ok b → checked now c (set_hash_good b true) →
  (∀ l, last = Some l → is_u64 (Block.index l + 1) ∧ Block.index b <= Block.index l + 1) →
  check_position fuel (set_hash_good b true) last full c = Ok (q, c') →
  check_block now fuel b last full c = Ok ((q, set_hash_good b true), c').
Proof.
  intros Hok [Cv Cl (soon & Hsoon & Ct) (need & d & Hneed & W1 & Hd & W2) Cs (prev & Hprev & Clink) Cx] Hnext Hpos.
  simpl in Cv, Cl, Ct, W1, Hd, W2, Hprev, Clink. change (needed_difficulty (E := DbError) c b = Ok need) in Hneed.
  assert (∃ f, (match last with
                | Some l => let! next := add_w 64 (Block.index l) 1 in Ok (next <? Block.index b)
                | None => Ok false
                end : outcome DbError bool) = Ok f ∧ f = false) as (f & Hf & ->).
  { destruct last as [l|]; [|by eexists]. destruct (Hnext l eq_refl) as [Hfit Hle]. unfold add_w.
    rewrite arith_fits by done. eexists. split; [reflexivity|]. by apply Z.ltb_ge. }
  assert (check_block_hash b = (true, set_hash_good b true)) as Hhash.
  { unfold check_block_hash. destruct (Block.hash_good b) eqn:Hg; [destruct b; simpl in *; by subst|].
    destruct Hok as [?|Hok]; [congruence|]. by rewrite Hok, same_hash_eq, bool_decide_true. }
  unfold check_block. rewrite run_get.
  rewrite (proj2 (Z.ltb_ge _ _) Cv), (bool_decide_false _ Cl), (run_lift _ _ _ _ Hsoon), (proj2 (Z.ltb_ge _ _) Ct).
  rewrite (run_lift _ _ _ _ Hf), (run_lift _ _ _ _ Hneed), (proj2 (Z.ltb_ge _ _) W1), (run_lift _ _ _ _ Hd), (proj2 (Z.ltb_ge _ _) W2).
  rewrite Hhash. cbn [negb]. rewrite (run_lift _ _ _ _ Cs). cbn [negb]. rewrite (run_lift _ _ _ _ Hprev).
  assert (match get_block c prev with
          | Some p => negb (same_hash (Block.prev_block_hash (set_hash_good b true)) (Block.hash p))
          | None => false end = false) as ->.
  { destruct (get_block c prev) as [p|]; [|done]. rewrite same_hash_eq, bool_decide_true; [done|by apply Clink]. }
  rewrite (run_lift _ _ _ _ Cx). by rewrite (mbind_run _ _ _ q c').
Qed.

(** A verdict keeps the block, apart from the cell of its hash. *)
Lemma check_block_same now fuel b last full c q b' c' :
  check_block now fuel b last full c = Ok ((q, b'), c') → b' = b ∨ ∃ g, check_block_hash b = (g, b').
Proof.
  unfold check_block. intros H. crush_check; try (by left).
  all: destruct (check_block_hash b) as [good bl] eqn:Hh.
  all: crush_check; eauto.
Qed.
Lemma check_block_index now fuel b last full c q b' c' :
  check_block now fuel b last full c = Ok ((q, b'), c') → Block.index b' = Block.index b.
Proof.
  intros [->|[g Hg]]%check_block_same; [done|]. unfold check_block_hash in Hg. destruct (Block.hash_good b); by injection Hg as _ <-.
Qed.

(** *** The position of a block *)

(** The rule of the signed part of the chain. *)
Definition signed_ok (fuel : nat) (b : Block.t) (full : option Block.t) (c : t) : Prop :=
  BLOCK_SIGNERS_START < Block.index b → ∃ c', is_good_sign_block fuel b full c = Ok (true, c').

Lemma position_inv fuel b last full c q c' :
  check_position fuel b (Some last) full c = Ok (q, c') → q ∉ [Bad; Future] → is_u64 (Block.index last + 1) →
  signed_ok fuel b full c ∧ (Block.index last < Block.index b → Block.timestamp last <= Block.timestamp b) ∧
  match q with
  | Good => (Block.index b = Block.index last + 1 ∧ Block.prev_block_hash b = Block.hash last) ∨
            (Block.index b <= Block.index last ∧ get_block c (Block.index b) = None)
  | Fork => Block.index b <= Block.index last ∧
            ∃ mine, get_block c (Block.index b) = Some mine ∧ Block.hash mine ≠ Block.hash b
  | Twin => Block.index b <= Block.index last
  | _ => True
  end.
Proof.
  unfold check_position, signed_ok. intros H Hq Hfit. unfold add_w in H. rewrite arith_fits in H by done.
  apply mbind_inv in H as (? & ? & [= -> ->] & H).
  destruct ((Block.timestamp b <? Block.timestamp last) && (Block.index last <? Block.index b)) eqn:Htime;
    [injection H as <- <-; set_solver|].
  rewrite (mbind_run _ _ _ _ _ eq_refl) in H.
  assert (Block.index last < Block.index b → Block.timestamp last <= Block.timestamp b) as Hts.
  { intros Hi. apply andb_false_iff in Htime. rewrite !Z.ltb_ge in Htime. lia. }
  destruct (Z.ltb_spec (Block.index last + 1) (Block.index b)); [injection H as <- <-; set_solver|].
  apply mbind_inv in H as (good & c1 & Hgood & H).
  destruct good; [|injection H as <- <-; set_solver]. cbn [negb] in H.
  split; [|split; [done|]].
  { intros Hs. rewrite (proj2 (Z.ltb_lt _ _) Hs) in Hgood. by exists c1. }
  destruct (Z.leb_spec (Block.index b) (Block.index last)) as [Hle|Hgt].
  - destruct ((Block.index b =? Block.index last) && _); [by injection H as <- <-|].
    destruct (get_block _ (Block.index b)) as [mine|] eqn:Hmine; [|injection H as <- <-; by right].
    destruct (negb (same_hash (Block.hash mine) (Block.hash b))) eqn:Hh; injection H as <- <-; [|done].
    split; [done|]. exists mine. split; [done|].
    by rewrite same_hash_eq, negb_true_iff, bool_decide_eq_false in Hh.
  - destruct (negb _) eqn:Hp; injection H as <- <-; [set_solver|]. left. split; [lia|].
    by rewrite same_hash_eq, negb_false_iff, bool_decide_eq_true in Hp.
Qed.

Lemma position_genesis fuel b full c c' q :
  check_position fuel b None full c = Ok (q, c') → q ∉ [Bad; Future] →
  q = Good ∧ is_genesis b = true ∧ (Bytes.is_zero (origin c) = true ∨ Block.hash b = origin c).
Proof.
  unfold check_position. intros H Hq. apply mbind_inv in H as (? & ? & [= -> ->] & H).
  destruct (is_genesis b); [|injection H as <- <-; set_solver]. cbn [negb] in H.
  destruct (Bytes.is_zero _); [injection H as <- <-; auto|].
  rewrite same_hash_eq in H. case_bool_decide; injection H as <- <-; [auto|set_solver].
Qed.

(** ** The stored chain *)

(** Blocks 1 to [h], each linked to the one before by its hash; domains only of
    stored blocks. *)
Record wf_db (d : Store.t) (h : Z) : Prop := {
  wf_key : ∀ i r, blocks d !! i = Some r → b_id r = i;
  wf_range : ∀ i, is_Some (blocks d !! i) ↔ 1 <= i <= h;
  wf_linked : ∀ i r r', blocks d !! i = Some r → blocks d !! (i + 1) = Some r' →
    b_prev_block_hash r' = b_hash r;
  wf_domains : ∀ i, is_Some (domains d !! i) → is_Some (blocks d !! i);
  wf_dkey : ∀ i r, domains d !! i = Some r → d_id r = i;
}.

Definition wf_last (c : t) : Prop := ∀ b, last_block c = Some b →
  1 <= Block.index b < MAX ∧ blocks (db c) !! Block.index b = Some (row_of_block b).

(** The invariant: the database is a linked chain and [last_block] its tip. *)
Definition wf (c : t) : Prop := wf_db (db c) (get_height c) ∧ wf_last c.

Lemma wf_same_cache c c' : same_but_cache c c' → wf c ↔ wf c'.
Proof. by intros (i & s & ->). Qed.

Lemma height_bound c : wf c → 0 <= get_height c < MAX.
Proof.
  intros [_ Hl]. unfold get_height. destruct (last_block c) as [b|] eqn:Hb; [|by vm_compute].
  destruct (Hl b Hb). lia.
Qed.

(** The hash of a block is that of its contents. The cell that remembers the
    check is not one of them. *)
Definition real_hash (b : Block.t) : Prop :=
  blakeout_data (as_bytes_compact (set_signature (set_hash (set_hash_good b false) []) [])) = Block.hash b.

(** What every value of the Rust type is: the number has 64 bits, the hash is
    made of bytes, and the cell remembers a check that was made. *)
Definition typed (b : Block.t) : Prop :=
  is_u64 (Block.index b) ∧ bytes_ok (Block.hash b) ∧ (Block.hash_good b = true → real_hash b).

(** The numbers that a chain gives its blocks. The checks do not ask for one:
    [good_numbered] tells what gets through. *)
Definition numbered (b : Block.t) : Prop := 1 <= Block.index b < MAX.
Lemma numbered_u64 b : numbered b → is_u64 (Block.index b).
Proof. unfold numbered, is_u, MAX. lia. Qed.
Lemma numbered_pos b : numbered b → 0 < Block.index b.
Proof. unfold numbered. lia. Qed.

Lemma typed_fresh b : is_u64 (Block.index b) → bytes_ok (Block.hash b) → Block.hash_good b = false → typed b.
Proof. intros Hi Hb Hf. split; [done|]. split; [done|]. congruence. Qed.

Lemma hash_ok_real b : typed b → hash_ok b → real_hash b.
Proof.
  intros (_ & _ & Hs) Hok. destruct (Block.hash_good b) eqn:Hg; [by apply Hs|]. destruct Hok as [?|Hok]; [congruence|].
  unfold real_hash. replace (set_hash_good b false) with b; [done|]. destruct b; simpl in *; by subst.
Qed.

Lemma typed_good b : typed b → hash_ok b → typed (set_hash_good b true).
Proof. intros Hty Hok. split; [apply Hty|]. split; [apply Hty|]. intros _. by apply (hash_ok_real b). Qed.

Lemma typed_hash_check b good b' : check_block_hash b = (good, b') → typed b → typed b'.
Proof.
  intros Hc Hty. destruct good.
  - apply hash_check_good in Hc as [-> Hok]. by apply typed_good.
  - unfold check_block_hash in Hc. destruct (Block.hash_good b); [done|]. injection Hc as Hg <-. rewrite Hg.
    apply typed_fresh; [apply Hty|apply Hty|done].
Qed.

Lemma get_block_row c i : 0 <= i < MAX → get_block c i = block_of_row <$> (blocks (db c) !! i).
Proof. intros Hi. unfold get_block, sql_get_block_by_id. rewrite as_i64_id; [done|]. unfold MAX in Hi. lia. Qed.

Lemma wf_db_truncate d h i : wf_db d h → 1 <= i <= h →
  wf_db (sql_truncate_domains i (sql_truncate_blocks i d)) (i - 1).
Proof.
  intros [Hk Hr Hl Hd Hdk] Hi. split; simpl.
  - intros j r [Hj _]%map_lookup_filter_Some. eauto.
  - intros j. rewrite <- not_eq_None_Some, map_lookup_filter_None. specialize (Hr j).
    rewrite <- not_eq_None_Some in Hr. split.
    + intros Hj. destruct (blocks d !! j) as [r|] eqn:Hjr; [|by destruct Hj; left].
      assert (1 <= j <= h) by (by apply Hr). destruct (decide (j < i)); [lia|].
      destruct Hj. right. intros r' [= <-]. lia.
    + intros Hj [Hn|Hf]; [apply Hr; [lia|done]|].
      destruct (blocks d !! j) as [r|] eqn:Hjr; [|apply Hr; [lia|done]].
      specialize (Hf r eq_refl). lia.
  - intros j r r' [Hj _]%map_lookup_filter_Some [Hj' _]%map_lookup_filter_Some. eauto.
  - intros j [r [Hj Hlt]%map_lookup_filter_Some]. destruct (Hd j) as [r' Hr']; [eauto|].
    exists r'. by apply map_lookup_filter_Some.
  - intros j r [Hj _]%map_lookup_filter_Some. eauto.
Qed.

Lemma wf_db_add d h b : wf_db d h → 0 <= h → Block.index b = h + 1 → Block.index b < MAX →
  (∀ r, blocks d !! h = Some r → Block.prev_block_hash b = b_hash r) →
  blocks d !! Block.index b = None ∧ domains d !! Block.index b = None ∧
  ∀ doms, (∀ i r, doms !! i = Some r → domains d !! i = Some r ∨ (i = Block.index b ∧ d_id r = i)) →
    wf_db (Store.mk (<[Block.index b := row_of_block b]> (blocks d)) doms (options d)) (Block.index b).
Proof.
  intros [Hk Hr Hl Hd Hdk] Hh Hi Hmax Hprev.
  assert (blocks d !! Block.index b = None) as Hnone.
  { apply eq_None_not_Some. intros Hs%Hr. lia. }
  split; [done|]. split.
  { apply eq_None_not_Some. intros Hs%Hd. rewrite Hnone in Hs. by destruct Hs. }
  assert (as_i64 (Block.index b) = Block.index b) as Hcast by (apply as_i64_id; unfold MAX in Hmax; lia).
  intros doms Hdoms. split; simpl.
  - intros i r [[<- <-]|[_ Hir]]%lookup_insert_Some; [done|eauto].
  - intros i. rewrite lookup_insert_is_Some, Hr. lia.
  - intros i r r' [[<- <-]|[Hne Hir]]%lookup_insert_Some [[He <-]|[Hne' Hir']]%lookup_insert_Some.
    + lia.
    + exfalso. assert (1 <= Block.index b + 1 <= h) by (apply Hr; eauto). lia.
    + simpl. assert (i = h) as -> by lia. by apply Hprev.
    + eauto.
  - intros i [r [Hs|[-> _]]%Hdoms]; apply lookup_insert_is_Some; [|by left].
    destruct (decide (Block.index b = i)); [by left|right; eauto].
  - intros i r [Hs|[_ Hs]]%Hdoms; eauto.
Qed.

(** The transaction of a block that passed the difficulty check has a class
    that can be stored. *)
Definition storable (b : Block.t) : Prop := ∀ tx, Block.transaction b = Some tx →
  Transaction.class tx = CLASS_DOMAIN ∨ Transaction.class tx = CLASS_ORIGIN.

Lemma checked_storable now c b : checked now c b → bytes_ok (Block.hash b) → storable b.
Proof.
  intros Hc Hb tx Htx. destruct (ch_work _ _ _ Hc) as (need & d & Hneed & H1 & Hd & H2).
  apply (hash_difficulty_bound _ _ Hb) in Hd. unfold needed_difficulty in Hneed. rewrite Htx in Hneed.
  unfold get_difficulty_for_transaction in Hneed. case_bool_decide; [auto|]. case_bool_decide; [auto|].
  injection Hneed as <-. unfold U32_MAX in H1. lia.
Qed.

(** What [add_block] leaves: the block stored, cached as the last block and,
    when it is full, as the last full block; the domain registered. *)
Record added (c : t) (b : Block.t) (c' : t) : Prop := {
  ad_blocks : blocks (db c') = <[Block.index b := row_of_block b]> (blocks (db c));
  ad_last : last_block c' = Some b;
  ad_full : last_full_block c' = if is_some (Block.transaction b) then Some b else last_full_block c;
  ad_domains : domains (db c') =
    match Block.transaction b with
    | Some tx =>
        if bool_decide (Transaction.class tx = CLASS_DOMAIN) then
          <[Block.index b := Drow (Block.index b) (Block.timestamp b) (Transaction.identity tx)
              (Transaction.confirmation tx) (Transaction.data tx)
              (if bool_decide (Transaction.signing tx = []) then Block.pub_key b else Transaction.signing tx)
              (Transaction.encryption tx)]> (domains (db c))
        else domains (db c)
    | None => domains (db c)
    end;
  ad_rest : origin c' = origin c ∧ zones c' = zones c ∧ max_height c' = max_height c ∧
    options (db c') = options (db c);
}.

Lemma add_block_added c b :
  numbered b → storable b → blocks (db c) !! Block.index b = None → domains (db c) !! Block.index b = None →
  ∃ c', add_block b c = Ok (tt, c') ∧ added c b c'.
Proof.
  intros Hi Hs Hb Hd. assert (as_i64 (Block.index b) = Block.index b) as Hcast.
  { apply as_i64_id. unfold numbered, MAX in Hi. lia. }
  unfold add_block, add_block_to_table, sql_add_block. simpl. rewrite Hcast, Hb.
  destruct (Block.transaction b) as [tx|] eqn:Htx.
  - unfold add_transaction_to_table, sql_add_domain.
    destruct (bool_decide (Transaction.signing tx = [])) eqn:Hsig;
      (destruct (bool_decide (Transaction.class tx = CLASS_DOMAIN)) eqn:Hdom; simpl; rewrite ?Hdom;
       [rewrite Hcast, Hd
       |destruct (Hs tx Htx) as [Hc|Hc]; [apply bool_decide_eq_false in Hdom; done|rewrite (bool_decide_true _ Hc)]]);
      (eexists; split; [reflexivity|]); split; simpl; rewrite ?Htx, ?Hdom, ?Hsig; done.
  - eexists. split; [reflexivity|]. split; simpl; rewrite ?Htx; done.
Qed.

Lemma added_wf c b c' : added c b c' → numbered b → wf_db (db c) (Block.index b - 1) →
  (∀ r, blocks (db c) !! (Block.index b - 1) = Some r → Block.prev_block_hash b = b_hash r) → wf c'.
Proof.
  intros Ha Hi Hwf Hprev. unfold numbered in Hi.
  destruct (wf_db_add (db c) (Block.index b - 1) b Hwf) as (Hnb & Hnd & Hadd); [lia|lia|lia|done|].
  assert (get_height c' = Block.index b) as Hh by (unfold get_height; by rewrite (ad_last _ _ _ Ha)).
  split.
  - rewrite Hh. specialize (Hadd (domains (db c'))). rewrite <- (ad_blocks _ _ _ Ha) in Hadd.
    destruct Ha as [_ _ _ Hd (_ & _ & _ & Ho)]. rewrite <- Ho in Hadd. destruct (db c'). simpl in *. apply Hadd.
    rewrite Hd. intros i r Hs. destruct (Block.transaction b) as [tx|]; [|by left].
    case_bool_decide; [|by left]. apply lookup_insert_Some in Hs as [[<- <-]|[_ Hs]]; auto.
  - intros b0 Hl. rewrite (ad_last _ _ _ Ha) in Hl. injection Hl as <-. split; [done|].
    rewrite (ad_blocks _ _ _ Ha). apply lookup_insert_eq.
Qed.

Lemma Good_kept : Good ∉ [Bad; Future; Rewind].
Proof. by apply (bool_decide_unpack (_ ∉ _)). Qed.
Lemma Good_placed : Good ∉ [Bad; Future].
Proof. by apply (bool_decide_unpack (_ ∉ _)). Qed.
Lemma Fork_kept : Fork ∉ [Bad; Future; Rewind].
Proof. by apply (bool_decide_unpack (_ ∉ _)). Qed.
Lemma Fork_placed : Fork ∉ [Bad; Future].
Proof. by apply (bool_decide_unpack (_ ∉ _)). Qed.

(** A good block that is not numbered 0 extends the chain by one. *)
Lemma good_extends now fuel b c b' c1 :
  wf c → 0 < Block.index b → check_new_block now fuel b c = Ok ((Good, b'), c1) →
  Block.index b = get_height c + 1 ∧
  (∀ r, blocks (db c) !! get_height c = Some r → Block.prev_block_hash b = b_hash r) ∧
  (∀ last, last_block c = Some last → Block.timestamp last <= Block.timestamp b).
Proof.
  intros Hwf Hi H. unfold check_new_block in H.
  destruct (check_block_inv _ _ _ _ _ _ _ _ _ H Good_kept) as (-> & _ & Hch & Hpos).
  pose proof (height_bound c Hwf) as Hbound. destruct Hwf as [Hdb Hl]. unfold get_height in *.
  destruct (last_block c) as [last|] eqn:Hlast.
  - destruct (Hl last Hlast) as [Hil Hrow].
    destruct (position_inv _ _ _ _ _ _ _ Hpos Good_placed ltac:(unfold is_u, MAX in *; lia)) as (_ & Hts & Hq).
    simpl in *. destruct Hq as [[Hidx Hp]|[Hle Hnone]].
    + split; [done|]. split; [|intros l [= <-]; apply Hts; lia].
      intros r Hr. rewrite Hrow in Hr. injection Hr as <-. done.
    + exfalso. rewrite get_block_row in Hnone by lia. apply fmap_None in Hnone.
      destruct (proj2 (wf_range _ _ Hdb (Block.index b))) as [r Hr]; [lia|]. congruence.
  - destruct (position_genesis _ _ _ _ _ _ Hpos Good_placed) as (_ & Hgen & _).
    unfold is_genesis in Hgen. rewrite !andb_true_iff, Z.eqb_eq in Hgen. destruct Hgen as [[Hidx _] _].
    simpl in Hidx. split; [lia|]. split; [|done]. intros r Hr. exfalso.
    assert (1 <= 0 <= 0) by (apply (wf_range _ _ Hdb); eauto). lia.
Qed.

(** A fork replaces a stored block and keeps what is below it. *)
Lemma fork_replaces now fuel b c b' c1 :
  wf c → typed b → check_new_block now fuel b c = Ok ((Fork, b'), c1) →
  1 <= Block.index b <= get_height c ∧
  (∀ r, blocks (db c) !! (Block.index b - 1) = Some r → Block.prev_block_hash b = b_hash r) ∧
  ∃ mine, get_block c (Block.index b) = Some mine ∧ Block.hash mine ≠ Block.hash b.
Proof.
  intros Hwf (Hi & _) H. unfold check_new_block in H.
  destruct (check_block_inv _ _ _ _ _ _ _ _ _ H Fork_kept) as (-> & _ & Hch & Hpos).
  destruct Hwf as [Hdb Hl]. unfold get_height.
  destruct (last_block c) as [last|] eqn:Hlast.
  - destruct (Hl last Hlast) as [Hil Hrow].
    destruct (position_inv _ _ _ _ _ _ _ Hpos Fork_placed ltac:(unfold is_u, MAX in *; lia)) as (_ & _ & Hle & mine & Hmine & Hne).
    simpl in *. pose proof Hmine as Hrange. unfold is_u in Hi. rewrite get_block_row in Hrange by lia.
    apply fmap_Some in Hrange as (r & Hr & _). assert (1 <= Block.index b) as Hge.
    { apply (wf_range _ _ Hdb (Block.index b)). eauto. }
    split; [lia|]. split; [|by exists mine].
    destruct (ch_prev _ _ _ Hch) as (i & Hsub & Hprev). simpl in *.
    unfold sub_w in Hsub. rewrite arith_fits in Hsub by (unfold is_u, MAX in *; lia). injection Hsub as <-.
    intros r' Hr'. rewrite get_block_row in Hprev by lia. rewrite Hr' in Hprev. by rewrite (Hprev _ eq_refl).
  - destruct (position_genesis _ _ _ _ _ _ Hpos Fork_placed) as (? & _). done.
Qed.

(** What gets through: a good block has the next number, unless it is numbered 0,
    which only a build without overflow checks lets pass. *)
Lemma good_numbered now fuel b c b' c1 :
  wf c → typed b → check_new_block now fuel b c = Ok ((Good, b'), c1) →
  numbered b ∨ Block.index b = 0 ∧ overflow_checks = false ∨ Block.index b = MAX ∧ get_height c + 1 = MAX.
Proof.
  intros Hwf (Hi & _) H. unfold is_u in Hi. destruct (decide (Block.index b = 0)) as [H0|Hne].
  - right; left. split; [done|]. unfold check_new_block in H.
    destruct (check_block_inv _ _ _ _ _ _ _ _ _ H Good_kept) as (-> & _ & Hch & _).
    destruct (ch_prev _ _ _ Hch) as (i & Hsub & _). simpl in Hsub. rewrite H0 in Hsub.
    unfold sub_w, arith in Hsub. simpl in Hsub. by destruct overflow_checks.
  - assert (0 < Block.index b) as Hpos by lia. destruct (good_extends _ _ _ _ _ _ Hwf Hpos H) as (He & _). pose proof (height_bound _ Hwf).
    unfold numbered. destruct (decide (Block.index b = MAX)); [right; right; lia|left; lia].
Qed.
Lemma fork_numbered now fuel b c b' c1 :
  wf c → typed b → check_new_block now fuel b c = Ok ((Fork, b'), c1) → numbered b.
Proof.
  intros Hwf Hty H. destruct (fork_replaces _ _ _ _ _ _ Hwf Hty H) as [Hi _]. pose proof (height_bound _ Hwf).
  unfold numbered. lia.
Qed.
End Facts.
