(* ===== verification/ChainProps.v ===== *)
(** * Properties of the blockchain *)

From S2P Require Import Prelude Text Commons Hash Keystore Net Buffer Protocol Block Store Chain ChainFacts.
Import Store Chain.
Open Scope Z_scope.

Section Props.
Context {CR : Crypto} {SD : Serde} {EC : Ecies} {U : Unicode} {BP : Build}.

(** ** The chain as a state machine

    What the node does to its chain when blocks arrive: extend it by a good
    block, replace its end by a fork, remember signers, note the height of
    others. *)
Inductive chain_step : t → t → Prop :=
  | step_add now fuel b b' c c1 c2 :
      typed b → check_new_block now fuel b c = Ok ((Good, b'), c1) →
      add_block b' c1 = Ok (tt, c2) → chain_step c c2
  | step_replace now fuel b b' c c1 c2 :
      typed b → check_new_block now fuel b c = Ok ((Fork, b'), c1) →
      replace_block b' c1 = Ok (tt, c2) → chain_step c c2
  | step_check now fuel b q b' c c1 :
      check_new_block now fuel b c = Ok ((q, b'), c1) → chain_step c c1
  | step_height h c : chain_step c (update_max_height c h).

Lemma same_cache_reads c c' : same_but_cache c c' →
  db c' = db c ∧ last_block c' = last_block c ∧ last_full_block c' = last_full_block c ∧
  origin c' = origin c ∧ zones c' = zones c ∧ max_height c' = max_height c.
Proof. by intros (i & s & ->). Qed.

Lemma wf_new origin zones : wf (Chain.new origin zones None).
Proof.
  unfold Chain.new. simpl.
  assert (wf (Chain.mk origin None None 0 create_tables zones 0 [])) as Hwf.
  { split; [|by intros b]. split; simpl.
    - intros i r. by rewrite lookup_empty.
    - intros i. rewrite lookup_empty. unfold get_height. simpl. split; [by intros []|lia].
    - intros i r r'. by rewrite lookup_empty.
    - intros i. rewrite lookup_empty. by intros [].
    - intros i r. by rewrite lookup_empty. }
  by destruct (_ && _).
Qed.

(** Adding a good block succeeds and extends the invariant. *)
Lemma good_added now fuel b b' c c1 : wf c → typed b → numbered b →
  check_new_block now fuel b c = Ok ((Good, b'), c1) →
  ∃ c2, add_block b' c1 = Ok (tt, c2) ∧ added c b' c2 ∧ wf c2.
Proof.
  intros Hwf Hty Hnum H. pose proof (numbered_pos _ Hnum) as Hpos.
  destruct (good_extends _ _ _ _ _ _ Hwf Hpos H) as (Hi & Hprev & _).
  pose proof H as Hc. unfold check_new_block in Hc.
  destruct (check_block_inv _ _ _ _ _ _ _ _ _ Hc Good_kept) as (-> & Hok & Hch & _).
  apply check_cache in Hc. pose proof (height_bound c Hwf).
  pose proof (checked_storable _ _ _ Hch (proj1 (proj2 Hty))) as Hst.
  destruct (same_cache_reads _ _ Hc) as (Hdb & Hl & Hlf & Ho & Hz & Hm).
  destruct (wf_db_add (db c) (get_height c) (set_hash_good b true) (proj1 Hwf)) as (Hnb & Hnd & _);
    [lia|done|apply Hnum|done|].
  destruct (add_block_added c1 (set_hash_good b true)) as (c2 & Hadd & Ha); [done|done|by rewrite Hdb..|].
  assert (added c (set_hash_good b true) c2) as Ha'.
  { destruct Ha as [A1 A2 A3 A4 A5]. split; [by rewrite A1, Hdb|done|by rewrite A3, Hlf|by rewrite A4, Hdb|].
    destruct A5 as (-> & -> & -> & ->). by rewrite Hdb. }
  exists c2. split; [done|]. split; [done|]. eapply added_wf; [done|done| |].
  - simpl. rewrite Hi. replace (get_height c + 1 - 1) with (get_height c) by lia. apply Hwf.
  - simpl. rewrite Hi. replace (get_height c + 1 - 1) with (get_height c) by lia. done.
Qed.

(** The chain after the truncation of [replace_block]. *)
Definition truncated (c : t) (i : Z) : t :=
  with_db (with_cache c 0 []) (sql_truncate_domains i (sql_truncate_blocks i (db c))).

Lemma fork_added now fuel b b' c c1 : wf c → typed b →
  check_new_block now fuel b c = Ok ((Fork, b'), c1) →
  ∃ c2, replace_block b' c1 = Ok (tt, c2) ∧ added (truncated c (Block.index b)) b' c2 ∧ wf c2.
Proof.
  intros Hwf Hty H. destruct (fork_replaces _ _ _ _ _ _ Hwf Hty H) as (Hi & Hprev & _).
  pose proof H as Hc. unfold check_new_block in Hc.
  destruct (check_block_inv _ _ _ _ _ _ _ _ _ Hc Fork_kept) as (-> & Hok & Hch & _).
  pose proof (fork_numbered _ _ _ _ _ _ Hwf Hty H) as Hnum.
  apply check_cache in Hc. pose proof (height_bound c Hwf). destruct Hc as (ci & cs & ->).
  pose proof (checked_storable _ _ _ Hch (proj1 (proj2 Hty))) as Hst.
  pose proof (wf_db_truncate _ _ _ (proj1 Hwf) Hi) as Htr.
  assert (∀ r, blocks (db (truncated c (Block.index b))) !! (Block.index b - 1) = Some r →
    Block.prev_block_hash (set_hash_good b true) = b_hash r) as Hprev'.
  { intros r [Hr _]%map_lookup_filter_Some. by apply Hprev. }
  destruct (wf_db_add _ _ (set_hash_good b true) Htr) as (Hnb & Hnd & _); [lia|simpl; lia|apply Hnum|done|].
  destruct (add_block_added (truncated c (Block.index b)) (set_hash_good b true)) as (c2 & Hadd & Ha); [done..|].
  exists c2. split; [|split; [done|by eapply added_wf]].
  unfold replace_block. rewrite (mbind_run _ _ _ tt _ eq_refl). simpl.
  unfold truncate_db_from_block. rewrite (mbind_run _ _ _ tt _ eq_refl). simpl.
  rewrite as_i64_id by (unfold numbered, MAX in *; lia).
  erewrite mbind_run; [done|exact Hadd].
Qed.

(** The step that breaks the chain: a good block is added that is not [numbered].
    It has number 0, in a build without overflow checks, or 2^63-1, on a chain of
    2^63-2 blocks. *)
Definition misnumbered (c c' : t) : Prop := ∃ now fuel b b' c1,
  typed b ∧ check_new_block now fuel b c = Ok ((Good, b'), c1) ∧ add_block b' c1 = Ok (tt, c') ∧
  (Block.index b = 0 ∧ overflow_checks = false ∨ Block.index b = MAX ∧ get_height c + 1 = MAX).

(** On the way from [c] to [c'] a sound chain took such a block. *)
Definition broken (c c' : t) : Prop := ∃ u v,
  rtc chain_step c u ∧ wf u ∧ misnumbered u v ∧ rtc chain_step v c'.

Lemma chain_step_wf c c' : wf c → chain_step c c' → wf c' ∨ misnumbered c c'.
Proof.
  intros Hwf. destruct 1 as [now fuel b b' c c1 c2 Hty Hc Ha|? ? ? ? ? ? ? Hty Hc Ha|? ? ? ? ? ? ? Hc|? ?].
  - destruct (good_numbered _ _ _ _ _ _ Hwf Hty Hc) as [Hnum|Hmis]; [left|right; by exists now, fuel, b, b', c1].
    destruct (good_added _ _ _ _ _ _ Hwf Hty Hnum Hc) as (? & Ha' & _ & Hwf'). rewrite Ha in Ha'. by injection Ha' as <-.
  - left. destruct (fork_added _ _ _ _ _ _ Hwf Hty Hc) as (? & Ha' & _ & Hwf'). rewrite Ha in Ha'. by injection Ha' as <-.
  - left. apply check_cache in Hc. by rewrite <- (wf_same_cache _ _ Hc).
  - by left.
Qed.

Lemma chain_steps_wf c c' : rtc chain_step c c' → wf c → wf c' ∨ broken c c'.
Proof.
  intros Hr Hwf. destruct (rtc_until chain_step misnumbered wf c c') as [?|(u & v & ? & ? & _ & ? & ?)];
    [apply chain_step_wf|done|done|by left|]. right. by exists u, v.
Qed.

(** C7: the chain invariant. In every state a node reaches from an empty
    database by checking blocks of any contents, adding the good ones and replacing
    its own block by the forks it prefers, the stored blocks are numbered 1 to the
    height without a gap, each names the hash of the one before it, the cached
    last block is the top one, and every stored domain belongs to a stored
    block - or on the way a block was called good and added that has the number 0,
    in a build without overflow checks, or 2^63-1. Nothing else breaks the
    invariant; [index_zero_accepted] shows that number 0 does. *)
Theorem chain_invariant origin zones c :
  rtc chain_step (Chain.new origin zones None) c → wf c ∨ broken (Chain.new origin zones None) c.
Proof. intros Hr. by apply (chain_steps_wf _ _ Hr), wf_new. Qed.

(** A good block with a [numbered] index can be added: [add_block]
    does not fail or panic, the block is stored on top, one above the old
    height, it becomes the last block (and the last full block when it carries
    a transaction), every other block is kept, and the invariant holds again. *)
Theorem good_block_extends now fuel b b' c c1 :
  wf c → typed b → numbered b → check_new_block now fuel b c = Ok ((Good, b'), c1) →
  ∃ c2, add_block b' c1 = Ok (tt, c2) ∧ wf c2 ∧ get_height c2 = get_height c + 1 ∧
    blocks (db c2) = <[get_height c + 1 := row_of_block b']> (blocks (db c)) ∧
    last_block c2 = Some b' ∧
    last_full_block c2 = (if is_some (Block.transaction b) then Some b' else last_full_block c).
Proof.
  intros Hwf Hty Hnum H. destruct (good_added _ _ _ _ _ _ Hwf Hty Hnum H) as (c2 & Hadd & Ha & Hwf2).
  pose proof (numbered_pos _ Hnum) as Hpos.
  destruct (good_extends _ _ _ _ _ _ Hwf Hpos H) as (Hi & _ & _). unfold check_new_block in H.
  destruct (check_block_inv _ _ _ _ _ _ _ _ _ H Good_kept) as (-> & _).
  exists c2. split; [done|]. split; [done|]. destruct Ha as [A1 A2 A3 _ _].
  unfold get_height at 1. rewrite A2. simpl in *. rewrite <- Hi. by rewrite A1, A3.
Qed.

Lemma lookup_below {R} (m : gmap Z R) i k : i < k → filter (λ '(id, _), id < k) m !! i = m !! i.
Proof.
  intros Hi. destruct (m !! i) as [r|] eqn:Hr.
  - by apply map_lookup_filter_Some.
  - apply map_lookup_filter_None. by left.
Qed.

(** Replacing by a fork. When [check_new_block] calls a block a fork of a
    stored one, [replace_block] succeeds: the blocks from its index on are
    dropped, with their domains, the fork is the new top, the blocks below it
    are untouched, and the invariant holds again. *)
Theorem fork_replaces_tail now fuel b b' c c1 :
  wf c → typed b → check_new_block now fuel b c = Ok ((Fork, b'), c1) →
  ∃ c2, replace_block b' c1 = Ok (tt, c2) ∧ wf c2 ∧ get_height c2 = Block.index b ∧
    last_block c2 = Some b' ∧
    (∀ i, i < Block.index b → blocks (db c2) !! i = blocks (db c) !! i ∧ domains (db c2) !! i = domains (db c) !! i) ∧
    (∀ i, Block.index b < i → blocks (db c2) !! i = None ∧ domains (db c2) !! i = None).
Proof.
  intros Hwf Hty H. destruct (fork_added _ _ _ _ _ _ Hwf Hty H) as (c2 & Hrep & Ha & Hwf2).
  unfold check_new_block in H. destruct (check_block_inv _ _ _ _ _ _ _ _ _ H Fork_kept) as (-> & _).
  exists c2. split; [done|]. split; [done|]. destruct Ha as [A1 A2 A3 A4 _].
  assert (∀ i, Block.index b ≠ i → domains (db c2) !! i =
    filter (λ '(id, _), id < Block.index b) (domains (db c)) !! i) as Hdom.
  { intros i Hne. rewrite A4. simpl. destruct (Block.transaction b); [|done].
    case_bool_decide; [|done]. by rewrite lookup_insert_ne. }
  unfold get_height. rewrite A2. simpl. do 2 (split; [done|]). simpl in A1. split.
  - intros i Hi. rewrite Hdom by lia. rewrite A1, lookup_insert_ne by lia. split.
    + by apply lookup_below.
    + by apply lookup_below.
  - intros i Hi. rewrite Hdom by lia. rewrite A1, lookup_insert_ne by lia. split.
    + apply map_lookup_filter_None. right. intros r _. lia.
    + apply map_lookup_filter_None. right. intros r _. lia.
Qed.

(** ** What a good block is *)

(** Times that a clock can show: no overflow in the sums of chain.rs. *)
Definition clock (z : Z) : Prop := - 2 ^ 61 <= z < 2 ^ 61.

Lemma clock_add {E} x d : clock x → 0 <= d <= 2 ^ 61 → add_s (E := E) 64 x d = Ok (x + d).
Proof. intros Hx Hd. unfold clock in Hx. apply sarith_fits. change (64 - 1) with 63. lia. Qed.

Lemma domain_state_spec {E} ts time : clock ts →
  domain_state (E := E) ts time = Ok (
    if decide (time <= ts + DOMAIN_LIFETIME) then Alive ts (ts + DOMAIN_LIFETIME)
    else if decide (time <= ts + DOMAIN_LIFETIME + DOMAIN_RENEW_TIME)
         then Expired ts (ts + DOMAIN_LIFETIME + DOMAIN_RENEW_TIME) else Free ts).
Proof.
  intros Hts. unfold domain_state. rewrite clock_add by (done || (unfold DOMAIN_LIFETIME; lia)). rewrite obind_Ok.
  destruct (Z.leb_spec time (ts + DOMAIN_LIFETIME)); [by rewrite decide_True|]. rewrite decide_False by lia.
  unfold add_s. rewrite sarith_fits by (unfold clock, DOMAIN_LIFETIME, DOMAIN_RENEW_TIME in *; change (64 - 1) with 63; lia).
  rewrite obind_Ok. destruct (Z.leb_spec time (ts + DOMAIN_LIFETIME + DOMAIN_RENEW_TIME));
    [by rewrite decide_True|by rewrite decide_False by lia].
Qed.

(** [r] is the newest registration of [identity] stored below [before]. *)
Definition latest (c : t) (identity : bytes) (before i : Z) (r : drow) : Prop :=
  domains (db c) !! i = Some r ∧ d_identity r = identity ∧ i < before ∧
  ∀ j r', domains (db c) !! j = Some r' → d_identity r' = identity → j < before → j <= i.

Lemma latest_found c identity before i r : wf c → latest c identity before i r → 0 <= before < MAX →
  sql_get_domain identity (as_i64 before) (db c) = Some r.
Proof.
  intros Hwf (Hi & Hid & Hlt & Hmax) Hb. rewrite as_i64_id by (unfold MAX in Hb; lia).
  unfold sql_get_domain. apply (last_row_unique _ _ i); [done| |].
  - rewrite (wf_dkey _ _ (proj1 Hwf) i r Hi). by rewrite (bool_decide_true _ Hid), (proj2 (Z.ltb_lt _ _) Hlt).
  - intros j r' Hj Hc. rewrite andb_true_iff, bool_decide_eq_true, Z.ltb_lt in Hc. destruct Hc as [Hid' Hlt'].
    rewrite (wf_dkey _ _ (proj1 Hwf) j r' Hj) in Hlt'. eauto.
Qed.

Lemma bad_transaction_inv now c b tx : bad_transaction (E := DbError) now c b = Ok false →
  Block.transaction b = Some tx → ∃ prev, sub_w (E := DbError) 64 (Block.index b) 1 = Ok prev ∧
  Keystore.check_public_key_strength (E := DbError) (Block.pub_key b) KEYSTORE_DIFFICULTY = Ok true ∧
  is_id_available (E := DbError) c prev now (Transaction.identity tx) (Block.pub_key b) = Ok true ∧
  can_mine_identity (E := DbError) c (Transaction.identity tx) (Block.index b) (Block.timestamp b) (Block.pub_key b) = Ok Fine ∧
  bad_domain_data c tx = false.
Proof.
  unfold bad_transaction. intros H Htx. rewrite Htx in H.
  apply obind_inv in H as (strong & Hs & H). destruct strong; [|done]. cbn [negb] in H.
  apply obind_inv in H as (prev & Hp & H). exists prev.
  apply obind_inv in H as (av & Ha & H). destruct av; [|done]. cbn [negb] in H.
  apply obind_inv in H as (mine & Hm & H). case_bool_decide as Hf; [subst|done]. cbn [negb] in H.
  by injection H as H.
Qed.
(** The block before a numbered one. *)
Lemma sub_one {E} i prev : 1 <= i < MAX → sub_w (E := E) 64 i 1 = Ok prev → prev = i - 1.
Proof. intros Hi. unfold sub_w. rewrite arith_fits by (unfold is_u, MAX in *; lia). by intros [= <-]. Qed.

Lemma good_checked now fuel b b' c c1 : check_new_block now fuel b c = Ok ((Good, b'), c1) →
  b' = set_hash_good b true ∧ hash_ok b ∧ checked now c (set_hash_good b true).
Proof.
  intros H. unfold check_new_block in H.
  destruct (check_block_inv _ _ _ _ _ _ _ _ _ H Good_kept) as (-> & Hok & Hch & _). done.
Qed.

(** The place of a good block. *)
Lemma good_place now fuel b b' c c1 : wf c → typed b → check_new_block now fuel b c = Ok ((Good, b'), c1) →
  Block.index b = 0 ∧ overflow_checks = false ∨
  Block.index b = get_height c + 1 ∧
  (∀ r, blocks (db c) !! get_height c = Some r → Block.prev_block_hash b = b_hash r) ∧
  (∀ last, last_block c = Some last → Block.timestamp last <= Block.timestamp b).
Proof.
  intros Hwf Hty H. pose proof (height_bound _ Hwf).
  destruct (good_numbered _ _ _ _ _ _ Hwf Hty H) as [Hnum|[?|[Hi _]]]; [right|by left|right].
  all: eapply good_extends; [done| |done]; unfold numbered, MAX in *; lia.
Qed.

(** C10: what the network may rely on when a node calls a block good: supported
    version, a time at most one minute ahead, a hash that is the Blakeout hash of
    the block's contents and that has at least the stated difficulty, which is at
    least the one required; and a valid Ed25519 signature of the owner over all but
    the signature. It has the number after the height of the chain and names the
    hash of the last block, whose time it does not precede; the only exception is a
    block of number 0 in a build without overflow checks, which may link to
    nothing. *)
Theorem good_block_valid now fuel b b' c c1 :
  wf c → typed b → clock now → check_new_block now fuel b c = Ok ((Good, b'), c1) →
  Block.version b <= CHAIN_VERSION ∧ (Block.hash b ∉ WRONG_HASHES) ∧ Block.timestamp b <= now + 60 ∧
  blakeout (bincode_block (set_signature (set_hash (set_hash_good b false) []) [])) = Block.hash b ∧
  (∃ need d, needed_difficulty (E := DbError) c b = Ok need ∧ hash_difficulty (E := DbError) (Block.hash b) = Ok d ∧
     need <= Block.difficulty b <= d) ∧
  (length (Block.signature b) = 64%nat ∧ ed_key_valid (Block.pub_key b) = true ∧
   ed_verify (Block.pub_key b) (bincode_block (set_signature b' [])) (Block.signature b) = true) ∧
  (Block.index b = 0 ∧ overflow_checks = false ∨
   Block.index b = get_height c + 1 ∧
   ∀ last, last_block c = Some last →
     Block.prev_block_hash b = Block.hash last ∧ Block.timestamp last <= Block.timestamp b).
Proof.
  intros Hwf Hty Hnow H. pose proof (good_place _ _ _ _ _ _ Hwf Hty H) as Hplace.
  destruct (good_checked _ _ _ _ _ _ H) as (-> & Hok & [Cv Cl (soon & Hsoon & Ct) (need & d & Hneed & W1 & Hd & W2) Cs _ _]).
  rewrite clock_add in Hsoon by (done || lia). injection Hsoon as <-.
  split; [done|]. split; [done|]. split; [done|]. split.
  { by apply hash_ok_real. }
  split; [by exists need, d|]. split.
  - unfold check_block_signature, Keystore.check in Cs. simpl in Cs.
    case_bool_decide; [done|]. destruct (ed_key_valid _); [|done]. case_bool_decide; [|done].
    cbn [negb] in Cs. by injection Cs as Cs.
  - destruct Hplace as [?|(Hi & Hprev & Hts)]; [by left|]. right. split; [done|]. intros last Hl. split; [|by apply Hts].
    destruct Hwf as [_ Hlast]. destruct (Hlast last Hl) as [_ Hrow]. apply (Hprev (row_of_block last)).
    unfold get_height. by rewrite Hl.
Qed.

(** C11: when a domain may change hands. If the newest registration of an
    identity stored below the last block belongs to a key, then a good block that
    registers the identity again is by that key, or comes after the year of the
    registration and the month in which only the owner may renew. Two things are
    not protected. A registration that the last block itself makes is not looked
    at ([fresh_domain_taken]), so [r] is one of the blocks below it; and a block of
    number 0, which a build without overflow checks lets pass, may take any domain. *)
Theorem domain_ownership now fuel b b' c c1 tx i r :
  wf c → typed b → check_new_block now fuel b c = Ok ((Good, b'), c1) →
  Block.transaction b = Some tx →
  latest c (Transaction.identity tx) (get_height c) i r → clock (d_timestamp r) →
  d_signing r = Block.pub_key b ∨ d_timestamp r + DOMAIN_LIFETIME + DOMAIN_RENEW_TIME < now ∨
  Block.index b = 0 ∧ overflow_checks = false.
Proof.
  intros Hwf Hty H Htx Hlatest Hclock. destruct (good_place _ _ _ _ _ _ Hwf Hty H) as [?|(Hi & _)]; [by do 2 right|].
  destruct (good_checked _ _ _ _ _ _ H) as (-> & _ & Hch). apply ch_transaction in Hch.
  destruct (bad_transaction_inv _ _ _ _ Hch Htx) as (prev & Hsub & _ & Hav & _). simpl in Hav, Hsub.
  pose proof (height_bound c Hwf). unfold sub_w in Hsub. rewrite arith_fits in Hsub by (unfold is_u, MAX in *; lia).
  injection Hsub as <-. rewrite Hi in Hav. replace (get_height c + 1 - 1) with (get_height c) in Hav by lia.
  unfold is_id_available, get_identity_transaction_and_state in Hav.
  rewrite (latest_found c _ _ i r Hwf Hlatest) in Hav by lia.
  rewrite domain_state_spec in Hav by done. rewrite obind_Ok in Hav. simpl in Hav.
  rewrite same_hash_eq in Hav. case_bool_decide as Hown; [by left|]. right; left.
  destruct (decide _); [done|]. destruct (decide _); [done|]. lia.
Qed.

(** C27: the other rules for a block with a transaction: the owner's key is
    strong; when the identity is new and the key already has a full block, a day
    has passed since; a domain has at most 30 records, and in a zone for Ruvchain
    addresses only it has no record with another address and no long data. *)
Theorem good_transaction_rules now fuel b b' c c1 tx :
  check_new_block now fuel b c = Ok ((Good, b'), c1) → Block.transaction b = Some tx →
  (∃ d, key_hash_difficulty (E := DbError) (blakeout (Block.pub_key b)) = Ok d ∧ KEYSTORE_DIFFICULTY <= d) ∧
  (∀ l, get_last_full_block c (Block.index b) (Some (Block.pub_key b)) = Some l → clock (Block.timestamp l) →
     clock (Block.timestamp b) → is_domain_in_blockchain c (Block.index b) (Transaction.identity tx) = false →
     Block.timestamp l + NEW_DOMAINS_INTERVAL <= Block.timestamp b) ∧
  (∀ dd, get_domain_data tx = Some dd → (length (records dd) <= MAX_RECORDS)%nat ∧
     ∀ z, z ∈ zones c → z_name z = zone dd → ruvchain z = true →
     Forall (λ rec, is_ruvchain_record rec = true ∧
       ∀ data, DnsRecord.get_data rec = Some data → (length data <= MAX_DATA_LEN)%nat) (records dd)).
Proof.
  intros H Htx. destruct (good_checked _ _ _ _ _ _ H) as (-> & _ & Hch). apply ch_transaction in Hch.
  destruct (bad_transaction_inv _ _ _ _ Hch Htx) as (_ & _ & Hkey & _ & Hmine & Hdata). simpl in *.
  split; [|split].
  - unfold Keystore.check_public_key_strength in Hkey. apply obind_inv in Hkey as (d & Hd & Hle).
    injection Hle as Hle%Z.leb_le. by exists d.
  - intros l Hl Hcl Hcb Hnew. unfold can_mine_identity in Hmine. rewrite Hl, Hnew in Hmine.
    rewrite clock_add in Hmine by (done || (unfold NEW_DOMAINS_INTERVAL; lia)). rewrite obind_Ok in Hmine.
    unfold sub_s in Hmine. rewrite sarith_fits in Hmine by (unfold clock, NEW_DOMAINS_INTERVAL in *; change (64 - 1) with 63; lia).
    rewrite obind_Ok in Hmine. simpl in Hmine. destruct (Z.ltb_spec 0 (Block.timestamp l + NEW_DOMAINS_INTERVAL - Block.timestamp b)); [done|lia].
  - intros dd Hdd. unfold bad_domain_data in Hdata. rewrite Hdd in Hdata. case_bool_decide; [done|].
    split; [lia|]. intros z Hz Hname Hruv. unfold bad_zone_records in Hdata.
    assert (bad_record (records dd) = false) as Hbad.
    { destruct (bad_record (records dd)) eqn:Hb; [|done]. apply not_true_iff_false in Hdata. destruct Hdata.
      apply existsb_exists. exists z. split; [by apply list_elem_of_In|]. by rewrite (bool_decide_true _ Hname), Hruv. }
    clear -Hbad. induction (records dd) as [|rec recs IH]; [done|]. simpl in Hbad.
    destruct (is_ruvchain_record rec) eqn:Hr; [|done]. cbn [negb] in Hbad. constructor.
    + split; [done|]. intros data Hd. rewrite Hd in Hbad. case_bool_decide; [done|lia].
    + apply IH. destruct (DnsRecord.get_data rec); [by case_bool_decide|done].
Qed.
End Props.
