(* ===== verification/Ledger.v ===== *)
(** * The ledger that the chain implements

    The abstract specification of chain.rs: a ledger is the list of its blocks,
    the oldest first, and what a name resolves to is read off that list. It may
    grow by one certified block or have its end replaced by one. [represents]
    relates it to the chain of the program, with its two tables and its cached
    last block; the theorems show that every step of the chain is a step of the
    ledger, that the queries are those of the list, and that a restart opens the
    same ledger. *)

From stdpp Require Import sorting.
From S2P Require Import Prelude Text Commons Hash Keystore Net Buffer Protocol Block Store Chain ChainFacts ChainProps.
Import Store Chain.
Open Scope Z_scope.

(** ** Lists numbered from one *)

Definition nth1 {A} (l : list A) (i : Z) : option A := if 1 <=? i then l !! Z.to_nat (i - 1) else None.

Section Nth.
Context {A : Type}.
Implicit Types (l : list A) (i : Z).

Lemma nth1_Some l i a : nth1 l i = Some a → 1 <= i <= Z.of_nat (length l).
Proof. unfold nth1. destruct (Z.leb_spec 1 i); [|done]. intros Hi%lookup_lt_Some. lia. Qed.

Lemma nth1_range l i : is_Some (nth1 l i) ↔ 1 <= i <= Z.of_nat (length l).
Proof.
  split; [intros [a Ha]; by eapply nth1_Some|]. intros [H1 H2]. unfold nth1.
  rewrite (proj2 (Z.leb_le _ _) H1). apply lookup_lt_is_Some_2. lia.
Qed.

Lemma nth1_snoc l a i : nth1 (l ++ [a]) i = if decide (i = Z.of_nat (length l) + 1) then Some a else nth1 l i.
Proof.
  destruct (decide _) as [->|Hne].
  - unfold nth1. rewrite (proj2 (Z.leb_le _ _)) by lia. apply list_lookup_middle. lia.
  - unfold nth1. destruct (Z.leb_spec 1 i); [|done]. destruct (decide (i <= Z.of_nat (length l))).
    + apply lookup_app_l. lia.
    + rewrite !lookup_ge_None_2; [done|lia|rewrite length_app; simpl; lia].
Qed.

Lemma nth1_take l n i : nth1 (take n l) i = if decide (i <= Z.of_nat n) then nth1 l i else None.
Proof.
  unfold nth1. destruct (Z.leb_spec 1 i); [|by destruct (decide _)].
  destruct (decide _); [apply lookup_take_lt; lia|apply lookup_take_ge; lia].
Qed.

Lemma nth1_fmap {B} (f : A → B) l i : nth1 (f <$> l) i = f <$> nth1 l i.
Proof. unfold nth1. destruct (1 <=? i); [apply list_lookup_fmap|done]. Qed.

Lemma nth1_last l : nth1 l (Z.of_nat (length l)) = last l.
Proof.
  destruct l as [|a l] using rev_ind; [done|]. rewrite last_snoc, nth1_snoc, length_app. simpl.
  by rewrite decide_True by lia.
Qed.

Lemma nth1_Forall (P : A → Prop) l i a : Forall P l → nth1 l i = Some a → P a.
Proof. unfold nth1. destruct (1 <=? i); [apply Forall_lookup_1|done]. Qed.

(** The last element that [f] maps to something with [cond]. *)
Lemma last_omap_spec {R} (f : A → option R) (cond : R → bool) l :
  match last (List.filter cond (omap f l)) with
  | Some r => ∃ i, nth1 l i ≫= f = Some r ∧ cond r = true ∧
      ∀ j r', nth1 l j ≫= f = Some r' → cond r' = true → j <= i
  | None => ∀ j r', nth1 l j ≫= f = Some r' → cond r' = false
  end.
Proof.
  induction l as [|a l IH] using rev_ind.
  { intros j r'. unfold nth1. by destruct (1 <=? j). }
  rewrite omap_app, List.filter_app. simpl.
  assert (∀ j r', nth1 l j ≫= f = Some r' → j <= Z.of_nat (length l)) as Hrange.
  { intros j r' Hj. destruct (nth1 l j) eqn:Hn; [|done]. apply nth1_Some in Hn. lia. }
  assert (∀ j r', nth1 (l ++ [a]) j ≫= f = Some r' → (j = Z.of_nat (length l) + 1 ∧ f a = Some r') ∨ nth1 l j ≫= f = Some r') as Hcase.
  { intros j r'. rewrite nth1_snoc. destruct (decide _); auto. }
  destruct (f a) as [r|] eqn:Hf; simpl; [destruct (cond r) eqn:Hc; simpl|].
  { rewrite last_snoc. exists (Z.of_nat (length l) + 1). rewrite nth1_snoc, decide_True by done. simpl.
    split_and!; [done|done|]. intros j r' [[-> _]|Hj%Hrange]%Hcase; lia. }
  all: rewrite app_nil_r; destruct (last _) as [r0|].
  1,3: destruct IH as (i & Hi & Hc0 & Hmax); exists i; pose proof (Hrange _ _ Hi); rewrite nth1_snoc, decide_False by lia;
       split_and!; [done|done|]; intros j r' [[_ He]|Hj]%Hcase Hcr; [congruence|by eapply Hmax].
  all: intros j r' [[_ He]|Hj]%Hcase; [congruence|by eapply IH].
Qed.

(** [ORDER BY id DESC LIMIT 1] on a table that lists [l]. *)
Lemma last_row_list {R} (f : A → option R) (cond : R → bool) l (m : gmap Z R) :
  (∀ i, m !! i = nth1 l i ≫= f) → last_row cond m = last (List.filter cond (omap f l)).
Proof.
  intros Hm. pose proof (last_omap_spec f cond l) as Hs. destruct (last _) as [r|].
  - destruct Hs as (i & Hi & Hc & Hmax). apply (last_row_unique _ _ i); [by rewrite Hm|done|].
    intros j r'. rewrite Hm. apply Hmax.
  - apply last_row_None. intros j r. rewrite Hm. apply Hs.
Qed.
End Nth.

(** ** The specification *)

Module Ledger.
Section Spec.
Context {CR : Crypto} {SD : Serde} {EC : Ecies} {BP : Build}.

Definition t := list Block.t.
Definition height (l : t) : Z := Z.of_nat (length l).

(** What a block registers: a domain, in the name of the miner unless the
    transaction names another key. *)
Definition registers (b : Block.t) : option drow :=
  tx ← Block.transaction b;
  if bool_decide (Transaction.class tx = CLASS_DOMAIN) then
    Some (Drow (Block.index b) (Block.timestamp b) (Transaction.identity tx) (Transaction.confirmation tx)
      (Transaction.data tx) (if bool_decide (Transaction.signing tx = []) then Block.pub_key b else Transaction.signing tx)
      (Transaction.encryption tx))
  else None.

(** The registration of an identity in force below block [before]. *)
Definition registration (l : t) (identity : bytes) (before : Z) : option drow :=
  last (List.filter (λ r, bool_decide (d_identity r = identity) && (d_id r <? before)) (omap registers l)).

(** Who may register: the owner, or anyone when the year and the month of the
    last registration are over. *)
Definition free_for (l : t) (now : Z) (b : Block.t) : Prop :=
  ∀ tx r, Block.transaction b = Some tx → registration l (Transaction.identity tx) (Block.index b - 1) = Some r →
    clock (d_timestamp r) →
    d_signing r = Block.pub_key b ∨ d_timestamp r + DOMAIN_LIFETIME + DOMAIN_RENEW_TIME < now.

(** What everybody can verify of a block by itself. *)
Record certified (b : Block.t) : Prop := {
  ct_hash : real_hash b;
  ct_work : ∃ d, hash_difficulty (E := DbError) (Block.hash b) = Ok d ∧ Block.difficulty b <= d;
  ct_signature : check_block_signature (E := DbError) b = Ok true;
  ct_version : Block.version b <= CHAIN_VERSION;
}.

(** [b] can follow the blocks [l]. *)
Definition follows (l : t) (b : Block.t) : Prop :=
  Block.index b = height l + 1 ∧ ∀ prev, last l = Some prev → Block.prev_block_hash b = Block.hash prev.

Inductive step : t → t → Prop :=
  | extend l b now : follows l b → certified b → free_for l now b → step l (l ++ [b])
  (** The block after the first [n] gives way, with all that follow it. *)
  | rewrite l n b mine now : l !! n = Some mine → Block.hash mine ≠ Block.hash b →
      follows (take n l) b → certified b → free_for l now b → step l (take n l ++ [b])
  | keep l : step l l.

(** A ledger that may come of those steps. *)
Record ok (l : t) : Prop := {
  ok_index : ∀ i b, nth1 l i = Some b → Block.index b = i;
  ok_linked : ∀ i b b', nth1 l i = Some b → nth1 l (i + 1) = Some b' → Block.prev_block_hash b' = Block.hash b;
  ok_certified : Forall certified l;
}.

Lemma ok_nil : ok [].
Proof.
  split; [|by intros i b b' Hi; apply nth1_Some in Hi; simpl in Hi; lia|by constructor].
  intros i b Hi. apply nth1_Some in Hi. simpl in Hi. lia.
Qed.

Lemma ok_snoc l b : ok l → follows l b → certified b → ok (l ++ [b]).
Proof.
  intros [Hi Hl Hc] [Hb Hp] Hcb. split.
  - intros i b'. rewrite nth1_snoc. destruct (decide _) as [->|]; [|apply Hi]. intros [= <-]. done.
  - intros i b1 b2. rewrite !nth1_snoc. destruct (decide (i + 1 = _)) as [He|].
    + rewrite decide_False by lia. replace i with (Z.of_nat (length l)) by lia. rewrite nth1_last. intros ? [= <-]. by apply Hp.
    + destruct (decide (i = _)); [|apply Hl]. intros _ Hn%nth1_Some. lia.
  - apply Forall_app. split; [done|by constructor].
Qed.

Lemma ok_take l n : ok l → ok (take n l).
Proof.
  intros [Hi Hl Hc]. split; [| |by apply Forall_take].
  - intros i b. rewrite nth1_take. destruct (decide _); [apply Hi|done].
  - intros i b b'. rewrite !nth1_take. do 2 (destruct (decide _); [|done]). apply Hl.
Qed.

Lemma step_ok l l' : step l l' → ok l → ok l'.
Proof. intros [] Hok; [by apply ok_snoc|by apply ok_snoc; [apply ok_take|..]|done]. Qed.
End Spec.
End Ledger.

(** ** The chain as an implementation *)

Section Refinement.
Context {CR : Crypto} {SD : Serde} {EC : Ecies} {U : Unicode} {BP : Build}.
Import Ledger.

(** The two tables are views of the list. *)
Record tables (d : Store.t) (l : Ledger.t) : Prop := {
  tb_blocks : ∀ i, blocks d !! i = row_of_block <$> nth1 l i;
  tb_domains : ∀ i, domains d !! i = nth1 l i ≫= registers;
}.

Record represents (c : Chain.t) (l : Ledger.t) : Prop := {
  rp_tables : tables (db c) l;
  rp_last : last_block c = last l;
  rp_ok : Ledger.ok l;
  rp_bound : Ledger.height l < MAX;
}.

Lemma represents_height c l : represents c l → get_height c = Ledger.height l.
Proof.
  intros [_ Hl Hok _]. unfold get_height. rewrite Hl, <- nth1_last. destruct (nth1 l _) as [b|] eqn:Hn.
  - by apply (ok_index _ Hok) in Hn.
  - unfold Ledger.height. destruct l as [|b l]; [done|]. destruct (proj2 (nth1_range (b :: l) (Z.of_nat (length (b :: l))))); [simpl; lia|congruence].
Qed.

Lemma registers_id b r : registers b = Some r → d_id r = Block.index b.
Proof. unfold registers. intros (tx & _ & H)%bind_Some. case_bool_decide; [|done]. by injection H as <-. Qed.

(** The invariant of the chain is what makes its tables a ledger. *)
Lemma represents_wf c l : represents c l → wf c.
Proof.
  intros Hr. pose proof (represents_height _ _ Hr) as Hh. destruct Hr as [[Hb Hd] Hl Hok Hm].
  assert (∀ i b, nth1 l i = Some b → Block.index b = i ∧ as_i64 i = i) as Hi.
  { intros i b Hn. split; [by eapply ok_index|]. apply nth1_Some in Hn. apply as_i64_id. unfold Ledger.height, MAX in Hm. lia. }
  split; [split|].
  - intros i r. rewrite Hb. intros (b & Hn & ->)%fmap_Some. simpl. destruct (Hi i b Hn) as [-> ?]. done.
  - intros i. by rewrite Hb, fmap_is_Some, nth1_range, Hh.
  - intros i r r'. rewrite !Hb. intros (b & Hn & ->)%fmap_Some (b' & Hn' & ->)%fmap_Some. simpl. by eapply ok_linked.
  - intros i. rewrite Hb, Hd, fmap_is_Some. intros [r (b & Hn & _)%bind_Some]. eauto.
  - intros i r. rewrite Hd. intros (b & Hn & Hreg)%bind_Some. apply registers_id in Hreg as ->. by eapply ok_index.
  - intros b. rewrite Hl, <- nth1_last. intros Hn. pose proof (nth1_Some _ _ _ Hn).
    destruct (Hi _ _ Hn) as [-> _]. rewrite Hb, Hn. split; [|done]. unfold Ledger.height in Hm. lia.
Qed.

Lemma tables_added c b c' l : added c b c' → tables (db c) l → Block.index b = Ledger.height l + 1 → tables (db c') (l ++ [b]).
Proof.
  intros Ha [Hb Hd] Hi. unfold Ledger.height in Hi. split; intros i; rewrite nth1_snoc.
  - rewrite (ad_blocks _ _ _ Ha), Hi. destruct (decide _) as [->|]; [by rewrite lookup_insert_eq|by rewrite lookup_insert_ne].
  - rewrite (ad_domains _ _ _ Ha). unfold registers. destruct (decide _) as [->|Hne]; simpl.
    + assert (domains (db c) !! (Z.of_nat (length l) + 1) = None) as Hnone.
      { rewrite Hd. destruct (nth1 l _) eqn:Hn; [|done]. apply nth1_Some in Hn. lia. }
      destruct (Block.transaction b) as [tx|]; simpl; [|done]. case_bool_decide; [|done]. rewrite Hi. by rewrite lookup_insert_eq.
    + rewrite <- Hd. destruct (Block.transaction b) as [tx|]; [|done]. case_bool_decide; [|done]. rewrite Hi. by rewrite lookup_insert_ne.
Qed.

Lemma filter_below {R} (m : gmap Z R) k i : filter (λ '(id, _), id < k) m !! i = if decide (i < k) then m !! i else None.
Proof.
  destruct (decide (i < k)); [by apply lookup_below|]. apply map_lookup_filter_None. right. intros r _. lia.
Qed.

Lemma tables_truncated d l n : tables d l →
  tables (sql_truncate_domains (Z.of_nat n + 1) (sql_truncate_blocks (Z.of_nat n + 1) d)) (take n l).
Proof.
  intros [Hb Hd]. split; intros i; simpl; rewrite filter_below, nth1_take; destruct (decide _), (decide _); try lia; done.
Qed.

Lemma same_cache_represents c c' l : same_but_cache c c' → represents c l → represents c' l.
Proof. intros (i & s & ->) [? ? ? ?]. by split. Qed.

(** *** Queries *)

Lemma represents_registration c l identity before : represents c l → 0 <= before < MAX →
  sql_get_domain identity (as_i64 before) (db c) = registration l identity before.
Proof.
  intros [[_ Hd] _ _ _] Hb. rewrite as_i64_id by (unfold MAX in Hb; lia). by apply last_row_list.
Qed.

Lemma represents_get_block c l i : represents c l → 0 <= i < MAX →
  get_block c i = (λ b, block_of_row (row_of_block b)) <$> nth1 l i.
Proof. intros [[Hb _] _ _ _] Hi. rewrite get_block_row, Hb by done. by destruct (nth1 l i). Qed.

(** *** Steps *)

Lemma accepted_free now c l b : represents c l → numbered b → checked now c (set_hash_good b true) →
  Ledger.free_for l now (set_hash_good b true).
Proof.
  intros Hr Hnum Hch tx r Htx Hreg Hclock. apply ch_transaction in Hch. unfold numbered in Hnum.
  destruct (bad_transaction_inv _ _ _ _ Hch Htx) as (prev & Hsub%(sub_one _ _ Hnum) & _ & Hav & _). subst prev.
  unfold is_id_available, get_identity_transaction_and_state in Hav.
  rewrite (represents_registration _ _ _ _ Hr) in Hav by lia. simpl in Hreg. rewrite Hreg in Hav.
  rewrite domain_state_spec in Hav by done. rewrite obind_Ok in Hav. simpl in Hav.
  rewrite same_hash_eq in Hav. case_bool_decide as Hown; [by left|]. right.
  destruct (decide _); [done|]. destruct (decide _); [done|]. lia.
Qed.

Lemma accepted_certified now c b : typed b → hash_ok b → checked now c (set_hash_good b true) →
  Ledger.certified (set_hash_good b true).
Proof.
  intros Hty Hok [Cv _ _ (need & d & _ & _ & Hd & Hw) Cs _ _]. split; [|by exists d|done|done].
  by apply (hash_ok_real b).
Qed.

Lemma last_take_nth1 {A} (l : list A) n : (n <= length l)%nat → last (take n l) = nth1 l (Z.of_nat n).
Proof.
  intros Hn. rewrite <- nth1_last, length_take, Nat.min_l, nth1_take by done. by rewrite decide_True.
Qed.

Lemma add_refines now fuel b b' c c1 c2 l : represents c l → typed b → numbered b →
  check_new_block now fuel b c = Ok ((Good, b'), c1) → add_block b' c1 = Ok (tt, c2) →
  Ledger.step l (l ++ [b']) ∧ represents c2 (l ++ [b']).
Proof.
  intros Hr Hty Hnum Hc Ha. pose proof (represents_wf _ _ Hr) as Hwf. pose proof (represents_height _ _ Hr) as Hh.
  destruct (good_added _ _ _ _ _ _ Hwf Hty Hnum Hc) as (c2' & Ha' & Hadd & Hwf2). rewrite Ha in Ha'. injection Ha' as <-.
  pose proof (numbered_pos _ Hnum) as Hpos.
  destruct (good_extends _ _ _ _ _ _ Hwf Hpos Hc) as (Hi & Hprev & _).
  destruct (good_checked _ _ _ _ _ _ Hc) as (-> & Hok & Hch).
  assert (Ledger.follows l (set_hash_good b true)) as Hfol.
  { split; [simpl; lia|]. intros prev Hlast. simpl. apply (Hprev (row_of_block prev)).
    rewrite Hh, (tb_blocks _ _ (rp_tables _ _ Hr)). unfold Ledger.height. by rewrite nth1_last, Hlast. }
  pose proof (accepted_certified _ _ _ Hty Hok Hch) as Hcert.
  split; [eapply extend; [done..|by eapply accepted_free]|]. split.
  - eapply tables_added; [done|apply Hr|apply Hfol].
  - by rewrite (ad_last _ _ _ Hadd), last_snoc.
  - apply ok_snoc; [apply Hr|done|done].
  - unfold Ledger.height. rewrite length_app. simpl. unfold numbered, Ledger.height in *. lia.
Qed.

Lemma replace_refines now fuel b b' c c1 c2 l : represents c l → typed b →
  check_new_block now fuel b c = Ok ((Fork, b'), c1) → replace_block b' c1 = Ok (tt, c2) →
  let l' := take (Z.to_nat (Block.index b - 1)) l ++ [b'] in Ledger.step l l' ∧ represents c2 l'.
Proof.
  intros Hr Hty Hc Ha. pose proof (represents_wf _ _ Hr) as Hwf. pose proof (represents_height _ _ Hr) as Hh.
  destruct (fork_added _ _ _ _ _ _ Hwf Hty Hc) as (c2' & Ha' & Hadd & Hwf2). rewrite Ha in Ha'. injection Ha' as <-.
  pose proof (fork_numbered _ _ _ _ _ _ Hwf Hty Hc) as Hnum.
  destruct (fork_replaces _ _ _ _ _ _ Hwf Hty Hc) as (Hi & Hprev & mine & Hmine & Hne).
  pose proof Hc as Hinv. unfold check_new_block in Hinv.
  destruct (check_block_inv _ _ _ _ _ _ _ _ _ Hinv Fork_kept) as (-> & Hok & Hch & _).
  set (n := Z.to_nat (Block.index b - 1)). assert (Block.index b = Z.of_nat n + 1) as Hn by lia.
  rewrite Hh in Hi. unfold Ledger.height in Hi. assert (n < length l)%nat as Hlen by lia.
  assert (Ledger.height (take n l) = Z.of_nat n) as Hht by (unfold Ledger.height; rewrite length_take; lia).
  assert (Ledger.follows (take n l) (set_hash_good b true)) as Hfol.
  { split; [simpl; lia|]. intros prev. rewrite last_take_nth1 by lia. intros Hlast. simpl. apply (Hprev (row_of_block prev)).
    replace (Block.index b - 1) with (Z.of_nat n) by lia. by rewrite (tb_blocks _ _ (rp_tables _ _ Hr)), Hlast. }
  pose proof (accepted_certified _ _ _ Hty Hok Hch) as Hcert. split.
  - rewrite (represents_get_block _ _ _ Hr) in Hmine by (unfold numbered in Hnum; lia).
    apply fmap_Some in Hmine as (m & Hm & ->). unfold nth1 in Hm. destruct (1 <=? _); [|done].
    eapply rewrite; [exact Hm|done|done|done|by eapply accepted_free].
  - split.
    + eapply tables_added; [done| |simpl; lia]. cbn [db truncated with_db]. rewrite Hn. apply tables_truncated, Hr.
    + by rewrite (ad_last _ _ _ Hadd), last_snoc.
    + apply ok_snoc; [by apply ok_take, Hr|done|done].
    + unfold Ledger.height. rewrite length_app, length_take. simpl. pose proof (rp_bound _ _ Hr). unfold Ledger.height in *. lia.
Qed.

Lemma chain_step_refines c c' l : represents c l → chain_step c c' →
  (∃ l', Ledger.step l l' ∧ represents c' l') ∨ misnumbered c c'.
Proof.
  intros Hr. destruct 1 as [now fuel b b' c c1 c2 Hty Hc Ha|? ? ? ? ? ? ? Hty Hc Ha|? ? ? ? ? ? ? Hc|h c].
  - destruct (good_numbered _ _ _ _ _ _ (represents_wf _ _ Hr) Hty Hc) as [Hnum|Hmis];
      [left|right; by exists now, fuel, b, b', c1]. eexists. by eapply add_refines.
  - left. eexists. by eapply replace_refines.
  - left. exists l. split; [apply keep|]. eapply same_cache_represents; [by eapply check_cache|done].
  - left. exists l. split; [apply keep|]. by destruct Hr; split.
Qed.

(** The steps of a chain, up to the one that breaks it, are steps of the ledger. *)
Lemma chain_steps_refine c c' l : represents c l → rtc chain_step c c' →
  (∃ l', rtc Ledger.step l l' ∧ represents c' l') ∨ broken c c'.
Proof.
  intros Hr Hs.
  destruct (rtc_until chain_step misnumbered (λ c, ∃ l', rtc Ledger.step l l' ∧ represents c l') c c')
    as [?|(u & v & Hu & (l' & _ & Hl') & _ & Hm & Hv)]; [|done|by exists l|by left|right].
  - intros u v (l1 & H1 & Hr1) Hst. destruct (chain_step_refines _ _ _ Hr1 Hst) as [(l2 & H2 & Hr2)|]; [left|by right].
    exists l2. split; [by eapply rtc_r|done].
  - exists u, v. split; [done|]. split; [by eapply represents_wf|done].
Qed.

Lemma represents_new origin zones : represents (Chain.new origin zones None) [].
Proof.
  assert (represents (Chain.mk origin None None 0 create_tables zones 0 []) []) as H.
  { split; [|done|apply ok_nil|by vm_compute]. split; intros i; simpl; rewrite lookup_empty; unfold nth1; by destruct (1 <=? i). }
  unfold Chain.new. simpl. by destruct (_ && _).
Qed.

(** C8: the chain implements the ledger. Whatever blocks arrive, the
    two tables and the cached last block of every state reached from an empty
    database are a view of one list of blocks, and each step of the chain is a
    step of that list: a block on top or in place of an end, with a real hash, the
    work it claims and a valid signature, linked to the block below it, whose
    domain nobody else owns. The one exception is [misnumbered]: a block of number
    0 in a build without overflow checks, or of number 2^63-1, is called good and
    added; from there the tables are no ledger. *)
Theorem chain_refines_ledger origin zones c :
  rtc chain_step (Chain.new origin zones None) c →
  (∃ l, rtc Ledger.step [] l ∧ represents c l ∧
    ∀ c', chain_step c c' → (∃ l', Ledger.step l l' ∧ represents c' l') ∨ misnumbered c c') ∨
  broken (Chain.new origin zones None) c.
Proof.
  intros Hs. destruct (chain_steps_refine _ _ _ (represents_new origin zones) Hs) as [(l & Hl & Hr)|]; [left|by right].
  exists l. split; [done|]. split; [done|]. intros c'. by apply chain_step_refines.
Qed.

(** *** The reads of chain.rs *)

Lemma elem_of_by_id {R} (m : gmap Z R) r : r ∈ by_id m ↔ ∃ i, m !! i = Some r.
Proof.
  unfold by_id. rewrite list_elem_of_fmap. split.
  - intros ([i r'] & -> & Hin). exists i. rewrite merge_sort_Permutation in Hin. by apply elem_of_map_to_list.
  - intros [i Hi]. exists (i, r). split; [done|]. rewrite merge_sort_Permutation. by apply elem_of_map_to_list.
Qed.

Lemma elem_of_nth1 {A} (l : list A) a : a ∈ l ↔ ∃ i, nth1 l i = Some a.
Proof.
  rewrite list_elem_of_lookup. split.
  - intros [i Hi]. exists (Z.of_nat i + 1). unfold nth1. rewrite (proj2 (Z.leb_le _ _)) by lia.
    by replace (Z.to_nat (Z.of_nat i + 1 - 1)) with i by lia.
  - intros [i Hi]. unfold nth1 in Hi. destruct (1 <=? i); [eauto|done].
Qed.

(** What the list says of an identity at a time. *)
Definition ledger_state {E} (l : Ledger.t) (identity : bytes) (before time : Z) : outcome E (option Transaction.t * DomainState) :=
  match registration l identity before with
  | Some r => let! state := domain_state (d_timestamp r) time in Ok (Some (transaction_of_row r), state)
  | None => Ok (None, NotFound)
  end.

(** C12: the reads of the chain are those of the list it represents: its height, its
    blocks by number, the hash of the last one, the registration in force below a
    block with its state at a time, whether there is one, and the numbers of
    domains and of keys. *)
Theorem ledger_reads {E} c l : represents c l →
  get_height c = Ledger.height l ∧ get_last_hash c = default [] (Block.hash <$> last l) ∧
  (∀ i, 0 <= i < MAX → get_block c i = (λ b, block_of_row (row_of_block b)) <$> nth1 l i) ∧
  (∀ identity before time, 0 <= before < MAX →
     get_identity_transaction_and_state (E := E) c identity before time = ledger_state l identity before time ∧
     is_domain_in_blockchain c before identity = is_some (registration l identity before)) ∧
  get_domains_count c = Z.of_nat (size (list_to_set (d_identity <$> omap registers l) : gset bytes)) ∧
  get_users_count c = Z.of_nat (size (list_to_set (Block.pub_key <$> l) : gset bytes)).
Proof.
  intros Hr. split; [by apply represents_height|]. split.
  { unfold get_last_hash. rewrite (rp_last _ _ Hr). by destruct (last l). }
  split; [intros i; by apply represents_get_block|]. split.
  { intros id before time Hb. unfold get_identity_transaction_and_state, is_domain_in_blockchain.
    by rewrite (represents_registration _ _ _ _ Hr). }
  destruct Hr as [[Hb Hd] _ _ _]. split; unfold get_domains_count, get_users_count, sql_get_domains_count, sql_get_users_count;
    do 2 f_equal; apply set_eq; intros x; rewrite !elem_of_list_to_set, !list_elem_of_fmap.
  - setoid_rewrite elem_of_by_id. setoid_rewrite Hd. setoid_rewrite list_elem_of_omap. setoid_rewrite elem_of_nth1.
    split; intros (r & -> & Hx); exists r; (split; [done|]).
    + destruct Hx as (i & (b & Hn & Hreg)%bind_Some). eauto.
    + destruct Hx as (b & (i & Hn) & Hreg). exists i. by rewrite Hn.
  - setoid_rewrite elem_of_by_id. setoid_rewrite Hb. setoid_rewrite elem_of_nth1. split.
    + intros (r & -> & i & (b & Hn & ->)%fmap_Some). eauto.
    + intros (b & -> & i & Hn). exists (row_of_block b). split; [done|]. exists i. by rewrite Hn.
Qed.

(** *** A restart *)

(** serde writes no byte field that is all zeros ([skip_serializing_if =
    "Bytes::is_zero"] of block.rs and transaction.rs), and reads it back empty: a
    field comes back when it is empty or is not zero. *)
Definition comes_back (field : bytes) : Prop := field = [] ∨ Bytes.is_zero field = false.
Definition whole_tx (tx : Transaction.t) : Prop :=
  comes_back (Transaction.identity tx) ∧ comes_back (Transaction.confirmation tx) ∧
  comes_back (Transaction.signing tx) ∧ comes_back (Transaction.encryption tx).
Definition whole_transaction (b : Block.t) : Prop := ∀ tx, Block.transaction b = Some tx → whole_tx tx.
Definition whole (b : Block.t) : Prop :=
  comes_back (Block.hash b) ∧ comes_back (Block.prev_block_hash b) ∧ comes_back (Block.pub_key b) ∧
  comes_back (Block.signature b) ∧ whole_transaction b.

(** The fields of a block that come from the wire, within their types; and its
    transaction has no field that its JSON text would lose. *)
Definition fields_ok (b : Block.t) : Prop :=
  (is_u32 (Block.version b) ∧ is_u32 (Block.difficulty b) ∧ is_u32 (Block.random b) ∧ is_u64 (Block.nonce b)) ∧
  whole_transaction b.

(** The block as it comes out of the database. *)
Definition stored (b : Block.t) : Block.t := set_hash_good b false.

Section Restart.
(** What serde guarantees: JSON reads back what it wrote, but for the fields that
    it leaves out; an empty text is no transaction; and the cell is not serialized. *)
Context (Hjson : ∀ tx, whole_tx tx → json_transaction (json_of_transaction tx) = Some tx) (Hempty : json_transaction [] = None).
Context (Hcell : ∀ b good, bincode_block (set_hash_good b good) = bincode_block b).

Lemma reload b : 1 <= Block.index b < MAX → fields_ok b → block_of_row (row_of_block b) = stored b.
Proof.
  intros Hi ((Hv & Hd & Hr & Hn) & Htx). unfold block_of_row, row_of_block, stored, from_all_params, set_hash_good. simpl.
  rewrite !wrap64_as_i64, !wrap_small by (try done; unfold is_u, MAX in *; lia).
  f_equal. unfold whole_transaction in Htx. destruct (Block.transaction b); [by apply Hjson, Htx|apply Hempty].
Qed.

Lemma full_row b : whole_transaction b → full (row_of_block b) = is_some (Block.transaction b).
Proof.
  intros Hw. unfold full. simpl. destruct (Block.transaction b) as [tx|] eqn:Htx; simpl; [|done].
  rewrite bool_decide_false; [done|]. intros He. specialize (Hjson tx (Hw tx Htx)). rewrite He in Hjson. congruence.
Qed.

Lemma stored_certified b : Ledger.certified b → Ledger.certified (stored b).
Proof.
  intros [H1 H2 H3 H4]. split; [exact H1|exact H2| |exact H4]. unfold check_block_signature, as_bytes_compact in *.
  change (set_signature (stored b) []) with (set_hash_good (set_signature b []) false). by rewrite Hcell.
Qed.

Lemma stored_ok l : Ledger.ok l → Ledger.ok (stored <$> l).
Proof.
  intros [Hi Hl Hc]. split.
  - intros i b. rewrite nth1_fmap. intros (b' & Hn & ->)%fmap_Some. exact (Hi i b' Hn).
  - intros i b b'. rewrite !nth1_fmap. intros (b1 & Hn1 & ->)%fmap_Some (b2 & Hn2 & ->)%fmap_Some. exact (Hl i b1 b2 Hn1 Hn2).
  - apply Forall_fmap. eapply Forall_impl; [exact Hc|]. exact stored_certified.
Qed.

Lemma stored_tables d l : tables d l → tables d (stored <$> l).
Proof. intros [Hb Hd]. split; intros i; rewrite nth1_fmap; [rewrite Hb|rewrite Hd]; by destruct (nth1 l i). Qed.

Lemma List_filter_fmap {A B} (f : A → B) (cond : B → bool) (l : list A) :
  List.filter cond (f <$> l) = f <$> List.filter (λ a, cond (f a)) l.
Proof. induction l as [|a l IH]; [done|]. rewrite fmap_cons. cbn [List.filter]. destruct (cond (f a)); by rewrite IH. Qed.

Lemma omap_Some {A B} (f : A → B) (l : list A) : omap (λ a, Some (f a)) l = f <$> l.
Proof. induction l as [|a l IH]; [done|]. cbn. by f_equal. Qed.

Lemma index_range c l i b : represents c l → nth1 l i = Some b → 1 <= Block.index b < MAX.
Proof.
  intros Hr Hn. pose proof (rp_bound _ _ Hr) as Hm. rewrite (ok_index _ (rp_ok _ _ Hr) _ _ Hn).
  apply nth1_Some in Hn. unfold Ledger.height in Hm. lia.
Qed.

(** The query for the last full block. *)
Lemma last_full_read c l : represents c l → Forall fields_ok l →
  block_of_row <$> sql_get_last_full_block (as_i64 MAX) (db c) =
    last (List.filter (λ b, is_some (Block.transaction b)) (stored <$> l)).
Proof.
  intros Hr Hf. unfold sql_get_last_full_block. change (as_i64 MAX) with MAX.
  rewrite (last_row_list (λ b, Some (row_of_block b)) _ l).
  2: { intros i. rewrite (tb_blocks _ _ (rp_tables _ _ Hr)). by destruct (nth1 l i). }
  rewrite omap_Some, !List_filter_fmap, !fmap_last, <- option_fmap_compose.
  rewrite (List.filter_ext_in _ (λ b, is_some (Block.transaction b))).
  2: { intros b Hb%list_elem_of_In%elem_of_nth1. destruct Hb as [i Hn]. pose proof (index_range _ _ _ _ Hr Hn) as Hi.
       rewrite full_row by (exact (proj2 (nth1_Forall _ _ _ _ Hf Hn))). simpl. rewrite as_i64_id by (unfold MAX in Hi; lia). by rewrite (proj2 (Z.ltb_lt _ _)) by lia. }
  destruct (last (List.filter _ l)) as [b|] eqn:Hl; [|done]. simpl. f_equal.
  assert (b ∈ l) as [i Hn]%elem_of_nth1.
  { apply last_Some_elem_of, list_elem_of_In, List.filter_In in Hl as [Hl _]. by apply list_elem_of_In. }
  apply reload; [by eapply index_range|]. by eapply nth1_Forall.
Qed.

(** [load_last_block] on the tables of a ledger. *)
Lemma load_last_read c l : tables (db c) l → Ledger.ok l → Ledger.height l < MAX → Forall fields_ok l →
  load_last_block c = last (stored <$> l).
Proof.
  intros Ht Hok Hm Hf. unfold load_last_block, sql_get_last_block. rewrite (last_row_list (λ b, Some (row_of_block b)) _ l).
  2: { intros i. rewrite (tb_blocks _ _ Ht). by destruct (nth1 l i). }
  rewrite omap_Some, List_filter_fmap, !fmap_last.
  replace (List.filter _ l) with l by (clear; induction l; simpl; congruence).
  destruct (last l) as [b|] eqn:Hl; [|done]. simpl. f_equal. rewrite <- nth1_last in Hl.
  apply reload; [|by eapply nth1_Forall]. pose proof (nth1_Some _ _ _ Hl). rewrite (ok_index _ Hok _ _ Hl).
  unfold Ledger.height in Hm. lia.
Qed.

(** A restart opens the ledger it left. [Chain::new] on the database of a chain
    whose ledger is [l] represents the blocks of [l], with their checks forgotten,
    and the cached last full block is the newest one with a transaction. *)
Theorem restart_reopens origin zones c l :
  represents c l → Forall fields_ok l → options (db c) = [] →
  represents (Chain.new origin zones (Some (db c))) (stored <$> l) ∧
  last_full_block (Chain.new origin zones (Some (db c))) =
    last (List.filter (λ b, is_some (Block.transaction b)) (stored <$> l)).
Proof.
  intros Hr Hf Ho.
  pose proof (load_last_read (Chain.mk origin None None 0 (db c) zones 0 []) l (rp_tables _ _ Hr) (rp_ok _ _ Hr) (rp_bound _ _ Hr) Hf) as Hlast.
  pose proof (last_full_read _ _ Hr Hf) as Hfull.
  assert (∀ x y, represents (Chain.mk origin (last (stored <$> l)) x 0 (db c) zones 0 y) (stored <$> l)) as Hrep.
  { intros x y. destruct Hr as [Ht _ Hok Hm]. split; [by apply stored_tables|done|by apply stored_ok|].
    unfold Ledger.height. by rewrite length_fmap. }
  unfold Chain.new, stored_origin. rewrite Ho. simpl. rewrite andb_false_r. simpl. rewrite Hlast.
  destruct (last (stored <$> l)) as [b|] eqn:Hb.
  - destruct (Block.transaction b) as [tx|] eqn:Htx; (split; [apply Hrep|]); [|exact Hfull].
    simpl. apply last_Some in Hb as [l' ->]. rewrite List.filter_app. cbn [List.filter]. rewrite Htx. simpl. by rewrite last_snoc.
  - split; [apply Hrep|]. apply last_None in Hb. by rewrite Hb.
Qed.

(** The check of the stored chain cuts the tables and touches nothing else of
    them. *)
Lemma loop_cuts now fuel ids l : ∀ c last full c',
  tables (db c) l → Ledger.ok l → Ledger.height l < MAX → Forall (λ i, 0 <= i < MAX) ids →
  check_chain_loop now fuel ids last full c = Ok (tt, c') → ∃ k, tables (db c') (take k l) ∧ (k <= length l)%nat.
Proof.
  induction ids as [|id ids IH]; intros c last full c' Ht Hok Hm Hids H; cbn [check_chain_loop] in H.
  { injection H as <-. exists (length l). by rewrite take_ge. }
  apply Forall_cons in Hids as [Hid Hids]. rewrite run_get in H. rewrite get_block_row, (tb_blocks _ _ Ht) in H by done.
  destruct (nth1 l id) as [b|] eqn:Hn; [|done]. cbn [fmap option_fmap option_map] in H.
  assert (Block.index (block_of_row (row_of_block b)) = id) as Hi.
  { pose proof (nth1_Some _ _ _ Hn) as Hr. apply (ok_index _ Hok) in Hn. unfold Ledger.height, MAX in Hm. simpl.
    rewrite wrap64_as_i64; [done|unfold is_u; lia]. }
  assert (∀ c0 c1, tables (db c0) l → truncate_db_from_block id c0 = Ok (tt, c1) → ∃ k, tables (db c1) (take k l) ∧ (k <= length l)%nat) as Hcut.
  { intros c0 c1 H0 [= <-]. exists (Z.to_nat (id - 1)). apply nth1_Some in Hn. split; [|lia].
    rewrite as_i64_id by (unfold MAX in Hid; lia). simpl. replace id with (Z.of_nat (Z.to_nat (id - 1)) + 1) at 1 2 by lia.
    by apply tables_truncated. }
  set (b' := block_of_row (row_of_block b)) in *. rewrite Hi in H. destruct (id =? 1).
  { destruct (negb _); [done|]. by eapply IH. }
  destruct (bool_decide _); [by eapply Hcut|].
  apply mbind_inv in H as ([q bl] & c1 & Hc & H). pose proof (check_cache _ _ _ _ _ _ _ _ _ Hc) as (i & s & ->).
  assert (Block.index bl = id) as Hbl by (rewrite <- Hi; by eapply check_block_index).
  destruct (negb _); [rewrite Hbl in H; exact (Hcut (with_cache c i s) c' Ht H)|].
  destruct (is_some _); [|exact (IH (with_cache c i s) _ _ c' Ht Hok Hm Hids H)].
  apply mbind_inv in H as ([] & c2 & [= <-] & H). exact (IH (with_last_full (with_cache c i s) (Some bl)) _ _ c' Ht Hok Hm Hids H).
Qed.

(** What [check_chain] leaves of a ledger: a beginning of it, read back. *)
Lemma check_chain_prefix now fuel count c c' l : represents c l → Forall fields_ok l →
  check_chain now fuel count c = Ok (tt, c') → ∃ k, represents c' (stored <$> take k l).
Proof.
  intros Hr Hf H. pose proof (represents_height _ _ Hr) as Hh. pose proof (rp_bound _ _ Hr) as Hm.
  unfold check_chain in H. rewrite run_get in H.
  apply mbind_inv in H as (start & c1 & Hs & H). apply mlift_inv in Hs as [Hs ->].
  apply mbind_inv in H as (last & c1 & Hl & H).
  assert (c1 = c) as ->.
  { destruct (1 <? start); [|by injection Hl as _ <-]. apply mbind_inv in Hl as (i & c2 & Hi & Hl). apply mlift_inv in Hi as [_ ->]. by injection Hl as _ <-. }
  apply mbind_inv in H as ([] & c2 & Hloop & H).
  assert (0 <= start) as Hstart.
  { destruct (count <? get_height c); [|by injection Hs as <-]. apply obind_inv in Hs as (d & _ & Hs). by apply (arith_range 64) in Hs as [? _]. }
  apply loop_cuts with (l := l) in Hloop as (k & Ht & Hk); [|apply Hr|apply Hr|done|].
  2: { apply Forall_forall. intros i [H1 H2]%elem_of_seqZ. lia. }
  apply mbind_inv in H as ([] & c3 & [= <-] & H). apply mbind_inv in H as ([] & c4 & [= <-] & [= <-]).
  assert (Ledger.ok (take k l)) as Hok by (apply ok_take, Hr).
  assert (Ledger.height (take k l) < MAX) as Hm' by (unfold Ledger.height in *; rewrite length_take; lia).
  exists k. split; [exact (stored_tables _ _ Ht)| |by apply stored_ok|unfold Ledger.height in *; by rewrite length_fmap].
  apply load_last_read; [done|done|done|by apply Forall_take].
Qed.
End Restart.
End Refinement.
