(* ===== verification/ChainSigners.v ===== *)
(** * The signers of a block

    Which keys [get_block_signers] chooses, that it may not return, and what an
    accepted signing block says about its owner. *)

From S2P Require Import Prelude Text Commons Hash Keystore Net Buffer Protocol Block Store Chain ChainFacts.
Import Store Chain.
Open Scope Z_scope.

Section Signers.
Context {CR : Crypto} {SD : Serde} {EC : Ecies} {U : Unicode} {BP : Build}.

(** [minimum_block_count] *)
Definition min_blocks (block : Block.t) : Z :=
  if Block.index block <? 855 then 1 else Z.quot (as_i64 (Block.index block)) 100.

(** A key that may be chosen: it is not the owner of the block, it mined a
    block of the first [window], and enough blocks below this one. *)
Definition eligible (c : t) (block : Block.t) (minimum window : Z) (k : bytes) : Prop :=
  k ≠ Block.pub_key block ∧
  (∃ i b, 1 <= i <= window ∧ get_block c i = Some b ∧ Block.pub_key b = k) ∧
  minimum <= get_user_block_count c k (Block.index block).

(** What holds of the keys chosen so far. *)
Definition chosen (c : t) (block : Block.t) (minimum window : Z) (keys : list bytes) : Prop :=
  NoDup keys ∧ Forall (eligible c block minimum window) keys ∧ Z.of_nat (length keys) <= BLOCK_SIGNERS_ALL.

Lemma chosen_app c block minimum window keys k :
  chosen c block minimum window keys → eligible c block minimum window k → k ∉ keys →
  Z.of_nat (length keys) < BLOCK_SIGNERS_ALL → chosen c block minimum window (keys ++ [k]).
Proof.
  intros (Hn & He & Hl) Hk Hnew Hlen. split; [|split].
  - apply NoDup_app. split; [done|]. split; [|apply NoDup_singleton].
    intros x Hx ->%list_elem_of_singleton. done.
  - apply Forall_app. split; [done|]. by apply Forall_singleton.
  - rewrite length_app. simpl. lia.
Qed.

Lemma signers_loop_spec {E} fuel c block minimum window tail count mitigated keys :
  0 < window → chosen c block minimum window keys →
  match signers_loop (E := E) fuel c block minimum window tail count mitigated keys with
  | Ok res => chosen c block minimum window res ∧ Z.of_nat (length res) = BLOCK_SIGNERS_ALL
  | OutOfFuel => True
  | _ => False
  end.
Proof.
  intros Hw. revert tail count mitigated keys.
  induction fuel as [|fuel IH]; intros tail count mitigated keys Hc; cbn [signers_loop];
    (destruct (Z.leb_spec BLOCK_SIGNERS_ALL (Z.of_nat (length keys))) as [Hdone|Hmore];
      [split; [done|destruct Hc as (_ & _ & ?); lia]|]); [done|].
  set (i := wrap 64 (tail * count) mod window + 1).
  assert (1 <= i <= window) as Hi.
  { subst i. pose proof (Z.mod_pos_bound (wrap 64 (tail * count)) window Hw). lia. }
  destruct (get_block c i) as [b|] eqn:Hb.
  - destruct (Z.ltb_spec (get_user_block_count c (Block.pub_key b) (Block.index block)) minimum); [by apply IH|].
    destruct (negb mitigated && (5000 <? count + 1));
    case_bool_decide as Hown; [by apply IH| |by apply IH|]; cbn [negb andb];
    (case_bool_decide as Hin; [by apply IH|]); cbn [negb];
      (apply IH, chosen_app; [done| |done|done]; split; [done|]; split; [by exists i, b|done]).
  - by destruct (negb mitigated && (5000 <? count + 1)); apply IH.
Qed.

Lemma chosen_nil c block minimum window : chosen c block minimum window [].
Proof. split; [constructor|]. split; [constructor|done]. Qed.

(** The computation of the signers when they are not cached. *)
Lemma block_signers_loop fuel block c :
  BLOCK_SIGNERS_START <= Block.index block <= get_height c → Block.index block < MAX →
  is_some (Block.transaction block) = true → has_signers_for c (Block.index block) = false →
  get_block_signers fuel block c =
    (let! tail := Bytes.get_tail_u64 (Block.signature block) in
     let! result := signers_loop fuel c block (min_blocks block) (Block.index block - 1) tail 1 false [] in
     Ok (result, with_cache c (Block.index block) result)).
Proof.
  intros Hi Hmax Htx Hcache. unfold get_block_signers.
  rewrite (proj2 (Z.ltb_ge _ _)), (proj2 (Z.ltb_ge _ _)) by lia. simpl.
  rewrite Htx, Hcache. simpl. destruct (Bytes.get_tail_u64 _); simpl; try done.
  unfold sub_w. rewrite arith_fits by (unfold is_u, MAX, BLOCK_SIGNERS_START in *; lia). done.
Qed.

(** *** The walk

    The blocks that the loop looks at, as long as it goes on: the first number
    comes from the tail of the signature, the next ones are its multiples. A block
    of a key with too few blocks is passed over before the tail is changed. *)
Record place := Place { p_tail : Z; p_count : Z; p_mitigated : bool }.

Definition looks_at (window : Z) (p : place) : Z := wrap 64 (p_tail p * p_count p) mod window + 1.
(** Does the owner of this block have too few of them? *)
Definition too_few (c : t) (block : Block.t) (minimum : Z) (o : option Block.t) : bool :=
  match o with Some b => get_user_block_count c (Block.pub_key b) (Block.index block) <? minimum | None => false end.
Definition step_on (passed : bool) (p : place) : place :=
  if negb passed && (negb (p_mitigated p) && (5000 <? p_count p + 1))
  then Place (p_tail p / 13) (p_count p + 1) true
  else Place (p_tail p) (p_count p + 1) (p_mitigated p).

(** The keys that qualify among the owners of the next [n] blocks, in the order of
    the walk, each as often as it comes. *)
Fixpoint walk (n : nat) (c : t) (block : Block.t) (minimum window : Z) (p : place) : list bytes :=
  match n with
  | O => []
  | S n =>
      let o := get_block c (looks_at window p) in
      (match o with
       | Some b => if too_few c block minimum o || bool_decide (Block.pub_key b = Block.pub_key block) then [] else [Block.pub_key b]
       | None => []
       end) ++ walk n c block minimum window (step_on (too_few c block minimum o) p)
  end.

(** The first occurrences, after those in [seen]. *)
Fixpoint firsts (seen l : list bytes) : list bytes :=
  match l with
  | [] => []
  | k :: l => if bool_decide (k ∈ seen) then firsts seen l else k :: firsts (seen ++ [k]) l
  end.

(** The loop returns the first seven different keys of the walk, when there are
    seven, and does not return otherwise. *)
Lemma signers_loop_walk {E} fuel c block minimum window p keys :
  Z.of_nat (length keys) <= BLOCK_SIGNERS_ALL →
  let found := keys ++ firsts keys (walk fuel c block minimum window p) in
  signers_loop (E := E) fuel c block minimum window (p_tail p) (p_count p) (p_mitigated p) keys =
    if BLOCK_SIGNERS_ALL <=? Z.of_nat (length found) then Ok (take (Z.to_nat BLOCK_SIGNERS_ALL) found) else OutOfFuel.
Proof.
  revert p keys. induction fuel as [|fuel IH]; intros p keys Hl; cbv zeta; cbn [signers_loop walk].
  - cbn [firsts]. rewrite app_nil_r. destruct (Z.leb_spec BLOCK_SIGNERS_ALL (Z.of_nat (length keys))); [|done].
    rewrite take_ge by (unfold BLOCK_SIGNERS_ALL in *; lia). done.
  - destruct (Z.leb_spec BLOCK_SIGNERS_ALL (Z.of_nat (length keys))) as [Hdone|Hmore].
    { rewrite (proj2 (Z.leb_le _ _)) by (rewrite length_app; lia).
      rewrite take_app_length' by (unfold BLOCK_SIGNERS_ALL in *; lia). done. }
    change (wrap 64 (p_tail p * p_count p) mod window + 1) with (looks_at window p).
    assert (∀ passed l, Z.of_nat (length l) <= BLOCK_SIGNERS_ALL →
      (if negb passed && (negb (p_mitigated p) && (5000 <? p_count p + 1))
       then signers_loop (E := E) fuel c block minimum window (p_tail p / 13) (p_count p + 1) true l
       else signers_loop fuel c block minimum window (p_tail p) (p_count p + 1) (p_mitigated p) l) =
      let found := l ++ firsts l (walk fuel c block minimum window (step_on passed p)) in
      if BLOCK_SIGNERS_ALL <=? Z.of_nat (length found) then Ok (take (Z.to_nat BLOCK_SIGNERS_ALL) found) else OutOfFuel) as Hnext.
    { intros passed l Hll. etransitivity; [|exact (IH (step_on passed p) l Hll)]. unfold step_on. by destruct (_ && _). }
    destruct (get_block c (looks_at window p)) as [b|] eqn:Hb; cbn [too_few]; [|exact (Hnext false keys Hl)].
    destruct (_ <? minimum); [exact (Hnext true keys Hl)|]. cbn [orb].
    case_bool_decide as Hown; cbn [negb andb app]; [exact (Hnext false keys Hl)|]. cbn [firsts].
    case_bool_decide as Hin; cbn [negb]; [exact (Hnext false keys Hl)|].
    etransitivity; [apply (Hnext false (keys ++ [Block.pub_key b])); rewrite length_app; simpl; lia|]. cbv zeta.
    by rewrite <- app_assoc.
Qed.

(** The keys that the walk of [n] blocks gives for a block, at most seven. *)
Definition walked (n : nat) (c : t) (block : Block.t) (tail : Z) : list bytes :=
  take (Z.to_nat BLOCK_SIGNERS_ALL)
    (firsts [] (walk n c block (min_blocks block) (Block.index block - 1) (Place tail 1 false))).

(** C15: which keys sign a full block. Below the signed part of the chain, or above
    its height, there are none. Otherwise, when they are not remembered from
    before, [get_block_signers] returns the first seven different keys that
    qualify on the walk over the chain that starts from the tail of the
    signature - seven different keys, none of them the block's owner, each the
    owner of a block below it that has mined enough blocks - and remembers them,
    so that asking again gives the same keys without computing. It returns as soon
    as the walk has met seven such keys, and while it has not the loop goes on:
    with too few keys for ever ([signers_starve]). *)
Theorem signers_chosen fuel block c tail :
  Block.index block < MAX → is_some (Block.transaction block) = true →
  Bytes.get_tail_u64 (E := DbError) (Block.signature block) = Ok tail →
  (Block.index block < BLOCK_SIGNERS_START ∨ get_height c < Block.index block → get_block_signers fuel block c = Ok ([], c)) ∧
  (BLOCK_SIGNERS_START <= Block.index block <= get_height c → has_signers_for c (Block.index block) = false →
   let keys := walked fuel c block tail in
   if BLOCK_SIGNERS_ALL <=? Z.of_nat (length keys) then
     let c' := with_cache c (Block.index block) keys in
     get_block_signers fuel block c = Ok (keys, c') ∧
     Z.of_nat (length keys) = BLOCK_SIGNERS_ALL ∧ NoDup keys ∧
     Forall (eligible c block (min_blocks block) (Block.index block - 1)) keys ∧
     ∀ fuel', get_block_signers fuel' block c' = Ok (keys, c')
   else get_block_signers fuel block c = OutOfFuel).
Proof.
  intros Hmax Htx Htail. split.
  { intros Hout. unfold get_block_signers.
    destruct (Z.ltb_spec (Block.index block) BLOCK_SIGNERS_START), (Z.ltb_spec (get_height c) (Block.index block)); try done. lia. }
  intros Hi Hcache keys. pose proof (block_signers_loop fuel block c Hi Hmax Htx Hcache) as Hrun. rewrite Htail, obind_Ok in Hrun.
  pose proof (signers_loop_walk (E := DbError) fuel c block (min_blocks block) (Block.index block - 1) (Place tail 1 false) []
    ltac:(by vm_compute)) as Hwalk. cbv zeta in Hwalk. cbn [p_tail p_count p_mitigated app] in Hwalk.
  pose proof (signers_loop_spec (E := DbError) fuel c block (min_blocks block) (Block.index block - 1) tail 1 false []
    ltac:(unfold BLOCK_SIGNERS_START in Hi; lia) (chosen_nil _ _ _ _)) as Hspec.
  rewrite Hwalk in Hspec, Hrun. fold (walked fuel c block tail) in Hrun, Hspec. fold keys in Hrun, Hspec.
  assert ((BLOCK_SIGNERS_ALL <=? Z.of_nat (length (firsts [] (walk fuel c block (min_blocks block) (Block.index block - 1) (Place tail 1 false))))) =
    (BLOCK_SIGNERS_ALL <=? Z.of_nat (length keys))) as Heq.
  { unfold keys, walked. rewrite length_take. apply eq_iff_eq_true. rewrite !Z.leb_le. unfold BLOCK_SIGNERS_ALL. lia. }
  rewrite Heq in Hrun, Hspec. destruct (BLOCK_SIGNERS_ALL <=? Z.of_nat (length keys)); [|done].
  destruct Hspec as ((Hn & He & _) & Hl). split; [done|]. do 3 (split; [done|]).
  intros fuel'. unfold get_block_signers. change (get_height (with_cache _ _ _)) with (get_height c).
  rewrite (proj2 (Z.ltb_ge _ _)), (proj2 (Z.ltb_ge _ _)) by lia. simpl. rewrite Htx.
  unfold has_signers_for. simpl. rewrite Z.eqb_refl, bool_decide_false; [done|].
  intros ->. by vm_compute in Hl.
Qed.

(** The search for signers does not end when too few keys qualify: if any
    list of different eligible keys has fewer than seven, [get_block_signers]
    runs out of any fuel (the loop of the source goes on for ever, holding the
    lock on the chain). *)
Theorem signers_starve fuel block c :
  BLOCK_SIGNERS_START <= Block.index block <= get_height c → Block.index block < MAX →
  is_some (Block.transaction block) = true → has_signers_for c (Block.index block) = false →
  (8 <= length (Block.signature block))%nat → Z.of_nat (length (Block.signature block)) < 2 ^ 64 →
  (∀ keys, NoDup keys → Forall (eligible c block (min_blocks block) (Block.index block - 1)) keys →
     Z.of_nat (length keys) < BLOCK_SIGNERS_ALL) →
  get_block_signers fuel block c = OutOfFuel.
Proof.
  intros Hi Hmax Htx Hcache Hsig Hsig' Hfew. rewrite block_signers_loop by done.
  assert (∃ tail, Bytes.get_tail_u64 (E := DbError) (Block.signature block) = Ok tail) as [tail ->].
  { unfold Bytes.get_tail_u64, sub_w. rewrite arith_fits by (unfold is_u; lia). rewrite obind_Ok.
    rewrite (proj2 (Z.leb_le _ _)) by lia. rewrite bool_decide_true by (rewrite length_drop; lia). eauto. }
  rewrite obind_Ok.
  pose proof (signers_loop_spec (E := DbError) fuel c block (min_blocks block) (Block.index block - 1) tail 1 false []
    ltac:(unfold BLOCK_SIGNERS_START in Hi; lia) (chosen_nil _ _ _ _)) as Hspec.
  destruct (signers_loop _ _ _ _ _ _ _ _ _) as [res| | |]; try done.
  destruct Hspec as ((Hn & He & _) & Hl). specialize (Hfew res Hn He). lia.
Qed.

Lemma not_signed_yet_spec {E} c block ids : not_signed_yet (E := E) c block ids = Ok true →
  ∀ i, i ∈ ids → ∃ b, get_block c i = Some b ∧ Block.pub_key b ≠ Block.pub_key block.
Proof.
  induction ids as [|j ids IH]; simpl; intros H i Hin; [by apply not_elem_of_nil in Hin|].
  destruct (get_block c j) as [b|] eqn:Hb; [|done]. rewrite same_hash_eq in H. case_bool_decide; [done|].
  apply elem_of_cons in Hin as [->|Hin]; [eauto|by apply IH].
Qed.

Lemma good_signer_spec fuel block full c c' : is_good_signer_for_block fuel block full c = Ok (true, c') →
  is_u64 (Block.index full + 1) →
  ∃ keys c1, get_block_signers fuel full c = Ok (keys, c1) ∧ Block.pub_key block ∈ keys ∧
    ∀ i, Block.index full < i < Block.index block → ∃ b, get_block c i = Some b ∧ Block.pub_key b ≠ Block.pub_key block.
Proof.
  unfold is_good_signer_for_block. intros H Hfit. apply mbind_inv in H as (keys & c1 & Hs & H).
  exists keys, c1. split; [done|]. case_bool_decide as Hin; [|done]. split; [done|]. cbn [negb] in H.
  apply mbind_inv in H as (from & c2 & Hfrom & H). apply mlift_inv in Hfrom as [Hfrom ->].
  unfold add_w in Hfrom. rewrite arith_fits in Hfrom by done. injection Hfrom as <-.
  apply obind_inv in H as (ok & Hok & H). injection H as -> <-. intros i Hi.
  destruct (not_signed_yet_spec _ _ _ Hok i) as (b & Hb & Hne); [apply elem_of_seqZ; lia|].
  exists b. split; [|done]. apply signers_cache in Hs as (? & ? & ->). done.
Qed.

(** C16: a signing block that a node accepts above block 35 while the last full
    block still collects signatures is by one of the seven signers of that full
    block, who has mined no block since. *)
Theorem signing_block_rule now fuel b b' c c1 full :
  wf c → typed b → check_new_block now fuel b c = Ok ((Good, b'), c1) →
  Block.transaction b = None → BLOCK_SIGNERS_START < Block.index b →
  last_full_block c = Some full → 0 <= Block.index full → Block.index full <= get_height c < Block.index full + BLOCK_SIGNERS_ALL →
  ∃ keys c2, get_block_signers fuel full c = Ok (keys, c2) ∧ Block.pub_key b ∈ keys ∧
    ∀ i, Block.index full < i <= get_height c → ∃ s, get_block c i = Some s ∧ Block.pub_key s ≠ Block.pub_key b.
Proof.
  intros Hwf Hty H Htx Hi Hfull H0 Hcount.
  assert (0 < Block.index b) as Hpos0 by (unfold BLOCK_SIGNERS_START in Hi; lia).
  destruct (good_extends _ _ _ _ _ _ Hwf Hpos0 H) as (Hidx & _).
  pose proof (height_bound c Hwf) as Hb. unfold check_new_block in H.
  destruct (check_block_inv _ _ _ _ _ _ _ _ _ H Good_kept) as (-> & _ & _ & Hpos).
  assert (signed_ok fuel (set_hash_good b true) (last_full_block c) c) as Hsigned.
  { destruct (last_block c) as [last|] eqn:Hlast.
    - eapply position_inv; [exact Hpos|apply Good_placed|]. unfold get_height in *. rewrite Hlast in *.
      unfold is_u, MAX in *. lia.
    - unfold get_height in *. rewrite Hlast in *. unfold BLOCK_SIGNERS_START in Hi. lia. }
  destruct (Hsigned Hi) as [c' Hsign]. unfold is_good_sign_block in Hsign. simpl in Hsign. rewrite Htx, Hfull in Hsign.
  simpl in Hsign. rewrite (mbind_run _ _ c _ c eq_refl) in Hsign.
  apply mbind_inv in Hsign as (n & c2 & Hn & Hsign). apply mlift_inv in Hn as [Hn ->].
  unfold sub_w in Hn. rewrite arith_fits in Hn by (unfold is_u, MAX in *; lia). injection Hn as <-.
  assert (∃ c3, is_good_signer_for_block fuel (set_hash_good b true) full c = Ok (true, c3)) as [c3 Hgood].
  { rewrite andb_false_r in Hsign. rewrite (proj2 (Z.ltb_lt _ BLOCK_SIGNERS_ALL)) in Hsign by lia. simpl in Hsign.
    destruct (_ <? BLOCK_SIGNERS_MIN); apply mbind_inv in Hsign as (g & c3 & Hg & Hr); injection Hr as -> ->; eauto. }
  destruct (good_signer_spec _ _ _ _ _ Hgood) as (keys & c4 & Hk & Hin & Hothers); [unfold is_u, MAX in *; lia|].
  exists keys, c4. split; [done|]. split; [done|]. intros i Hr. apply Hothers. simpl. lia.
Qed.
End Signers.
