(* ===== verification/Replay.v ===== *)
(** * Replaying a chain

    A node that joins gets the blocks of another node and checks each of them
    against the ones before. This file shows that what one chain accepted, a
    second chain with the same blocks accepts, at any later time and with any
    more fuel: the verdict depends on the database and not on the caches, which
    are the height announced by others and the remembered signers. [remembers]
    is the invariant of that second cache, [tracks] the relation between the two
    runs, and [Agrees] says of an operation that it keeps the relation. *)

From S2P Require Import Prelude Text Commons Hash Keystore Net Buffer Protocol Block Store Chain ChainFacts ChainProps Ledger ChainSigners.
Import Store Chain.
Open Scope Z_scope.

Section Replay.
Context {CR : Crypto} {SD : Serde} {EC : Ecies} {U : Unicode} {BP : Build}.

(** ** Chains that hold the same *)

(** Two chains that differ in their caches only. *)
Definition alike (c d : t) : Prop := ∃ i s h, d = update_max_height (with_cache c i s) h.

#[export] Instance alike_equivalence : Equivalence alike.
Proof.
  split.
  - intros [????????]. by eexists _, _, _.
  - intros [????????] d (i & s & h & ->). by eexists _, _, _.
  - intros c1 c2 c3 (i & s & h & ->) (i' & s' & h' & ->). by exists i', s', h'.
Qed.

Lemma alike_cache c c' : same_but_cache c c' → alike c c'.
Proof. intros (i & s & ->). by exists i, s, (max_height c). Qed.

Lemma alike_wf c d : alike c d → wf c → wf d.
Proof. by intros (i & s & h & ->). Qed.

Lemma alike_reads c d : alike c d →
  db d = db c ∧ last_block d = last_block c ∧ last_full_block d = last_full_block c ∧ origin d = origin c ∧ zones d = zones c.
Proof. by intros (i & s & h & ->). Qed.

(** What is stored when a block is added to alike chains is alike. *)
Lemma alike_add b c d c' : alike c d → add_block b c = Ok (tt, c') →
  ∃ d', add_block b d = Ok (tt, d') ∧ alike c' d' ∧ cache_index d' = cache_index d ∧ cache_signers d' = cache_signers d.
Proof.
  intros (i & s & h & ->). unfold add_block, add_block_to_table. simpl.
  destruct (sql_add_block _ _) as [d1|]; simpl; [|intros [= <-]; eexists; split; [done|]; split; [by exists i, s, h|done]].
  destruct (Block.transaction b) as [tx|]; simpl; [|intros [= <-]; eexists; split; [done|]; split; [by exists i, s, h|done]].
  unfold add_transaction_to_table. destruct (bool_decide (Transaction.signing tx = []));
    (destruct (bool_decide _); simpl;
     [destruct (sql_add_domain _ _) as [d2|]; [|done]
     |destruct (bool_decide _); [|done]]);
    intros [= <-]; (eexists; split; [done|]; split; [by exists i, s, h|done]).
Qed.

(** ** The signers of a full block *)

(** The search of [get_block_signers], the cache left aside. *)
Definition the_signers (fuel : nat) (c : t) (full : Block.t) : outcome DbError (list bytes) :=
  let! tail := Bytes.get_tail_u64 (Block.signature full) in
  signers_loop fuel c full (min_blocks full) (Block.index full - 1) tail 1 false [].

Lemma search_more {E} fuel fuel' c block minimum window tail count mitigated keys r : (fuel <= fuel')%nat →
  signers_loop (E := E) fuel c block minimum window tail count mitigated keys = Ok r →
  signers_loop (E := E) fuel' c block minimum window tail count mitigated keys = Ok r.
Proof.
  revert fuel' tail count mitigated keys. induction fuel as [|fuel IH]; intros fuel' tail count mitigated keys Hf;
    cbn [signers_loop]; (destruct fuel' as [|fuel']; [try lia|]); cbn [signers_loop];
    destruct (BLOCK_SIGNERS_ALL <=? _); try done.
  destruct (get_block c _) as [b|]; [|by destruct (_ && _); apply IH; lia].
  destruct (_ <? minimum); [apply IH; lia|].
  destruct (negb (bool_decide _) && _); destruct (negb mitigated && _); apply IH; lia.
Qed.

Lemma signers_more fuel fuel' c full s : (fuel <= fuel')%nat → the_signers fuel c full = Ok s → the_signers fuel' c full = Ok s.
Proof.
  intros Hf H. unfold the_signers in *. apply obind_inv in H as (tail & -> & H). rewrite obind_Ok. by eapply search_more.
Qed.

(** The search reads the blocks of its window and counts blocks below [block]. *)
Lemma loop_reads {E} fuel c d block minimum window tail count mitigated keys : 0 < window →
  (∀ i, 1 <= i <= window → get_block d i = get_block c i) →
  (∀ k, get_user_block_count d k (Block.index block) = get_user_block_count c k (Block.index block)) →
  signers_loop (E := E) fuel d block minimum window tail count mitigated keys =
  signers_loop (E := E) fuel c block minimum window tail count mitigated keys.
Proof.
  intros Hw Hget Hcount. revert tail count mitigated keys.
  induction fuel as [|fuel IH]; intros tail count mitigated keys; cbn [signers_loop]; destruct (BLOCK_SIGNERS_ALL <=? _); try done.
  rewrite Hget by (pose proof (Z.mod_pos_bound (wrap 64 (tail * count)) window Hw); lia).
  destruct (get_block c _) as [b|]; [|by destruct (_ && _)]. rewrite Hcount. destruct (_ <? minimum); [done|].
  by destruct (negb (bool_decide _) && _), (negb mitigated && _).
Qed.

Lemma signers_alike fuel c d full : alike c d → the_signers fuel d full = the_signers fuel c full.
Proof.
  intros (i & s & h & ->). unfold the_signers. destruct (Bytes.get_tail_u64 _) as [tail| | |]; try done. rewrite !obind_Ok.
  generalize (Block.index full - 1). intros w. generalize 1, false, ([] : list bytes). clear. revert tail.
  induction fuel as [|fuel IH]; intros; cbn [signers_loop]; [done|]. destruct (_ <=? _); [done|].
  change (get_block (update_max_height (with_cache c i s) h)) with (get_block c).
  change (get_user_block_count (update_max_height (with_cache c i s) h)) with (get_user_block_count c).
  destruct (get_block c _); [|destruct (_ && _); apply IH]. destruct (_ <? _); [apply IH|].
  destruct (negb (bool_decide _) && _), (negb b && _); apply IH.
Qed.

(** Blocks on top of [full] do not change its signers. *)
Lemma signers_kept fuel c b c' full : added c b c' → wf c → numbered b → Block.index b = get_height c + 1 →
  1 < Block.index full <= get_height c → the_signers fuel c' full = the_signers fuel c full.
Proof.
  intros Ha Hwf Hib Hi Hf. pose proof (height_bound c Hwf) as Hb. unfold numbered in Hib.
  unfold the_signers. destruct (Bytes.get_tail_u64 _) as [tail| | |]; try done. rewrite !obind_Ok. apply loop_reads; [lia| |].
  - intros i Hr. rewrite !get_block_row by lia. rewrite (ad_blocks _ _ _ Ha), lookup_insert_ne by lia. done.
  - intros k. unfold get_user_block_count, sql_get_user_block_count. rewrite (ad_blocks _ _ _ Ha). do 2 f_equal.
    rewrite as_i64_id by (unfold MAX in *; lia). apply map_filter_insert_not'; [|].
    + intros [_ Hlt]. simpl in Hlt. rewrite as_i64_id in Hlt by (unfold MAX in *; lia). lia.
    + intros r Hr. exfalso. destruct (proj1 (wf_range _ _ (proj1 Hwf) (Block.index b))); [eauto|lia].
Qed.

(** ** The cache of signers *)

(** The last full block is stored, the cache is about a stored block, and what
    it says of the last full block is what the search finds. *)
Record remembers (fuel : nat) (c : t) : Prop := {
  rm_full : ∀ full, last_full_block c = Some full → 1 <= Block.index full <= get_height c ∧ Block.index full < MAX;
  rm_index : cache_index c <= get_height c;
  rm_signers : ∀ full, last_full_block c = Some full → BLOCK_SIGNERS_START <= Block.index full →
    has_signers_for c (Block.index full) = true → the_signers fuel c full = Ok (cache_signers c);
}.

Lemma remembers_new fuel origin zones : remembers fuel (Chain.new origin zones None).
Proof.
  unfold Chain.new. simpl. destruct (_ && _); (split; [done|by vm_compute|done]).
Qed.

Lemma remembers_height fuel c h : remembers fuel (update_max_height c h) ↔ remembers fuel c.
Proof.
  assert (∀ full, the_signers fuel (update_max_height c h) full = the_signers fuel c full) as Hs.
  { intros full. apply signers_alike. by exists (cache_index c), (cache_signers c), h. }
  split; intros [H1 H2 H3]; (split; [exact H1|exact H2|]); intros full Hf Hi Hh; [rewrite <- Hs|rewrite Hs]; by apply H3.
Qed.

Lemma remembers_added fuel c b c' : wf c → numbered b → Block.index b = get_height c + 1 → added c b c' →
  cache_index c' = cache_index c → cache_signers c' = cache_signers c → remembers fuel c → remembers fuel c'.
Proof.
  intros Hwf Hty Hi Ha Hci Hcs [Hfull Hidx Hsig].
  assert (get_height c' = get_height c + 1) as Hh by (unfold get_height at 1; rewrite (ad_last _ _ _ Ha); done).
  split.
  - intros full. rewrite (ad_full _ _ _ Ha). destruct (is_some _); [intros [= <-]; unfold numbered in Hty; lia|].
    intros Hf%Hfull. lia.
  - lia.
  - intros full. rewrite (ad_full _ _ _ Ha). unfold has_signers_for. rewrite Hci, Hcs. destruct (is_some _).
    + intros [= <-] _ [He%Z.eqb_eq _]%andb_true_iff. lia.
    + intros Hf Hs Hc. destruct (Hfull full Hf) as [Hr _].
      rewrite (signers_kept fuel c b c') by (done || (unfold BLOCK_SIGNERS_START in Hs; lia)). by apply Hsig.
Qed.

Lemma remembers_cache F c full s : last_full_block c = Some full → remembers F c → the_signers F c full = Ok s →
  remembers F (with_cache c (Block.index full) s).
Proof.
  intros Hl [H1 H2 H3] Hs. split; [exact H1|apply (H1 full Hl)|]. intros full' Hl' _ _. change (last_full_block c = Some full') in Hl'.
  rewrite Hl in Hl'. injection Hl' as <-. simpl. rewrite <- Hs. apply signers_alike. by exists (Block.index full), s, (max_height c).
Qed.

Lemma signers_cached fuel full c :
  BLOCK_SIGNERS_START <= Block.index full <= get_height c →
  (is_some (Block.transaction full) = false → get_block_signers fuel full c = Panic) ∧
  (is_some (Block.transaction full) = true → has_signers_for c (Block.index full) = true →
   get_block_signers fuel full c = Ok (cache_signers c, c)).
Proof.
  intros Hi. unfold get_block_signers.
  rewrite (proj2 (Z.ltb_ge (Block.index full) BLOCK_SIGNERS_START)), (proj2 (Z.ltb_ge (get_height c) (Block.index full))) by lia.
  simpl. split; intros Htx; rewrite Htx; [done|]. intros Hh. by rewrite Hh.
Qed.

(** [get_block_signers] finds what the search finds, *)
Lemma signers_run F fuel full c s c' : (fuel <= F)%nat → last_full_block c = Some full → remembers F c →
  BLOCK_SIGNERS_START <= Block.index full → get_block_signers fuel full c = Ok (s, c') →
  is_some (Block.transaction full) = true ∧ the_signers F c full = Ok s ∧ remembers F c' ∧ same_but_cache c c'.
Proof.
  intros HF Hl Hrm Hi H. pose proof (signers_cache _ _ _ _ _ H) as Hsame. destruct (rm_full _ _ Hrm full Hl) as [Hr Hm].
  destruct (is_some (Block.transaction full)) eqn:Htx.
  2: { rewrite (proj1 (signers_cached fuel full c ltac:(lia)) Htx) in H. done. }
  split; [done|]. destruct (has_signers_for c (Block.index full)) eqn:Hh.
  - pose proof (rm_signers _ _ Hrm full Hl Hi Hh) as Hs.
    rewrite (proj2 (signers_cached fuel full c ltac:(lia)) Htx Hh) in H. by injection H as <- <-.
  - rewrite block_signers_loop in H by (done || lia). apply obind_inv in H as (tail & Htail & H).
    apply obind_inv in H as (r & Hloop & H). injection H as <- <-.
    assert (the_signers F c full = Ok r) as Hs.
    { apply (signers_more fuel); [done|]. unfold the_signers. by rewrite Htail, obind_Ok. }
    split; [done|]. split; [by apply remembers_cache|done].
Qed.

(** and in an alike chain it finds it too. *)
Lemma signers_found F fuel full d s : (F <= fuel)%nat → last_full_block d = Some full → remembers F d →
  BLOCK_SIGNERS_START <= Block.index full → is_some (Block.transaction full) = true → the_signers F d full = Ok s →
  ∃ d', get_block_signers fuel full d = Ok (s, d') ∧ remembers F d' ∧ same_but_cache d d'.
Proof.
  intros HF Hl Hrm Hi Htx Hs. destruct (rm_full _ _ Hrm full Hl) as [Hr Hm].
  destruct (has_signers_for d (Block.index full)) eqn:Hh.
  - rewrite (rm_signers _ _ Hrm full Hl Hi Hh) in Hs. injection Hs as <-. exists d. split; [|by split].
    by apply (proj2 (signers_cached fuel full d ltac:(lia))).
  - exists (with_cache d (Block.index full) s). rewrite block_signers_loop by (done || lia). split; [|split; [by apply remembers_cache|by eexists _, _]].
    apply (signers_more F fuel) in Hs; [|done]. unfold the_signers in Hs. apply obind_inv in Hs as (tail & -> & Hs).
    by rewrite obind_Ok, Hs.
Qed.

(** ** Runs that agree *)

Record tracks (F : nat) (full : option Block.t) (c d : t) : Prop := {
  tr_alike : alike c d;
  tr_full : last_full_block c = full;
  tr_first : remembers F c;
  tr_second : remembers F d;
}.

(** Whatever the first run returns the second returns, and the chains stay
    related. *)
Definition Agrees {E A} (F : nat) (full : option Block.t) (m m' : M t E A) : Prop :=
  ∀ c d a c', tracks F full c d → m c = Ok (a, c') → ∃ d', m' d = Ok (a, d') ∧ tracks F full c' d'.

Section Agrees.
Context (F : nat) (full : option Block.t).
Abbreviation Agrees m m' := (Agrees F full m m').

Lemma agrees_bind {E1 E2 A B} `{From E1 E2} (m m' : M t E1 A) (k k' : A → M t E2 B) :
  Agrees m m' → (∀ a, Agrees (k a) (k' a)) → Agrees (mbind_ m k) (mbind_ m' k').
Proof.
  intros Hm Hk c d b c' Ht Hr. apply mbind_inv in Hr as (a & c1 & H1 & H2).
  destruct (Hm _ _ _ _ Ht H1) as (d1 & Hd1 & Ht1). destruct (Hk a _ _ _ _ Ht1 H2) as (d2 & Hd2 & Ht2).
  exists d2. by rewrite (mbind_run _ _ _ _ _ Hd1).
Qed.
Lemma agrees_ret {E A} (a : A) : Agrees (mret (E := E) a) (mret a).
Proof. intros c d a' c' Ht [= <- <-]. by exists d. Qed.
Lemma agrees_lift {E A} (o : outcome E A) : Agrees (mlift o) (mlift o).
Proof. intros c d a c' Ht H. unfold mlift in *. destruct o; try done. injection H as <- <-. by exists d. Qed.
Lemma agrees_get {E1 E2 A B} `{From E1 E2} (f : t → A) (k k' : A → M t E2 B) :
  (∀ c d, alike c d → Agrees (k (f c)) (k' (f d))) → Agrees (mbind_ (mget (E := E1) f) k) (mbind_ (mget (E := E1) f) k').
Proof. intros Hk c d b c' Ht. rewrite !run_get. by apply (Hk c d (tr_alike _ _ _ _ Ht)). Qed.
Lemma agrees_if {E A} (b : bool) (m1 m2 m1' m2' : M t E A) :
  Agrees m1 m1' → Agrees m2 m2' → Agrees (if b then m1 else m2) (if b then m1' else m2').
Proof. by destruct b. Qed.
End Agrees.

Section Checks.
Context (F fuel fuel' : nat) (Hfuel : (fuel <= F <= fuel')%nat).

Lemma agrees_signers full : Agrees F (Some full) (get_block_signers fuel full) (get_block_signers fuel' full).
Proof.
  intros c d s c' [Ha Hl Hc Hd] H. pose proof (alike_reads c d Ha) as (_ & Hlast & Hfull & _). rewrite Hl in Hfull.
  destruct (Z.le_gt_cases BLOCK_SIGNERS_START (Block.index full)) as [Hi|Hi].
  - destruct (signers_run F fuel full c s c') as (Htx & Hs & Hc' & Hcc); [done || lia..|].
    rewrite <- (signers_alike F c d full Ha) in Hs.
    destruct (signers_found F fuel' full d s) as (d' & Hd' & Hrd & Hdd); [done || lia..|].
    exists d'. split; [done|]. destruct (same_cache_reads _ _ Hcc) as (_ & _ & Hlf & _). split; [|by rewrite Hlf|done..].
    rewrite <- (alike_cache _ _ Hcc), Ha. by apply alike_cache.
  - unfold get_block_signers in *. rewrite (proj2 (Z.ltb_lt (Block.index full) BLOCK_SIGNERS_START)) in * by done. simpl in *.
    injection H as <- <-. by exists d.
Qed.

Lemma agrees_good_signer b full : Agrees F (Some full) (is_good_signer_for_block fuel b full) (is_good_signer_for_block fuel' b full).
Proof.
  unfold is_good_signer_for_block. apply agrees_bind; [by apply agrees_signers|]. intros s. apply agrees_if; [apply agrees_ret|].
  apply agrees_bind; [apply agrees_lift|]. intros from c d ok c' Ht H. pose proof (tr_alike _ _ _ _ Ht) as (i & h & sg & ->).
  apply obind_inv in H as (r & Hr & H). injection H as <- <-.
  exists (update_max_height (with_cache c i h) sg). split; [|done].
  assert (∀ ids, not_signed_yet (E := DbError) (update_max_height (with_cache c i h) sg) b ids = not_signed_yet c b ids) as Hn.
  { intros ids. induction ids as [|id ids IH]; [done|]. cbn [not_signed_yet].
    change (get_block (update_max_height (with_cache c i h) sg) id) with (get_block c id). destruct (get_block c id); [|done].
    by destruct (same_hash _ _). }
  by rewrite Hn, Hr.
Qed.

Lemma agrees_good_sign b full : Agrees F full (is_good_sign_block fuel b full) (is_good_sign_block fuel' b full).
Proof.
  unfold is_good_sign_block. destruct (is_some _); [apply agrees_ret|]. destruct full as [full|]; [|apply agrees_ret].
  apply agrees_get. intros c d (i & s & h & ->). change (get_height (update_max_height _ _)) with (get_height c).
  apply agrees_bind; [apply agrees_lift|]. intros n.
  repeat (apply agrees_if || apply agrees_ret); (apply agrees_bind; [apply agrees_good_signer|intros; apply agrees_ret]).
Qed.

Lemma agrees_position b last full : Agrees F full (check_position fuel b last full) (check_position fuel' b last full).
Proof.
  unfold check_position. apply agrees_get. intros c d (i & s & h & ->).
  destruct last as [last|]; [|repeat (apply agrees_if || apply agrees_ret)].
  apply agrees_if; [apply agrees_ret|]. apply agrees_bind; [apply agrees_lift|]. intros next.
  apply agrees_if; [apply agrees_ret|]. apply agrees_bind; [apply agrees_if; [apply agrees_good_sign|apply agrees_ret]|].
  intros good. repeat (apply agrees_if || apply agrees_ret).
  change (get_block (update_max_height (with_cache c i s) h)) with (get_block c).
  destruct (get_block c _); repeat (apply agrees_if || apply agrees_ret).
Qed.
End Checks.

(** ** Later *)

(** The times of the registrations are times. *)
Definition timely (c : t) : Prop := ∀ i r, domains (db c) !! i = Some r → clock (d_timestamp r).

Lemma last_row_in {R} cond (m : gmap Z R) r : last_row cond m = Some r → ∃ i, m !! i = Some r.
Proof. intros (i & Hi & _)%last_row_Some. eauto. Qed.

(** A domain that is free for a key stays free for it. *)
Lemma id_available_later c before now now' identity key : timely c → now <= now' →
  is_id_available (E := DbError) c before now identity key = Ok true →
  is_id_available (E := DbError) c before now' identity key = Ok true.
Proof.
  intros Ht Hn. unfold is_id_available, get_identity_transaction_and_state. destruct (sql_get_domain _ _ _) as [r|] eqn:Hr; [|done].
  assert (clock (d_timestamp r)) as Hc by (apply last_row_in in Hr as [i Hi]; by eapply Ht).
  rewrite !domain_state_spec by done. rewrite !obind_Ok. destruct (same_hash _ _); [done|].
  repeat destruct (decide _); done || lia.
Qed.

Lemma transaction_later c b now now' : timely c → now <= now' →
  bad_transaction (E := DbError) now c b = Ok false → bad_transaction (E := DbError) now' c b = Ok false.
Proof.
  intros Ht Hn. unfold bad_transaction. destruct (Block.transaction b) as [tx|]; [|done]. intros H.
  apply obind_inv in H as (strong & -> & H). rewrite obind_Ok. destruct strong; [|done]. cbn [negb] in *.
  apply obind_inv in H as (prev & -> & H). rewrite obind_Ok. apply obind_inv in H as (av & Hav & H). destruct av; [|done].
  by rewrite (id_available_later _ _ _ _ _ _ Ht Hn Hav), obind_Ok.
Qed.

Lemma checked_later now now' c d b : alike c d → timely c → clock now → clock now' → now <= now' →
  checked now c b → checked now' d b.
Proof.
  intros (i & s & h & ->) Ht Hc Hc' Hn [Cv Cl (soon & Hsoon & Ctime) Cw Cs Cp Ctx].
  split; [exact Cv|exact Cl| |exact Cw|exact Cs|exact Cp|exact (transaction_later c b now now' Ht Hn Ctx)].
  exists (now' + 60). rewrite clock_add in * by (done || lia). injection Hsoon as <-. split; [done|lia].
Qed.

(** ** What was accepted is accepted again *)

(** [check_new_block] called [b] good on [c], at a time not after [T] and with
    fuel [F]. *)
Definition accepted (F : nat) (T : Z) (c : t) (b : Block.t) : Prop :=
  ∃ now fuel b0 c0 c1, alike c c0 ∧ wf c0 ∧ remembers F c0 ∧ timely c0 ∧ (fuel <= F)%nat ∧ clock now ∧ now <= T ∧
    typed b0 ∧ numbered b0 ∧ check_new_block now fuel b0 c0 = Ok ((Good, b), c1).

Lemma accepted_again F T c b d now fuel : accepted F T c b → alike c d → remembers F d →
  clock now → T <= now → (F <= fuel)%nat →
  typed (stored b) ∧ numbered b ∧ ∃ d1, check_new_block now fuel (stored b) d = Ok ((Good, b), d1) ∧ same_but_cache d d1 ∧ remembers F d1.
Proof.
  intros (now0 & fuel0 & b0 & c0 & c1 & Ha0 & Hwf & Hrm & Ht & Hf & Hn & HnT & Hty & Hnum & H) Ha Hrd Hnow HT HF.
  destruct (good_extends _ _ _ _ _ _ Hwf (numbered_pos _ Hnum) H) as (Hi & _). pose proof (height_bound _ Hwf) as Hb.
  destruct (good_checked _ _ _ _ _ _ H) as (-> & Hok & Hch). pose proof (hash_ok_real b0 Hty Hok) as Hreal.
  assert (alike c0 d) as Hd by (by rewrite <- Ha0). destruct (alike_reads _ _ Hd) as (_ & Hlast & Hfull & _).
  unfold check_new_block in H. destruct (check_block_inv _ _ _ _ _ _ _ _ _ H Good_kept) as (_ & _ & _ & Hpos).
  destruct (agrees_position F fuel0 fuel (conj Hf HF) _ _ _ c0 d _ _ (Build_tracks _ _ _ _ Hd eq_refl Hrm Hrd) Hpos)
    as (d1 & Hd1 & Ht1).
  assert (stored (set_hash_good b0 true) = set_hash_good b0 false) as Hst by done.
  split; [apply typed_fresh; [exact (proj1 Hty)|exact (proj1 (proj2 Hty))|done]|].
  split; [exact Hnum|]. exists d1. split; [|split; [by eapply position_cache|apply Ht1]].
  unfold check_new_block. rewrite Hlast, Hfull. rewrite Hst.
  change (set_hash_good b0 true) with (set_hash_good (set_hash_good b0 false) true) at 1.
  apply check_block_run; [by right|apply (checked_later now0 now c0 d); done || lia| |done].
  intros l Hl. unfold get_height in *. rewrite Hl in *. simpl. unfold is_u, MAX in *. lia.
Qed.

(** ** The life of a chain that met no fork *)

(** Good blocks are added, others are checked, signing blocks are prepared, the
    height of others is noted. [F] bounds the fuel and [T] the times of all that;
    [l] are the blocks that were added. *)
Inductive heard (F : nat) (T : Z) (origin : bytes) (zones : list ZoneData) : t → list Block.t → Prop :=
  | heard_new : heard F T origin zones (Chain.new origin zones None) []
  | heard_check now fuel b q b' c c1 l : heard F T origin zones c l → (fuel <= F)%nat →
      check_new_block now fuel b c = Ok ((q, b'), c1) → heard F T origin zones c1 l
  | heard_sign now fuel choice keys r c c1 l : heard F T origin zones c l → (fuel <= F)%nat →
      get_sign_block now fuel choice keys c = Ok (r, c1) → heard F T origin zones c1 l
  | heard_height h c l : heard F T origin zones c l → heard F T origin zones (update_max_height c h) l
  | heard_add now fuel b b' c c1 c2 l : heard F T origin zones c l → (fuel <= F)%nat → clock now → now <= T →
      typed b → numbered b → clock (Block.timestamp b) → check_new_block now fuel b c = Ok ((Good, b'), c1) →
      add_block b' c1 = Ok (tt, c2) → heard F T origin zones c2 (l ++ [b']).

(** The chain of the blocks [l], without checks. *)
Definition pile (origin : bytes) (zones : list ZoneData) (l : list Block.t) : t :=
  fold_left (λ c b, match add_block b c with Ok (_, c') => c' | _ => c end) l (Chain.new origin zones None).

Lemma pile_snoc origin zones l b c c' : alike (pile origin zones l) c → add_block b c = Ok (tt, c') →
  alike (pile origin zones (l ++ [b])) c'.
Proof.
  intros Ha H. unfold pile. rewrite fold_left_app. fold (pile origin zones l). simpl. symmetry in Ha.
  destruct (alike_add b _ _ _ Ha H) as (d & -> & Hd & _). by symmetry.
Qed.

(** The last full block of a list. *)
Definition last_full (l : list Block.t) : option Block.t := last (List.filter (λ b, is_some (Block.transaction b)) l).
Lemma last_full_snoc l b : last_full (l ++ [b]) = if is_some (Block.transaction b) then Some b else last_full l.
Proof.
  unfold last_full. rewrite List.filter_app. cbn [List.filter]. destruct (is_some _); [apply last_snoc|by rewrite app_nil_r].
Qed.

(** What the life of a chain leaves. *)
Record history (F : nat) (T : Z) (origin : bytes) (zones : list ZoneData) (c : t) (l : list Block.t) : Prop := {
  hi_wf : wf c;
  hi_remembers : remembers F c;
  hi_timely : timely c;
  hi_pile : alike (pile origin zones l) c;
  hi_accepted : ∀ k b, l !! k = Some b → accepted F T (pile origin zones (take k l)) b;
  hi_prefix : ∀ k, (k <= length l)%nat → wf (pile origin zones (take k l)) ∧ get_height (pile origin zones (take k l)) = Z.of_nat k;
  hi_represents : represents c l;
  hi_full : last_full_block c = last_full l;
  hi_piles : ∀ k, (k <= length l)%nat → represents (pile origin zones (take k l)) (take k l) ∧
    last_full_block (pile origin zones (take k l)) = last_full (take k l);
}.

Lemma agrees_itself {A} F full m m' (c c' : t) (r : A) : Agrees (E := DbError) F full m m' →
  last_full_block c = full → remembers F c → m c = Ok (r, c') → remembers F c'.
Proof. intros Hm Hl Hr H. by destruct (Hm c c r c' (Build_tracks _ _ _ _ (reflexivity c) Hl Hr Hr) H) as (d & _ & []). Qed.

Lemma check_remembers F now fuel b c q b' c1 : (fuel <= F)%nat → remembers F c →
  check_new_block now fuel b c = Ok ((q, b'), c1) → remembers F c1.
Proof.
  intros Hf Hr H. unfold check_new_block, check_block in H. crush_check; try done;
    destruct (check_block_hash b) as [good bl] eqn:?; crush_check; try done.
  eapply (agrees_itself F _ _ _ _ _ _ (agrees_position F fuel F (conj Hf (Nat.le_refl F)) _ _ _)); done.
Qed.

Lemma sign_remembers F now fuel choice keys c r c1 : (fuel <= F)%nat → remembers F c →
  get_sign_block now fuel choice keys c = Ok (r, c1) → remembers F c1.
Proof.
  intros Hf Hr H. unfold get_sign_block in H. crush_check; try done;
    repeat match goal with
    | H : match ?o with Some _ => _ | None => _ end _ = Ok _ |- _ => destruct o eqn:?; crush_check; try done
    end.
  all: eapply (agrees_itself F _ _ _ _ _ _ (agrees_signers F fuel F (conj Hf (Nat.le_refl F)) _)); eassumption.
Qed.

Lemma added_alike c c1 b c2 : same_but_cache c c1 → added c b c2 → added c1 b c2.
Proof. intros (i & s & ->) [A1 A2 A3 A4 A5]. by split. Qed.

Lemma timely_added c b c' : timely c → clock (Block.timestamp b) → added c b c' → timely c'.
Proof.
  intros Ht Hb Ha i r. rewrite (ad_domains _ _ _ Ha). destruct (Block.transaction b) as [tx|]; [|apply Ht].
  case_bool_decide; [|apply Ht]. intros [[<- <-]|[_ Hr]]%lookup_insert_Some; [done|by eapply Ht].
Qed.

Lemma timely_alike c d : alike c d → timely c → timely d.
Proof. by intros (i & s & h & ->). Qed.

Lemma represents_alike c d l : alike c d → represents c l → represents d l.
Proof. intros (i & s & h & ->) [R1 R2 R3 R4]. by split. Qed.

Lemma history_alike F T origin zones c d l : history F T origin zones c l → alike c d → remembers F d →
  history F T origin zones d l.
Proof.
  intros [H1 H2 H3 H4 H5 H6 H7 H8 H9] Ha Hr.
  split; [by eapply alike_wf|done|by eapply timely_alike|by rewrite H4|done|done|by eapply represents_alike| |done].
  by destruct (alike_reads _ _ Ha) as (_ & _ & -> & _).
Qed.

(** A good block that is added leaves the cache right. *)
Lemma good_remembers F now fuel b b' c c1 c2 : wf c → typed b → numbered b → check_new_block now fuel b c = Ok ((Good, b'), c1) →
  add_block b' c1 = Ok (tt, c2) → remembers F c1 → remembers F c2.
Proof.
  intros Hwf Hty Hnum Hc Hadd Hr. destruct (good_added _ _ _ _ _ _ Hwf Hty Hnum Hc) as (c3 & Hadd' & Ha & _).
  rewrite Hadd in Hadd'. injection Hadd' as <-. destruct (good_extends _ _ _ _ _ _ Hwf (numbered_pos _ Hnum) Hc) as (Hi & _).
  pose proof (check_cache _ _ _ _ _ _ _ _ _ Hc) as Hcc. destruct (good_checked _ _ _ _ _ _ Hc) as (He & Hok & _).
  destruct (alike_add _ _ c1 _ (reflexivity c1) Hadd) as (c3 & Hc3 & _ & Hci & Hcs). rewrite Hadd in Hc3. injection Hc3 as <-.
  destruct (same_cache_reads _ _ Hcc) as (_ & Hlast & _).
  apply (remembers_added F c1 b'); try done; [by apply (wf_same_cache _ _ Hcc)|by subst| |by eapply added_alike].
  unfold get_height in *. rewrite Hlast. by subst.
Qed.

Lemma heard_history F T origin zones c l : heard F T origin zones c l → history F T origin zones c l.
Proof.
  induction 1 as [|now fuel b q b' c c1 l _ IH Hf Hc|now fuel choice keys r c c1 l _ IH Hf Hs|h c l _ IH
                  |now fuel b b' c c1 c2 l _ IH Hf Hn HT Hty Hnum Hts Hc Hadd].
  - assert (last_full_block (Chain.new origin zones None) = None) as Hnone by (unfold Chain.new; simpl; by destruct (_ && _)).
    split; [apply wf_new|apply remembers_new| |reflexivity|by intros k b| |apply represents_new|exact Hnone|].
    + intros i r Hi. unfold Chain.new in Hi. simpl in Hi. by destruct (_ && _).
    + intros k Hk. simpl in Hk. assert (k = 0%nat) as -> by lia. split; [apply wf_new|]. unfold pile, Chain.new. simpl. by destruct (_ && _).
    + intros k Hk. simpl in Hk. assert (k = 0%nat) as -> by lia. split; [apply represents_new|exact Hnone].
  - apply (history_alike _ _ _ _ c); [done| |by eapply check_remembers; [..|done]; [|apply IH]].
    apply alike_cache. by eapply check_cache.
  - apply (history_alike _ _ _ _ c); [done| |by eapply sign_remembers; [..|done]; [|apply IH]].
    apply alike_cache. by eapply sign_cache.
  - apply (history_alike _ _ _ _ c); [done|by exists (cache_index c), (cache_signers c), h; destruct c|].
    apply remembers_height, IH.
  - destruct IH as [H1 H2 H3 H4 H5 H6 H7 H8 H9]. destruct (good_added _ _ _ _ _ _ H1 Hty Hnum Hc) as (c3 & Hadd' & Ha & Hwf2).
    rewrite Hadd in Hadd'. injection Hadd' as <-.
    pose proof (check_cache _ _ _ _ _ _ _ _ _ Hc) as Hcc. destruct (good_checked _ _ _ _ _ _ Hc) as (He & Hok & _).
    assert (alike (pile origin zones (l ++ [b'])) c2) as Hpile.
    { eapply pile_snoc; [|done]. rewrite H4. by apply alike_cache. }
    assert (represents c2 (l ++ [b'])) as Hrep by (by eapply add_refines).
    assert (last_full_block c2 = last_full (l ++ [b'])) as Hfull by (rewrite (ad_full _ _ _ Ha), last_full_snoc, H8; done).
    split; [done| | |done| | |done|done|].
    + apply (good_remembers F now fuel b b' c c1); try done. by apply (check_remembers F now fuel b c Good b').
    + apply (timely_added c b'); [done|by subst|done].
    + intros k bk. rewrite lookup_snoc_Some. intros [[Hk Hl]|[-> <-]].
      * rewrite take_app_le by lia. by apply H5.
      * rewrite take_app_length. exists now, fuel, b, c, c1. by split_and!.
    + intros k Hk. rewrite length_app in Hk. simpl in Hk. destruct (decide (k = S (length l))) as [->|Hne].
      * rewrite take_ge by (rewrite length_app; simpl; lia). symmetry in Hpile. split; [by eapply alike_wf|].
        pose proof (represents_height _ _ (represents_alike _ _ _ Hpile Hrep)) as ->. unfold Ledger.height. rewrite length_app. simpl. lia.
      * rewrite take_app_le by lia. apply H6. lia.
    + intros k Hk. rewrite length_app in Hk. simpl in Hk. destruct (decide (k = S (length l))) as [->|Hne].
      * rewrite take_ge by (rewrite length_app; simpl; lia). symmetry in Hpile. split; [by eapply represents_alike|].
        destruct (alike_reads _ _ Hpile) as (_ & _ & -> & _). exact Hfull.
      * rewrite take_app_le by lia. apply H9. lia.
Qed.

(** ** Blocks that come early *)

Lemma accepted_facts F T c b : accepted F T c b →
  Block.version b <= CHAIN_VERSION ∧ (Block.hash b ∉ WRONG_HASHES) ∧ Block.timestamp b <= T + 60 ∧
  Block.index b = get_height c + 1 ∧ 1 <= Block.index b < MAX.
Proof.
  intros (now & fuel & b0 & c0 & c1 & (i & s & h & ->) & Hwf & _ & _ & _ & Hn & HnT & Hty & Hnum & H).
  destruct (good_extends _ _ _ _ _ _ Hwf (numbered_pos _ Hnum) H) as (Hi & _).
  destruct (good_checked _ _ _ _ _ _ H) as (-> & _ & [Cv Cl (soon & Hsoon & Ct) _ _ _ _]).
  rewrite clock_add in Hsoon by (done || lia). injection Hsoon as <-. split; [done|]. split; [done|].
  split; [lia|]. split; [exact Hi|apply Hnum].
Qed.

(** A block that is not the next one is left for later, with no further check. *)
Lemma check_early F T c b d last now fuel : accepted F T c b → clock now → T <= now →
  last_block d = Some last → 0 <= Block.index last → Block.index last + 1 < Block.index b →
  check_new_block now fuel (stored b) d = Ok ((Future, stored b), d).
Proof.
  intros (Hv & Hl & Ht & _ & Hi)%accepted_facts Hn HT Hlast H0 Hlt. unfold check_new_block, check_block.
  rewrite run_get. rewrite (proj2 (Z.ltb_ge CHAIN_VERSION (Block.version (stored b))) Hv).
  rewrite (bool_decide_false (Block.hash (stored b) ∈ WRONG_HASHES) Hl).
  rewrite (run_lift _ _ _ (now + 60)) by (apply clock_add; done || lia).
  rewrite (proj2 (Z.ltb_ge _ _)) by (simpl; lia). rewrite Hlast. unfold add_w.
  rewrite arith_fits by (unfold is_u, MAX in *; lia). rewrite obind_Ok, (run_lift _ _ _ true); [done|].
  f_equal. by apply Z.ltb_lt.
Qed.
End Replay.
