(* ===== verification/ChainExamples.v ===== *)
(** * Concrete chains

    A small instance of the library parameters, on which the chain of a node is
    computed: witnesses of the theorems and the behaviours that the findings
    report. *)

From S2P Require Import Prelude Text Commons Hash Keystore Net Buffer Protocol Block Store Chain.
From S2P Require Import Ledger.
From S2P Require Import ChainFacts ChainProps ChainSigners.
Import Store Chain.
Open Scope Z_scope.

Module Toy.
(** A hash that starts and ends with eight zero bytes and keeps its input. *)
Definition toy_hash (data : bytes) : bytes := replicate 8 0 ++ data ++ replicate 8 0.

#[export] Instance toy_crypto : Crypto := {|
  sha256 := λ b, b;
  blakeout := toy_hash;
  ed_key_valid := λ _, true;
  ed_verify := λ _ _ _, true;
  ed_public := λ secret, secret;
  ed_sign := λ _ _, replicate 64 0;
|}.

Definition put (f : bytes) : bytes := Z.of_nat (length f) :: f.
Definition get_field (s : bytes) : option (bytes * bytes) :=
  match s with
  | n :: s => if bool_decide (Z.to_nat n <= length s)%nat then Some (take (Z.to_nat n) s, drop (Z.to_nat n) s) else None
  | [] => None
  end.

(** Byte fields that are zero are not written, as with [skip_serializing_if]. *)
Definition put_bytes (f : bytes) : bytes := put (if Bytes.is_zero f then [] else f).

#[export] Instance toy_serde : Serde := {|
  json_of_transaction := λ t, put (Transaction.class t) ++ put_bytes (Transaction.identity t) ++
    put_bytes (Transaction.confirmation t) ++ put_bytes (Transaction.signing t) ++ put_bytes (Transaction.encryption t) ++
    put (Transaction.data t);
  json_transaction := λ s,
    '(class, s) ← get_field s; '(identity, s) ← get_field s; '(confirmation, s) ← get_field s;
    '(signing, s) ← get_field s; '(encryption, s) ← get_field s; '(data, s) ← get_field s;
    Some (Transaction.new identity confirmation class data signing encryption);
  json_domain_data := λ _, Some {| encrypted := []; zone := str "ruv"; info := []; records := []; contacts := [] |};
  json_of_origin := λ h, h;
  bincode_block := λ b, [wrap 8 (Block.index b); wrap 8 (Block.nonce b)];
  cbor_of_block := λ b, [Block.index b; Block.timestamp b; Block.version b; Block.difficulty b; Block.random b; Block.nonce b] ++
    put_bytes (Block.prev_block_hash b) ++ put_bytes (Block.hash b) ++ put_bytes (Block.pub_key b) ++ put_bytes (Block.signature b) ++
    match Block.transaction b with
    | Some t => put (Transaction.class t) ++ put_bytes (Transaction.identity t) ++ put_bytes (Transaction.confirmation t) ++
                put_bytes (Transaction.signing t) ++ put_bytes (Transaction.encryption t) ++ put (Transaction.data t)
    | None => []
    end;
  cbor_block := λ s,
    match s with
    | index :: timestamp :: version :: difficulty :: random :: nonce :: s =>
        '(prev, s) ← get_field s; '(hash, s) ← get_field s; '(key, s) ← get_field s; '(signature, s) ← get_field s;
        let tx := '(class, s) ← get_field s; '(identity, s) ← get_field s; '(confirmation, s) ← get_field s;
          '(signing, s) ← get_field s; '(encryption, s) ← get_field s; '(data, s) ← get_field s;
          Some (Transaction.new identity confirmation class data signing encryption) in
        Some (from_all_params index timestamp version difficulty random nonce prev hash key signature tx)
    | _ => None
    end;
|}.

#[export] Instance toy_ecies : Ecies := {|
  ecies_public := λ s, s; ecies_secret_valid := λ _, true; ecies_public_valid := λ _, true;
  ecies_encrypt := λ _ m _, Some m; ecies_decrypt := λ _ m, Some m;
|}.

#[export] Existing Instance ascii_tables.
(** The release profile: overflow wraps. *)
#[export] Instance release : Build := false.

Definition key (k : Z) : bytes := replicate 32 k.

(** A block mined by [key k]. *)
Definition mined (index timestamp nonce k : Z) (prev : bytes) (tx : option Transaction.t) : Block.t :=
  from_all_params index timestamp 1 28 0 nonce prev (toy_hash [wrap 8 index; wrap 8 nonce]) (key k)
    (replicate 56 0 ++ [0; 0; 0; 0; 0; 0; 0; 7]) tx.

Definition origin_tx (k : Z) : Transaction.t := transaction_origin [1] (key k) [].
Definition domain_tx (name : string) (k : Z) : Transaction.t :=
  transaction_from_str (str name) CLASS_DOMAIN [] (key k) [].

Definition genesis : Block.t := mined 1 1000 1 1 [] (Some (origin_tx 1)).
Definition second : Block.t := mined 2 100000 2 2 (Block.hash genesis) (Some (domain_tx "name.ruv" 2)).

(** The clock of all runs. *)
Definition now : Z := 200000.

Definition empty_chain : t := Chain.new (Block.hash genesis) (load_zones ZONES_TXT) None.

(** Check a block and add it when it is good. *)
Definition receive (b : Block.t) : M t DbError unit :=
  let? (quality, b) := check_new_block now 1000 b in
  if bool_decide (quality = Good) then add_block b else mfail db_error.

Definition state (o : outcome DbError (unit * t)) : t :=
  match o with Ok (_, c) => c | _ => empty_chain end.

Definition run (bs : list Block.t) : t := state (mfor bs receive empty_chain).

Definition chain2 : t := run [genesis; second].

Example chain2_height : get_height chain2 = 2 ∧ last_full_block chain2 = Some (set_hash_good second true).
Proof. vm_compute. done. Qed.

Definition verdict (b : Block.t) (c : t) : option BlockQuality :=
  match check_new_block now 1000 b c with Ok ((q, _), _) => Some q | _ => None end.
End Toy.
Import Toy.

(** ** Runs keep the invariant *)
Lemma receive_wf b c c' : wf c → typed b → numbered b → receive b c = Ok (tt, c') → wf c'.
Proof.
  intros Hwf Hty Hnum H. unfold receive in H. apply mbind_inv in H as ([q b'] & c1 & Hc & H).
  case_bool_decide as Hq; [subst q|done].
  destruct (good_added _ _ _ _ _ _ Hwf Hty Hnum Hc) as (c2 & Ha & _ & Hwf2). rewrite Ha in H. by injection H as <-.
Qed.

Lemma receive_all_wf bs c c' : wf c → Forall (λ b, typed b ∧ numbered b) bs → mfor bs receive c = Ok (tt, c') → wf c'.
Proof.
  intros Hwf Hbs. revert c Hwf. induction Hbs as [|b bs [Hb Hn] Hbs IH]; intros c Hwf H; cbn [mfor] in H.
  - by injection H as <-.
  - apply mbind_inv in H as ([] & c1 & H1 & H). eapply IH; [|done]. by eapply receive_wf.
Qed.

Definition typedb (b : Block.t) : bool :=
  (1 <=? Block.index b) && (Block.index b <? MAX) && forallb (λ x, fits 8 x) (Block.hash b) &&
  negb (Block.hash_good b).

Lemma typedb_both {CR : Crypto} {SD : Serde} b : typedb b = true → typed b ∧ numbered b.
Proof.
  unfold typedb, typed. rewrite !andb_true_iff, Z.leb_le, Z.ltb_lt, forallb_forall, negb_true_iff. intros [[Hi Hh] Hf].
  split; [|done]. apply typed_fresh; [by apply numbered_u64| |done]. apply Forall_forall. intros x Hx. apply fits_is_u, Hh. by apply list_elem_of_In.
Qed.

Lemma typedb_ok {CR : Crypto} {SD : Serde} b : typedb b = true → typed b.
Proof. by intros []%typedb_both. Qed.
Lemma typedb_numbered {CR : Crypto} {SD : Serde} b : typedb b = true → numbered b.
Proof. by intros []%typedb_both. Qed.

Lemma run_wf bs c : mfor bs receive empty_chain = Ok (tt, c) → forallb typedb bs = true → wf c.
Proof.
  intros H Hbs. eapply receive_all_wf; [apply wf_new| |exact H].
  rewrite forallb_forall in Hbs. apply Forall_forall. intros b Hb. apply typedb_both, Hbs. by apply list_elem_of_In.
Qed.

Lemma run_ok bs : (match mfor bs receive empty_chain with Ok _ => true | _ => false end) = true →
  forallb typedb bs = true → wf (run bs).
Proof.
  unfold run. destruct (mfor bs receive empty_chain) as [[[] c]| | |] eqn:H; try done. intros _. by apply run_wf.
Qed.

(** ** What the checks let through *)

(** A block number is not checked to be positive. In a release build (where
    arithmetic wraps) a block numbered 0 is called good whatever it is linked to,
    and adding it makes the node believe its height is 0: the stored chain is
    there, but the invariant is broken. *)
Definition block_zero : Block.t := mined 0 5 0 9 [] None.
Theorem index_zero_accepted :
  verdict block_zero chain2 = Some Good ∧
  match receive block_zero chain2 with
  | Ok (_, c) => get_height c = 0 ∧ is_some (get_block c 2) = true ∧ ¬ wf c
  | _ => False
  end.
Proof.
  split; [by vm_compute|]. destruct (receive block_zero chain2) as [[[] c]| | |] eqn:H; vm_compute in H; try done.
  injection H as <-. split; [done|]. split; [done|]. intros [Hdb _].
  assert (1 <= 2 <= 0) by (apply (wf_range _ _ Hdb 2); eexists; vm_compute; reflexivity). lia.
Qed.

(** A block that comes early is set aside only when there is a last block. On an
    empty chain it is judged at once: the renewal of a domain, which may be less
    difficult, is bad there - and its sender is banned - although it is good in
    its place. *)
Definition early_renewal : Block.t :=
  from_all_params 3 150000 1 (DOMAIN_DIFFICULTY - 1) 0 3 (Block.hash second) (toy_hash [3; 3]) (key 2)
    (replicate 56 0 ++ [0; 0; 0; 0; 0; 0; 0; 7]) (Some (domain_tx "name.ruv" 2)).
Lemma early_renewal_bad : verdict early_renewal chain2 = Some Good ∧ verdict early_renewal empty_chain = Some Bad.
Proof. vm_compute. done. Qed.

(** A domain registered by the last block is not protected: the check looks
    below the block before the new one ([is_id_available] with [index - 1]). The
    same name mined by another key in the next block is good and changes hands. *)
Definition theft : Block.t := mined 3 150000 3 3 (Block.hash second) (Some (domain_tx "name.ruv" 3)).
Theorem fresh_domain_taken :
  (d_signing <$> domains (db chain2) !! 2) = Some (key 2) ∧
  verdict theft chain2 = Some Good ∧
  match receive theft chain2 with
  | Ok (_, c) => sql_get_domain (hash_identity (str "name.ruv") None) 4 (db c) = domains (db c) !! 3 ∧
                 (d_signing <$> domains (db c) !! 3) = Some (key 3)
  | _ => False
  end.
Proof. vm_compute. done. Qed.

(** The origin is only compared for the first block of an empty chain. A
    first block with another hash is a fork, and one that is better than ours
    replaces the whole chain. *)
Definition other_genesis : Block.t := mined 1 1000 0 3 [] (Some (origin_tx 3)).
Theorem genesis_replaced :
  Block.hash other_genesis ≠ origin chain2 ∧
  verdict other_genesis chain2 = Some Fork ∧
  is_better_than (E := DbError) other_genesis genesis = Ok true ∧
  match replace_block other_genesis chain2 with
  | Ok (_, c) => get_height c = 1 ∧ get_last_hash c = Block.hash other_genesis
  | _ => False
  end.
Proof. split; [by vm_compute|]. vm_compute. done. Qed.

(** Blocks that make a node panic before anything about them was checked:
    the hash is too short to have a difficulty, or (once the hash is right) the
    public key has not 32 bytes. *)
Definition short_hash : Block.t := set_hash (mined 3 150000 3 3 (Block.hash second) None) [0; 0].
Definition short_key : Block.t :=
  from_all_params 3 150000 1 28 0 3 (Block.hash second) (toy_hash [3; 3]) [1; 2] (replicate 64 0) None.
Theorem malformed_block_panics :
  check_new_block now 1000 short_hash chain2 = Panic ∧ check_new_block now 1000 short_key chain2 = Panic.
Proof. vm_compute. done. Qed.

(** After a full block was replaced by a signing block, the cached last full
    block is one that the database no longer holds. *)
Definition sign_fork : Block.t := mined 2 100000 1 3 (Block.hash genesis) None.
Theorem last_full_block_stale :
  verdict sign_fork chain2 = Some Fork ∧ is_better_than (E := DbError) sign_fork second = Ok true ∧
  match replace_block sign_fork chain2 with
  | Ok (_, c) => last_full_block c = Some (set_hash_good second true) ∧
                 (Block.pub_key <$> get_block c 2) = Some (key 3) ∧
                 sql_get_last_full_block MAX (db c) = Some (row_of_block genesis)
  | _ => False
  end.
Proof. vm_compute. done. Qed.

(** A full block and a signing block can each be better than the other: two
    nodes that hold one of them would exchange them for ever. *)
Definition strong_sign : Block.t := mined 2 100000 2 3 (Block.hash genesis) None.
Definition weak_full : Block.t := set_hash second (replicate 32 1).
Theorem better_both_ways :
  is_better_than (E := DbError) weak_full strong_sign = Ok true ∧
  is_better_than (E := DbError) strong_sign weak_full = Ok true.
Proof. vm_compute. done. Qed.

(** The rule that a full block waits for the signatures of the one before it is
    in code that is not reached: every block with a transaction passes. *)
Theorem full_block_never_waits {CR : Crypto} {SD : Serde} {BP : Build} fuel b full c :
  is_some (Block.transaction b) = true → is_good_sign_block fuel b full c = Ok (true, c).
Proof. intros Htx. unfold is_good_sign_block. by rewrite Htx. Qed.

(** ** Witnesses *)

(** The state after [check_new_block] of a block that is good in [c]. *)
Definition after_check (b : Block.t) (c : t) : t :=
  match check_new_block now 1000 b c with Ok (_, c) => c | _ => c end.
Definition after_add (b : Block.t) (c : t) : t :=
  match add_block (set_hash_good b true) (after_check b c) with Ok (_, c) => c | _ => c end.

(** The blocks of [chain2] as they are kept. *)
Definition ledger2 : Ledger.t := [set_hash_good genesis true; set_hash_good second true].

Lemma ledger2_built : represents (after_add second (after_add genesis empty_chain)) ledger2.
Proof.
  destruct (add_refines now 1000 genesis (set_hash_good genesis true) empty_chain (after_check genesis empty_chain)
    (after_add genesis empty_chain) []) as [_ H1].
  { apply represents_new. }
  { apply typedb_ok. vm_compute. reflexivity. }
  { apply typedb_numbered. vm_compute. reflexivity. }
  { vm_compute. reflexivity. }
  { vm_compute. reflexivity. }
  destruct (add_refines now 1000 second (set_hash_good second true) _ (after_check second (after_add genesis empty_chain))
    (after_add second (after_add genesis empty_chain)) _ H1) as [_ H2]; [..|exact H2].
  { apply typedb_ok. vm_compute. reflexivity. }
  { apply typedb_numbered. vm_compute. reflexivity. }
  { vm_compute. reflexivity. }
  { vm_compute. reflexivity. }
Qed.

Lemma chain2_ledger : represents chain2 ledger2.
Proof. replace chain2 with (after_add second (after_add genesis empty_chain)) by (vm_compute; reflexivity). exact ledger2_built. Qed.

Lemma chain_invariant_witness :
  let c1 := after_add genesis empty_chain in let c2 := after_add second c1 in
  rtc chain_step empty_chain c2 ∧ get_height c2 = 2 ∧ (wf c2 ∨ broken empty_chain c2).
Proof.
  intros c1 c2.
  assert (rtc chain_step empty_chain c2) as Hr.
  { apply rtc_l with c1.
    - refine (step_add now 1000 genesis (set_hash_good genesis true) empty_chain (after_check genesis empty_chain) c1 _ _ _).
      + apply typedb_ok. vm_compute. reflexivity.
      + vm_compute. reflexivity.
      + vm_compute. reflexivity.
    - apply rtc_once.
      refine (step_add now 1000 second (set_hash_good second true) c1 (after_check second c1) c2 _ _ _).
      + apply typedb_ok. vm_compute. reflexivity.
      + vm_compute. reflexivity.
      + vm_compute. reflexivity. }
  split; [exact Hr|]. split; [vm_compute; reflexivity|].
  exact (chain_invariant _ _ _ Hr).
Defined.

Lemma chain_refines_ledger_witness :
  (∃ l, rtc Ledger.step [] l ∧ represents (after_add genesis empty_chain) l ∧
    ((∃ l', Ledger.step l l' ∧ represents (after_add second (after_add genesis empty_chain)) l') ∨
     misnumbered (after_add genesis empty_chain) (after_add second (after_add genesis empty_chain)))) ∨
  broken empty_chain (after_add genesis empty_chain).
Proof.
  assert (∀ b c, typedb b = true → check_new_block now 1000 b c = Ok ((Good, set_hash_good b true), after_check b c) →
    add_block (set_hash_good b true) (after_check b c) = Ok (tt, after_add b c) → chain_step c (after_add b c)) as Hadd.
  { intros b c Hb Hc Ha. eapply step_add; [by apply typedb_ok|exact Hc|exact Ha]. }
  destruct (chain_refines_ledger (Block.hash genesis) (load_zones ZONES_TXT) (after_add genesis empty_chain))
    as [(l & H1 & H2 & H3)|Hb].
  { apply rtc_once, Hadd; vm_compute; reflexivity. }
  - left. exists l. split; [exact H1|]. split; [exact H2|]. apply H3, Hadd; vm_compute; reflexivity.
  - right. exact Hb.
Defined.

(** The name of the second block, seen from the third. *)
Lemma ledger_reads_witness :
  get_height chain2 = 2 ∧
  get_identity_transaction_and_state (E := DbError) chain2 (hash_identity (str "name.ruv") None) 3 now =
    ledger_state ledger2 (hash_identity (str "name.ruv") None) 3 now ∧
  ledger_state (E := DbError) ledger2 (hash_identity (str "name.ruv") None) 3 now =
    Ok (Some (domain_tx "name.ruv" 2), Alive 100000 (100000 + DOMAIN_LIFETIME)).
Proof.
  destruct (ledger_reads (E := DbError) chain2 ledger2 chain2_ledger) as (H1 & _ & _ & H2 & _).
  split; [exact H1|]. split; [apply H2; vm_compute; split; congruence|]. vm_compute. reflexivity.
Defined.

Lemma get_field_put f s : get_field (put f ++ s) = Some (f, s).
Proof.
  unfold put. simpl. rewrite Nat2Z.id, bool_decide_true by (rewrite length_app; lia). by rewrite take_app_length, drop_app_length.
Qed.

Lemma put_whole f : comes_back f → put_bytes f = put f.
Proof. unfold put_bytes. intros [->|Hf]; [done|]. by rewrite Hf. Qed.

Lemma toy_json_law tx : whole_tx tx → json_transaction (json_of_transaction tx) = Some tx.
Proof.
  intros (H1 & H2 & H3 & H4). unfold json_of_transaction, json_transaction, toy_serde. rewrite !put_whole by done. destruct tx.
  cbn [Transaction.class Transaction.identity Transaction.confirmation Transaction.signing Transaction.encryption Transaction.data].
  rewrite !get_field_put. cbn [mbind option_bind].
  rewrite get_field_put. cbn [mbind option_bind]. rewrite get_field_put. cbn [mbind option_bind].
  rewrite get_field_put. cbn [mbind option_bind]. rewrite get_field_put. cbn [mbind option_bind].
  rewrite <- (app_nil_r (put _)) at 1. rewrite get_field_put. reflexivity.
Qed.

(** The fields of a block at hand. *)
Ltac comes := first [left; reflexivity | right; vm_compute; reflexivity].
Ltac transaction_whole := let tx := fresh in let H := fresh in intros tx H; first [discriminate H | injection H as <-; repeat split; comes].
Ltac fields_hold := split; [repeat split; vm_compute; congruence|transaction_whole].
Ltac block_whole := split; [comes|split; [comes|split; [comes|split; [comes|transaction_whole]]]].

(** An identity that a peer writes out as zeros is stored as it came, but the block
    that is given to others has none. *)
Example zero_field_lost :
  let tx := Transaction.new [0; 0] [] CLASS_DOMAIN [] (key 2) [] in
  json_transaction (json_of_transaction tx) = Some (Transaction.new [] [] CLASS_DOMAIN [] (key 2) []).
Proof. vm_compute. reflexivity. Qed.

Lemma restart_reopens_witness :
  represents (Chain.new (Block.hash genesis) (load_zones ZONES_TXT) (Some (db chain2))) [genesis; second] ∧
  last_full_block (Chain.new (Block.hash genesis) (load_zones ZONES_TXT) (Some (db chain2))) = Some second.
Proof.
  destruct (restart_reopens toy_json_law eq_refl (λ _ _, eq_refl) (Block.hash genesis) (load_zones ZONES_TXT) chain2 ledger2)
    as [H1 H2].
  - exact chain2_ledger.
  - repeat (constructor; [fields_hold|]). constructor.
  - vm_compute. reflexivity.
  - exact (conj H1 H2).
Defined.

(** The table [options] of a database: another origin clears it, a version that is
    no number stops the program. *)
Definition with_options (o : list (rstr * rstr)) : option Store.t :=
  Some (Store.mk (Store.blocks (db chain2)) (Store.domains (db chain2)) o).
Example options_read :
  let opened o := Chain.open (E := DbError) (Block.hash genesis) [] (with_options o) in
  let height o := match opened o with Ok c => Some (get_height c) | _ => None end in
  height [] = Some 2 ∧
  height [(str "origin", to_hex (Block.hash genesis)); (str "version", str "+3")] = Some 2 ∧
  height [(str "origin", str "00FF")] = Some 0 ∧
  opened [(str "version", str "two")] = Panic ∧ opened [(str "version", str "4294967296")] = Panic.
Proof. vm_compute. done. Qed.

Definition third : Block.t := mined 3 150000 3 3 (Block.hash second) (Some (domain_tx "other.ruv" 3)).

Lemma chain2_wf : wf chain2.
Proof. apply (run_ok [genesis; second]); vm_compute; reflexivity. Qed.

Lemma third_good : check_new_block now 1000 third chain2 = Ok ((Good, set_hash_good third true), after_check third chain2).
Proof. vm_compute. reflexivity. Qed.

(** On a chain of two blocks the depth that a rewind may have is computed below
    zero, and the block after a rival is bad. *)
Example short_chain_bans :
  let stray := mined 3 150000 3 3 (Block.hash genesis) (Some (domain_tx "other.ruv" 3)) in
  (∃ b c, check_new_block (BP := false) now 1000 stray chain2 = Ok ((Bad, b), c)) ∧
  check_new_block (BP := true) now 1000 stray chain2 = Panic.
Proof. vm_compute. split; [by eexists _, _|reflexivity]. Qed.

Lemma third_typed : typed third.
Proof. apply typedb_ok. vm_compute. reflexivity. Qed.

Lemma third_numbered : numbered third.
Proof. apply typedb_numbered. vm_compute. reflexivity. Qed.

Lemma good_block_extends_witness :
  ∃ c2, add_block (set_hash_good third true) (after_check third chain2) = Ok (tt, c2) ∧ get_height c2 = 3.
Proof.
  destruct (good_block_extends now 1000 third (set_hash_good third true) chain2 (after_check third chain2)
    chain2_wf third_typed third_numbered third_good) as (c2 & Hadd & _ & Hh & _).
  exists c2. split; [exact Hadd|]. rewrite Hh. vm_compute. reflexivity.
Defined.

Lemma good_block_valid_witness :
  blakeout (bincode_block (set_signature (set_hash (set_hash_good third false) []) [])) = Block.hash third ∧
  (Block.index third = 0 ∧ overflow_checks = false ∨ Block.index third = get_height chain2 + 1).
Proof.
  destruct (good_block_valid now 1000 third (set_hash_good third true) chain2 (after_check third chain2)
    chain2_wf third_typed ltac:(vm_compute; split; congruence) third_good)
    as (_ & _ & _ & Hhash & _ & _ & Hi).
  split; [exact Hhash|]. destruct Hi as [Hi|[Hi _]]; [left|right]; exact Hi.
Defined.

Lemma good_transaction_rules_witness :
  ∃ d, key_hash_difficulty (E := DbError) (blakeout (Block.pub_key third)) = Ok d ∧ KEYSTORE_DIFFICULTY <= d.
Proof.
  destruct (good_transaction_rules now 1000 third (set_hash_good third true) chain2 (after_check third chain2)
    (domain_tx "other.ruv" 3) third_good eq_refl) as (Hkey & _ & _).
  exact Hkey.
Defined.

(** A signing block, then the owner renews her domain. *)
Definition signing3 : Block.t := mined 3 150000 3 3 (Block.hash second) None.
Definition renewal : Block.t := mined 4 190000 4 2 (Block.hash signing3) (Some (domain_tx "name.ruv" 2)).
Definition chain3 : t := run [genesis; second; signing3].

Lemma domain_ownership_witness :
  ∃ r, domains (db chain3) !! 2 = Some r ∧
    (d_signing r = key 2 ∨ d_timestamp r + DOMAIN_LIFETIME + DOMAIN_RENEW_TIME < now ∨
     Block.index renewal = 0 ∧ overflow_checks = false).
Proof.
  destruct (domains (db chain3) !! 2) as [r|] eqn:Hr; [|vm_compute in Hr; discriminate].
  exists r. split; [reflexivity|].
  refine (domain_ownership now 1000 renewal (set_hash_good renewal true) chain3 (after_check renewal chain3)
    (domain_tx "name.ruv" 2) 2 r _ _ _ _ _ _).
  - apply (run_ok [genesis; second; signing3]); vm_compute; reflexivity.
  - apply typedb_ok. vm_compute. reflexivity.
  - vm_compute. reflexivity.
  - reflexivity.
  - split; [exact Hr|]. vm_compute in Hr. injection Hr as <-.
    split; [vm_compute; reflexivity|]. split; [vm_compute; reflexivity|].
    intros j r' Hj _ Hlt. destruct (decide (j = 2)) as [->|Hne]; [lia|]. exfalso.
    apply (f_equal is_some) in Hj. revert Hj.
    assert (domains (db chain3) = <[2 := Drow 2 100000 (str "name.ruv") (str "name.ruv" ++ key 2) [] (key 2) []]> ∅) as ->
      by (vm_compute; reflexivity).
    rewrite lookup_insert_ne, lookup_empty by congruence. discriminate.
  - vm_compute in Hr. injection Hr as <-. vm_compute. split; congruence.
Defined.

Lemma fork_replaces_tail_witness :
  ∃ c2, replace_block (set_hash_good sign_fork true) (after_check sign_fork chain2) = Ok (tt, c2) ∧ get_height c2 = 2.
Proof.
  destruct (fork_replaces_tail now 1000 sign_fork (set_hash_good sign_fork true) chain2 (after_check sign_fork chain2))
    as (c2 & Hrep & _ & Hh & _).
  - exact chain2_wf.
  - apply typedb_ok. vm_compute. reflexivity.
  - vm_compute. reflexivity.
  - exists c2. split; [exact Hrep|exact Hh].
Defined.

(** A chain of 35 blocks: signing blocks by nine keys (or by [ks] keys), then a
    full one. *)
Fixpoint filler (n : nat) (ks index : Z) (prev : bytes) : list Block.t :=
  match n with
  | O => [mined index 190000 (index mod 200) 1 prev (Some (domain_tx "late.ruv" 1))]
  | S n => let b := mined index 1000 (index mod 200) (index mod ks + 1) prev None in
           b :: filler n ks (index + 1) (Block.hash b)
  end.
Definition long_chain (ks : Z) : list Block.t := genesis :: filler 33 ks 2 (Block.hash genesis).
Definition top_full (c : t) : Block.t := default genesis (last_full_block c).

Definition chain35 : t := Eval vm_compute in run (long_chain 9).

Example chain35_facts : get_height chain35 = 35 ∧ Block.index (top_full chain35) = 35 ∧
  has_signers_for chain35 35 = false.
Proof. vm_compute. done. Qed.

Lemma chain35_wf : wf chain35.
Proof.
  assert (chain35 = run (long_chain 9)) as -> by (vm_compute; reflexivity).
  apply run_ok; vm_compute; reflexivity.
Qed.

Definition signers35 : list bytes :=
  match get_block_signers 1000 (top_full chain35) chain35 with Ok (ks, _) => ks | _ => [] end.
Definition cached35 : t := with_cache chain35 35 signers35.

Lemma signers_chosen_witness :
  get_block_signers 1000 (top_full chain35) chain35 = Ok (signers35, cached35) ∧
  Z.of_nat (length signers35) = BLOCK_SIGNERS_ALL ∧ NoDup signers35.
Proof.
  destruct (signers_chosen 1000 (top_full chain35) chain35 7) as [_ H].
  - vm_compute. reflexivity.
  - vm_compute. reflexivity.
  - vm_compute. reflexivity.
  - specialize (H ltac:(vm_compute; split; congruence) ltac:(vm_compute; reflexivity)).
    assert (walked 1000 chain35 (top_full chain35) 7 = signers35) as Hw by (vm_compute; reflexivity).
    rewrite Hw in H. cbv zeta in H. assert ((BLOCK_SIGNERS_ALL <=? Z.of_nat (length signers35)) = true) as Hl by (vm_compute; reflexivity).
    rewrite Hl in H. destruct H as (H1 & H2 & H3 & _). split; [exact H1|]. split; [exact H2|exact H3].
Defined.

(** A block that signs the full block 35, by one of the chosen keys. *)
Definition signing36 : Block.t :=
  from_all_params 36 195000 1 28 0 0 (get_last_hash chain35) (toy_hash [36; 0]) (default [] (signers35 !! 0%nat))
    (replicate 64 0) None.

Lemma signing_block_rule_witness :
  ∃ keys c2, get_block_signers 1000 (top_full chain35) chain35 = Ok (keys, c2) ∧ Block.pub_key signing36 ∈ keys.
Proof.
  destruct (signing_block_rule now 1000 signing36 (set_hash_good signing36 true) chain35 (after_check signing36 chain35)
    (top_full chain35)) as (keys & c2 & Hk & Hin & _).
  - exact chain35_wf.
  - apply typedb_ok. vm_compute. reflexivity.
  - vm_compute. reflexivity.
  - vm_compute. reflexivity.
  - vm_compute. reflexivity.
  - vm_compute. reflexivity.
  - vm_compute. congruence.
  - vm_compute. split; congruence.
  - exists keys, c2. split; [exact Hk|exact Hin].
Defined.

(** Two blocks for place 40, after four signing blocks: one more signature of
    block 35, and a full block. Each is good after block 39. But a node that has
    the full block judges the signature by the signers of the full block, which
    stands at the same place: the signature is bad, and its sender is banned. *)
Definition signing (i k : Z) (prev : bytes) : Block.t :=
  from_all_params i (195000 + i) 1 28 0 (i mod 200) prev (toy_hash [wrap 8 i; wrap 8 (i mod 200)])
    (default [] (signers35 !! Z.to_nat k)) (replicate 64 0) None.
Definition signing37 : Block.t := signing 37 1 (Block.hash signing36).
Definition signing38 : Block.t := signing 38 2 (Block.hash signing37).
Definition signing39 : Block.t := signing 39 3 (Block.hash signing38).
Definition chain39 : t := Eval vm_compute in state (mfor [signing36; signing37; signing38; signing39] receive chain35).
Definition signature40 : Block.t := signing 40 5 (Block.hash signing39).
Definition full40 : Block.t :=
  from_all_params 40 196000 1 28 0 41 (Block.hash signing39) (toy_hash [40; 41]) (key 3)
    (replicate 56 0 ++ [0; 0; 0; 0; 0; 0; 0; 8]) (Some (domain_tx "rival.ruv" 3)).
Lemma rival_signature_bad :
  get_height chain39 = 39 ∧ verdict signature40 chain39 = Some Good ∧ verdict full40 chain39 = Some Good ∧
  verdict signature40 (state (receive full40 chain39)) = Some Bad ∧
  verdict full40 (state (receive signature40 chain39)) = Some Fork.
Proof. vm_compute. done. Qed.

(** With three keys in the whole chain there are never seven signers. *)
Definition lonely35 : t := Eval vm_compute in run (long_chain 3).

Definition owners_below (c : t) (n : nat) : list bytes :=
  (λ i, default [] (Block.pub_key <$> get_block c (Z.of_nat i))) <$> seq 1 n.

Lemma lonely_eligible k : eligible lonely35 (top_full lonely35) (min_blocks (top_full lonely35)) 34 k →
  k ∈ [key 1; key 2; key 3].
Proof.
  intros (_ & (i & b & Hi & Hb & <-) & _).
  assert (forallb (λ k, bool_decide (k ∈ [key 1; key 2; key 3])) (owners_below lonely35 34) = true) as Hall
    by (vm_compute; reflexivity).
  rewrite forallb_forall in Hall. apply (bool_decide_unpack _), (Is_true_eq_left _), Hall, list_elem_of_In.
  apply list_elem_of_fmap. exists (Z.to_nat i). rewrite Z2Nat.id by lia. rewrite Hb. split; [done|].
  apply elem_of_seq. lia.
Qed.

Lemma signers_starve_witness :
  get_block_signers 5000 (top_full lonely35) lonely35 = OutOfFuel.
Proof.
  apply signers_starve.
  - vm_compute. split; congruence.
  - vm_compute. reflexivity.
  - vm_compute. reflexivity.
  - vm_compute. reflexivity.
  - vm_compute. lia.
  - vm_compute. reflexivity.
  - intros keys Hn He. assert (length keys <= length [key 1; key 2; key 3])%nat as Hle.
    { apply submseteq_length, NoDup_submseteq; [exact Hn|]. intros k Hk. apply lonely_eligible.
      rewrite Forall_forall in He. exact (He k Hk). }
    simpl in Hle. unfold BLOCK_SIGNERS_ALL. lia.
Defined.
