(* ===== verification/Cache.v ===== *)
(** * The resolver's cache (src/dns/cache.rs)

    Positive and negative entries per name and type, their expiry, and the
    counters. A [BTreeMap]/[HashMap] is a [gmap]; a [HashSet] of entries is
    the list of its elements without two equal ones, and the order in which it
    is iterated is a parameter ([hash_iter]). [Local::now()] is an argument,
    one for each call of it, in nanoseconds. [Arc] keeps the number of its
    owners, which [Arc::get_mut] tests. *)

From stdpp Require Import sorting fin_maps.
From S2P Require Import Prelude Text Net Commons Buffer Protocol.
Open Scope Z_scope.

Inductive CacheError := Io | PoisonedLock.

Inductive CacheState := PositiveCache | NegativeCache | NotCached.

(** [HashSet]'s iterator: some order of the elements, each of them once. *)
Class HashIter := {
  hash_iter {A : Type} : list A → list A;
  hash_iter_perm {A : Type} (l : list A) : hash_iter l ≡ₚ l;
}.

(** [Duration::seconds]. *)
Definition seconds (s : Z) : Z := s * 1000000000.

#[export] Instance QueryType_countable : Countable QueryType.t.
Proof.
  refine (inj_countable' (A := Z + Z)
    (λ q, match q with QueryType.UNKNOWN x => inl x | _ => inr (QueryType.to_num q) end)
    (λ x, match x with inl n => QueryType.UNKNOWN n | inr n => QueryType.from_num n end) _).
  by intros [].
Defined.

(** ** Entries *)
Module RecordEntry.
Record t := mk { record : DnsRecord.t; timestamp : Z }.

(** [PartialEq for RecordEntry]: the time is not compared. *)
Definition eqb (a b : t) : bool := bool_decide (record a = record b).
End RecordEntry.

(** The [HashSet<RecordEntry>] operations the source uses. *)
Definition set_contains (e : RecordEntry.t) (l : list RecordEntry.t) : bool :=
  existsb (RecordEntry.eqb e) l.
Definition set_remove (e : RecordEntry.t) (l : list RecordEntry.t) : list RecordEntry.t :=
  List.filter (λ x, negb (RecordEntry.eqb e x)) l.
Definition set_insert (e : RecordEntry.t) (l : list RecordEntry.t) : list RecordEntry.t :=
  if set_contains e l then l else e :: l.

Inductive RecordSet :=
  | NoRecords (qtype : QueryType.t) (ttl timestamp : Z)
  | Records (qtype : QueryType.t) (records : list RecordEntry.t).

Module DomainEntry.
Record t := mk {
  domain : rstr;
  record_types : gmap QueryType.t RecordSet;
  hits : Z;
  updates : Z;
}.

Definition new (domain : rstr) : t := mk domain ∅ 0 0.

Section Operations.
Context {BP : Build} {HI : HashIter}.

Definition store_nxdomain (qtype : QueryType.t) (ttl now : Z) (d : t) : outcome CacheError t :=
  let! updates := add_w 32 (updates d) 1 in
  let new_set := NoRecords qtype ttl now in
  Ok (mk (domain d) (<[qtype := new_set]> (record_types d)) (hits d) updates).

Definition store_record (rec : DnsRecord.t) (now : Z) (d : t) : outcome CacheError t :=
  let! updates := add_w 32 (updates d) 1 in
  let entry := RecordEntry.mk rec now in
  let qtype := DnsRecord.get_querytype rec in
  match record_types d !! qtype with
  | Some (Records q records) =>
      let records := if set_contains entry records then set_remove entry records else records in
      Ok (mk (domain d) (<[qtype := Records q (set_insert entry records)]> (record_types d))
             (hits d) updates)
  | _ =>
      let new_set := Records qtype (set_insert entry []) in
      Ok (mk (domain d) (<[qtype := new_set]> (record_types d)) (hits d) updates)
  end.

Definition expires (e : RecordEntry.t) : Z :=
  RecordEntry.timestamp e + seconds (DnsRecord.get_ttl (RecordEntry.record e)).

(** The two tests of the loops over the entries of a set. *)
Definition valid (qtype : QueryType.t) (now : Z) (e : RecordEntry.t) : bool :=
  negb (expires e <? now) && bool_decide (DnsRecord.get_querytype (RecordEntry.record e) = qtype).

Definition get_cache_state (qtype : QueryType.t) (now : Z) (d : t) : CacheState :=
  match record_types d !! qtype with
  | Some (Records _ records) =>
      let valid_count := length (List.filter (valid qtype now) (hash_iter records)) in
      if bool_decide (0 < valid_count)%nat then PositiveCache else NotCached
  | Some (NoRecords _ ttl timestamp) =>
      let expires := timestamp + seconds ttl in
      if expires <? now then NotCached else NegativeCache
  | None => NotCached
  end.

Definition fill_queryresult (qtype : QueryType.t) (now : Z) (d : t) (result_vec : list DnsRecord.t) :
    list DnsRecord.t :=
  match record_types d !! qtype with
  | Some (Records _ records) =>
      result_vec ++ (RecordEntry.record <$> List.filter (valid qtype now) (hash_iter records))
  | _ => result_vec
  end.
End Operations.
End DomainEntry.

(** ** The cache *)

(** [Arc<T>]: the value and the number of its owners. *)
Record Arc (A : Type) := mkArc { strong_count : nat; value : A }.
Arguments mkArc {A}.
Arguments strong_count {A}.
Arguments value {A}.

Definition arc_new {A} (x : A) : Arc A := mkArc 1 x.
Definition arc_clone {A} (a : Arc A) : Arc A := mkArc (S (strong_count a)) (value a).
(** [Arc::get_mut]: the value, when there is no other owner. *)
Definition arc_get_mut {A} (a : Arc A) : option A :=
  if bool_decide (strong_count a = 1%nat) then Some (value a) else None.

Module Cache.
Definition t := gmap rstr (Arc DomainEntry.t).
Definition new : t := ∅.

(** [self.domain_entries.get_mut(name).and_then(Arc::get_mut)] *)
Definition entry_mut (qname : rstr) (c : t) : option DomainEntry.t := (c : gmap _ _) !! qname ≫= arc_get_mut.

(** Writing through that reference. *)
Definition put (qname : rstr) (d : DomainEntry.t) (c : t) : t := <[qname := arc_new d]> (c : gmap _ _).

Section Operations.
Context {BP : Build} {HI : HashIter}.

Definition get_cache_state (qname : rstr) (qtype : QueryType.t) (now : Z) (c : t) : CacheState :=
  match (c : gmap _ _) !! qname with
  | Some x => DomainEntry.get_cache_state qtype now (value x)
  | None => NotCached
  end.

Definition fill_queryresult (qname : rstr) (qtype : QueryType.t) (now : Z)
    (result_vec : list DnsRecord.t) (increment_stats : bool) : M t CacheError (list DnsRecord.t) := λ c,
  match entry_mut qname c with
  | Some d =>
      let! hits := (if increment_stats then add_w 32 (DomainEntry.hits d) 1 else Ok (DomainEntry.hits d)
                    : outcome CacheError Z) in
      let d := DomainEntry.mk (DomainEntry.domain d) (DomainEntry.record_types d) hits (DomainEntry.updates d) in
      Ok (DomainEntry.fill_queryresult qtype now d result_vec, put qname d c)
  | None => Ok (result_vec, c)
  end.

(** The clock is read by [get_cache_state], then by each [fill_queryresult]. *)
Definition lookup (qname : rstr) (qtype : QueryType.t) (now1 now2 now3 : Z) :
    M t CacheError (option DnsPacket.t) := λ c,
  match get_cache_state qname qtype now1 c with
  | PositiveCache =>
      (let? answers := fill_queryresult qname qtype now2 [] true in
       let? authorities := fill_queryresult qname QueryType.NS now3 [] false in
       mret (Some (DnsPacket.mk DnsHeader.new [] answers authorities []))) c
  | NegativeCache =>
      let qr := DnsPacket.set_header DnsPacket.new (DnsHeader.set_rescode DnsHeader.new ResultCode.NXDOMAIN) in
      Ok (Some qr, c)
  | NotCached => Ok (None, c)
  end.

(** One turn of the loop of [store]. *)
Definition store_one (now : Z) (rec : DnsRecord.t) : M t CacheError unit := λ c,
  match DnsRecord.get_domain rec with
  | None => Ok (tt, c)
  | Some domain =>
      let rs := match entry_mut domain c with
                | Some rs => rs
                | None => DomainEntry.new domain
                end in
      let! rs := DomainEntry.store_record rec now rs in
      Ok (tt, put domain rs c)
  end.

(** [nows]: the time each record is stored at. *)
Definition store (records : list (DnsRecord.t * Z)) : M t CacheError unit :=
  mfor records (λ '(rec, now), store_one now rec).

Definition store_nxdomain (qname : rstr) (qtype : QueryType.t) (ttl now : Z) : M t CacheError unit := λ c,
  let rs := match entry_mut qname c with
            | Some rs => rs
            | None => DomainEntry.new qname
            end in
  let! rs := DomainEntry.store_nxdomain qtype ttl now rs in
  Ok (tt, put qname rs c).
End Operations.
End Cache.

(** ** The cache behind its lock *)

Module SynchronizedCache.
Record t := mk { cache : Cache.t; poisoned : bool }.
Definition new : t := mk Cache.new false.

(** [list] keeps the lock's contents but every entry has one more owner. *)
Definition list_ : M t CacheError (list (Arc DomainEntry.t)) := λ s,
  if poisoned s then Err PoisonedLock else
  let c := (arc_clone <$> (cache s : gmap _ _)) in
  Ok (btree_values c, mk c false).

Section Operations.
Context {BP : Build} {HI : HashIter}.

Definition locked {A} (m : M Cache.t CacheError A) : M t CacheError A := λ s,
  if poisoned s then Err PoisonedLock else
  let! (a, c) := m (cache s) in Ok (a, mk c false).

Definition lookup (qname : rstr) (qtype : QueryType.t) (now1 now2 now3 : Z) :
    M t CacheError (option DnsPacket.t) := λ s,
  if poisoned s then Ok (None, s) else locked (Cache.lookup qname qtype now1 now2 now3) s.

Definition store (records : list (DnsRecord.t * Z)) : M t CacheError unit := locked (Cache.store records).

Definition store_nxdomain (qname : rstr) (qtype : QueryType.t) (ttl now : Z) : M t CacheError unit :=
  locked (Cache.store_nxdomain qname qtype ttl now).
End Operations.
End SynchronizedCache.

(** An instance for concrete runs: sets are iterated in the order of the list. *)
Module CacheTests.
Definition in_order : HashIter := {| hash_iter A l := l; hash_iter_perm A l := Permutation_refl l |}.
#[local] Existing Instance in_order.
End CacheTests.
