(* ===== verification/CacheProps.v ===== *)
(** * Correctness of the cache (src/dns/cache.rs)

    A run of the cache with the history of what was stored: every answer comes
    from the history and has not expired ([cache_sound]); what is stored is
    found until it expires ([stored_is_found], [nxdomain_is_found]); storing
    leaves other names alone. The other two theorems describe what equal
    records with different TTLs and shared entries do. *)

From stdpp Require Import fin_maps.
From S2P Require Import Prelude Text Net Commons Buffer Protocol Cache.
Open Scope Z_scope.

(** ** The set of entries *)
Section Sets.
Implicit Types (e x : RecordEntry.t) (l : list RecordEntry.t).

Lemma set_contains_spec e l :
  set_contains e l = true ↔ ∃ x, x ∈ l ∧ RecordEntry.record x = RecordEntry.record e.
Proof.
  unfold set_contains. rewrite existsb_exists. unfold RecordEntry.eqb. split.
  - intros (x & Hx & Hb). exists x. rewrite list_elem_of_In. split; [done|].
    by apply bool_decide_eq_true in Hb.
  - intros (x & Hx & Hb). exists x. rewrite <- list_elem_of_In. split; [done|].
    by apply bool_decide_eq_true.
Qed.

Lemma set_remove_spec e x l :
  x ∈ set_remove e l ↔ x ∈ l ∧ RecordEntry.record x ≠ RecordEntry.record e.
Proof.
  unfold set_remove, RecordEntry.eqb. rewrite !list_elem_of_In, filter_In, negb_true_iff, bool_decide_eq_false.
  by destruct (decide (RecordEntry.record e = RecordEntry.record x)); intuition congruence.
Qed.

Lemma set_insert_new e l :
  ¬ set_contains e l → set_insert e l = e :: l.
Proof. unfold set_insert. by destruct (set_contains e l). Qed.

Lemma set_remove_gone e l : ¬ set_contains e (set_remove e l).
Proof.
  rewrite Is_true_true, set_contains_spec. intros (x & Hx & He).
  by apply set_remove_spec in Hx as [_ ?].
Qed.

Lemma set_remove_NoDup e l :
  NoDup (RecordEntry.record <$> l) → NoDup (RecordEntry.record <$> set_remove e l).
Proof.
  induction l as [|y l IH]; [done|]. rewrite fmap_cons, NoDup_cons. intros [Hy Hl]. cbn.
  destruct (negb _); [|by apply IH]. rewrite fmap_cons, NoDup_cons. split; [|by apply IH].
  contradict Hy. apply list_elem_of_fmap in Hy as (x & Hyx & Hx).
  apply set_remove_spec in Hx as [Hx _]. rewrite Hyx. by apply list_elem_of_fmap_2.
Qed.
End Sets.

(** What [store_record] puts under the record's type. *)
Definition after_store (entry : RecordEntry.t) (set : option RecordSet) : list RecordEntry.t :=
  entry :: match set with Some (Records _ l) => set_remove entry l | _ => [] end.

(** Nothing to remove: removing changes nothing. *)
Lemma set_remove_absent e l : ¬ set_contains e l → set_remove e l = l.
Proof.
  induction l as [|x l IH]; [done|]. cbn. unfold RecordEntry.eqb at 1 3.
  destruct (bool_decide _) eqn:Hb; cbn; [tauto|]. intros Hl. f_equal. by apply IH.
Qed.

Section Cache.
Context {BP : Build} {HI : HashIter}.

Lemma store_record_eq rec now d :
  DomainEntry.store_record rec now d =
  let! updates := add_w 32 (DomainEntry.updates d) 1 in
  let q := DnsRecord.get_querytype rec in
  let set := DomainEntry.record_types d !! q in
  let q' := match set with Some (Records q' _) => q' | _ => q end in
  Ok (DomainEntry.mk (DomainEntry.domain d)
        (<[q := Records q' (after_store (RecordEntry.mk rec now) set)]> (DomainEntry.record_types d))
        (DomainEntry.hits d) updates).
Proof.
  unfold DomainEntry.store_record. destruct (add_w _ _ _); [|done..]. cbn. f_equal.
  destruct (DomainEntry.record_types d !! _) as [[|q' l]|]; [done| |done].
  unfold after_store. do 3 f_equal.
  destruct (set_contains _ l) eqn:Hc.
  - by rewrite (set_insert_new _ _ (set_remove_gone _ l)).
  - rewrite set_remove_absent by (rewrite Hc; tauto). f_equal. apply set_insert_new. rewrite Hc. tauto.
Qed.

(** ** Runs with a history *)

(** What was stored so far, and when. *)
Inductive stored :=
  | Positive (rec : DnsRecord.t) (at_ : Z)
  | Negative (qname : rstr) (qtype : QueryType.t) (ttl at_ : Z).

(** The same values, whoever else owns them. *)
Definition same_values (c c' : Cache.t) : Prop :=
  ∀ name, value <$> (c : gmap _ _) !! name = value <$> (c' : gmap _ _) !! name.

(** The operations of the cache, and other owners coming and going. *)
Inductive reachable : Cache.t → list stored → Prop :=
  | reach_new : reachable Cache.new []
  | reach_lookup c h qname qtype n1 n2 n3 r c' :
      reachable c h → Cache.lookup qname qtype n1 n2 n3 c = Ok (r, c') → reachable c' h
  | reach_store c h recs c' :
      reachable c h → Cache.store recs c = Ok (tt, c') →
      reachable c' (((λ '(r, t), Positive r t) <$> recs) ++ h)
  | reach_store_nxdomain c h qname qtype ttl now c' :
      reachable c h → Cache.store_nxdomain qname qtype ttl now c = Ok (tt, c') →
      reachable c' (Negative qname qtype ttl now :: h)
  | reach_owners c h c' :
      reachable c h → same_values c c' → reachable c' h.

Definition entry_ok (h : list stored) (name : rstr) (q : QueryType.t) (e : RecordEntry.t) : Prop :=
  DnsRecord.get_domain (RecordEntry.record e) = Some name ∧
  DnsRecord.get_querytype (RecordEntry.record e) = q ∧
  Positive (RecordEntry.record e) (RecordEntry.timestamp e) ∈ h.

Definition set_ok (h : list stored) (name : rstr) (q : QueryType.t) (s : RecordSet) : Prop :=
  match s with
  | NoRecords q' ttl at_ => q' = q ∧ Negative name q ttl at_ ∈ h
  | Records q' l => q' = q ∧ NoDup (RecordEntry.record <$> l) ∧ Forall (entry_ok h name q) l
  end.

Definition entries_ok (h : list stored) (name : rstr) (d : DomainEntry.t) : Prop :=
  map_Forall (set_ok h name) (DomainEntry.record_types d).

Definition cache_ok (h : list stored) (c : Cache.t) : Prop :=
  map_Forall (λ name a, entries_ok h name (value a)) (c : gmap rstr (Arc DomainEntry.t)).

Lemma set_ok_mono h h' name q s : h ⊆ h' → set_ok h name q s → set_ok h' name q s.
Proof.
  intros Hh. destruct s as [q' ttl at_|q' l]; cbn; [intros [-> ?]; auto|].
  intros (-> & Hnd & Hl). do 2 (split; [done|]). eapply Forall_impl; [done|].
  intros e (? & ? & ?). repeat split; auto.
Qed.

Lemma cache_ok_mono h h' c : h ⊆ h' → cache_ok h c → cache_ok h' c.
Proof.
  intros Hh Hc name a Ha q s Hs. eapply set_ok_mono; [done|]. by eapply Hc.
Qed.

Lemma entry_mut_ok h c qname d : cache_ok h c → Cache.entry_mut qname c = Some d → entries_ok h qname d.
Proof.
  unfold Cache.entry_mut. intros Hc Hd. apply bind_Some in Hd as (a & Ha & Hd).
  unfold arc_get_mut in Hd. case_bool_decide; [|done]. injection Hd as <-. by eapply Hc.
Qed.

Lemma put_ok h c name d : cache_ok h c → entries_ok h name d → cache_ok h (Cache.put name d c).
Proof. intros Hc Hd. unfold Cache.put, cache_ok. by apply map_Forall_insert_2. Qed.

(** The entry an operation starts from: the one found, or a new one. *)
Lemma entry_or_new_ok h c qname : cache_ok h c →
  entries_ok h qname (match Cache.entry_mut qname c with Some rs => rs | None => DomainEntry.new qname end).
Proof.
  intros Hc. destruct (Cache.entry_mut qname c) eqn:He; [by eapply entry_mut_ok|].
  apply map_Forall_empty.
Qed.

Lemma store_record_ok h name rec now d d' :
  DnsRecord.get_domain rec = Some name → entries_ok h name d →
  DomainEntry.store_record rec now d = Ok d' → entries_ok (Positive rec now :: h) name d'.
Proof.
  intros Hn Hd Hs. rewrite store_record_eq in Hs. minv. cbn zeta in Hs. injection Hs as <-. 
  unfold entries_ok. cbn.
  assert (Hd' : map_Forall (set_ok (Positive rec now :: h) name) (DomainEntry.record_types d)).
  { intros q s Hq. eapply set_ok_mono; [|by apply Hd]. set_solver. }
  apply map_Forall_insert_2; [|done]. cbn.
  assert (Hnew : entry_ok (Positive rec now :: h) name (DnsRecord.get_querytype rec) (RecordEntry.mk rec now))
    by (repeat split; auto; cbn; set_solver).
  destruct (_ !! _) as [[q' ttl at_|q' l]|] eqn:Hq; cbn.
  - apply Hd' in Hq as [-> _]. split; [done|]. split; [apply NoDup_singleton|]. by constructor.
  - apply Hd' in Hq as (-> & Hnd & Hl). split; [done|]. split.
    + apply NoDup_cons. split; [|by apply set_remove_NoDup].
      intros (x & Hx & Hxl)%list_elem_of_fmap. apply set_remove_spec in Hxl as [_ Hne]. by apply Hne.
    + constructor; [done|]. rewrite Forall_forall in Hl |- *. intros x [Hx _]%set_remove_spec. by apply Hl.
  - split; [done|]. split; [apply NoDup_singleton|]. by constructor.
Qed.

Lemma store_one_ok h c rec now c' :
  cache_ok h c → Cache.store_one now rec c = Ok (tt, c') → cache_ok (Positive rec now :: h) c'.
Proof.
  intros Hc Hs. unfold Cache.store_one in Hs. destruct (DnsRecord.get_domain rec) as [name|] eqn:Hn.
  - minv. subst. apply put_ok; [eapply cache_ok_mono; [|done]; set_solver|].
    eapply store_record_ok; [done| |done]. by apply entry_or_new_ok.
  - injection Hs as <-. eapply cache_ok_mono; [|done]. set_solver.
Qed.

Lemma store_ok h c recs c' :
  cache_ok h c → Cache.store recs c = Ok (tt, c') →
  cache_ok (((λ '(r, t), Positive r t) <$> recs) ++ h) c'.
Proof.
  revert h c. induction recs as [|[rec now] recs IH]; intros h c Hc Hs.
  - injection Hs as <-. done.
  - unfold Cache.store in Hs. cbn in Hs. minv. destruct a.
    eapply cache_ok_mono; [|eapply IH; [by eapply store_one_ok|done]].
    intros x Hx. apply elem_of_app in Hx. rewrite fmap_cons. cbn. rewrite !elem_of_cons, elem_of_app in *. tauto.
Qed.

Lemma fill_ok h c qname qtype now v b r c' :
  cache_ok h c → Cache.fill_queryresult qname qtype now v b c = Ok (r, c') → cache_ok h c'.
Proof.
  intros Hc Hf. unfold Cache.fill_queryresult in Hf.
  destruct (Cache.entry_mut qname c) eqn:He; [|by simplify_eq].
  minv. simplify_eq. apply put_ok; [done|]. by eapply entry_mut_ok in He.
Qed.

Lemma lookup_ok h c qname qtype n1 n2 n3 r c' :
  cache_ok h c → Cache.lookup qname qtype n1 n2 n3 c = Ok (r, c') → cache_ok h c'.
Proof.
  intros Hc Hl. unfold Cache.lookup in Hl. destruct (Cache.get_cache_state _ _ _ _); [|by simplify_eq..].
  minv. simplify_eq. eauto using fill_ok.
Qed.

Lemma reachable_ok c h : reachable c h → cache_ok h c.
Proof.
  induction 1 as [|c h qname qtype n1 n2 n3 r c' _ IH Hl|c h recs c' _ IH Hs
                 |c h qname qtype ttl now c' _ IH Hs|c h c' _ IH Hv].
  - apply map_Forall_empty.
  - by eapply lookup_ok.
  - by eapply store_ok.
  - unfold Cache.store_nxdomain in Hs. minv. subst c'.
    assert (Hc : cache_ok (Negative qname qtype ttl now :: h) c)
      by (eapply cache_ok_mono; [|done]; set_solver).
    apply put_ok; [done|]. unfold DomainEntry.store_nxdomain in Hm. minv. subst.
    apply map_Forall_insert_2; [cbn; set_solver|]. by apply entry_or_new_ok.
  - intros name a Ha. specialize (Hv name). rewrite Ha in Hv. cbn in Hv.
    destruct ((c : gmap _ _) !! name) as [a0|] eqn:Ha0; [|done]. injection Hv as <-. by eapply IH.
Qed.

(** A record served for a name and a type at a time: it was stored, and its
    time to live has not passed. *)
Definition served (h : list stored) (qname : rstr) (q : QueryType.t) (now : Z) (rec : DnsRecord.t) : Prop :=
  DnsRecord.get_domain rec = Some qname ∧ DnsRecord.get_querytype rec = q ∧
  ∃ at_, Positive rec at_ ∈ h ∧ now <= at_ + seconds (DnsRecord.get_ttl rec).

Lemma valid_spec q now e : DomainEntry.valid q now e = true ↔
  now <= DomainEntry.expires e ∧ DnsRecord.get_querytype (RecordEntry.record e) = q.
Proof.
  unfold DomainEntry.valid. rewrite andb_true_iff, negb_true_iff, Z.ltb_ge, bool_decide_eq_true. done.
Qed.

Lemma elem_valid q now e l :
  e ∈ List.filter (DomainEntry.valid q now) (hash_iter l) ↔
  e ∈ l ∧ now <= DomainEntry.expires e ∧ DnsRecord.get_querytype (RecordEntry.record e) = q.
Proof. by rewrite list_elem_of_In, filter_In, <- list_elem_of_In, hash_iter_perm, valid_spec. Qed.

Lemma records_filter_NoDup f (l : list RecordEntry.t) :
  NoDup (RecordEntry.record <$> l) → NoDup (RecordEntry.record <$> List.filter f l).
Proof.
  induction l as [|x l IH]; [done|]. rewrite fmap_cons, NoDup_cons. intros [Hx Hl]. cbn.
  destruct (f x); [|by apply IH]. rewrite fmap_cons, NoDup_cons. split; [|by apply IH].
  contradict Hx. apply list_elem_of_fmap in Hx as (y & -> & Hy).
  apply list_elem_of_In, filter_In in Hy as [Hy _]. apply list_elem_of_fmap_2. by apply list_elem_of_In.
Qed.

Lemma fill_served h c qname q now b r c' :
  cache_ok h c → Cache.fill_queryresult qname q now [] b c = Ok (r, c') →
  NoDup r ∧ Forall (served h qname q now) r.
Proof.
  intros Hc Hf. unfold Cache.fill_queryresult in Hf.
  destruct (Cache.entry_mut qname c) as [d|] eqn:He; [|simplify_eq; split; constructor].
  apply (entry_mut_ok _ _ _ _ Hc) in He. minv. simplify_eq.
  unfold DomainEntry.fill_queryresult. cbn.
  destruct (DomainEntry.record_types d !! q) as [[|q' l]|] eqn:Hq; [split; constructor| |split; constructor].
  apply He in Hq as (-> & Hnd & Hl). split.
  - apply records_filter_NoDup. by rewrite (hash_iter_perm l).
  - apply Forall_fmap, Forall_forall. intros e (Hel & Hnow & Hty)%elem_valid.
    rewrite Forall_forall in Hl. destruct (Hl e Hel) as (Hd & _ & Hin).
    repeat split; [done..|]. by exists (RecordEntry.timestamp e).
Qed.

(** C26: whatever the cache answers after any run of its operations comes from
    what was stored: a negative answer repeats a stored negative answer of
    that name and type whose time has not passed; a positive one lists,
    without repetition, records stored under exactly the name asked for, of
    the type asked for (and NS for the authorities), each of them still
    within its time to live. *)
Theorem cache_sound (c : Cache.t) (h : list stored) (qname : rstr) (qtype : QueryType.t)
    (n1 n2 n3 : Z) (p : DnsPacket.t) (c' : Cache.t) :
  reachable c h → Cache.lookup qname qtype n1 n2 n3 c = Ok (Some p, c') →
  match DnsHeader.rescode (DnsPacket.header p) with
  | ResultCode.NXDOMAIN =>
      DnsPacket.answers p = [] ∧ DnsPacket.authorities p = [] ∧ DnsPacket.resources p = [] ∧
      ∃ ttl at_, Negative qname qtype ttl at_ ∈ h ∧ n1 <= at_ + seconds ttl
  | ResultCode.NOERROR =>
      NoDup (DnsPacket.answers p) ∧ Forall (served h qname qtype n2) (DnsPacket.answers p) ∧
      NoDup (DnsPacket.authorities p) ∧ Forall (served h qname QueryType.NS n3) (DnsPacket.authorities p) ∧
      DnsPacket.resources p = []
  | _ => False
  end.
Proof.
  intros Hr Hl. apply reachable_ok in Hr as Hc. unfold Cache.lookup in Hl.
  destruct (Cache.get_cache_state _ _ _ _) eqn:Hs; [| |by simplify_eq].
  - minv. simplify_eq. cbn. pose proof (fill_ok _ _ _ _ _ _ _ _ _ Hc Hm) as Hc1.
    apply (fill_served h) in Hm as [? ?]; [|done]. apply (fill_served h) in Hm0 as [? ?]; done.
  - injection Hl as <- <-. cbn. do 3 (split; [done|]). unfold Cache.get_cache_state in Hs.
    destruct ((c : gmap _ _) !! qname) as [a|] eqn:Ha; [|done].
    unfold DomainEntry.get_cache_state in Hs.
    destruct (DomainEntry.record_types (value a) !! qtype) as [[q' ttl at_|]|] eqn:Hq;
      [|by case_bool_decide|done].
    destruct (_ <? _) eqn:Hlt; [done|]. apply Z.ltb_ge in Hlt.
    apply (Hc _ _ Ha) in Hq as [_ Hin]. by exists ttl, at_.
Qed.

(** ** What is stored is found *)

(** Nobody else owns an entry, and [n] more updates or hits fit the counters. *)
Definition room (n : Z) (c : Cache.t) : Prop :=
  map_Forall (λ _ a, strong_count a = 1%nat ∧
    0 <= DomainEntry.updates (value a) ∧ DomainEntry.updates (value a) + n < 2 ^ 32 ∧
    0 <= DomainEntry.hits (value a) < 2 ^ 32 - 1) (c : gmap rstr (Arc DomainEntry.t)).

(** The entry [e] is in the cache under its name and type. *)
Definition holds_entry (c : Cache.t) (name : rstr) (e : RecordEntry.t) : Prop :=
  ∃ d q l, Cache.entry_mut name c = Some d ∧
    DomainEntry.record_types d !! DnsRecord.get_querytype (RecordEntry.record e) = Some (Records q l) ∧ e ∈ l.

Lemma room_mono n n' c : n' <= n → room n c → room n' c.
Proof. intros Hn Hc name a Ha. destruct (Hc name a Ha) as (? & ? & ? & ?). repeat split; auto; lia. Qed.

Lemma room_entry n c name a : room n c → (c : gmap _ _) !! name = Some a →
  Cache.entry_mut name c = Some (value a).
Proof.
  intros Hc Ha. unfold Cache.entry_mut. rewrite Ha. cbn. unfold arc_get_mut.
  destruct (Hc _ _ Ha) as [-> _]. done.
Qed.

Lemma entry_mut_put name d c : Cache.entry_mut name (Cache.put name d c) = Some d.
Proof. unfold Cache.entry_mut, Cache.put. by rewrite lookup_insert_eq. Qed.

Lemma entry_mut_put_ne name name' d c :
  name ≠ name' → Cache.entry_mut name' (Cache.put name d c) = Cache.entry_mut name' c.
Proof. intros Hne. unfold Cache.entry_mut, Cache.put. by rewrite lookup_insert_ne. Qed.

Lemma room_put n c name d :
  0 <= DomainEntry.updates d → DomainEntry.updates d + n < 2 ^ 32 → 0 <= DomainEntry.hits d < 2 ^ 32 - 1 →
  room n c → room n (Cache.put name d c).
Proof. intros. apply map_Forall_insert_2; [|done]. cbn. done. Qed.

(** The entry [store_one] starts from has room for the update. *)
Lemma room_start n c name :
  0 <= n < 2 ^ 32 - 1 → room (n + 1) c →
  let d := match Cache.entry_mut name c with Some rs => rs | None => DomainEntry.new name end in
  0 <= DomainEntry.updates d ∧ DomainEntry.updates d + (n + 1) < 2 ^ 32 ∧ 0 <= DomainEntry.hits d < 2 ^ 32 - 1.
Proof.
  intros Hn Hc. unfold Cache.entry_mut. destruct ((c : gmap _ _) !! name) as [a|] eqn:Ha; cbn; [|lia].
  destruct (Hc _ _ Ha) as (Hs & ? & ? & ?). unfold arc_get_mut. rewrite Hs, bool_decide_eq_true_2 by done. cbn. lia.
Qed.

Lemma store_one_keeps c n rec now :
  0 <= n < 2 ^ 32 - 1 → room (n + 1) c →
  ∃ c', Cache.store_one now rec c = Ok (tt, c') ∧ room n c' ∧
    (∀ name, DnsRecord.get_domain rec = Some name → holds_entry c' name (RecordEntry.mk rec now)) ∧
    (∀ name e, RecordEntry.record e ≠ rec → holds_entry c name e → holds_entry c' name e) ∧
    (∀ name, DnsRecord.get_domain rec ≠ Some name → (c' : gmap _ _) !! name = (c : gmap _ _) !! name).
Proof.
  intros Hn Hc. unfold Cache.store_one. destruct (DnsRecord.get_domain rec) as [name|] eqn:Hname.
  2: { exists c. split; [done|]. split; [eapply room_mono; [|done]; lia|]. split; [done|]. by split. }
  pose proof (room_start n c name Hn Hc) as Hd. cbv zeta in Hd.
  set (d := match Cache.entry_mut name c with Some rs => rs | None => DomainEntry.new name end) in *.
  destruct Hd as (Hd0 & Hd1 & Hd2). rewrite store_record_eq. unfold add_w.
  rewrite arith_fits by (unfold is_u; lia). cbn. eexists. split; [done|]. split; [|split; [|split]].
  - apply room_put; cbn; [lia..|]. eapply room_mono; [|done]. lia.
  - intros _ [= <-]. eexists _, _, _. rewrite entry_mut_put. split; [done|]. cbn.
    rewrite lookup_insert_eq. split; [done|]. by left.
  - intros name' e Hne (d' & q & l & He & Hq & Hl).
    destruct (decide (name = name')) as [<-|Hnn].
    + assert (d = d') as <- by (unfold d; by rewrite He).
      unfold holds_entry. rewrite entry_mut_put. eexists _.
      destruct (decide (DnsRecord.get_querytype rec = DnsRecord.get_querytype (RecordEntry.record e))) as [Heq|Hqn].
      * eexists _, _. split; [done|]. cbn. rewrite Heq, lookup_insert_eq, Hq. split; [done|]. right.
        by apply set_remove_spec.
      * exists q, l. split; [done|]. cbn. by rewrite lookup_insert_ne.
    + exists d', q, l. by rewrite entry_mut_put_ne.
  - intros name' Hn'. unfold Cache.put. apply lookup_insert_ne. congruence.
Qed.

Lemma store_keeps recs : ∀ c,
  Z.of_nat (length recs) < 2 ^ 32 - 1 → room (Z.of_nat (length recs)) c →
  ∃ c', Cache.store recs c = Ok (tt, c') ∧ room 0 c' ∧
    (∀ name e, RecordEntry.record e ∉ recs.*1 → holds_entry c name e → holds_entry c' name e) ∧
    (∀ name, Forall (λ r, DnsRecord.get_domain r ≠ Some name) recs.*1 →
       (c' : gmap _ _) !! name = (c : gmap _ _) !! name).
Proof.
  induction recs as [|[rec now] recs IH]; intros c Hlen Hc.
  - exists c. split; [done|]. split; [done|]. by split.
  - cbn [length] in *. unfold Cache.store. cbn.
    destruct (store_one_keeps c (Z.of_nat (length recs)) rec now) as (c1 & Hs & Hr & _ & Hk & Hf);
      [lia|eapply room_mono; [|done]; lia|].
    destruct (IH c1) as (c' & Hs' & Hr' & Hk' & Hf'); [lia|done|].
    exists c'. split; [erewrite mbind_run; [exact Hs'|done]|]. split; [done|]. split.
    + intros name e [Hne He]%not_elem_of_cons ?. auto.
    + intros name [Hne He]%Forall_cons. rewrite Hf' by done. by apply Hf.
Qed.

Lemma store_found pre rec at_ post c name :
  let recs := pre ++ (rec, at_) :: post in
  Z.of_nat (length recs) < 2 ^ 32 - 1 → room (Z.of_nat (length recs)) c →
  DnsRecord.get_domain rec = Some name → rec ∉ post.*1 →
  ∃ c', Cache.store recs c = Ok (tt, c') ∧ room 0 c' ∧ holds_entry c' name (RecordEntry.mk rec at_).
Proof.
  revert c. induction pre as [|[r t] pre IH]; intros c recs Hlen Hc Hn Hp; subst recs;
    cbn [app length] in *; unfold Cache.store; cbn;
    [pose (k := length post); pose (x := rec); pose (y := at_)
    |pose (k := length (pre ++ (rec, at_) :: post)); pose (x := r); pose (y := t)];
    destruct (store_one_keeps c (Z.of_nat k) x y) as (c1 & Hs & Hr & Hh & Hk & _);
      try (subst k; lia); try (eapply room_mono; [|done]; subst k; lia); subst k x y.
  - destruct (store_keeps post c1) as (c' & Hs' & Hr' & Hk' & _); [lia|done|].
    exists c'. split; [erewrite mbind_run; [exact Hs'|done]|]. split; [done|]. by apply Hk', Hh.
  - destruct (IH c1) as (c' & Hs' & Hr' & Hh'); [lia|done..|].
    exists c'. split; [erewrite mbind_run; [exact Hs'|done]|]. by split.
Qed.

Lemma fill_plain qname q now v c : ∃ r c', Cache.fill_queryresult qname q now v false c = Ok (r, c').
Proof. unfold Cache.fill_queryresult. destruct (Cache.entry_mut qname c); cbn; eauto. Qed.

(** A lookup finds every entry of its name and type that is still alive. *)
Lemma lookup_found c name e n1 n2 n3 :
  room 0 c → holds_entry c name e → n1 <= DomainEntry.expires e →
  let q := DnsRecord.get_querytype (RecordEntry.record e) in
  ∃ p c', Cache.lookup name q n1 n2 n3 c = Ok (Some p, c') ∧
    DnsHeader.rescode (DnsPacket.header p) = ResultCode.NOERROR ∧
    ∀ e', holds_entry c name e' → DnsRecord.get_querytype (RecordEntry.record e') = q →
      n2 <= DomainEntry.expires e' → RecordEntry.record e' ∈ DnsPacket.answers p.
Proof.
  intros Hc (d & q' & l & He & Hq & Hel) H1 q. fold q in Hq. unfold Cache.lookup.
  assert (Hst : Cache.get_cache_state name q n1 c = PositiveCache).
  { unfold Cache.get_cache_state. unfold Cache.entry_mut in He.
    destruct ((c : gmap _ _) !! name) as [a|]; [|done]. cbn in He. unfold arc_get_mut in He.
    case_bool_decide; [|done]. injection He as ->. unfold DomainEntry.get_cache_state. rewrite Hq.
    rewrite bool_decide_eq_true_2; [done|].
    destruct (List.filter _ _) eqn:Hf; [|cbn; lia]. exfalso. apply (not_elem_of_nil e).
    rewrite <- Hf. by apply elem_valid. }
  rewrite Hst. unfold mbind_, Cache.fill_queryresult at 1. rewrite He.
  assert (Hh : 0 <= DomainEntry.hits d < 2 ^ 32 - 1).
  { unfold Cache.entry_mut in He. apply bind_Some in He as (a & Ha & Hd).
    unfold arc_get_mut in Hd. case_bool_decide; [|done]. injection Hd as <-. by apply (Hc _ _ Ha). }
  unfold add_w. rewrite arith_fits by (unfold is_u; lia). cbn [obind].
  edestruct fill_plain as (r & c' & ->). eexists _, c'. split; [done|]. split; [done|]. cbn [DnsPacket.answers].
  intros e' (d' & q'' & l' & He' & Hq' & Hl') Hty H2. unfold DomainEntry.fill_queryresult. cbn.
  rewrite He in He'. injection He' as <-. rewrite Hty in Hq'. rewrite Hq'.
  apply list_elem_of_fmap_2. by apply elem_valid.
Qed.

(** A record that is stored is found: after storing any records in a
    cache whose entries nobody else owns and whose counters have room, a
    lookup of that record's name and type before it expires succeeds with a
    positive answer that lists the record (at the time of its last storing,
    when it is stored more than once), and the entry of any name without a
    stored record is left as it was. *)
Theorem stored_is_found (c : Cache.t) (pre post : list (DnsRecord.t * Z)) (rec : DnsRecord.t)
    (at_ n1 n2 n3 : Z) (name : rstr) :
  let recs := pre ++ (rec, at_) :: post in
  Z.of_nat (length recs) < 2 ^ 32 - 1 → room (Z.of_nat (length recs)) c →
  DnsRecord.get_domain rec = Some name → rec ∉ post.*1 →
  n1 <= at_ + seconds (DnsRecord.get_ttl rec) → n2 <= at_ + seconds (DnsRecord.get_ttl rec) →
  ∃ c' p c'', Cache.store recs c = Ok (tt, c') ∧
    Cache.lookup name (DnsRecord.get_querytype rec) n1 n2 n3 c' = Ok (Some p, c'') ∧
    DnsHeader.rescode (DnsPacket.header p) = ResultCode.NOERROR ∧ rec ∈ DnsPacket.answers p ∧
    ∀ other, Forall (λ r, DnsRecord.get_domain r ≠ Some other) recs.*1 →
      (c' : gmap _ _) !! other = (c : gmap _ _) !! other.
Proof.
  intros recs Hlen Hc Hn Hp H1 H2.
  destruct (store_found pre rec at_ post c name Hlen Hc Hn Hp) as (c' & Hs & Hr & Hh).
  destruct (store_keeps _ _ Hlen Hc) as (c1 & Hs1 & _ & _ & Hf).
  fold recs in Hs. rewrite Hs1 in Hs. injection Hs as ->.
  destruct (lookup_found c' name _ n1 n2 n3 Hr Hh H1) as (p & c'' & Hl & Hcode & Ha).
  exists c', p, c''. split; [done|]. split; [exact Hl|]. split; [done|]. split; [|done].
  by apply (Ha _ Hh).
Qed.

(** A stored negative answer is repeated until it expires and no longer:
    after [store_nxdomain] the lookup of that name and type answers NXDOMAIN
    exactly while the time is at most the storing time plus the TTL, and
    [None] afterwards; the cache is not changed by such a lookup. *)
Theorem nxdomain_is_found (c : Cache.t) (qname : rstr) (qtype : QueryType.t) (ttl now : Z) :
  room 1 c →
  ∃ c', Cache.store_nxdomain qname qtype ttl now c = Ok (tt, c') ∧
    ∀ n1 n2 n3, Cache.lookup qname qtype n1 n2 n3 c' =
      Ok (if n1 <=? now + seconds ttl
          then Some (DnsPacket.set_header DnsPacket.new
                       (DnsHeader.set_rescode DnsHeader.new ResultCode.NXDOMAIN))
          else None, c').
Proof.
  intros Hc. destruct (room_start 0 c qname) as (? & ? & _); [lia|done|].
  unfold Cache.store_nxdomain, DomainEntry.store_nxdomain, add_w.
  rewrite arith_fits by (unfold is_u; lia). cbn [obind]. eexists. split; [done|]. intros n1 n2 n3.
  unfold Cache.lookup, Cache.get_cache_state, Cache.put. rewrite lookup_insert_eq. cbn.
  unfold DomainEntry.get_cache_state. cbn. rewrite lookup_insert_eq.
  destruct (Z.ltb_spec (now + seconds ttl) n1), (Z.leb_spec n1 (now + seconds ttl)); try lia; done.
Qed.

(** Two address records that differ in the TTL only are two entries of
    the cache: both are served, the older one too, although it was stored
    again with a new TTL. *)
Theorem ttl_variants_served (c : Cache.t) (name : rstr) (addr : Ipv4Addr) (ttl1 ttl2 at1 at2 n1 n2 n3 : Z) :
  room 2 c → ttl1 ≠ ttl2 → n1 <= at1 + seconds ttl1 → n2 <= at1 + seconds ttl1 → n2 <= at2 + seconds ttl2 →
  ∃ c' p c'',
    Cache.store [(DnsRecord.A name addr ttl1, at1); (DnsRecord.A name addr ttl2, at2)] c = Ok (tt, c') ∧
    Cache.lookup name QueryType.A n1 n2 n3 c' = Ok (Some p, c'') ∧
    DnsRecord.A name addr ttl1 ∈ DnsPacket.answers p ∧ DnsRecord.A name addr ttl2 ∈ DnsPacket.answers p.
Proof.
  intros Hc Hne H1 H2 H3.
  destruct (store_found [] (DnsRecord.A name addr ttl1) at1 [(DnsRecord.A name addr ttl2, at2)] c name)
    as (c' & Hs & Hr & Hh); [done..|cbn; rewrite list_elem_of_singleton; congruence|].
  destruct (store_found [(DnsRecord.A name addr ttl1, at1)] (DnsRecord.A name addr ttl2) at2 [] c name)
    as (c1 & Hs1 & _ & Hh'); [done..|by apply not_elem_of_nil|].
  cbn [app] in *. rewrite Hs in Hs1. injection Hs1 as <-.
  destruct (lookup_found c' name _ n1 n2 n3 Hr Hh H1) as (p & c'' & Hl & _ & Ha).
  exists c', p, c''. split; [done|]. split; [exact Hl|]. split; [by apply (Ha _ Hh)|by apply (Ha _ Hh')].
Qed.

(** While somebody else owns the entry of a name (the list of
    [SynchronizedCache::list] clones every [Arc]), a lookup of that name that
    finds live records answers an empty positive packet: NOERROR, no record. *)
Theorem shared_entry_empty (c : Cache.t) (name : rstr) (a : Arc DomainEntry.t) (qtype : QueryType.t) (n1 n2 n3 : Z) :
  (c : gmap _ _) !! name = Some a → (1 < strong_count a)%nat →
  DomainEntry.get_cache_state qtype n1 (value a) = PositiveCache →
  Cache.lookup name qtype n1 n2 n3 c = Ok (Some DnsPacket.new, c).
Proof.
  intros Ha Hs Hst. unfold Cache.lookup, Cache.get_cache_state. rewrite Ha, Hst.
  unfold mbind_, Cache.fill_queryresult, Cache.entry_mut. rewrite Ha. cbn. unfold arc_get_mut.
  rewrite bool_decide_eq_false_2 by lia. cbn. rewrite Ha. cbn. by rewrite bool_decide_eq_false_2 by lia.
Qed.
End Cache.

(** ** Examples: the theorems at concrete caches *)
(** The test of the source, computed. *)
Module CacheTest.
#[local] Existing Instance CacheTests.in_order.
Definition a_record (name : string) (d ttl : Z) : DnsRecord.t :=
  DnsRecord.A (str name) (Ipv4 127 0 0 d) ttl.
Definition google := str "www.google.com".
Definition yahoo := str "www.yahoo.com".
Definition microsoft := str "www.microsoft.com".

(** [tests::test_cache]; the clock moves by a second per call. *)
Definition session {BP : Build} :=
  (let? r0 := Cache.lookup google QueryType.A (seconds 1) (seconds 1) (seconds 1) in
   Cache.store_nxdomain google QueryType.A 3600 (seconds 2) ;?
   let? r1 := Cache.lookup google QueryType.A (seconds 3) (seconds 3) (seconds 3) in
   Cache.store_nxdomain yahoo QueryType.A 0 (seconds 4) ;?
   let? r2 := Cache.lookup yahoo QueryType.A (seconds 6) (seconds 6) (seconds 6) in
   Cache.store [(a_record "www.google.com" 1 3600, seconds 7); (a_record "www.yahoo.com" 2 0, seconds 7);
                (DnsRecord.CNAME microsoft (str "www.somecdn.com") 3600, seconds 7)] ;?
   let? r3 := Cache.lookup google QueryType.A (seconds 8) (seconds 8) (seconds 8) in
   let? r4 := Cache.lookup google QueryType.CNAME (seconds 8) (seconds 8) (seconds 8) in
   let? r5 := Cache.lookup microsoft QueryType.CNAME (seconds 8) (seconds 8) (seconds 8) in
   let? r6 := Cache.lookup yahoo QueryType.A (seconds 8) (seconds 8) (seconds 8) in
   Cache.store [(a_record "www.yahoo.com" 2 3600, seconds 9)] ;?
   let? r7 := Cache.lookup yahoo QueryType.A (seconds 9) (seconds 9) (seconds 9) in
   mret [r0; r1; r2; r3; r4; r5; r6; r7]) Cache.new.

Definition counters (c : Cache.t) (n : rstr) : option (Z * Z) :=
  (λ a, (DomainEntry.hits (value a), DomainEntry.updates (value a))) <$> ((c : gmap _ _) !! n).

Example test_cache (BP : Build) :
  match session with
  | Ok (rs, c) =>
      map (λ r, (λ p, (DnsHeader.rescode (DnsPacket.header p), DnsPacket.answers p)) <$> r) rs =
        [None; Some (ResultCode.NXDOMAIN, []); None;
         Some (ResultCode.NOERROR, [a_record "www.google.com" 1 3600]); None;
         Some (ResultCode.NOERROR, [DnsRecord.CNAME microsoft (str "www.somecdn.com") 3600]); None;
         Some (ResultCode.NOERROR, [a_record "www.yahoo.com" 2 3600])] ∧
      size (c : gmap _ _) = 3%nat ∧
      counters c google = Some (1, 2) ∧ counters c yahoo = Some (1, 3) ∧ counters c microsoft = Some (1, 1)
  | _ => False
  end.
Proof. destruct BP; vm_compute; auto 10. Qed.
End CacheTest.

Module CacheExamples.
#[local] Existing Instance CacheTests.in_order.
Definition name := str "www.google.com".
Definition rec (ttl : Z) : DnsRecord.t := DnsRecord.A name (Ipv4 127 0 0 1) ttl.
Definition run {A} (m : M Cache.t CacheError A) (c : Cache.t) : Cache.t :=
  match m c with Ok (_, c') => c' | _ => c end.
Definition filled : Cache.t := run (Cache.store (BP := true) [(rec 60, seconds 5)]) Cache.new.

Lemma room_new n : room n Cache.new.
Proof. apply map_Forall_empty. Qed.

Definition answer : DnsPacket.t := DnsPacket.mk DnsHeader.new [] [rec 60] [] [].

Lemma cache_sound_witness : ∃ c',
  Cache.lookup (BP := true) name QueryType.A (seconds 6) (seconds 6) (seconds 6) filled = Ok (Some answer, c') ∧
  Forall (served [Positive (rec 60) (seconds 5)] name QueryType.A (seconds 6)) (DnsPacket.answers answer).
Proof.
  eexists. split; [vm_compute; reflexivity|].
  refine (proj1 (proj2 (cache_sound (BP := true) filled [Positive (rec 60) (seconds 5)] name QueryType.A
    (seconds 6) (seconds 6) (seconds 6) answer _ _ _))).
  - refine (reach_store (BP := true) Cache.new [] [(rec 60, seconds 5)] filled (reach_new (BP := true)) _).
    vm_compute. reflexivity.
  - vm_compute. reflexivity.
Defined.

Lemma stored_is_found_witness : ∃ c' p c'',
  Cache.store (BP := true) [(rec 60, seconds 5)] Cache.new = Ok (tt, c') ∧
  Cache.lookup (BP := true) name QueryType.A (seconds 65) (seconds 65) (seconds 65) c' = Ok (Some p, c'') ∧
  rec 60 ∈ DnsPacket.answers p.
Proof.
  destruct (stored_is_found (BP := true) Cache.new [] [] (rec 60) (seconds 5) (seconds 65) (seconds 65) (seconds 65) name)
    as (c' & p & c'' & Hs & Hl & _ & Hr & _);
    [reflexivity|apply room_new|reflexivity|apply not_elem_of_nil|vm_compute; discriminate..|].
  exists c', p, c''. split; [exact Hs|]. split; [exact Hl|exact Hr].
Defined.

Lemma nxdomain_is_found_witness : ∃ c',
  Cache.store_nxdomain (BP := true) name QueryType.A 60 (seconds 5) Cache.new = Ok (tt, c') ∧
  Cache.lookup (BP := true) name QueryType.A (seconds 66) (seconds 66) (seconds 66) c' = Ok (None, c').
Proof.
  destruct (nxdomain_is_found (BP := true) Cache.new name QueryType.A 60 (seconds 5) (room_new 1)) as (c' & Hs & Hl).
  exists c'. split; [exact Hs|]. exact (Hl (seconds 66) (seconds 66) (seconds 66)).
Defined.

Lemma ttl_variants_served_witness : ∃ c' p c'',
  Cache.store (BP := true) [(rec 3600, seconds 1); (rec 60, seconds 2)] Cache.new = Ok (tt, c') ∧
  Cache.lookup (BP := true) name QueryType.A (seconds 3) (seconds 3) (seconds 3) c' = Ok (Some p, c'') ∧
  rec 3600 ∈ DnsPacket.answers p ∧ rec 60 ∈ DnsPacket.answers p.
Proof.
  apply (ttl_variants_served (BP := true) Cache.new name (Ipv4 127 0 0 1) 3600 60 (seconds 1) (seconds 2)
    (seconds 3) (seconds 3) (seconds 3)); [apply room_new|discriminate|vm_compute; discriminate..].
Defined.

Definition shared : Cache.t := arc_clone <$> (filled : gmap _ _).

Lemma shared_entry_empty_witness :
  Cache.lookup (BP := true) name QueryType.A (seconds 6) (seconds 6) (seconds 6) shared = Ok (Some DnsPacket.new, shared).
Proof.
  eapply (shared_entry_empty (BP := true) shared name); [vm_compute; reflexivity|cbn; lia|vm_compute; reflexivity].
Defined.
End CacheExamples.
