(* ===== verification/Authority.v ===== *)
(** * Local zones (src/dns/authority.rs)

    A zone keeps its records in a [BTreeSet], here the list in the derived
    order of [DnsRecord] without repetition; the zones are a [BTreeMap] by
    name. The directory listing and the contents of the files are arguments. *)

From S2P Require Import Prelude Text Net Commons Buffer Protocol.
Open Scope Z_scope.

Inductive AuthorityError := BufferErr (e : BufferError) | ProtocolErr (e : ProtocolError) | IoErr | PoisonedLock.
#[export] Instance buffer_authority : From BufferError AuthorityError := BufferErr.
#[export] Instance protocol_authority : From ProtocolError AuthorityError := ProtocolErr.

(** ** The derived order of records: the variant, then its fields in turn *)
Definition sort_key (r : DnsRecord.t) : list (list Z) :=
  match r with
  | DnsRecord.UNKNOWN domain qtype data_len ttl => [[0]; domain; [qtype]; [data_len]; [ttl]]
  | DnsRecord.A domain addr ttl => [[1]; domain; octets4 addr; [ttl]]
  | DnsRecord.NS domain host ttl => [[2]; domain; host; [ttl]]
  | DnsRecord.CNAME domain host ttl => [[3]; domain; host; [ttl]]
  | DnsRecord.SOA domain m_name r_name serial refresh retry expire minimum ttl =>
      [[4]; domain; m_name; r_name; [serial]; [refresh]; [retry]; [expire]; [minimum]; [ttl]]
  | DnsRecord.PTR domain data ttl => [[5]; domain; data; [ttl]]
  | DnsRecord.MX domain priority host ttl => [[6]; domain; [priority]; host; [ttl]]
  | DnsRecord.TXT domain data ttl => [[7]; domain; data; [ttl]]
  | DnsRecord.AAAA domain addr ttl => [[8]; domain; segments addr; [ttl]]
  | DnsRecord.SRV domain priority weight port host ttl => [[9]; domain; [priority]; [weight]; [port]; host; [ttl]]
  | DnsRecord.OPT packet_len flags data => [[10]; [packet_len]; [flags]; data]
  | DnsRecord.TLSA domain certificate_usage selector matching_type data ttl =>
      [[11]; domain; [certificate_usage]; [selector]; [matching_type]; data; [ttl]]
  end.

Definition record_cmp (a b : DnsRecord.t) : comparison := lex cmp_bytes (sort_key a) (sort_key b).

(** [BTreeSet::insert] and [BTreeSet::remove]: whether the set changed, and the set. *)
Fixpoint btree_insert (x : DnsRecord.t) (l : list DnsRecord.t) : bool * list DnsRecord.t :=
  match l with
  | [] => (true, [x])
  | y :: l' =>
      match record_cmp x y with
      | Eq => (false, l)
      | Lt => (true, x :: l)
      | Gt => let '(b, l'') := btree_insert x l' in (b, y :: l'')
      end
  end.

Fixpoint btree_remove (x : DnsRecord.t) (l : list DnsRecord.t) : bool * list DnsRecord.t :=
  match l with
  | [] => (false, [])
  | y :: l' =>
      match record_cmp x y with
      | Eq => (true, l')
      | Lt => (false, l)
      | Gt => let '(b, l'') := btree_remove x l' in (b, y :: l'')
      end
  end.

(** ** Zones *)
Module Zone.
Record t := mk {
  domain : rstr;
  m_name : rstr;
  r_name : rstr;
  serial : Z;
  refresh : Z;
  retry : Z;
  expire : Z;
  minimum : Z;
  records : list DnsRecord.t;
}.

Definition new (domain m_name r_name : rstr) : t := mk domain m_name r_name 0 0 0 0 0 [].

Definition with_records (z : t) (rs : list DnsRecord.t) : t :=
  mk (domain z) (m_name z) (r_name z) (serial z) (refresh z) (retry z) (expire z) (minimum z) rs.

Definition add_record (rec : DnsRecord.t) (z : t) : bool * t :=
  let '(b, rs) := btree_insert rec (records z) in (b, with_records z rs).

Definition delete_record (rec : DnsRecord.t) (z : t) : bool * t :=
  let '(b, rs) := btree_remove rec (records z) in (b, with_records z rs).
End Zone.

Module Zones.
Definition t := gmap rstr Zone.t.
Definition new : t := ∅.

Section Files.
Context {U : Unicode} {BP : Build}.

(** The body of the loop of [load]: one file into one zone. *)
Definition read_zone {B : Type} `{PacketBuffer B} (fuel : nat) : M B AuthorityError Zone.t :=
  let? domain := read_qname fuel [] in
  let? m_name := read_qname fuel [] in
  let? r_name := read_qname fuel [] in
  let? serial := read_u32 in
  let? refresh := read_u32 in
  let? retry := read_u32 in
  let? expire := read_u32 in
  let? minimum := read_u32 in
  let? record_count := read_u32 in
  let? rrs := mrepeat (Z.to_nat record_count) (DnsRecord.read fuel) in
  mret (fold_left (λ zone rr, (Zone.add_record rr zone).2) rrs
          (Zone.mk domain m_name r_name serial refresh retry expire minimum [])).

(** [files]: the entries of the directory, [None] for one that cannot be
    opened. An error ends the loop; the zones read before it stay. *)
Fixpoint load_files (fuel : nat) (files : list (option bytes)) (zones : t) : t * outcome AuthorityError unit :=
  match files with
  | [] => (zones, Ok tt)
  | None :: files => load_files fuel files zones
  | Some zone_file :: files =>
      match read_zone fuel (StreamPacketBuffer.new zone_file) with
      | Ok (zone, _) => load_files fuel files (<[Zone.domain zone := zone]> (zones : gmap _ _))
      | Err e => (zones, Err e)
      | Panic => (zones, Panic)
      | OutOfFuel => (zones, OutOfFuel)
      end
  end.

(** [dir]: [None] when there is no directory of that name. *)
Definition load (fuel : nat) (dir : option (list (option bytes))) (zones : t) : t * outcome AuthorityError unit :=
  match dir with
  | None => (zones, Ok tt)
  | Some zones_dir => load_files fuel zones_dir zones
  end.

(** [let _ = w]: an error is dropped. *)
Definition ignore {S E1 A} (w : M S E1 A) : M S AuthorityError unit := λ s,
  match w s with
  | Ok (_, s') => Ok (tt, s')
  | Err _ => Ok (tt, s)
  | Panic => Panic
  | OutOfFuel => OutOfFuel
  end.

Definition write_zone (zone : Zone.t) : M VectorPacketBuffer.t AuthorityError unit :=
  ignore (write_qname (Zone.domain zone)) ;?
  ignore (write_qname (Zone.m_name zone)) ;?
  ignore (write_qname (Zone.r_name zone)) ;?
  ignore (write_u32 (Zone.serial zone)) ;?
  ignore (write_u32 (Zone.refresh zone)) ;?
  ignore (write_u32 (Zone.retry zone)) ;?
  ignore (write_u32 (Zone.expire zone)) ;?
  ignore (write_u32 (Zone.minimum zone)) ;?
  ignore (write_u32 (wrap 32 (Z.of_nat (length (Zone.records zone))))) ;?
  mfor (Zone.records zone) (λ rec, ignore (DnsRecord.write rec)).

(** [&buffer.buffer[0..buffer.pos]] after the writes. *)
Definition zone_bytes (zone : Zone.t) : outcome AuthorityError bytes :=
  let! (_, buffer) := write_zone zone VectorPacketBuffer.new in
  Ok (take (VectorPacketBuffer.pos buffer) (VectorPacketBuffer.buffer buffer)).

(** The files written, by the name joined to the directory; [create] is
    whether [File::create] succeeds. *)
Fixpoint save_zones (create : rstr → bool) (zones : list Zone.t) : outcome AuthorityError (list (rstr * bytes)) :=
  match zones with
  | [] => Ok []
  | zone :: zones =>
      if create (Zone.domain zone) then
        let! data := zone_bytes zone in
        let! files := save_zones create zones in
        Ok ((Zone.domain zone, data) :: files)
      else save_zones create zones
  end.

Definition save (create : rstr → bool) (zones : t) : outcome AuthorityError (list (rstr * bytes)) :=
  save_zones create (btree_values zones).
End Files.

Definition zones (z : t) : list Zone.t := btree_values z.
Definition add_zone (zone : Zone.t) (z : t) : t := <[Zone.domain zone := zone]> (z : gmap _ _).
Definition get_zone (domain : rstr) (z : t) : option Zone.t := (z : gmap _ _) !! domain.
End Zones.

(** ** Queries *)
Module Authority.
(** [None] stands for the poisoned lock. *)
Definition t := option Zones.t.
Definition new : t := Some Zones.new.

Definition load {U : Unicode} {BP : Build} (fuel : nat) (dir : option (list (option bytes))) (a : t) :
    t * outcome AuthorityError unit :=
  match a with
  | None => (a, Err PoisonedLock)
  | Some zones => let '(zones, r) := Zones.load fuel dir zones in (Some zones, r)
  end.

(** The loop that looks for the longest zone name that ends the query name. *)
Definition best_match (qname : rstr) (zones : list Zone.t) : option (nat * Zone.t) :=
  fold_left (λ best_match zone,
    if negb (ends_with qname (Zone.domain zone)) then best_match else
    match best_match with
    | Some (len, _) =>
        if bool_decide (len < length (Zone.domain zone))%nat
        then Some (length (Zone.domain zone), zone) else best_match
    | None => Some (length (Zone.domain zone), zone)
    end) zones None.

Definition answers_for (qname : rstr) (qtype : QueryType.t) (zone : Zone.t) : list DnsRecord.t :=
  List.filter (λ rec,
    match DnsRecord.get_domain rec with
    | None => false
    | Some domain =>
        if negb (bool_decide (domain = qname)) then false else
        let rtype := DnsRecord.get_querytype rec in
        bool_decide (qtype = rtype) ||
        (bool_decide (qtype = QueryType.A) && bool_decide (rtype = QueryType.CNAME))
    end) (Zone.records zone).

Definition zone_soa (zone : Zone.t) : DnsRecord.t :=
  DnsRecord.SOA (Zone.domain zone) (Zone.m_name zone) (Zone.r_name zone) (Zone.serial zone)
    (Zone.refresh zone) (Zone.retry zone) (Zone.expire zone) (Zone.minimum zone) (Zone.minimum zone).

Definition query (qname : rstr) (qtype : QueryType.t) (a : t) : option DnsPacket.t :=
  match a with
  | None => None
  | Some zones =>
      match best_match qname (Zones.zones zones) with
      | None => None
      | Some (_, zone) =>
          let header := DnsHeader.set_authoritative DnsHeader.new in
          let answers := answers_for qname qtype zone in
          if bool_decide (answers = [])
          then Some (DnsPacket.mk (DnsHeader.set_rescode header ResultCode.NXDOMAIN) [] [] [zone_soa zone] [])
          else Some (DnsPacket.mk header [] answers [] [])
      end
  end.
End Authority.
