(* ===== verification/AuthorityProps.v ===== *)
(** * Properties of the local zones (src/dns/authority.rs)

    The record set of a zone is a set in the derived order of the records; a
    zone file that was saved is loaded as the zone looks on the wire; a query is answered
    from the zone with the longest name that ends the query name. *)

From stdpp Require Import sorting.
From S2P Require Import Prelude Text Net Buffer BufferFacts Protocol ProtocolFacts Authority.
Open Scope Z_scope.

(** ** The record set *)
Section Order.
Lemma octets4_inj a b : octets4 a = octets4 b → a = b.
Proof. destruct a, b. cbn. congruence. Qed.
Lemma segments_inj a b : segments a = segments b → a = b.
Proof. destruct a, b. cbn. congruence. Qed.

Lemma sort_key_inj a b : sort_key a = sort_key b → a = b.
Proof.
  destruct a, b; cbn; try done; intros [=]; subst;
    repeat match goal with
    | H : octets4 _ = octets4 _ |- _ => apply octets4_inj in H; subst
    | H : segments _ = segments _ |- _ => apply segments_inj in H; subst
    end; try done;
    repeat match goal with
    | x : Ipv4Addr |- _ => destruct x
    | x : Ipv6Addr |- _ => destruct x
    end; cbn in *; simplify_eq; done.
Qed.

#[export] Instance record_order : TotalOrder record_cmp.
Proof.
  unfold record_cmp. split.
  - intros x y. rewrite (cmp_eq (cmp := lex cmp_bytes)). split; [apply sort_key_inj|by intros ->].
  - intros x y. apply (cmp_sym (cmp := lex cmp_bytes)).
  - intros x y z. apply (cmp_trans (cmp := lex cmp_bytes)).
Qed.

Definition sorted (l : list DnsRecord.t) : Prop := StronglySorted (λ a b, record_cmp a b = Lt) l.

Lemma record_cmp_gt x y : record_cmp x y = Gt → record_cmp y x = Lt.
Proof. intros Hc. by rewrite (cmp_sym x y), Hc. Qed.
Lemma record_cmp_irrefl x : record_cmp x x ≠ Lt.
Proof. by rewrite (proj2 (cmp_eq x x) eq_refl). Qed.

Lemma sorted_cons_inv x l : sorted (x :: l) → sorted l ∧ ∀ y, y ∈ l → record_cmp x y = Lt.
Proof. intros H. apply StronglySorted_inv in H as [? Hx]. by rewrite Forall_forall in Hx. Qed.

(** Below the head of a sorted list: not in it. *)
Lemma sorted_below x y l : sorted (y :: l) → record_cmp x y = Lt → x ∉ y :: l.
Proof.
  intros [_ Hy]%sorted_cons_inv Hxy [->|Hx]%elem_of_cons.
  - by apply record_cmp_irrefl in Hxy.
  - apply (record_cmp_irrefl x). exact (cmp_trans x y x Hxy (Hy x Hx)).
Qed.

Lemma btree_insert_spec x l : sorted l →
  let '(b, l') := btree_insert x l in
  sorted l' ∧ (∀ y, y ∈ l' ↔ y = x ∨ y ∈ l) ∧ b = bool_decide (x ∉ l).
Proof.
  induction l as [|y l IH]; intros Hs; cbn [btree_insert].
  - split; [by repeat constructor|]. split; [intros; set_solver|]. symmetry. apply bool_decide_eq_true. set_solver.
  - destruct (sorted_cons_inv _ _ Hs) as [Hl Hy]. destruct (record_cmp x y) eqn:Hc.
    + apply cmp_eq in Hc as ->. split; [done|]. split; [intros; set_solver|].
      symmetry. apply bool_decide_eq_false. set_solver.
    + split.
      * constructor; [done|]. apply Forall_forall. intros z [->|Hz]%elem_of_cons; [done|].
        exact (cmp_trans x y z Hc (Hy z Hz)).
      * split; [intros; set_solver|]. symmetry. apply bool_decide_eq_true. by apply sorted_below.
    + specialize (IH Hl). destruct (btree_insert x l) as [b l'']. destruct IH as (Hl'' & Hin & ->).
      apply record_cmp_gt in Hc. split; [|split].
      * constructor; [done|]. apply Forall_forall. intros z [->|Hz]%Hin; auto.
      * intros z. rewrite !elem_of_cons, Hin. tauto.
      * apply bool_decide_ext. rewrite not_elem_of_cons. split; [|tauto]. intros Hx. split; [|done].
        intros ->. by apply record_cmp_irrefl in Hc.
Qed.

Lemma btree_remove_spec x l : sorted l →
  let '(b, l') := btree_remove x l in
  sorted l' ∧ (∀ y, y ∈ l' ↔ y ≠ x ∧ y ∈ l) ∧ b = bool_decide (x ∈ l).
Proof.
  induction l as [|y l IH]; intros Hs; cbn [btree_remove].
  - split; [done|]. split; [intros; set_solver|]. symmetry. apply bool_decide_eq_false. set_solver.
  - destruct (sorted_cons_inv _ _ Hs) as [Hl Hy]. destruct (record_cmp x y) eqn:Hc.
    + apply cmp_eq in Hc as ->. split; [done|]. split.
      * intros z. rewrite elem_of_cons. split; [|tauto]. intros Hz. split; [|by right].
        intros ->. by apply (record_cmp_irrefl y), Hy.
      * symmetry. apply bool_decide_eq_true. by left.
    + pose proof (sorted_below x y l Hs Hc) as Hx. split; [done|]. split.
      * intros z. split; [|tauto]. intros Hz. split; [|done]. by intros ->.
      * symmetry. by apply bool_decide_eq_false.
    + specialize (IH Hl). destruct (btree_remove x l) as [b l'']. destruct IH as (Hl'' & Hin & ->).
      apply record_cmp_gt in Hc. assert (x ≠ y) as Hxy by (intros ->; by apply record_cmp_irrefl in Hc).
      split; [|split].
      * constructor; [done|]. apply Forall_forall. intros z [_ Hz]%Hin. auto.
      * intros z. rewrite !elem_of_cons, Hin. naive_solver.
      * apply bool_decide_ext. rewrite elem_of_cons. tauto.
Qed.
End Order.

(** The records of a zone are a set kept in the derived order of
    [DnsRecord]: from a sorted list, [add_record] and [delete_record] leave a
    sorted list (so no record twice) with exactly the record added or taken
    away, return whether that changed the set, and touch no other field. *)
Theorem zone_record_set (z : Zone.t) (rec : DnsRecord.t) :
  sorted (Zone.records z) →
  let '(added, z1) := Zone.add_record rec z in
  let '(deleted, z2) := Zone.delete_record rec z in
  sorted (Zone.records z1) ∧ (∀ r, r ∈ Zone.records z1 ↔ r = rec ∨ r ∈ Zone.records z) ∧
  added = bool_decide (rec ∉ Zone.records z) ∧ z1 = Zone.with_records z (Zone.records z1) ∧
  sorted (Zone.records z2) ∧ (∀ r, r ∈ Zone.records z2 ↔ r ≠ rec ∧ r ∈ Zone.records z) ∧
  deleted = bool_decide (rec ∈ Zone.records z) ∧ z2 = Zone.with_records z (Zone.records z2).
Proof.
  intros Hs. unfold Zone.add_record, Zone.delete_record.
  pose proof (btree_insert_spec rec _ Hs) as Hi. pose proof (btree_remove_spec rec _ Hs) as Hr.
  destruct (btree_insert _ _) as [b1 l1], (btree_remove _ _) as [b2 l2].
  destruct Hi as (? & ? & ->), Hr as (? & ? & ->). by split_and!.
Qed.

(** ** Zone files *)
Section Files.
Context {U : Unicode} {BP : Build}.

Lemma ignore_ok {S E1 A} (w : M S E1 A) s a s' :
  w s = Ok (a, s') → Zones.ignore w s = Ok (tt, s').
Proof. intros Hw. unfold Zones.ignore. by rewrite Hw. Qed.

(** A writer that cannot fail is not changed by dropping its error. *)
Lemma emits_ignore {B} `{RL : ReadLaws B} {E1 E3 A C} `{From E1 E1} hole
    (w : M vbuf E1 A) (f : M B E3 C) c :
  Uniform w → Emits hole (w ;? mret (E := E1) tt) f c → Emits hole (Zones.ignore w) f c.
Proof.
  intros Hu [HA HR].
  assert (Hinv : ∀ s s', synced s → Zones.ignore w s = Ok (tt, s') →
    (w ;? mret (E := E1) tt) s = Ok (tt, s')).
  { intros s s' Hs Hw. destruct (uniform_total w s Hu Hs) as (a & s1 & Hrun & _).
    rewrite (ignore_ok w s a s1 Hrun) in Hw. injection Hw as <-. by rewrite (mbind_run _ _ _ _ _ Hrun). }
  split; [intros s [] s' Hs Hw; eapply HA; eauto|].
  intros s s' Hs Hh Hg Hw Hreach. apply HR; auto.
Qed.

Lemma emits_record_write {B} `{RL : ReadLaws B} r fuel : record_ok r → (record_fuel r ≤ fuel)%nat →
  Emits None (DnsRecord.write r ;? mret (E := ProtocolError) tt) (DnsRecord.read fuel) (wire_image r).
Proof.
  intros Hok Hf. destruct (emits_record r fuel Hok Hf) as [HA HR].
  assert (Hinv : ∀ s s' : vbuf, (DnsRecord.write r ;? mret (E := ProtocolError) tt) s = Ok (tt, s') →
    DnsRecord.write_record r s = Ok (tt, s')).
  { intros s s' Hw. apply mbind_inv in Hw as (n & s1 & Hw & Hs). injection Hs as <-.
    by apply write_inv in Hw as [Hw _]. }
  split; [intros s [] s' Hs Hw%Hinv; by eapply HA|].
  intros s s' Hs Hh Hg Hw%Hinv Hreach. by apply HR.
Qed.

Lemma uniform_ignore {E1 A} (w : M vbuf E1 A) : Uniform w → Uniform (Zones.ignore w).
Proof.
  intros Hw d s1 s2 Hs1 Hs2 Hd. destruct (Hw d s1 s2 Hs1 Hs2 Hd) as (a & s1' & s2' & R1 & R2 & X).
  exists tt, s1', s2'. by rewrite (ignore_ok w s1 a s1' R1), (ignore_ok w s2 a s2' R2).
Qed.

Lemma uniform_zone z : Uniform (Zones.write_zone z).
Proof.
  unfold Zones.write_zone.
  do 9 (apply uniform_bind; [apply uniform_ignore; first [apply uniform_qname | apply uniform_u32]|intros _]).
  apply uniform_for. intros r. apply uniform_ignore, uniform_write.
Qed.

(** A zone that can be written: the names and integers are those of a packet. *)
Definition zone_ok (z : Zone.t) : Prop :=
  Forall name_ok [Zone.domain z; Zone.m_name z; Zone.r_name z] ∧
  Forall is_u32 [Zone.serial z; Zone.refresh z; Zone.retry z; Zone.expire z; Zone.minimum z] ∧
  Forall record_ok (Zone.records z) ∧ is_u32 (Z.of_nat (length (Zone.records z))).

(** Adding records one by one. *)
Definition add_all (rs : list DnsRecord.t) (z : Zone.t) : Zone.t :=
  fold_left (λ zone rr, (Zone.add_record rr zone).2) rs z.

(** What a zone looks like to the reader of its file: names in lower case, and
    the set of its records as they look on the wire. *)
Definition zone_image (z : Zone.t) : Zone.t :=
  add_all (wire_image <$> Zone.records z)
    (Zone.mk (lower (Zone.domain z)) (lower (Zone.m_name z)) (lower (Zone.r_name z)) (Zone.serial z) (Zone.refresh z)
       (Zone.retry z) (Zone.expire z) (Zone.minimum z) []).

Definition zone_fuel (fuel : nat) (z : Zone.t) : Prop :=
  Forall (λ n, (name_fuel n ≤ fuel)%nat) [Zone.domain z; Zone.m_name z; Zone.r_name z] ∧
  Forall (λ r, (record_fuel r ≤ fuel)%nat) (Zone.records z).

(** Adding the records of a sorted list one by one builds the list. *)
Lemma btree_insert_last x l : (∀ y, y ∈ l → record_cmp y x = Lt) → btree_insert x l = (true, l ++ [x]).
Proof.
  induction l as [|y l IH]; intros Hl; [done|]. cbn. rewrite (cmp_sym y x).
  rewrite (Hl y) by by left. cbn. rewrite IH; [done|]. intros z Hz. apply Hl. by right.
Qed.

Lemma add_sorted rs : ∀ z, sorted (Zone.records z ++ rs) →
  add_all rs z = Zone.with_records z (Zone.records z ++ rs).
Proof.
  unfold add_all. induction rs as [|r rs IH]; intros z Hs; cbn [fold_left].
  - rewrite app_nil_r. by destruct z.
  - unfold Zone.add_record at 2. rewrite btree_insert_last.
    2: { clear IH. induction (Zone.records z) as [|y l IH]; [by intros ? ?%elem_of_nil|].
         apply sorted_cons_inv in Hs as [Hs Hy]. intros w [->|Hw]%elem_of_cons; [apply Hy; set_solver|auto]. }
    cbn [snd]. rewrite IH; cbn; rewrite <- app_assoc; done.
Qed.

Lemma add_all_spec rs : ∀ z, sorted (Zone.records z) →
  sorted (Zone.records (add_all rs z)) ∧ (∀ r, r ∈ Zone.records (add_all rs z) ↔ r ∈ Zone.records z ∨ r ∈ rs) ∧
  add_all rs z = Zone.with_records z (Zone.records (add_all rs z)).
Proof.
  induction rs as [|x rs IH]; intros z Hs.
  - split; [done|]. split; [|by destruct z]. intros r. rewrite elem_of_nil. tauto.
  - change (add_all (x :: rs) z) with (add_all rs (Zone.add_record x z).2). unfold Zone.add_record.
    pose proof (btree_insert_spec x _ Hs) as Hi. destruct (btree_insert x (Zone.records z)) as [b l]. destruct Hi as (Hl & Hin & _).
    cbn [snd]. destruct (IH (Zone.with_records z l) Hl) as (H1 & H2 & H3). split; [done|]. split; [|exact H3].
    intros r. rewrite H2, elem_of_cons. cbn [Zone.records Zone.with_records]. rewrite Hin. tauto.
Qed.

Lemma zone_image_spec z :
  let z' := zone_image z in
  sorted (Zone.records z') ∧ (∀ r, r ∈ Zone.records z' ↔ ∃ r0, r0 ∈ Zone.records z ∧ r = wire_image r0) ∧
  z' = Zone.mk (lower (Zone.domain z)) (lower (Zone.m_name z)) (lower (Zone.r_name z)) (Zone.serial z) (Zone.refresh z)
         (Zone.retry z) (Zone.expire z) (Zone.minimum z) (Zone.records z').
Proof.
  cbv zeta. unfold zone_image. destruct (add_all_spec (wire_image <$> Zone.records z)
    (Zone.mk (lower (Zone.domain z)) (lower (Zone.m_name z)) (lower (Zone.r_name z)) (Zone.serial z) (Zone.refresh z)
       (Zone.retry z) (Zone.expire z) (Zone.minimum z) [])) as (H1 & H2 & H3); [constructor|].
  split; [done|]. split; [|exact H3]. intros r. rewrite H2. cbn [Zone.records]. rewrite elem_of_nil, list_elem_of_fmap. naive_solver.
Qed.

Lemma zone_image_same z : sorted (Zone.records z) →
  Forall (λ n, lower n = n) [Zone.domain z; Zone.m_name z; Zone.r_name z] →
  Forall (λ r, wire_image r = r) (Zone.records z) → zone_image z = z.
Proof.
  rewrite !Forall_cons. intros Hs (Hd & Hm & Hr & _) Hw. unfold zone_image.
  assert (wire_image <$> Zone.records z = Zone.records z) as ->.
  { clear Hs. induction Hw as [|r rs Hr1 _ IH]; [done|]. by rewrite fmap_cons, Hr1, IH. }
  rewrite Hd, Hm, Hr, add_sorted by done. by destruct z.
Qed.

Lemma emits_name_field {B} `{RL : ReadLaws B} n fuel : name_ok n → (name_fuel n ≤ fuel)%nat →
  Emits None (Zones.ignore (write_qname n)) (read_qname fuel []) (lower n).
Proof.
  intros Hn Hf. apply emits_ignore; [apply uniform_qname|]. apply emits_done. by apply emits_name.
Qed.

Lemma emits_u32_field {B} `{RL : ReadLaws B} v : is_u32 v →
  Emits None (Zones.ignore (write_u32 v)) read_u32 v.
Proof.
  intros Hv. apply emits_ignore; [apply uniform_u32|]. apply emits_done. by apply emits_u32.
Qed.

Lemma emits_zone_records {B} `{RL : ReadLaws B} rs fuel :
  Forall record_ok rs → Forall (λ r, (record_fuel r ≤ fuel)%nat) rs →
  Emits None (mfor rs (λ rec, Zones.ignore (DnsRecord.write rec)))
    (mrepeat (length rs) (DnsRecord.read fuel)) (wire_image <$> rs).
Proof.
  intros Hrs Hf. apply emits_for.
  rewrite Forall_forall in Hrs, Hf. apply Forall_forall. intros r Hr.
  apply emits_ignore; [apply uniform_write|]. apply emits_record_write; auto.
Qed.

Lemma emits_zone {B} `{RL : ReadLaws B} z fuel : zone_ok z → zone_fuel fuel z →
  Emits None (Zones.write_zone z) (Zones.read_zone fuel) (zone_image z).
Proof.
  destruct z as [domain m_name r_name serial refresh retry expire minimum records].
  unfold zone_ok, zone_fuel. cbn [Zone.domain Zone.m_name Zone.r_name Zone.serial Zone.refresh Zone.retry
    Zone.expire Zone.minimum Zone.records]. rewrite !Forall_cons.
  intros ((Hd & Hm & Hr & _) & (H1 & H2 & H3 & H4 & H5 & _) & Hrs & Hlen) ((Fd & Fm & Fr & _) & Frs).
  unfold Zones.write_zone, Zones.read_zone. cbn [Zone.domain Zone.m_name Zone.r_name Zone.serial Zone.refresh
    Zone.retry Zone.expire Zone.minimum Zone.records].
  do 3 (eapply emits_bind; [by apply emits_name_field|]).
  do 5 (eapply emits_bind; [by apply emits_u32_field|]).
  eapply emits_bind; [by apply emits_u32_field, wrap_is_u|]. cbn [Zone.records].
  rewrite wrap_small, Nat2Z.id by done.
  by eapply emits_last; [by apply emits_zone_records|].
Qed.

(** C36: what becomes of a zone that is saved and loaded. For a zone whose names
    and records can be written (names of ASCII labels of 1 to 63 bytes, integers in
    their types, no record of an unknown type, which the writer skips) [save] writes a file without error, and
    when the file is below 16384 bytes (the reach of a compression pointer) [load]
    of a directory with this one file puts the zone under its name in lower case
    and changes no other: the numbers of the zone are the same, its names are in
    lower case, and its records are the set of those that were saved, each as it
    looks on the wire: with names in lower case and, for a TXT record, with the
    length byte that the writer puts before the text and the reader keeps. So a
    zone in lower case with no TXT record comes back as it was. *)
Theorem zone_file_roundtrip (z : Zone.t) (fuel : nat) (zones : Zones.t) :
  zone_ok z → zone_fuel fuel z →
  ∃ data z', Zones.zone_bytes z = Ok data ∧
    ((Z.of_nat (length data) < 16384) →
     Zones.load fuel (Some [Some data]) zones = (Zones.add_zone z' zones, Ok tt)) ∧
    sorted (Zone.records z') ∧ (∀ r, r ∈ Zone.records z' ↔ ∃ r0, r0 ∈ Zone.records z ∧ r = wire_image r0) ∧
    z' = Zone.mk (lower (Zone.domain z)) (lower (Zone.m_name z)) (lower (Zone.r_name z)) (Zone.serial z) (Zone.refresh z)
           (Zone.retry z) (Zone.expire z) (Zone.minimum z) (Zone.records z') ∧
    (sorted (Zone.records z) → Forall (λ n, lower n = n) [Zone.domain z; Zone.m_name z; Zone.r_name z] →
     Forall (λ r, wire_image r = r) (Zone.records z) → z' = z).
Proof.
  intros Hz Hf. destruct (emits_zone (B := StreamPacketBuffer.t) z fuel Hz Hf) as [HA HR].
  destruct (uniform_total (Zones.write_zone z) VectorPacketBuffer.new) as ([] & s & Hw & He);
    [apply uniform_zone|done|].
  destruct (zone_image_spec z) as (Hs & Hin & Heq).
  exists (VectorPacketBuffer.buffer s), (zone_image z). unfold Zones.zone_bytes. rewrite Hw, obind_Ok.
  split; [rewrite firstn_all2; [done|]; by rewrite (proj1 He)|].
  split; [|split; [done|split; [done|split; [done|by apply zone_image_same]]]].
  intros Hlen. destruct (HR VectorPacketBuffer.new s) as [_ Hr]; [done|done|apply new_good|done|done|].
  destruct (Hr (StreamPacketBuffer.new (VectorPacketBuffer.buffer s)) (holds_stream _) eq_refl)
    as (b' & Hrun & _ & _).
  cbn [Zones.load Zones.load_files]. rewrite Hrun. done.
Qed.
End Files.

(** ** Queries *)

Lemma ends_with_spec s p : ends_with s p = true ↔ p `suffix_of` s.
Proof. unfold ends_with. apply bool_decide_eq_true. Qed.

Lemma best_match_spec qname zs :
  match Authority.best_match qname zs with
  | None => ∀ z, z ∈ zs → ¬ Zone.domain z `suffix_of` qname
  | Some (len, z) => len = length (Zone.domain z) ∧ z ∈ zs ∧ Zone.domain z `suffix_of` qname ∧
      ∀ z', z' ∈ zs → Zone.domain z' `suffix_of` qname → (length (Zone.domain z') ≤ length (Zone.domain z))%nat
  end.
Proof.
  unfold Authority.best_match. induction zs as [|z zs IH] using rev_ind; [by intros ? ?%elem_of_nil|].
  rewrite fold_left_app. cbn [fold_left]. pose proof (ends_with_spec qname (Zone.domain z)) as Hz.
  destruct (ends_with _ _); cbn [negb]; [assert (Zone.domain z `suffix_of` qname) as Hs by by apply Hz
                                        |assert (¬ Zone.domain z `suffix_of` qname) as Hs by (intros ?%Hz; done)];
    destruct (fold_left _ zs None) as [[len y]|].
  - destruct IH as (-> & Hy & Hsuf & Hmax). case_bool_decide.
    + split; [done|]. split; [set_solver|]. split; [done|].
      intros z' [Hz'| ->%list_elem_of_singleton]%elem_of_app; [|done]. intros Hs'. specialize (Hmax z' Hz' Hs'). lia.
    + split; [done|]. split; [set_solver|]. split; [done|].
      intros z' [Hz'| ->%list_elem_of_singleton]%elem_of_app; [auto|]. intros _. lia.
  - split; [done|]. split; [set_solver|]. split; [done|].
    intros z' [Hz'| ->%list_elem_of_singleton]%elem_of_app; [|done]. intros Hs'. by destruct (IH z' Hz').
  - destruct IH as (-> & Hy & Hsuf & Hmax). split; [done|]. split; [set_solver|]. split; [done|].
    intros z' [Hz'| ->%list_elem_of_singleton]%elem_of_app; [auto|done].
  - intros z' [Hz'| ->%list_elem_of_singleton]%elem_of_app; [auto|done].
Qed.

(** A record answers a question: its name is the name asked for, its type the
    type asked for, or CNAME when addresses are asked for. *)
Definition answers_question (qname : rstr) (qtype : QueryType.t) (r : DnsRecord.t) : Prop :=
  DnsRecord.get_domain r = Some qname ∧
  (DnsRecord.get_querytype r = qtype ∨ qtype = QueryType.A ∧ DnsRecord.get_querytype r = QueryType.CNAME).

Lemma answers_for_spec qname qtype z r :
  r ∈ Authority.answers_for qname qtype z ↔ r ∈ Zone.records z ∧ answers_question qname qtype r.
Proof.
  unfold Authority.answers_for, answers_question. rewrite list_elem_of_In, filter_In, <- list_elem_of_In.
  apply and_iff_compat_l. destruct (DnsRecord.get_domain r) as [d|]; [|split; [done|by intros [? _]]].
  destruct (bool_decide (d = qname)) eqn:Hd; cbn.
  - apply bool_decide_eq_true in Hd as ->. rewrite orb_true_iff, andb_true_iff, !bool_decide_eq_true.
    split; [intros [->|[-> ->]]; auto|]. intros [_ [<-|[-> ->]]]; auto.
  - apply bool_decide_eq_false in Hd. split; [done|]. intros [[= ->] _]. done.
Qed.

(** [Authority::query] answers exactly when some local zone has a name
    that ends the query name, and then from the zone with the longest such
    name: an authoritative packet with exactly that zone's records of the name
    and type asked for (CNAME records too when A is asked), NOERROR; when
    there is none, NXDOMAIN with the SOA record of the zone. *)
Theorem query_spec (zones : Zones.t) (qname : rstr) (qtype : QueryType.t) :
  match Authority.query qname qtype (Some zones) with
  | None => ∀ z, z ∈ Zones.zones zones → ¬ Zone.domain z `suffix_of` qname
  | Some p =>
      ∃ z, z ∈ Zones.zones zones ∧ Zone.domain z `suffix_of` qname ∧
        (∀ z', z' ∈ Zones.zones zones → Zone.domain z' `suffix_of` qname →
           (length (Zone.domain z') ≤ length (Zone.domain z))%nat) ∧
        DnsHeader.authoritative_answer (DnsPacket.header p) = true ∧
        (∀ r, r ∈ DnsPacket.answers p ↔ r ∈ Zone.records z ∧ answers_question qname qtype r) ∧
        if decide (Exists (answers_question qname qtype) (Zone.records z))
        then DnsHeader.rescode (DnsPacket.header p) = ResultCode.NOERROR ∧ DnsPacket.authorities p = []
        else DnsHeader.rescode (DnsPacket.header p) = ResultCode.NXDOMAIN ∧
             DnsPacket.authorities p = [Authority.zone_soa z]
  end.
Proof.
  unfold Authority.query. pose proof (best_match_spec qname (Zones.zones zones)) as Hb.
  destruct (Authority.best_match _ _) as [[len z]|]; [|done]. destruct Hb as (_ & Hz & Hs & Hmax).
  assert (He : Authority.answers_for qname qtype z = [] ↔ ¬ Exists (answers_question qname qtype) (Zone.records z)).
  { rewrite Exists_exists. split.
    - intros Hn (r & Hr & Ha). apply (not_elem_of_nil r). rewrite <- Hn. by apply answers_for_spec.
    - intros Hn. destruct (Authority.answers_for qname qtype z) as [|r l] eqn:Hl; [done|]. destruct Hn.
      exists r. apply answers_for_spec. rewrite Hl. by left. }
  case_bool_decide as Hn; exists z; do 3 (split; [done|]); (split; [done|]); cbn.
  - split; [intros r; rewrite <- answers_for_spec; by rewrite Hn|].
    by rewrite decide_False by by apply He.
  - split; [intros r; apply answers_for_spec|]. case_decide as Hd; [done|]. by apply He in Hd.
Qed.

(** ** Examples *)
Module AuthorityExamples.
#[local] Existing Instance ascii_tables.
Definition www : DnsRecord.t := DnsRecord.A (str "www.example.com") (Ipv4 10 0 0 1) 60.
Definition mail : DnsRecord.t := DnsRecord.MX (str "example.com") 10 (str "mail.example.com") 60.
Definition zone : Zone.t :=
  Zone.mk (str "example.com") (str "ns.example.com") (str "admin.example.com") 1 2 3 4 5 [www; mail].

Lemma sorted_zone : sorted (Zone.records zone).
Proof. repeat constructor. Defined.

Lemma zone_record_set_witness :
  let '(added, z1) := Zone.add_record mail zone in added = false ∧ sorted (Zone.records z1).
Proof.
  pose proof (zone_record_set zone mail sorted_zone) as H. cbn in H |- *.
  destruct H as (H1 & _). split; [reflexivity|exact H1].
Defined.

Lemma name_good_ok n : forallb (λ l, (1 <=? length l)%nat && (length l <=? 63)%nat && is_ascii l) (split 46 n) = true → name_ok n.
Proof. apply name_ok_dec_ok. Qed.

(** A zone with a text, and a name in upper case. *)
Definition text : DnsRecord.t := DnsRecord.TXT (str "Example.com") (str "hi") 60.
Definition text_zone : Zone.t :=
  Zone.mk (str "example.com") (str "ns.example.com") (str "admin.example.com") 1 2 3 4 5 [www; mail; text].

Lemma text_zone_ok : zone_ok text_zone.
Proof.
  split; [|split; [|split; [|by vm_compute]]].
  - repeat (apply Forall_cons; split; [apply name_good_ok; by vm_compute|]). by apply Forall_nil.
  - repeat (apply Forall_cons; split; [by vm_compute|]). by apply Forall_nil.
  - cbn [Zone.records text_zone].
    repeat (apply Forall_cons; split; [apply record_ok_dec; [by vm_compute|]|]);
      [cbn; split; [repeat (apply Forall_cons; split; [by vm_compute|])|by vm_compute]|by vm_compute|by vm_compute|].
    { by apply Forall_nil. }
    by apply Forall_nil.
Qed.

(** The text comes back with its length byte, the name in lower case. *)
Lemma zone_file_roundtrip_witness : ∃ data z',
  Zones.zone_bytes text_zone = Ok data ∧
  Zones.load (BP := true) 50 (Some [Some data]) Zones.new = (Zones.add_zone z' Zones.new, Ok tt) ∧
  DnsRecord.TXT (str "example.com") (2 :: str "hi") 60 ∈ Zone.records z'.
Proof.
  destruct (zone_file_roundtrip (BP := true) text_zone 50 Zones.new text_zone_ok) as (data & z' & Hd & Hl & _ & Hr & _).
  - split; repeat (apply Forall_cons; split; [apply Nat.leb_le; vm_compute; reflexivity|]); apply Forall_nil; exact I.
  - exists data, z'. split; [exact Hd|]. split.
    + apply Hl. vm_compute in Hd. injection Hd as <-. vm_compute. reflexivity.
    + apply Hr. exists text. split; [right; right; by left|]. vm_compute. reflexivity.
Defined.

(** The suffix test does not look at label boundaries: the zone of
    [example.com] denies names of other domains that merely end alike. *)
Example query_ignores_labels : ∀ qtype,
  Authority.query (str "notexample.com") qtype (Some (Zones.add_zone zone Zones.new)) =
    Some (DnsPacket.mk (DnsHeader.set_rescode (DnsHeader.set_authoritative DnsHeader.new) ResultCode.NXDOMAIN)
            [] [] [Authority.zone_soa zone] []).
Proof. intros qtype. destruct qtype; vm_compute; reflexivity. Qed.
End AuthorityExamples.
