(* ===== verification/Hosts.v ===== *)
(** * The hosts file (src/dns/filter.rs, src/dns/hosts.rs)

    The filter interface of the resolver and the filter that answers from a
    hosts file. The contents of the file are an argument. *)

From S2P Require Import Prelude Text Net Commons Buffer Protocol.
Open Scope Z_scope.

(** [trait DnsFilter]: a filter answers a question or leaves it to the next. *)
Definition DnsFilter : Type := rstr → QueryType.t → option DnsPacket.t.

(** [DummyFilter] *)
Definition dummy_filter : DnsFilter := λ _ _, None.

Module Hosts.
Definition NAME_SERVER : rstr := str "hosts".
Definition t := gmap rstr (list IpAddr).

Section Load.
Context {U : Unicode}.

(** The body of the loop over the lines: the entry a line gives, if any. *)
Definition parse_line (s : rstr) : option (rstr * IpAddr) :=
  if bool_decide (s = []) || starts_with s (str "#") then None else
  let string := (λ c, if c =? 9 then 32 else c) <$> s in
  match splitn 2 32 string with
  | [part0; part1] =>
      let ip := trim part0 in
      let domain := trim part1 in
      match parse_ip ip with
      | Some addr => if bool_decide (domain = []) then None else Some (domain, addr)
      | None => None
      end
  | _ => None
  end.

(** [map.entry(domain).or_insert(vec![addr])] *)
Definition or_insert (map : gmap rstr (list IpAddr)) (domain : rstr) (v : list IpAddr) : gmap rstr (list IpAddr) :=
  match map !! domain with Some _ => map | None => <[domain := v]> map end.

Definition add_line (map : gmap rstr (list IpAddr)) (s : rstr) : gmap rstr (list IpAddr) :=
  match parse_line s with
  | Some (domain, addr) => or_insert map domain [addr]
  | None => map
  end.

Definition load (text : rstr) : t := fold_left add_line (split 10 text) ∅.

(** [HostsFilter::new]: [file] is [None] when it cannot be opened. *)
Definition new {E} (file : option bytes) : outcome E t :=
  match file with
  | Some text => if from_utf8_ok text then Ok (load text) else Panic
  | None => Ok ∅
  end.
End Load.

Definition size (hosts : t) : nat := base.size (hosts : gmap _ _).

Definition address_record (qname : rstr) (qtype : QueryType.t) (addr : IpAddr) : list DnsRecord.t :=
  match addr with
  | V4 addr => if bool_decide (qtype = QueryType.A) then [DnsRecord.A qname addr 2] else []
  | V6 addr => if bool_decide (qtype = QueryType.AAAA) then [DnsRecord.AAAA qname addr 2] else []
  end.

Definition lookup (hosts : t) : DnsFilter := λ qname qtype,
  match (hosts : gmap _ _) !! qname with
  | Some list =>
      Some (DnsPacket.mk (DnsHeader.set_authoritative DnsHeader.new) [DnsQuestion.new qname qtype]
              (mjoin (address_record qname qtype <$> list))
              [DnsRecord.NS (str "hosts") NAME_SERVER 600] [])
  | None => None
  end.
End Hosts.

(** ** Properties *)
Module HostsProps.
Section Props.
Context {U : Unicode}.


(** The first entry that lines have for a name. *)
Definition entry_for (qname s : rstr) : option IpAddr :=
  match Hosts.parse_line s with
  | Some (domain, addr) => if bool_decide (domain = qname) then Some addr else None
  | None => None
  end.
Definition first_entry (qname text : rstr) : option IpAddr := head (omap (entry_for qname) (split 10 text)).

Lemma load_first (qname : rstr) (ls : list rstr) : ∀ m : gmap rstr (list IpAddr),
  fold_left Hosts.add_line ls m !! qname =
  match m !! qname with
  | Some v => Some v
  | None => (λ a : IpAddr, [a]) <$> head (omap (entry_for qname) ls)
  end.
Proof.
  induction ls as [|s ls IH]; intros m; cbn [fold_left].
  - by destruct (m !! qname).
  - rewrite IH. cbn [omap list_omap]. unfold Hosts.add_line, entry_for at 2.
    destruct (Hosts.parse_line s) as [[d a]|]; [|done]. unfold Hosts.or_insert.
    destruct (decide (d = qname)) as [->|Hd].
    + rewrite bool_decide_true by done. destruct (m !! qname) as [v|] eqn:Hv; [by rewrite Hv|].
      by rewrite lookup_insert_eq.
    + rewrite bool_decide_false by done.
      destruct (m !! d) eqn:Hv; [done|]. by rewrite lookup_insert_ne.
Qed.

(** The hosts filter answers a name exactly when some line of the file
    has it, and then with the address of the first such line and no other: as
    an A or AAAA record when the question is of the address's kind, and with
    an empty positive answer for every other type. *)
Theorem hosts_lookup (file : bytes) (qname : rstr) (qtype : QueryType.t) :
  from_utf8_ok file = true →
  ∃ hosts, Hosts.new (E := BufferError) (Some file) = Ok hosts ∧
    Hosts.lookup hosts qname qtype =
    (λ addr, DnsPacket.mk (DnsHeader.set_authoritative DnsHeader.new) [DnsQuestion.new qname qtype]
       (match addr, qtype with
        | V4 a, QueryType.A => [DnsRecord.A qname a 2]
        | V6 a, QueryType.AAAA => [DnsRecord.AAAA qname a 2]
        | _, _ => []
        end) [DnsRecord.NS (str "hosts") (str "hosts") 600] []) <$> first_entry qname file.
Proof.
  intros Hf. exists (Hosts.load file). unfold Hosts.new. rewrite Hf. split; [done|].
  unfold Hosts.lookup, Hosts.load. rewrite load_first. unfold Hosts.t. rewrite lookup_empty.
  fold (first_entry qname file). destruct (first_entry qname file) as [a|]; [|done].
  cbn. do 2 f_equal. rewrite app_nil_r. by destruct a, qtype.
Qed.
End Props.

(** Only the first address of a name is kept; several names on one line, or a
    comment after the name, become one name with blanks in it. *)
Example hosts_file : let text := str "# hosts
127.0.0.1	localhost loopback
::1 localhost # v6
10.0.0.1 box
10.0.0.2 box" in
  (map_to_list (Hosts.load (U := ascii_tables) text : gmap rstr (list IpAddr))) ≡ₚ
    [(str "localhost loopback", [V4 (Ipv4 127 0 0 1)]); (str "localhost # v6", [V6 (Ipv6 0 0 0 0 0 0 0 1)]);
     (str "box", [V4 (Ipv4 10 0 0 1)])].
Proof. vm_compute. apply (bool_decide_unpack _). vm_compute. exact I. Qed.

Lemma hosts_lookup_witness : ∃ hosts,
  Hosts.new (U := ascii_tables) (E := BufferError) (Some (str "127.0.0.1 localhost")) = Ok hosts ∧
  DnsPacket.answers <$> Hosts.lookup hosts (str "localhost") QueryType.A =
    Some [DnsRecord.A (str "localhost") (Ipv4 127 0 0 1) 2].
Proof.
  destruct (hosts_lookup (U := ascii_tables) (str "127.0.0.1 localhost") (str "localhost") QueryType.A)
    as (hosts & Hn & Hl); [vm_compute; reflexivity|].
  exists hosts. split; [exact Hn|]. rewrite Hl. vm_compute. reflexivity.
Defined.
End HostsProps.
