(* ===== verification/Filter.v ===== *)
(** * Answers from the chain (src/blockchain/filter.rs)

    The filter of the resolver that answers for the zones and domains of the
    chain. The mutex around the context is taken several times in one lookup,
    so the chain is a function of the number of the lock. Queries to the name
    servers of a domain go to the network through a client made for the lookup:
    whether its sockets are bound and its threads started, and what comes of a
    query, are arguments. *)

From S2P Require Import Prelude Text Net Commons Buffer Protocol Hash Block Store Chain.
Open Scope Z_scope.

Definition NAME_SERVER : rstr := str "ns.ruvcha.in".
Definition SERVER_ADMIN : rstr := str "admin.ruvcha.in".

(** The records whose domain the filter rewrites. *)
Definition renamable (r : DnsRecord.t) : bool :=
  match r with DnsRecord.PTR _ _ _ | DnsRecord.OPT _ _ _ => false | _ => true end.

(** [*domain = name] on such a record. *)
Definition set_domain (name : rstr) (r : DnsRecord.t) : DnsRecord.t :=
  match r with
  | DnsRecord.A _ a ttl => DnsRecord.A name a ttl
  | DnsRecord.AAAA _ a ttl => DnsRecord.AAAA name a ttl
  | DnsRecord.NS _ h ttl => DnsRecord.NS name h ttl
  | DnsRecord.CNAME _ h ttl => DnsRecord.CNAME name h ttl
  | DnsRecord.SRV _ p w o h ttl => DnsRecord.SRV name p w o h ttl
  | DnsRecord.TLSA _ u s m d ttl => DnsRecord.TLSA name u s m d ttl
  | DnsRecord.MX _ p h ttl => DnsRecord.MX name p h ttl
  | DnsRecord.UNKNOWN _ q l ttl => DnsRecord.UNKNOWN name q l ttl
  | DnsRecord.SOA _ m rn s f t e i ttl => DnsRecord.SOA name m rn s f t e i ttl
  | DnsRecord.TXT _ d ttl => DnsRecord.TXT name d ttl
  | DnsRecord.PTR _ _ _ | DnsRecord.OPT _ _ _ => r
  end.

Module BlockchainFilter.

Definition add_soa_record (zone : rstr) (serial : Z) (packet : DnsPacket.t) : DnsPacket.t :=
  DnsPacket.mk (DnsPacket.header packet) (DnsPacket.questions packet) (DnsPacket.answers packet)
    (DnsPacket.authorities packet ++ [DnsRecord.SOA zone NAME_SERVER SERVER_ADMIN serial 3600 300 604800 60 60])
    (DnsPacket.resources packet).

Definition get_zone_response (chain : Chain.t) (zone : rstr) (serial : Z) (packet : DnsPacket.t) : bool * DnsPacket.t :=
  let have_zone := Chain.is_available_zone chain zone in
  (have_zone, if have_zone then add_soa_record zone serial packet else packet).

Section Lookup.
(** Whether [DnsNetworkClient::new] binds both its sockets, next to a port taken
    at random, and [run] starts its threads: the code panics where they do not.
    What [send_udp_query] does with a query to a server: a reply, an error (of
    any kind), a panic, or no return. *)
Variable client_runs : bool.
Variable send_udp_query : rstr → QueryType.t → SocketAddr → outcome unit DnsPacket.t.

(** The loop over [servers]. *)
Fixpoint ask_servers {E} (qname : rstr) (qtype : QueryType.t) (servers : list IpAddr) : outcome E (option DnsPacket.t) :=
  match servers with
  | [] => Ok None
  | server :: servers =>
      match send_udp_query qname qtype {| ip := server; port := 53 |} with
      | Ok res => Ok (Some res)
      | Err _ => ask_servers qname qtype servers
      | Panic => Panic
      | OutOfFuel => OutOfFuel
      end
  end.

Definition lookup_from_ns {E} (qname : rstr) (qtype : QueryType.t) (servers : list IpAddr) : outcome E (option DnsPacket.t) :=
  if client_runs then ask_servers qname qtype servers else Panic.

(** The name servers a domain names for itself. *)
Definition ns_hosts (records : list DnsRecord.t) : list rstr :=
  omap (λ record,
    if bool_decide (DnsRecord.get_querytype record = QueryType.NS) then
      match record with
      | DnsRecord.NS domain host _ => if bool_decide (domain = str "@") then Some host else None
      | _ => None
      end
    else None) records.

(** Their addresses among the records of the domain. *)
Definition glue (top_domain : rstr) (hosts : list rstr) (records : list DnsRecord.t) : list IpAddr :=
  mjoin ((λ record,
    let matching domain addr :=
      let domain := domain ++ str "." ++ top_domain in
      omap (λ host, if bool_decide (domain = host) then Some addr else None) hosts in
    match record with
    | DnsRecord.A domain addr _ => matching domain (V4 addr)
    | DnsRecord.AAAA domain addr _ => matching domain (V6 addr)
    | _ => []
    end) <$> records).

Definition resolve_by_ns {E} (qname : rstr) (qtype : QueryType.t) (top_domain : rstr) (data : DomainData) :
    outcome E (bool * option DnsPacket.t) :=
  let hosts := ns_hosts (records data) in
  if bool_decide (hosts = []) then Ok (false, None) else
  let servers := glue top_domain hosts (records data) in
  if bool_decide (servers = []) then Ok (false, None) else
  let! result := lookup_from_ns qname qtype servers in
  Ok (true, result).

Definition create_packet (chain : Chain.t) (qname : rstr) (qtype : QueryType.t) (zone : rstr)
    (answers : list DnsRecord.t) : DnsPacket.t :=
  let header := DnsHeader.set_authoritative DnsHeader.new in
  if negb (bool_decide (answers = [])) then
    DnsPacket.mk header [DnsQuestion.new qname qtype] answers [DnsRecord.NS zone NAME_SERVER 600] []
  else
    let packet := DnsPacket.mk (DnsHeader.set_rescode header ResultCode.NXDOMAIN)
                    [DnsQuestion.new qname qtype] [] [] [] in
    add_soa_record zone (Chain.get_soa_serial chain) packet.

(** The loop over [data.records.iter_mut()]: the records as it leaves them,
    [answers] and [cname]. *)
Definition match_record (qname subdomain : rstr) (qtype : QueryType.t)
    (s : list DnsRecord.t * list DnsRecord.t * option DnsRecord.t) (record : DnsRecord.t) :=
  let '(records, answers, cname) := s in
  let rtype := DnsRecord.get_querytype record in
  if bool_decide (rtype = qtype) || bool_decide (rtype = QueryType.CNAME) then
    let rename := renamable record &&
      match DnsRecord.get_domain record with
      | Some domain => (bool_decide (domain = str "@") && bool_decide (subdomain = [])) || bool_decide (domain = subdomain)
      | None => false
      end in
    let record := if rename then set_domain qname record else record in
    match DnsRecord.get_domain record with
    | None => (records ++ [record], answers, cname)
    | Some domain =>
        if bool_decide (domain = qname) || bool_decide (domain = subdomain) then
          if bool_decide (rtype = QueryType.CNAME) then (records ++ [record], answers, Some record)
          else (records ++ [record], answers ++ [record], cname)
        else (records ++ [record], answers, cname)
    end
  else (records ++ [record], answers, cname).

Definition match_records (qname subdomain : rstr) (qtype : QueryType.t) (records : list DnsRecord.t) :=
  fold_left (match_record qname subdomain qtype) records ([], [], None).

(** The loop that looks for the record of [*.domain.tld]. *)
Definition wildcard_record (qname subdomain : rstr) (qtype : QueryType.t)
    (s : list DnsRecord.t * bool) (record : DnsRecord.t) : list DnsRecord.t * bool :=
  let '(answers, domain_exists) := s in
  let record_domain := default [] (DnsRecord.get_domain record) in
  let is_star := bool_decide (record_domain = str "*") in
  let answers :=
    if bool_decide (DnsRecord.get_querytype record = qtype) && is_star
    then answers ++ [set_domain qname record] else answers in
  let domain_exists :=
    if negb domain_exists && (bool_decide (record_domain = subdomain) || is_star) then true else domain_exists in
  (answers, domain_exists).

(** The answer for a domain with data: the part of [lookup] after [resolve_by_ns]. *)
Definition answer (chain : Chain.t) (qname : rstr) (qtype : QueryType.t) (zone subdomain : rstr)
    (records : list DnsRecord.t) : DnsPacket.t :=
  let '(records, answers, cname) := match_records qname subdomain qtype records in
  let answers :=
    match cname with
    | Some record => if bool_decide (answers = []) then answers ++ [record] else answers
    | None => answers
    end in
  let domain_exists := negb (bool_decide (answers = [])) || bool_decide (subdomain = []) in
  let '(answers, domain_exists) :=
    if bool_decide (answers = [])
    then fold_left (wildcard_record qname subdomain qtype) records (answers, domain_exists)
    else (answers, domain_exists) in
  let packet := create_packet chain qname qtype zone answers in
  if domain_exists && bool_decide (DnsPacket.answers packet = [])
  then DnsPacket.set_header packet (DnsHeader.set_rescode (DnsPacket.header packet) ResultCode.NOERROR)
  else packet.

Context {BP : Build} {U : Unicode} {CR : Crypto} {SD : Serde}.

(** [chain n]: the chain when the context is locked for the [n]-th time. *)
Definition lookup {E} (now : Z) (chain : nat → Chain.t) (qname : rstr) (qtype : QueryType.t) :
    outcome E (option DnsPacket.t) :=
  let in_domain part0 part1 subdomain :=
    let top_domain := part1 ++ str "." ++ part0 in
    let! data := Chain.get_domain_info now (chain 0%nat) top_domain in
    let zone := part0 in
    match data with
    | None =>
        if Chain.is_available_zone (chain 1%nat) zone then
          let header := DnsHeader.set_authoritative (DnsHeader.set_rescode DnsHeader.new ResultCode.NXDOMAIN) in
          let packet := DnsPacket.mk header [DnsQuestion.new qname qtype] [] [] [] in
          Ok (Some (add_soa_record zone (Chain.get_soa_serial (chain 2%nat)) packet))
        else Ok None
    | Some data =>
        match json_domain_data data with
        | None => Ok None
        | Some data =>
            let! ns := resolve_by_ns qname qtype top_domain data in
            let '(has_ns, result) := ns in
            if (has_ns : bool) then Ok result
            else Ok (Some (answer (chain 1%nat) qname qtype zone subdomain (records data)))
        end
    end in
  match rsplitn 3 46 qname with
  | [] => Panic
  | [part0] =>
      let serial := Chain.get_soa_serial (chain 0%nat) in
      let '(have_zone, packet) := get_zone_response (chain 1%nat) part0 serial DnsPacket.new in
      Ok (if (have_zone : bool) then Some packet else None)
  | [part0; part1] => in_domain part0 part1 []
  | part0 :: part1 :: part2 :: _ => in_domain part0 part1 part2
  end.
End Lookup.
End BlockchainFilter.
