(* ===== verification/FilterProps.v ===== *)
(** * What the chain's filter answers (src/blockchain/filter.rs)

    The loops of the filter against a declarative description: which records
    of a domain answer a question, in what order of preference, and when the
    answer says that the name does not exist. *)

From S2P Require Import Prelude Text Net Commons Buffer Protocol Hash Block Store Chain Filter.
Open Scope Z_scope.
Import BlockchainFilter.

(** ** Names with a zone, a domain and a subdomain *)
Section Names.
Lemma split_app c s1 s2 : split c (s1 ++ c :: s2) = split c s1 ++ split c s2.
Proof.
  induction s1 as [|x s1 IH]; cbn; [by rewrite Z.eqb_refl|].
  rewrite IH. destruct (x =? c); [done|]. pose proof (split_nonempty c s1).
  by destruct (split c s1).
Qed.

Lemma rsplitn_two name zone : 46 ∉ name → 46 ∉ zone → rsplitn 3 46 (name ++ 46 :: zone) = [zone; name].
Proof.
  intros Hn Hz. unfold rsplitn. rewrite split_app, !split_plain by done.
  case_decide as Hd; [done|cbn in Hd; lia].
Qed.

Lemma rsplitn_three sub name zone : 46 ∉ name → 46 ∉ zone →
  rsplitn 3 46 (sub ++ 46 :: name ++ 46 :: zone) = [zone; name; sub].
Proof.
  intros Hn Hz. unfold rsplitn. rewrite !split_app, (split_plain 46 name), (split_plain 46 zone) by done. rewrite !reverse_app. cbn.
  change (reverse [zone]) with [zone]. change (reverse [name]) with [name]. cbn.
  case_decide as Hd; cbn in Hd.
  - rewrite length_reverse in Hd. pose proof (join_split 46 sub) as Hj. pose proof (split_nonempty 46 sub).
    destruct (split 46 sub) as [|x [|y l]]; [done| |cbn in Hd; lia]. cbn in Hj. by subst.
  - change (rev_append (drop 0 (reverse (split 46 sub))) []) with (reverse (reverse (split 46 sub))).
    by rewrite reverse_involutive, join_split.
Qed.
End Names.

(** ** The description *)

(** A record of a domain's data that stands for the name asked for: its name
    is the subdomain, or the name in full, or [@] for the domain itself. *)
Definition stands_for (qname subdomain : rstr) (r : DnsRecord.t) : bool :=
  match DnsRecord.get_domain r with
  | Some d => bool_decide (d = subdomain) || bool_decide (d = qname) ||
              (bool_decide (d = str "@") && bool_decide (subdomain = []) && renamable r)
  | None => false
  end.

Definition of_type (q : QueryType.t) (r : DnsRecord.t) : bool := bool_decide (DnsRecord.get_querytype r = q).
Definition is_alias : DnsRecord.t → bool := of_type QueryType.CNAME.
Definition is_star (r : DnsRecord.t) : bool := bool_decide (default [] (DnsRecord.get_domain r) = str "*").

(** The answers in order of preference: the records of the type asked for, the
    last CNAME, the wildcard records; all under the name asked for. *)
Definition chosen (qname subdomain : rstr) (qtype : QueryType.t) (rs : list DnsRecord.t) : list DnsRecord.t :=
  let direct := List.filter (λ r, of_type qtype r && negb (is_alias r) && stands_for qname subdomain r) rs in
  let aliases := List.filter (λ r, is_alias r && stands_for qname subdomain r) rs in
  let stars := List.filter (λ r, of_type qtype r && is_star r) rs in
  set_domain qname <$>
    (if bool_decide (direct ≠ []) then direct
     else match last aliases with Some r => [r] | None => stars end).

(** Whether the data knows the name at all. *)
Definition name_known (subdomain : rstr) (rs : list DnsRecord.t) : bool :=
  bool_decide (subdomain = []) ||
  existsb (λ r, bool_decide (default [] (DnsRecord.get_domain r) = subdomain) || is_star r) rs.

Definition expected (serial : Z) (qname : rstr) (qtype : QueryType.t) (zone subdomain : rstr)
    (rs : list DnsRecord.t) : DnsPacket.t :=
  let answers := chosen qname subdomain qtype rs in
  let authority := DnsHeader.set_authoritative DnsHeader.new in
  let header :=
    if bool_decide (answers = []) && negb (name_known subdomain rs)
    then DnsHeader.set_rescode authority ResultCode.NXDOMAIN else authority in
  DnsPacket.mk header [DnsQuestion.new qname qtype] answers
    [if bool_decide (answers = [])
     then DnsRecord.SOA zone NAME_SERVER SERVER_ADMIN serial 3600 300 604800 60 60
     else DnsRecord.NS zone NAME_SERVER 600] [].

(** ** The first loop *)
Section Loops.
Context (qname subdomain : rstr) (qtype : QueryType.t).

Definition renamed (r : DnsRecord.t) : DnsRecord.t :=
  if (of_type qtype r || is_alias r) && stands_for qname subdomain r then set_domain qname r else r.

Lemma set_domain_same r : DnsRecord.get_domain r = Some qname → set_domain qname r = r.
Proof. destruct r; cbn; congruence. Qed.
Lemma set_domain_keeps r : renamable r = false → set_domain qname r = r.
Proof. by destruct r. Qed.
Lemma set_domain_domain r : renamable r = true → DnsRecord.get_domain (set_domain qname r) = Some qname.
Proof. by destruct r. Qed.
Lemma set_domain_type r : DnsRecord.get_querytype (set_domain qname r) = DnsRecord.get_querytype r.
Proof. by destruct r. Qed.

(** One turn of the loop, by the class of the record. *)
Lemma match_record_eq rs answers cname r :
  match_record qname subdomain qtype (rs, answers, cname) r =
  (rs ++ [renamed r],
   if of_type qtype r && negb (is_alias r) && stands_for qname subdomain r then answers ++ [set_domain qname r] else answers,
   if is_alias r && stands_for qname subdomain r then Some (set_domain qname r) else cname).
Proof.
  unfold match_record, renamed, is_alias, of_type.
  destruct (bool_decide (DnsRecord.get_querytype r = qtype) || bool_decide (DnsRecord.get_querytype r = QueryType.CNAME)) eqn:Ht;
    [|by apply orb_false_iff in Ht as [-> ->]].
  cbn [andb]. unfold stands_for. destruct (DnsRecord.get_domain r) as [d|] eqn:Hd.
  2: { rewrite !andb_false_r, Hd. done. }
  destruct (renamable r) eqn:Hr; rewrite ?andb_false_r, ?andb_true_r; cbn [andb orb].
  - destruct ((bool_decide (d = str "@") && bool_decide (subdomain = [])) || bool_decide (d = subdomain)) eqn:Hm.
    + rewrite (set_domain_domain r Hr). rewrite bool_decide_true by done. cbn [orb].
      replace (bool_decide (d = subdomain) || bool_decide (d = qname) || (bool_decide (d = str "@") && bool_decide (subdomain = [])))
        with true by (destruct (bool_decide (d = subdomain)), (bool_decide (d = qname)), (bool_decide (d = str "@")),
                        (bool_decide (subdomain = [])); cbn in *; congruence).
      destruct (bool_decide (_ = QueryType.CNAME)) eqn:Hc; rewrite ?andb_true_r, ?andb_false_r; cbn; [done|].
      rewrite orb_false_r in Ht. by rewrite Ht.
    + apply orb_false_iff in Hm as [Hm1 Hm2]. rewrite Hd, Hm1, Hm2, orb_false_l, !orb_false_r.
      destruct (bool_decide (d = qname)) eqn:Hq; [|by rewrite !andb_false_r].
      apply bool_decide_eq_true in Hq as ->. rewrite (set_domain_same r Hd).
      destruct (bool_decide (_ = QueryType.CNAME)) eqn:Hc; rewrite ?andb_true_r, ?andb_false_r; cbn; [done|].
      rewrite orb_false_r in Ht. by rewrite Ht.
  - rewrite Hd, (set_domain_keeps r Hr), orb_false_r.
    rewrite (orb_comm (bool_decide (d = subdomain))).
    destruct (bool_decide (d = qname) || bool_decide (d = subdomain)); [|by rewrite !andb_false_r].
    destruct (bool_decide (_ = QueryType.CNAME)) eqn:Hc; rewrite ?andb_true_r, ?andb_false_r; cbn; [done|].
    rewrite orb_false_r in Ht. by rewrite Ht.
Qed.

Definition direct (rs : list DnsRecord.t) : list DnsRecord.t :=
  List.filter (λ r, of_type qtype r && negb (is_alias r) && stands_for qname subdomain r) rs.
Definition aliases (rs : list DnsRecord.t) : list DnsRecord.t :=
  List.filter (λ r, is_alias r && stands_for qname subdomain r) rs.

Lemma match_records_eq rs :
  match_records qname subdomain qtype rs =
  (renamed <$> rs, set_domain qname <$> direct rs, set_domain qname <$> last (aliases rs)).
Proof.
  unfold match_records. induction rs as [|r rs IH] using rev_ind; [done|].
  rewrite fold_left_app. cbn [fold_left]. rewrite IH, match_record_eq. unfold direct, aliases.
  rewrite !List.filter_app, !fmap_app. cbn [List.filter].
  destruct (_ && stands_for _ _ r), (is_alias r && stands_for _ _ r); cbn [fmap list_fmap];
    rewrite ?app_nil_r, ?last_snoc; done.
Qed.

(** Nothing answers: nothing was renamed. *)
Lemma renamed_same rs : direct rs = [] → aliases rs = [] → renamed <$> rs = rs.
Proof.
  unfold direct, aliases. induction rs as [|r rs IH]; [done|]. cbn [List.filter]. intros Hd Ha.
  rewrite fmap_cons. unfold renamed at 1.
  destruct (of_type qtype r), (is_alias r), (stands_for qname subdomain r); cbn in *; try done; f_equal; auto.
Qed.

Lemma wildcard_eq rs : ∀ answers known,
  fold_left (wildcard_record qname subdomain qtype) rs (answers, known) =
  (answers ++ (set_domain qname <$> List.filter (λ r, of_type qtype r && is_star r) rs),
   known || existsb (λ r, bool_decide (default [] (DnsRecord.get_domain r) = subdomain) || is_star r) rs).
Proof.
  induction rs as [|r rs IH]; intros answers known; cbn [fold_left List.filter existsb].
  - cbn. by rewrite app_nil_r, orb_false_r.
  - unfold wildcard_record at 2.
    change (bool_decide (DnsRecord.get_querytype r = qtype)) with (of_type qtype r).
    change (bool_decide (default [] (DnsRecord.get_domain r) = str "*")) with (is_star r). rewrite IH. f_equal.
    + destruct (of_type qtype r && is_star r); [|done]. by rewrite <- app_assoc.
    + destruct known; [done|]. cbn. by destruct (bool_decide (_ = subdomain) || is_star r).
Qed.

Lemma fmap_nil_iff {A B} (f : A → B) l : f <$> l = [] ↔ l = [].
Proof. by destruct l. Qed.

(** The loops of the filter compute the description. *)
Lemma answer_expected chain zone rs :
  answer chain qname qtype zone subdomain rs =
  expected (Chain.get_soa_serial chain) qname qtype zone subdomain rs.
Proof.
  unfold answer. rewrite match_records_eq. unfold expected, chosen. fold (direct rs) (aliases rs).
  set (stars := List.filter (λ r, of_type qtype r && is_star r) rs).
  destruct (direct rs) as [|r1 l1] eqn:Hd; [destruct (last (aliases rs)) as [c|] eqn:Ha|].
  - cbn. done.
  - apply last_None in Ha. cbn [fmap option_fmap option_map list_fmap].
    rewrite (bool_decide_true ([] = [])) by done. rewrite (bool_decide_false ([] ≠ [])) by (intros Hn; by apply Hn).
    rewrite renamed_same by done. cbn [negb orb]. rewrite wildcard_eq. cbn [app]. fold stars.
    change (bool_decide (subdomain = []) || existsb _ rs) with (name_known subdomain rs).
    unfold create_packet. destruct (bool_decide (set_domain qname <$> stars = [])) eqn:Hs; cbn [negb andb].
    + apply bool_decide_eq_true in Hs. rewrite Hs. cbn. rewrite andb_true_r.
      by destruct (name_known subdomain rs).
    + cbn. rewrite Hs, andb_false_r. done.
  - cbn. destruct (last (aliases rs)); cbn; rewrite ?bool_decide_false by done; done.
Qed.
End Loops.

(** ** Delegation *)

(** An address the data gives for a name server of the domain itself. *)
Definition delegate (top_domain : rstr) (rs : list DnsRecord.t) (addr : IpAddr) : Prop :=
  ∃ d ttl, DnsRecord.NS (str "@") (d ++ str "." ++ top_domain) ttl ∈ rs ∧
    ∃ ttl', match addr with
            | V4 a => DnsRecord.A d a ttl' ∈ rs
            | V6 a => DnsRecord.AAAA d a ttl' ∈ rs
            end.

Lemma ns_hosts_spec rs host : host ∈ ns_hosts rs ↔ ∃ ttl, DnsRecord.NS (str "@") host ttl ∈ rs.
Proof.
  unfold ns_hosts. rewrite list_elem_of_omap. split.
  - intros (r & Hr & Hm). case_bool_decide; [|done]. destruct r; try done.
    case_bool_decide; [|done]. injection Hm as ->. subst. by eexists.
  - intros [ttl Hr]. eexists. split; [done|]. cbn. by rewrite !bool_decide_true.
Qed.

Lemma glue_spec top rs addr : addr ∈ glue top (ns_hosts rs) rs ↔ delegate top rs addr.
Proof.
  unfold glue, delegate. rewrite list_elem_of_join. setoid_rewrite list_elem_of_fmap. split.
  - intros (l & Hl & r & -> & Hr). destruct r; try by apply not_elem_of_nil in Hl.
    all: apply list_elem_of_omap in Hl as (h & Hh & Hm); case_bool_decide as Hd; [|done]; injection Hm as <-;
      apply ns_hosts_spec in Hh as [ttl' Hh]; rewrite <- Hd in Hh; eauto 6.
  - intros (d & ttl & Hns & ttl' & Hr).
    assert (Hh : d ++ str "." ++ top ∈ ns_hosts rs) by (apply ns_hosts_spec; eauto).
    destruct addr as [a|a]; eexists; (split; [|by eexists; split; [reflexivity|exact Hr]]); cbn;
      apply list_elem_of_omap; eexists; (split; [exact Hh|]); by rewrite bool_decide_true.
Qed.

Lemma glue_none top rs : glue top [] rs = [].
Proof. unfold glue. induction rs as [|r rs IH]; [done|]. destruct r; exact IH. Qed.

(** What the name servers of a domain make of a question: the first that does
    not answer with an error decides, by its reply, by a panic of the client, or
    by not returning. *)
Definition settles (reply : outcome unit DnsPacket.t) : bool := match reply with Err _ => false | _ => true end.

Definition first_reply {E} (replies : list (outcome unit DnsPacket.t)) : outcome E (option DnsPacket.t) :=
  match head (List.filter settles replies) with
  | Some (Ok packet) => Ok (Some packet)
  | Some Panic => Panic
  | Some OutOfFuel => OutOfFuel
  | _ => Ok None
  end.

Section Lookup.
Context (client_runs : bool) (send_udp_query : rstr → QueryType.t → SocketAddr → outcome unit DnsPacket.t).
Context {BP : Build} {U : Unicode} {CR : Crypto} {SD : Serde}.

(** The answer of the name servers of a domain, asked by a client that could be
    made. *)
Definition delegated_answer {E} (qname : rstr) (qtype : QueryType.t) (servers : list IpAddr) : outcome E (option DnsPacket.t) :=
  if client_runs then first_reply ((λ s, send_udp_query qname qtype {| ip := s; port := 53 |}) <$> servers) else Panic.

Lemma lookup_from_ns_eq {E} qname qtype servers :
  lookup_from_ns (E := E) client_runs send_udp_query qname qtype servers = delegated_answer qname qtype servers.
Proof.
  unfold lookup_from_ns, delegated_answer. destruct client_runs; [|done].
  induction servers as [|s servers IH]; [done|]. cbn [ask_servers fmap list_fmap]. unfold first_reply. cbn [List.filter].
  by destruct (send_udp_query _ _ _).
Qed.

(** The name a subdomain of a domain has; [None] for the domain itself. *)
Definition full_name (sub : option rstr) (domain : rstr) : rstr :=
  match sub with Some sub => sub ++ str "." ++ domain | None => domain end.

(** What [lookup] returns for a name of two or three parts, by what the chain
    says of the domain. *)
Definition filter_answer {E} (qname domain zone : rstr) (sub : option rstr) (qtype : QueryType.t) (chain : nat → Chain.t)
    (info : option rstr) : outcome E (option DnsPacket.t) :=
  match info with
  | Some json =>
      match json_domain_data json with
      | Some data =>
          let servers := glue domain (ns_hosts (records data)) (records data) in
          if bool_decide (servers = [])
          then Ok (Some (expected (Chain.get_soa_serial (chain 1%nat)) qname qtype zone (default [] sub) (records data)))
          else delegated_answer qname qtype servers
      | None => Ok None
      end
  | None =>
      if Chain.is_available_zone (chain 1%nat) zone then
        Ok (Some (DnsPacket.mk
                (DnsHeader.set_authoritative (DnsHeader.set_rescode DnsHeader.new ResultCode.NXDOMAIN))
                [DnsQuestion.new qname qtype] []
                [DnsRecord.SOA zone NAME_SERVER SERVER_ADMIN (Chain.get_soa_serial (chain 2%nat)) 3600 300 604800 60 60] []))
      else Ok None
  end.

Lemma lookup_spec {E} (now : Z) (chain : nat → Chain.t) (sub : option rstr) (name zone : rstr)
  (qtype : QueryType.t) (info : option rstr) :
  46 ∉ name → 46 ∉ zone →
  let domain := name ++ str "." ++ zone in
  Chain.get_domain_info (E := E) now (chain 0%nat) domain = Ok info →
  lookup (E := E) client_runs send_udp_query now chain (full_name sub domain) qtype =
    filter_answer (full_name sub domain) domain zone sub qtype chain info.
Proof.
  intros Hn Hz domain Hinfo. set (qname := full_name sub domain). unfold filter_answer.
  assert (Hparts : rsplitn 3 46 qname = zone :: name :: (match sub with Some s => [s] | None => [] end)).
  { unfold qname, full_name, domain. destruct sub; [by apply rsplitn_three|by apply rsplitn_two]. }
  unfold lookup. rewrite Hparts.
  destruct sub as [s|]; cbv beta iota zeta; cbn [default]; fold domain; rewrite Hinfo; cbn [obind];
    (destruct info as [json|]; [|by destruct (Chain.is_available_zone _ _)]);
    (destruct (json_domain_data json) as [data|]; [|done]); unfold resolve_by_ns;
    (destruct (bool_decide (ns_hosts (records data) = [])) eqn:Hh;
      [apply bool_decide_eq_true in Hh; rewrite Hh;
       replace (glue domain [] (records data)) with (@nil IpAddr);
       [by rewrite bool_decide_true, answer_expected|symmetry; apply glue_none]
      |destruct (bool_decide (glue _ _ _ = [])); [by rewrite obind_Ok, answer_expected|]; rewrite lookup_from_ns_eq;
       by destruct (delegated_answer _ _ _)]).
Qed.

(** C25: what the filter answers for a name [sub.name.zone] or [name.zone].
    When the domain [name.zone] is alive on the chain and its data is
    readable: if the data delegates the domain (NS records for [@] with an
    address record), exactly those servers are asked, in their order, and the
    first that does not fail with an error gives the answer (the lookup panics
    where the client cannot bind its sockets, or panics itself, and does not
    return where the client does not); otherwise the records of the data that stand for the name: those of
    the type asked for, else the last CNAME, else the wildcard records, and
    NXDOMAIN exactly when there is none and the data does not know the name.
    Unreadable data gives no answer. When the domain is not alive, NXDOMAIN
    with the SOA record if the zone is one of the chain's, and otherwise no
    answer, so that other resolvers are asked. *)
Theorem filter_lookup (now : Z) (chain : nat → Chain.t) (sub : option rstr) (name zone : rstr)
    (qtype : QueryType.t) (info : option rstr) :
  46 ∉ name → 46 ∉ zone →
  let domain := name ++ str "." ++ zone in
  let qname := full_name sub domain in
  Chain.get_domain_info (E := BufferError) now (chain 0%nat) domain = Ok info →
  lookup (E := BufferError) client_runs send_udp_query now chain qname qtype =
     match info with
     | Some json =>
         match json_domain_data json with
         | Some data =>
             let servers := glue domain (ns_hosts (records data)) (records data) in
             if bool_decide (servers = [])
             then Ok (Some (expected (Chain.get_soa_serial (chain 1%nat)) qname qtype zone (default [] sub) (records data)))
             else if client_runs
             then first_reply ((λ s, send_udp_query qname qtype {| ip := s; port := 53 |}) <$> servers)
             else Panic
         | None => Ok None
         end
     | None =>
         if Chain.is_available_zone (chain 1%nat) zone then
           Ok (Some (DnsPacket.mk
                   (DnsHeader.set_authoritative (DnsHeader.set_rescode DnsHeader.new ResultCode.NXDOMAIN))
                   [DnsQuestion.new qname qtype] []
                   [DnsRecord.SOA zone NAME_SERVER SERVER_ADMIN (Chain.get_soa_serial (chain 2%nat)) 3600 300 604800 60 60] []))
         else Ok None
     end ∧
  ∀ json data, info = Some json → json_domain_data json = Some data →
    ∀ addr, addr ∈ glue domain (ns_hosts (records data)) (records data) ↔ delegate domain (records data) addr.
Proof. intros Hn Hz domain qname Hinfo. split; [by apply lookup_spec|intros; apply glue_spec]. Qed.
End Lookup.
