(* ===== verification/FilterExamples.v ===== *)
(** * The chain's filter on a concrete chain *)

From S2P Require Import Prelude Text Net Commons Buffer Protocol Hash Block Store Chain ChainExamples Filter FilterProps.
Import BlockchainFilter Toy.
Open Scope Z_scope.

(** Data of the domain [name.ruv]: an address, an alias and a wildcard. *)
Definition name_data : DomainData := {|
  encrypted := []; zone := str "ruv"; info := []; contacts := [];
  records := [DnsRecord.A (str "@") (Ipv4 10 0 0 1) 60; DnsRecord.CNAME (str "www") (str "name.ruv") 60;
              DnsRecord.A (str "*") (Ipv4 10 0 0 9) 60; DnsRecord.TXT (str "info") (str "hello") 60] |}.

Definition data_serde (data : DomainData) : Serde := {|
  json_of_transaction := λ _, []; json_transaction := λ _, None; json_domain_data := λ _, Some data;
  json_of_origin := λ _, []; bincode_block := λ _, []; cbor_of_block := λ _, []; cbor_block := λ _, None |}.

Definition no_network : rstr → QueryType.t → SocketAddr → outcome unit DnsPacket.t := λ _ _ _, Err ().

Definition ask (data : DomainData) (net : rstr → QueryType.t → SocketAddr → outcome unit DnsPacket.t)
    (qname : string) (qtype : QueryType.t) : option (ResultCode.t * list DnsRecord.t) :=
  match lookup (SD := data_serde data) (E := BufferError) true net now (λ _, chain3) (str qname) qtype with
  | Ok (Some p) => Some (DnsHeader.rescode (DnsPacket.header p), DnsPacket.answers p)
  | _ => None
  end.

(** The preferences: the type asked for, then the alias, then the wildcard. *)
Example ask_name :
  ask name_data no_network "name.ruv" QueryType.A =
    Some (ResultCode.NOERROR, [DnsRecord.A (str "name.ruv") (Ipv4 10 0 0 1) 60]) ∧
  ask name_data no_network "www.name.ruv" QueryType.A =
    Some (ResultCode.NOERROR, [DnsRecord.CNAME (str "www.name.ruv") (str "name.ruv") 60]) ∧
  ask name_data no_network "any.name.ruv" QueryType.A =
    Some (ResultCode.NOERROR, [DnsRecord.A (str "any.name.ruv") (Ipv4 10 0 0 9) 60]) ∧
  ask name_data no_network "any.name.ruv" QueryType.AAAA = Some (ResultCode.NOERROR, []) ∧
  ask name_data no_network "other.ruv" QueryType.A = Some (ResultCode.NXDOMAIN, []) ∧
  ask name_data no_network "name.com" QueryType.A = None.
Proof. vm_compute. done. Qed.

(** A domain that names two servers of its own, of which the first is down. *)
Definition delegated_data : DomainData := {|
  encrypted := []; zone := str "ruv"; info := []; contacts := [];
  records := [DnsRecord.NS (str "@") (str "ns1.name.ruv") 60; DnsRecord.A (str "ns1") (Ipv4 10 0 0 1) 60;
              DnsRecord.A (str "ns1") (Ipv4 10 0 0 2) 60] |}.
Definition second_up : rstr → QueryType.t → SocketAddr → outcome unit DnsPacket.t := λ qname _ addr,
  match ip addr with
  | V4 (Ipv4 10 0 0 2) => Ok (DnsPacket.mk DnsHeader.new [] [DnsRecord.A qname (Ipv4 10 0 0 7) 60] [] [])
  | _ => Err ()
  end.

Example ask_delegated :
  ask delegated_data second_up "www.name.ruv" QueryType.A =
    Some (ResultCode.NOERROR, [DnsRecord.A (str "www.name.ruv") (Ipv4 10 0 0 7) 60]) ∧
  ask delegated_data no_network "www.name.ruv" QueryType.A = None.
Proof. vm_compute. done. Qed.

(** When the port that the client drew is taken, the thread that answers the
    question panics. *)
Example delegation_panics :
  lookup (SD := data_serde delegated_data) (E := BufferError) false second_up now (λ _, chain3) (str "www.name.ruv") QueryType.A = Panic.
Proof. vm_compute. done. Qed.

(** A wildcard answers for a name that has records of other types: [info] has
    a TXT record, and its address is nevertheless the wildcard's. *)
Example wildcard_over_existing :
  ask name_data no_network "info.name.ruv" QueryType.A =
    Some (ResultCode.NOERROR, [DnsRecord.A (str "info.name.ruv") (Ipv4 10 0 0 9) 60]).
Proof. vm_compute. done. Qed.

Lemma filter_lookup_witness :
  lookup (SD := data_serde name_data) (E := BufferError) true no_network now (λ _, chain3)
    (str "www.name.ruv") QueryType.A =
  Ok (Some (DnsPacket.mk (DnsHeader.set_authoritative DnsHeader.new)
       [DnsQuestion.new (str "www.name.ruv") QueryType.A]
       [DnsRecord.CNAME (str "www.name.ruv") (str "name.ruv") 60]
       [DnsRecord.NS (str "ruv") (str "ns.ruvcha.in") 600] [])).
Proof.
  destruct (filter_lookup (SD := data_serde name_data) true no_network now (λ _, chain3) (Some (str "www"))
    (str "name") (str "ruv") QueryType.A (Some [])) as [Hl _].
  - apply (bool_decide_unpack _). vm_compute. exact I.
  - apply (bool_decide_unpack _). vm_compute. exact I.
  - vm_compute. reflexivity.
  - etransitivity; [exact Hl|]. vm_compute. reflexivity.
Defined.
