(* ===== verification/Resolve.v ===== *)
(** * Resolvers (src/dns/resolve.rs, src/dns/context.rs)

    The common part of the resolvers and the forwarding and the recursive one.
    [Result] is a value here, because the cache keeps what was stored before
    an error. The clock, the random choices and the replies of the network
    clients ([Box<dyn DnsClient>]) are the environment: functions of the number
    of times it was consulted. *)

From S2P Require Import Prelude Text Net Commons Buffer Protocol Cache Authority.
Open Scope Z_scope.

Inductive ResolveError := ClientErr | CacheErr (e : CacheError) | IoErr | NoServerFound.

Inductive ResolveStrategy := Recursive | Forward (upstreams : list rstr).

(** The environment of the server. *)
Class Env := {
  env_clock : nat → Z;
  env_random : nat → nat;
  (** [send_query] of the UDP/TCP client and of the DoH client; [None] for an error. *)
  env_query : nat → rstr → QueryType.t → rstr → bool → option DnsPacket.t;
  env_doh : nat → rstr → QueryType.t → rstr → bool → option DnsPacket.t;
}.

(** The parts of [ServerContext] that a resolver uses; the cache is in the
    state. A filter may panic and its answers change with the chain. *)
Record ServerContext := {
  authority : Authority.t;
  filters : list (nat → rstr → QueryType.t → outcome Empty_set (option DnsPacket.t));
  has_doh_client : bool;
  resolve_strategy : ResolveStrategy;
  allow_recursive : bool;
}.

Record world := mkWorld { cache : SynchronizedCache.t; ticks : nat }.

(** A computation that returns a [Result]: [inl] is [Err], [inr] is [Ok]. *)
Definition R (A : Type) : Type := M world Empty_set (ResolveError + A).

Definition rret {A} (a : A) : R A := mret (inr a).
Definition rerr {A} (e : ResolveError) : R A := mret (inl e).
Definition rbind {A B} (m : R A) (k : A → R B) : R B :=
  let? r := m in match r with inr a => k a | inl e => mret (inl e) end.
Notation "'let*' x ':=' m 'in' k" := (rbind m (λ x, k))
  (at level 10, x pattern, m at level 100, k at level 200) : rust_scope.

Section Resolvers.
Context {BP : Build} {HI : HashIter} {EV : Env}.

(** One consultation of the environment. *)
Definition tick : M world Empty_set nat := λ w, Ok (ticks w, mkWorld (cache w) (S (ticks w))).

Definition cache_lookup (qname : rstr) (qtype : QueryType.t) : R (option DnsPacket.t) :=
  let? t1 := tick in let? t2 := tick in let? t3 := tick in λ w,
  match SynchronizedCache.lookup qname qtype (env_clock t1) (env_clock t2) (env_clock t3) (cache w) with
  | Ok (r, c) => Ok (inr r, mkWorld c (ticks w))
  | Err e => Ok (inl (CacheErr e), w)
  | Panic => Panic
  | OutOfFuel => OutOfFuel
  end.

(** [Local::now()] for each record. *)
Fixpoint stamp (records : list DnsRecord.t) : M world Empty_set (list (DnsRecord.t * Z)) :=
  match records with
  | [] => mret []
  | r :: records => let? t := tick in let? rs := stamp records in mret ((r, env_clock t) :: rs)
  end.

Definition cache_store (records : list DnsRecord.t) : R unit :=
  let? stamped := stamp records in λ w,
  match SynchronizedCache.store stamped (cache w) with
  | Ok (_, c) => Ok (inr tt, mkWorld c (ticks w))
  | Err e => Ok (inl (CacheErr e), w)
  | Panic => Panic
  | OutOfFuel => OutOfFuel
  end.

Definition cache_store_nxdomain (qname : rstr) (qtype : QueryType.t) (ttl : Z) : R unit :=
  let? t := tick in λ w,
  match SynchronizedCache.store_nxdomain qname qtype ttl (env_clock t) (cache w) with
  | Ok (_, c) => Ok (inr tt, mkWorld c (ticks w))
  | Err e => Ok (inl (CacheErr e), w)
  | Panic => Panic
  | OutOfFuel => OutOfFuel
  end.

(** [let _ = r;] *)
Definition discard {A} (m : R A) : R unit := let? _ := m in rret tt.

Definition store_sections (p : DnsPacket.t) : R unit :=
  let* _ := discard (cache_store (DnsPacket.answers p)) in
  let* _ := discard (cache_store (DnsPacket.authorities p)) in
  discard (cache_store (DnsPacket.resources p)).

Definition from_client {A} (r : option A) : R A :=
  match r with Some a => rret a | None => rerr ClientErr end.

Definition rescode_packet (r : ResultCode.t) : DnsPacket.t :=
  DnsPacket.set_header DnsPacket.new (DnsHeader.set_rescode DnsHeader.new r).

Context (context : ServerContext).

(** The loop over the filters. *)
Fixpoint ask_filters (fs : list (nat → rstr → QueryType.t → outcome Empty_set (option DnsPacket.t)))
    (qname : rstr) (qtype : QueryType.t) : R (option DnsPacket.t) :=
  match fs with
  | [] => rret None
  | filter :: fs =>
      let? t := tick in
      let? r := mlift (filter t qname qtype) in
      match r with
      | Some packet => let* _ := cache_store (DnsPacket.answers packet) in rret (Some packet)
      | None => ask_filters fs qname qtype
      end
  end.

(** The cached alias, for addresses. *)
Definition cached_alias (qname : rstr) (qtype : QueryType.t) : R (option DnsPacket.t) :=
  if bool_decide (qtype = QueryType.A) || bool_decide (qtype = QueryType.AAAA)
  then cache_lookup qname QueryType.CNAME else rret None.

(** [DnsResolver::resolve], over the resolver's [perform]. *)
Definition resolve (perform : rstr → QueryType.t → R DnsPacket.t) (qname : rstr) (qtype : QueryType.t)
    (recursive : bool) : R DnsPacket.t :=
  match qtype with
  | QueryType.UNKNOWN _ => rret (rescode_packet ResultCode.NOTIMP)
  | _ =>
      match Authority.query qname qtype (authority context) with
      | Some qr => rret qr
      | None =>
          if negb recursive || negb (allow_recursive context) then rret (rescode_packet ResultCode.REFUSED) else
          let* qr := cache_lookup qname qtype in
          match qr with
          | Some qr => rret qr
          | None =>
              let* qr := cached_alias qname qtype in
              match qr with
              | Some qr => rret qr
              | None =>
                  let* qr := ask_filters (filters context) qname qtype in
                  match qr with
                  | Some packet => rret packet
                  | None => perform qname qtype
                  end
              end
          end
      end
  end.

Definition is_url (url : rstr) : bool := starts_with url (str "https://").

(** [ForwardingDnsResolver::perform] *)
Definition forward_query (upstream qname : rstr) (qtype : QueryType.t) : R DnsPacket.t :=
  if is_url upstream then
    if has_doh_client context then let? t := tick in from_client (env_doh t qname qtype upstream true)
    else rerr NoServerFound
  else let? t := tick in from_client (env_query t qname qtype upstream true).

Definition forward_perform (upstreams : list rstr) (qname : rstr) (qtype : QueryType.t) : R DnsPacket.t :=
  let? t := tick in
  match upstreams !! (env_random t mod length upstreams)%nat with
  | None => mpanic
  | Some upstream =>
      let* cached := cache_lookup qname qtype in
      let* result :=
        match cached with
        | None => forward_query upstream qname qtype
        | Some packet => rret packet
        end in
      let* _ := cache_store (DnsPacket.answers result) in
      rret result
  end.

(** The search of [RecursiveDnsResolver::perform] for a name server whose
    address is cached: [domains] are the names from the full one to the root. *)
Fixpoint tentative_ns (domains : list rstr) : R (option rstr) :=
  match domains with
  | [] => rret None
  | domain :: domains =>
      let* qr := cache_lookup domain QueryType.NS in
      let? t := tick in
      match qr ≫= λ qr, DnsPacket.get_unresolved_ns (env_random t) qr domain with
      | None => tentative_ns domains
      | Some ns =>
          let* qr := cache_lookup ns QueryType.A in
          let? t := tick in
          match qr ≫= DnsPacket.get_random_a (env_random t) with
          | Some addr => rret (Some addr)
          | None => tentative_ns domains
          end
      end
  end.

Definition domains_of (qname : rstr) : list rstr :=
  let labels := split 46 qname in
  (λ lbl_idx, join (str ".") (drop lbl_idx labels)) <$> seq 0 (length labels + 1).

(** [RecursiveDnsResolver::perform]: with [None] the search for the first name
    server, with [Some ns] one turn of the loop that queries [ns]. *)
Fixpoint recursive_perform (fuel : nat) (ns : option rstr) (qname : rstr) (qtype : QueryType.t) : R DnsPacket.t :=
  match fuel with
  | O => mstuck
  | S fuel =>
      match ns with
      | None =>
          let* tentative := tentative_ns (domains_of qname) in
          match tentative with
          | Some ns => recursive_perform fuel (Some ns) qname qtype
          | None => rerr NoServerFound
          end
      | Some ns =>
          let server := ns ++ str ":53" in
          let? t := tick in
          let* response := from_client (env_query t qname qtype server false) in
          let rescode := DnsHeader.rescode (DnsPacket.header response) in
          if negb (bool_decide (DnsPacket.answers response = [])) && bool_decide (rescode = ResultCode.NOERROR) then
            let* _ := store_sections response in rret response
          else if bool_decide (rescode = ResultCode.NXDOMAIN) then
            match DnsPacket.get_ttl_from_soa response with
            | Some ttl => let* _ := discard (cache_store_nxdomain qname qtype ttl) in rret response
            | None => rret response
            end
          else
            let? t := tick in
            match DnsPacket.get_resolved_ns (env_random t) response qname with
            | Some new_ns =>
                let* _ := store_sections response in
                recursive_perform fuel (Some new_ns) qname qtype
            | None =>
                let? t := tick in
                match DnsPacket.get_unresolved_ns (env_random t) response qname with
                | None => rret response
                | Some new_ns_name =>
                    let* recursive_response :=
                      resolve (recursive_perform fuel None) new_ns_name QueryType.A true in
                    let? t := tick in
                    match DnsPacket.get_random_a (env_random t) recursive_response with
                    | Some new_ns => recursive_perform fuel (Some new_ns) qname qtype
                    | None => rret response
                    end
                end
            end
      end
  end.

(** [context.create_resolver(ctx)] and the method [resolve] of the result. *)
Definition resolver (fuel : nat) : rstr → QueryType.t → bool → R DnsPacket.t :=
  match resolve_strategy context with
  | Recursive => resolve (recursive_perform fuel None)
  | Forward upstreams => resolve (forward_perform upstreams)
  end.
End Resolvers.

(** ** Tests of the source, computed *)
Module ResolveTests.
#[local] Existing Instance CacheTests.in_order.
#[local] Existing Instance ascii_tables.

Definition google := str "google.com".
Definition a_answer (id : Z) (domain : rstr) : DnsPacket.t :=
  DnsPacket.mk (DnsHeader.mk id false false false 0 false ResultCode.NOERROR false false false false 0 0 0 0)
    [] [DnsRecord.A domain (Ipv4 127 0 0 1) 3600] [] [].
Definition nx : DnsPacket.t := rescode_packet ResultCode.NXDOMAIN.

Definition context (s : ResolveStrategy) : ServerContext :=
  {| authority := Authority.new; filters := []; has_doh_client := true; resolve_strategy := s; allow_recursive := true |}.
Definition empty : world := mkWorld SynchronizedCache.new 0.

(** A stub client; the clock stands still. *)
Definition stub (callback : rstr → rstr → DnsPacket.t) : Env := {|
  env_clock := λ _, 0; env_random := λ _, 0%nat;
  env_query := λ _ qname _ server _, Some (callback qname server);
  env_doh := λ _ _ _ _ _, None |}.

Definition hits (w : world) (n : rstr) : option (Z * nat) :=
  (λ a, (DomainEntry.hits (value a), size (DomainEntry.record_types (value a)))) <$>
    ((SynchronizedCache.cache (cache w) : gmap _ _) !! n).

(** [tests::test_forwarding_resolver]: the second query is served from the cache. *)
Example test_forwarding_resolver {BP : Build} :
  let EV := stub (λ qname _, if bool_decide (qname = google) then a_answer 0 google else nx) in
  let ask := resolver (context (Forward [str "127.0.0.1:53"])) 0 in
  match (let* r1 := ask google QueryType.A true in let* r2 := ask google QueryType.A true in
         let* r3 := ask (str "yahoo.com") QueryType.A true in rret [r1; r2; r3]) empty with
  | Ok (inr [r1; r2; r3], w) =>
      DnsPacket.answers r1 = DnsPacket.answers (a_answer 0 google) ∧
      DnsPacket.answers r2 = DnsPacket.answers (a_answer 0 google) ∧ r3 = nx ∧ hits w google = Some (1, 1%nat)
  | _ => False
  end.
Proof. destruct BP; vm_compute; auto. Qed.

(** [tests::test_recursive_resolver_match_order]: the closest name server is asked. *)
Example test_recursive_resolver_match_order {BP : Build} :
  let EV := stub (λ _ server,
    if starts_with server (str "127.0.0.1") then a_answer 1 (str "a.google.com")
    else if starts_with server (str "127.0.0.2") then a_answer 2 (str "b.google.com")
    else if starts_with server (str "127.0.0.3") then a_answer 3 (str "c.google.com")
    else nx) in
  let ask := resolver (context Recursive) 9 google QueryType.A true in
  let ns domain host d := discard (cache_store [DnsRecord.NS (str domain) (str host) 3600;
                                                DnsRecord.A (str host) (Ipv4 127 0 0 d) 3600]) in
  match (let? r0 := ask in
         let* _ := ns "" "a.myroot.net" 1 in let* r1 := ask in
         let* _ := ns "com" "a.mytld.net" 2 in let* r2 := ask in
         let* _ := ns "google.com" "ns1.google.com" 3 in let* r3 := ask in
         rret (r0, r1, r2, r3)) empty with
  | Ok (inr (r0, r1, r2, r3), w) =>
      r0 = inl NoServerFound ∧ DnsHeader.id (DnsPacket.header r1) = 1 ∧
      DnsHeader.id (DnsPacket.header r2) = 2 ∧ DnsHeader.id (DnsPacket.header r3) = 3
  | _ => False
  end.
Proof. destruct BP; vm_compute; auto. Qed.
End ResolveTests.
