(* ===== verification/ResolveProps.v ===== *)
(** * Properties of the resolvers

    The forwarding resolver fills the cache and is then not needed until the
    records expire; the recursive one does not return while name servers keep
    referring it to others. *)

From stdpp Require Import fin_maps.
From S2P Require Import Prelude Text Net Commons Buffer Protocol Cache CacheProps Authority Resolve.
Open Scope Z_scope.

Section Common.
Context {BP : Build} {HI : HashIter} {EV : Env}.

Lemma rbind_run {A B} (m : R A) (k : A → R B) w a w' :
  m w = Ok (inr a, w') → rbind m k w = k a w'.
Proof. intros Hm. unfold rbind. by rewrite (mbind_run _ _ _ _ _ Hm). Qed.

(** Consulting the cache, by what the cache does. *)
Lemma cache_lookup_run qname qtype t c r c' :
  Cache.lookup qname qtype (env_clock t) (env_clock (S t)) (env_clock (S (S t))) c = Ok (r, c') →
  cache_lookup qname qtype (mkWorld (SynchronizedCache.mk c false) t) =
    Ok (inr r, mkWorld (SynchronizedCache.mk c' false) (S (S (S t)))).
Proof. intros Hl. unfold cache_lookup, mbind_. cbn. unfold SynchronizedCache.locked. cbn. by rewrite Hl. Qed.

Lemma cache_lookup_missing qname qtype t c : (∀ n, Cache.get_cache_state qname qtype n c = NotCached) →
  cache_lookup qname qtype (mkWorld (SynchronizedCache.mk c false) t) =
    Ok (inr None, mkWorld (SynchronizedCache.mk c false) (S (S (S t)))).
Proof. intros Hn. apply cache_lookup_run. unfold Cache.lookup. by rewrite Hn. Qed.

(** The times a list of records is stored at. *)
Fixpoint stamped (t : nat) (recs : list DnsRecord.t) : list (DnsRecord.t * Z) :=
  match recs with [] => [] | r :: recs => (r, env_clock t) :: stamped (S t) recs end.

Lemma stamp_run recs : ∀ c t, stamp recs (mkWorld c t) = Ok (stamped t recs, mkWorld c (t + length recs)).
Proof.
  induction recs as [|r recs IH]; intros c t; cbn [stamp stamped length].
  - by rewrite Nat.add_0_r.
  - unfold mbind_. cbn. rewrite IH. cbn. by rewrite Nat.add_succ_r.
Qed.

Lemma stamped_records t recs : (stamped t recs).*1 = recs.
Proof. revert t. induction recs as [|r recs IH]; intros t; [done|]. cbn. by rewrite IH. Qed.

Lemma stamped_time t recs r n : (r, n) ∈ stamped t recs → ∃ t', n = env_clock t'.
Proof.
  revert t. induction recs as [|x recs IH]; intros t; cbn; [by intros ?%elem_of_nil|].
  intros [[= _ ->]|?]%elem_of_cons; eauto.
Qed.

Lemma cache_store_run recs t c c' : Cache.store (stamped t recs) c = Ok (tt, c') →
  cache_store recs (mkWorld (SynchronizedCache.mk c false) t) =
    Ok (inr tt, mkWorld (SynchronizedCache.mk c' false) (t + length recs)).
Proof.
  intros Hs. unfold cache_store. rewrite (mbind_run _ _ _ _ _ (stamp_run recs _ t)).
  unfold SynchronizedCache.store, SynchronizedCache.locked. cbn. by rewrite Hs.
Qed.

(** The last time a record of a list is stored. *)
Lemma stamped_last t recs rec : rec ∈ recs → ∃ pre t' post,
  stamped t recs = pre ++ (rec, env_clock t') :: post ∧ rec ∉ post.*1 ∧ (t <= t' < t + length recs)%nat.
Proof.
  revert t. induction recs as [|x recs IH]; intros t; [by intros ?%elem_of_nil|].
  intros Hin. destruct (decide (rec ∈ recs)) as [Hr|Hr].
  - destruct (IH (S t) Hr) as (pre & t' & post & He & Hp & Ht). cbn [stamped length]. rewrite He.
    exists ((x, env_clock t) :: pre), t', post. split; [done|]. split; [done|lia].
  - apply elem_of_cons in Hin as [<-|?]; [|done]. exists [], t, (stamped (S t) recs).
    split; [done|]. rewrite (stamped_records (S t) recs). split; [done|simpl; lia].
Qed.
End Common.

Section Forward.
Context {BP : Build} {HI : HashIter} {EV : Env} (context : ServerContext).

Definition known_type (q : QueryType.t) : Prop := match q with QueryType.UNKNOWN _ => False | _ => True end.

(** Past the local answers, [resolve] asks the cache. *)
Lemma resolve_remote perform qname qtype w :
  known_type qtype → Authority.query qname qtype (authority context) = None → allow_recursive context = true →
  resolve context perform qname qtype true w =
  (let* qr := cache_lookup qname qtype in
   match qr with
   | Some qr => rret qr
   | None =>
       let* qr := cached_alias qname qtype in
       match qr with
       | Some qr => rret qr
       | None =>
           let* qr := ask_filters (filters context) qname qtype in
           match qr with Some packet => rret packet | None => perform qname qtype end
       end
   end) w.
Proof. intros Hk Ha Hr. unfold resolve. rewrite Ha, Hr. by destruct qtype. Qed.

Lemma cached_alias_missing qname qtype t c : (∀ n, Cache.get_cache_state qname QueryType.CNAME n c = NotCached) →
  ∃ t', (t <= t')%nat ∧ cached_alias qname qtype (mkWorld (SynchronizedCache.mk c false) t) =
    Ok (inr None, mkWorld (SynchronizedCache.mk c false) t').
Proof.
  intros Hn. unfold cached_alias. destruct (_ || _); [|by exists t]. exists (S (S (S t))). split; [lia|]. by apply cache_lookup_missing.
Qed.

(** Filters that let a question through. *)
Definition not_filtered (qname : rstr) (qtype : QueryType.t) : Prop :=
  Forall (λ f : nat → rstr → QueryType.t → outcome Empty_set (option DnsPacket.t), ∀ t, f t qname qtype = Ok None) (filters context).

Lemma ask_filters_none fs qname qtype c t :
  Forall (λ f : nat → rstr → QueryType.t → outcome Empty_set (option DnsPacket.t), ∀ t, f t qname qtype = Ok None) fs →
  ask_filters fs qname qtype (mkWorld c t) = Ok (inr None, mkWorld c (t + length fs)).
Proof.
  intros Hfs. revert t. induction Hfs as [|f fs Hf _ IH]; intros t; cbn [ask_filters length]; [by rewrite Nat.add_0_r|].
  unfold mbind_ at 1. cbn [tick obind ticks cache]. rewrite (mbind_run _ _ _ None (mkWorld c (S t))).
  2: { unfold mlift. by rewrite Hf. }
  rewrite IH. do 3 f_equal. lia.
Qed.

(** What an upstream replies to a question, over UDP or TCP, or over HTTPS when
    it is given by a URL. *)
Definition upstream_replies (qname : rstr) (qtype : QueryType.t) (p : DnsPacket.t) (u : rstr) : Prop :=
  ∀ t, if is_url u then has_doh_client context = true ∧ env_doh t qname qtype u true = Some p
       else env_query t qname qtype u true = Some p.

Lemma forward_query_run u qname qtype p c t : upstream_replies qname qtype p u →
  forward_query context u qname qtype (mkWorld c t) = Ok (inr p, mkWorld c (S t)).
Proof.
  intros Hu. unfold forward_query. specialize (Hu t). destruct (is_url u).
  - destruct Hu as [-> Hq]. unfold mbind_. cbn. by rewrite Hq.
  - unfold mbind_. cbn. by rewrite Hu.
Qed.

End Forward.

(** ** The recursive resolver *)
Section Release.
(** The release profile: counters wrap and storing never panics. *)
#[local] Instance release : Build := false.
Context {HI : HashIter} {EV : Env} (context : ServerContext).

Lemma add_release {E} w a b : ∃ n, add_w (E := E) w a b = Ok n.
Proof. unfold add_w, arith. destruct (fits _ _); by eexists. Qed.

Lemma store_release recs : ∀ c, ∃ c', Cache.store recs c = Ok (tt, c').
Proof.
  induction recs as [|[r n] recs IH]; intros c; [by eexists|].
  assert (∃ c1, Cache.store_one n r c = Ok (tt, c1)) as [c1 H1].
  { unfold Cache.store_one. destruct (DnsRecord.get_domain r) as [d|]; [|by eexists].
    rewrite store_record_eq. destruct (add_release (E := CacheError) 32 (DomainEntry.updates
      match Cache.entry_mut d c with Some rs => rs | None => DomainEntry.new d end) 1) as [m ->]. by eexists. }
  destruct (IH c1) as [c' H2]. exists c'. unfold Cache.store. cbn. by rewrite (mbind_run _ _ _ _ _ H1).
Qed.

Lemma discard_store_release recs w : ∃ w', discard (cache_store recs) w = Ok (inr tt, w').
Proof.
  destruct w as [[c poisoned] t]. unfold discard, cache_store, mbind_ at 1. unfold mbind_ at 1.
  rewrite (stamp_run recs). cbn. unfold SynchronizedCache.store, SynchronizedCache.locked. cbn.
  destruct poisoned; cbn; [by eexists|].
  destruct (store_release (stamped t recs) c) as [c' ->]. cbn. by eexists.
Qed.

Lemma store_sections_release p w : ∃ w', store_sections p w = Ok (inr tt, w').
Proof.
  unfold store_sections.
  destruct (discard_store_release (DnsPacket.answers p) w) as [w1 H1]. rewrite (rbind_run _ _ _ _ _ H1).
  destruct (discard_store_release (DnsPacket.authorities p) w1) as [w2 H2]. rewrite (rbind_run _ _ _ _ _ H2).
  apply discard_store_release.
Qed.

(** A reply that only refers to another name server and gives its address. *)
Definition referral (qname : rstr) (p : DnsPacket.t) : Prop :=
  DnsPacket.answers p = [] ∧ DnsHeader.rescode (DnsPacket.header p) = ResultCode.NOERROR ∧
  ∀ random, is_Some (DnsPacket.get_resolved_ns random p qname).

(** Nothing bounds the chain of referrals: as long as every name server
    asked refers to another one with its address (the same one will do), the
    recursive resolver does not return, however often the loop is run. *)
Theorem referrals_never_end (qname : rstr) (qtype : QueryType.t) (ns : rstr) (w : world) :
  (∀ t server, ∃ p, env_query t qname qtype server false = Some p ∧ referral qname p) →
  ∀ fuel, recursive_perform context fuel (Some ns) qname qtype w = OutOfFuel.
Proof.
  intros Hq fuel. revert ns w. induction fuel as [|fuel IH]; intros ns w; [done|].
  cbn [recursive_perform]. destruct w as [c t]. unfold mbind_ at 1. cbn [tick obind ticks cache].
  destruct (Hq t (ns ++ str ":53")) as (p & Hp & Ha & Hc & Hr). rewrite Hp. cbn [from_client].
  erewrite rbind_run; [|reflexivity]. rewrite Ha, Hc. cbn [negb].
  rewrite (bool_decide_true ([] = [])) by done. rewrite (bool_decide_false (_ = ResultCode.NXDOMAIN)) by done.
  cbn [negb andb]. unfold mbind_ at 1. cbn [tick obind ticks cache].
  destruct (Hr (env_random (S t))) as [ns' Hns]. rewrite Hns.
  destruct (store_sections_release p (mkWorld c (S (S t)))) as [w' Hs]. rewrite (rbind_run _ _ _ _ _ Hs).
  apply IH.
Qed.
End Release.

(** ** Examples *)
Module ResolveExamples.
Import ResolveTests.
#[local] Existing Instance CacheTests.in_order.
#[local] Existing Instance ascii_tables.
#[local] Instance release_build : Build := false.

(** A name server that refers to itself. *)
Definition self_referral : DnsPacket.t :=
  DnsPacket.mk DnsHeader.new [] [] [DnsRecord.NS (str "com") (str "ns.com") 60] [DnsRecord.A (str "ns.com") (Ipv4 10 0 0 1) 60].

Lemma referrals_never_end_witness :
  recursive_perform (EV := stub (λ _ _, self_referral)) (context Recursive) 1000 (Some (str "10.0.0.1"))
    google QueryType.A empty = OutOfFuel.
Proof.
  apply (referrals_never_end (EV := stub (λ _ _, self_referral)) (context Recursive) google QueryType.A).
  intros t server. exists self_referral. split; [reflexivity|]. split; [reflexivity|]. split; [reflexivity|].
  intros random. exists (str "10.0.0.1"). unfold DnsPacket.get_resolved_ns. cbn.
  destruct (random mod 1)%nat eqn:Hr; [vm_compute; reflexivity|]. rewrite Nat.mod_1_r in Hr. discriminate.
Defined.
End ResolveExamples.
