(* ===== verification/Server.v ===== *)
(** * The DNS server's answers (src/dns/server.rs, src/dns/netutil.rs)

    [execute_query], which turns a request into a reply, and the steps of the
    UDP and TCP threads from a request to the bytes that are sent; the threads
    themselves are in [Servers]. *)

From S2P Require Import Prelude Text Net Commons Buffer Protocol Cache Authority Resolve.
Open Scope Z_scope.

Section Server.
Context {BP : Build} {HI : HashIter} {EV : Env}.

(** [resolver.resolve] of the resolver of the request. *)
Context (resolve : rstr → QueryType.t → bool → R DnsPacket.t).

(** [resolve_cnames] at depth [11 - levels]; [results] is extended. *)
Fixpoint resolve_cnames (levels : nat) (lookup_list : list DnsRecord.t) (results : list DnsPacket.t)
    (qtype : QueryType.t) : M world Empty_set (list DnsPacket.t) :=
  match levels with
  | O => mret results
  | S levels =>
      (fix loop (recs : list DnsRecord.t) (results : list DnsPacket.t) : M world Empty_set (list DnsPacket.t) :=
         match recs with
         | [] => mret results
         | rec :: recs =>
             match rec with
             | DnsRecord.CNAME _ host _ | DnsRecord.SRV _ _ _ _ host _ =>
                 let? r := resolve host qtype true in
                 match r with
                 | inr result2 =>
                     let new_unmatched := DnsPacket.get_unresolved_cnames result2 qtype in
                     let? results := resolve_cnames levels new_unmatched (results ++ [result2]) qtype in
                     loop recs results
                 | inl _ => loop recs results
                 end
             | _ => loop recs results
             end
         end) lookup_list results
  end.

(** [if !v.contains(&rec) { v.push(rec) }] for each record. *)
Definition push_new (v : list DnsRecord.t) (recs : list DnsRecord.t) : list DnsRecord.t :=
  fold_left (λ v rec, if bool_decide (rec ∈ v) then v else v ++ [rec]) recs v.

(** The loop that collects the records of the results. *)
Definition merge_results (packet : DnsPacket.t) (results : list DnsPacket.t) : DnsPacket.t :=
  fold_left (λ packet result,
    DnsPacket.mk (DnsPacket.header packet) (DnsPacket.questions packet)
      (push_new (DnsPacket.answers packet) (DnsPacket.answers result))
      (push_new (DnsPacket.authorities packet) (DnsPacket.authorities result))
      (push_new (DnsPacket.resources packet) (DnsPacket.resources result))) results packet.

(** The header of every reply. *)
Definition reply_header (context : ServerContext) (request : DnsPacket.t) : DnsHeader.t :=
  DnsHeader.mk (DnsHeader.id (DnsPacket.header request))
    (DnsHeader.recursion_desired (DnsPacket.header request)) false false 0 true ResultCode.NOERROR
    false false false (allow_recursive context) 0 0 0 0.

Definition execute_query (context : ServerContext) (request : DnsPacket.t) : M world Empty_set DnsPacket.t :=
  let header := reply_header context request in
  if DnsHeader.recursion_desired (DnsPacket.header request) && negb (allow_recursive context) then
    mret (DnsPacket.mk (DnsHeader.set_rescode header ResultCode.REFUSED) [] [] [] [])
  else
    match DnsPacket.questions request with
    | [] => mret (DnsPacket.mk (DnsHeader.set_rescode header ResultCode.FORMERR) [] [] [] [])
    | question :: _ =>
        let qtype := DnsQuestion.qtype question in
        let? r := resolve (DnsQuestion.name question) qtype (DnsHeader.recursion_desired (DnsPacket.header request)) in
        let? (header, results) :=
          match r with
          | inr result =>
              let res_code := DnsHeader.rescode (DnsPacket.header result) in
              let header := if DnsHeader.authoritative_answer (DnsPacket.header result)
                            then DnsHeader.set_authoritative header else header in
              let unmatched := DnsPacket.get_unresolved_cnames result qtype in
              let? results := resolve_cnames 11 unmatched [result] qtype in
              mret (DnsHeader.set_rescode header res_code, results)
          | inl _ => mret (DnsHeader.set_rescode header ResultCode.SERVFAIL, [])
          end in
        mret (merge_results (DnsPacket.mk header [question] [] [] []) results)
    end.

(** The size a UDP reply may have: the packet size of a single OPT record, or the default. *)
Definition size_limit (request : DnsPacket.t) : nat :=
  match DnsPacket.resources request with
  | [DnsRecord.OPT packet_len _ _] => Z.to_nat packet_len
  | _ => 512 - 32
  end.

(** What a UDP thread sends for a request; an error of [write] is dropped. *)
Definition udp_reply (context : ServerContext) (request : DnsPacket.t) : M world Empty_set (option bytes) :=
  let? packet := execute_query context request in λ w,
  let sent res_buffer :=
    match VectorPacketBuffer.get_range 0 (VectorPacketBuffer.pos res_buffer) res_buffer with
    | Ok (data, _) => Ok (Some data, w)
    | Err _ => Ok (None, w)
    | Panic => Panic
    | OutOfFuel => OutOfFuel
    end in
  match DnsPacket.write packet (size_limit request) VectorPacketBuffer.new with
  | Ok (_, res_buffer) => sent res_buffer
  | Err _ => sent VectorPacketBuffer.new
  | Panic => Panic
  | OutOfFuel => OutOfFuel
  end.

(** [write_packet_length] and [read_packet_length] of netutil.rs. *)
Definition packet_length_bytes (len : Z) : bytes := [wrap 8 (Z.shiftr len 8); wrap 8 (Z.land len 255)].
Definition read_packet_length (b0 b1 : Z) : Z := Z.lor (Z.shiftl b0 8) b1.

(** What a TCP thread sends: the length and the packet. *)
Definition tcp_reply (context : ServerContext) (request : DnsPacket.t) : M world Empty_set (option bytes) :=
  let? packet := execute_query context request in λ w,
  match DnsPacket.write packet (Z.to_nat 65535) VectorPacketBuffer.new with
  | Ok (_, res_buffer) =>
      let len := VectorPacketBuffer.pos res_buffer in
      match VectorPacketBuffer.get_range 0 len res_buffer with
      | Ok (data, _) => Ok (Some (packet_length_bytes (Z.of_nat len) ++ data), w)
      | Err _ => Ok (None, w)
      | Panic => Panic
      | OutOfFuel => OutOfFuel
      end
  | Err _ => Ok (None, w)
  | Panic => Panic
  | OutOfFuel => OutOfFuel
  end.
End Server.

(** The check of the UDP listener for a request that was sent again: skipped
    within 100 ms; [last] is the entry of the LRU cache for source and id. *)
Definition resent (last : option Z) (cur_time : Z) : bool :=
  match last with Some time => cur_time <? time + 100 | None => false end.
