(* ===== verification/ServerProps.v ===== *)
(** * Properties of the DNS server's answers

    Every request gets a well-formed reply as long as the resolver returns; the
    aliases are followed to a bounded depth. *)

From S2P Require Import Prelude Text Net Commons Buffer Protocol Cache Authority Resolve Server.
Open Scope nat_scope.

Section Server.
Context {BP : Build} {HI : HashIter} {EV : Env}.
Context (resolve : rstr → QueryType.t → bool → R DnsPacket.t).

(** The resolver returns, with a packet or an error. *)
Definition returns : Prop := ∀ qname qtype recursive w, ∃ r w', resolve qname qtype recursive w = Ok (r, w').

(** ** Following aliases *)

(** The most results that [levels] levels add for one record, when a reply
    leaves at most [k] aliases unresolved. *)
Fixpoint cost (k levels : nat) : nat :=
  match levels with O => 0 | S levels => 1 + k * cost k levels end.

Lemma cost_sum k levels : cost k levels = sum_list ((λ i, k ^ i) <$> seq 0 levels).
Proof.
  induction levels as [|levels IH]; [done|]. cbn [cost seq]. rewrite IH, fmap_cons. cbn [Nat.pow].
  change (sum_list (1 :: ?l)) with (1 + sum_list l). f_equal. rewrite <- fmap_S_seq, <- list_fmap_compose. clear IH.
  induction (seq 0 levels) as [|i l IH]; [cbn; lia|]. rewrite !fmap_cons. cbn in *. lia.
Qed.

Definition few_aliases (k : nat) (qtype : QueryType.t) : Prop :=
  ∀ qname w p w', resolve qname qtype true w = Ok (inr p, w') →
    length (DnsPacket.get_unresolved_cnames p qtype) ≤ k.

(** The host that an alias leads to. *)
Definition alias_host (rec : DnsRecord.t) : option rstr :=
  match rec with
  | DnsRecord.CNAME _ host _ | DnsRecord.SRV _ _ _ _ host _ => Some host
  | _ => None
  end.

(** [leads_to qtype n recs w more w']: followed in their order, the aliases of
    [recs] lead from the world [w] to the packets [more] and the world [w']. The
    host of each alias is asked for; an error is passed over; behind a packet come
    those to which the aliases lead that it leaves open, and then those of the
    next alias; [n] aliases in a row are followed at most. *)
Inductive leads_to (qtype : QueryType.t) : nat → list DnsRecord.t → world → list DnsPacket.t → world → Prop :=
  | leads_too_deep recs w : leads_to qtype 0 recs w [] w
  | leads_end n w : leads_to qtype n [] w [] w
  | leads_skip n rec recs w more w' : alias_host rec = None →
      leads_to qtype (S n) recs w more w' → leads_to qtype (S n) (rec :: recs) w more w'
  | leads_error n rec recs w host e w1 more w' : alias_host rec = Some host → resolve host qtype true w = Ok (inl e, w1) →
      leads_to qtype (S n) recs w1 more w' → leads_to qtype (S n) (rec :: recs) w more w'
  | leads_packet n rec recs w host p w1 inner w2 more w' : alias_host rec = Some host →
      resolve host qtype true w = Ok (inr p, w1) →
      leads_to qtype n (DnsPacket.get_unresolved_cnames p qtype) w1 inner w2 →
      leads_to qtype (S n) recs w2 more w' →
      leads_to qtype (S n) (rec :: recs) w (p :: inner ++ more) w'.

(** [resolve_cnames] follows them. *)
Lemma leads_run qtype n recs w more w' : leads_to qtype n recs w more w' →
  ∀ results, resolve_cnames resolve n recs results qtype w = Ok (results ++ more, w').
Proof.
  induction 1 as [| |n rec recs w more w' Hh _ IH|n rec recs w host e w1 more w' Hh Hr _ IH
    |n rec recs w host p w1 inner w2 more w' Hh Hr _ IH1 _ IH2]; intros results.
  - cbn. by rewrite app_nil_r.
  - destruct n; cbn; by rewrite app_nil_r.
  - rewrite <- IH. by destruct rec.
  - rewrite <- IH. destruct rec; try done; injection Hh as ->; cbn [resolve_cnames]; by rewrite (mbind_run _ _ _ _ _ Hr).
  - assert (results ++ p :: inner ++ more = ((results ++ [p]) ++ inner) ++ more) as -> by by rewrite <- !app_assoc.
    rewrite <- IH2. destruct rec; try done; injection Hh as ->; cbn [resolve_cnames];
      rewrite (mbind_run _ _ _ _ _ Hr); cbv zeta; by rewrite (mbind_run _ _ _ _ _ (IH1 _)).
Qed.

Lemma leads_exist k qtype levels : returns → ∀ lst w, ∃ more w',
  leads_to qtype levels lst w more w' ∧ (few_aliases k qtype → length more ≤ length lst * cost k levels).
Proof.
  intros Hret. induction levels as [|levels IH]; [intros lst w; exists [], w; split; [constructor|simpl; lia]|].
  intros lst. induction lst as [|rec lst IHl]; intros w; [exists [], w; split; [constructor|simpl; lia]|].
  destruct (alias_host rec) as [host|] eqn:Hh.
  2: { destruct (IHl w) as (more & w' & Hm & Hl). exists more, w'. split; [by apply leads_skip|]. intros Hk. specialize (Hl Hk). simpl in *. lia. }
  destruct (Hret host qtype true w) as ([e|p] & w1 & Hr).
  { destruct (IHl w1) as (more & w' & Hm & Hl). exists more, w'. split; [by eapply leads_error|]. intros Hk. specialize (Hl Hk). simpl in *. lia. }
  destruct (IH (DnsPacket.get_unresolved_cnames p qtype) w1) as (m1 & w2 & Hm1 & Hl1).
  destruct (IHl w2) as (m2 & w3 & Hm2 & Hl2). exists (p :: m1 ++ m2), w3. split; [by eapply leads_packet|].
  intros Hk. specialize (Hl1 Hk). specialize (Hl2 Hk). pose proof (Hk _ _ _ _ Hr) as Hlen.
  assert (length m1 ≤ k * cost k levels) by (etransitivity; [done|]; by apply Nat.mul_le_mono_r).
  cbn [length cost Nat.mul] in *. rewrite length_app. lia.
Qed.

(** ** Collecting records *)

Lemma push_new_spec recs : ∀ v, NoDup v →
  NoDup (push_new v recs) ∧ ∀ r, r ∈ push_new v recs ↔ r ∈ v ∨ r ∈ recs.
Proof.
  unfold push_new. induction recs as [|x recs IH]; intros v Hv; cbn [fold_left].
  - split; [done|]. intros r. rewrite elem_of_nil. tauto.
  - case_bool_decide as Hx.
    + destruct (IH v Hv) as [? Hin]. split; [done|]. intros r. rewrite Hin, elem_of_cons.
      split; [tauto|]. intros [?|[->|?]]; auto.
    + destruct (IH (v ++ [x])) as [? Hin].
      { apply NoDup_app. split; [done|]. split; [|apply NoDup_singleton].
        intros y Hy ->%list_elem_of_singleton. done. }
      split; [done|]. intros r. rewrite Hin, elem_of_app, list_elem_of_singleton, elem_of_cons. tauto.
Qed.

(** A section of the merged packet holds the section's records of the results, each once. *)
Definition collects (section : DnsPacket.t → list DnsRecord.t) (packet : DnsPacket.t) (results : list DnsPacket.t) : Prop :=
  NoDup (section packet) ∧ ∀ r, r ∈ section packet ↔ ∃ result, result ∈ results ∧ r ∈ section result.

Lemma merge_spec header questions results :
  let p := merge_results (DnsPacket.mk header questions [] [] []) results in
  DnsPacket.header p = header ∧ DnsPacket.questions p = questions ∧
  collects DnsPacket.answers p results ∧ collects DnsPacket.authorities p results ∧
  collects DnsPacket.resources p results.
Proof.
  unfold merge_results. induction results as [|x results IH] using rev_ind.
  - cbn. split; [done|]. split; [done|]. unfold collects. cbn.
    assert (NoDup (@nil DnsRecord.t) ∧ ∀ section : DnsPacket.t → list DnsRecord.t, ∀ r,
      r ∈ @nil DnsRecord.t ↔ ∃ result, result ∈ @nil DnsPacket.t ∧ r ∈ section result) as [? Hs].
    { split; [constructor|]. intros section r. split; [by intros ?%elem_of_nil|]. by intros (? & ?%elem_of_nil & _). }
    repeat split; first [done | apply Hs].
  - rewrite fold_left_app. cbn [fold_left]. set (p := fold_left _ results _) in *.
    destruct IH as (Hh & Hq & Han & Hau & Hre). cbn.
    assert (Hc : ∀ section, collects section p results →
      NoDup (push_new (section p) (section x)) ∧
      ∀ r, r ∈ push_new (section p) (section x) ↔ ∃ result, result ∈ results ++ [x] ∧ r ∈ section result).
    { intros section [Hnd Hin]. destruct (push_new_spec (section x) (section p) Hnd) as [? Hp].
      split; [done|]. intros r. rewrite Hp, Hin. setoid_rewrite elem_of_app. setoid_rewrite list_elem_of_singleton.
      split; [intros [(y & ? & ?)|?]; eauto|]. intros (y & [?| ->] & ?); eauto. }
    do 2 (split; [done|]). split; [|split]; by apply Hc.
Qed.

(** ** Replies *)

(** A response to [request] with this code and these questions. *)
Definition responds (context : ServerContext) (request : DnsPacket.t) (code : ResultCode.t) (questions : list DnsQuestion.t)
    (p : DnsPacket.t) : Prop :=
  let h := DnsPacket.header p in
  DnsHeader.id h = DnsHeader.id (DnsPacket.header request) ∧
  DnsHeader.recursion_desired h = DnsHeader.recursion_desired (DnsPacket.header request) ∧
  DnsHeader.response h = true ∧ DnsHeader.recursion_available h = allow_recursive context ∧
  DnsHeader.rescode h = code ∧ DnsPacket.questions p = questions.

(** The same without records. *)
Definition responds_empty (context : ServerContext) (request : DnsPacket.t) (code : ResultCode.t)
    (questions : list DnsQuestion.t) (p : DnsPacket.t) : Prop :=
  responds context request code questions p ∧
  DnsPacket.answers p = [] ∧ DnsPacket.authorities p = [] ∧ DnsPacket.resources p = [].

(** C35: the reply to every request. [execute_query] answers with the id and the
    recursion flag of the request: REFUSED without a question when recursion is
    asked for and not offered, and FORMERR when there is no question, both
    without the resolver. Otherwise the resolver is asked the first question,
    which the reply repeats: an error makes SERVFAIL without records; a panic of
    the resolver, or a resolution that does not end, is one of the request. A
    packet gives the reply its code and its authority flag, and the sections of
    the reply hold exactly the records of that packet and of the packets to which
    its open aliases lead when they are followed ([leads_to]: the resolver's own
    answers, asked in that order, to a depth of 11), no record twice. Where the
    resolver always returns, following the aliases comes to an end. *)
Theorem execute_query_reply (context : ServerContext) (request : DnsPacket.t) (w : world) :
  let run := execute_query resolve context request w in
  let rd := DnsHeader.recursion_desired (DnsPacket.header request) in
  if rd && negb (allow_recursive context) then
    ∃ p, run = Ok (p, w) ∧ responds_empty context request ResultCode.REFUSED [] p
  else match DnsPacket.questions request with
  | [] => ∃ p, run = Ok (p, w) ∧ responds_empty context request ResultCode.FORMERR [] p
  | q :: _ =>
      match resolve (DnsQuestion.name q) (DnsQuestion.qtype q) rd w with
      | Panic => run = Panic
      | OutOfFuel => run = OutOfFuel
      | Err e => match e with end
      | Ok (inl _, w1) => ∃ p, run = Ok (p, w1) ∧ responds_empty context request ResultCode.SERVFAIL [q] p
      | Ok (inr result, w1) =>
          let open := DnsPacket.get_unresolved_cnames result (DnsQuestion.qtype q) in
          (∀ more w2, leads_to (DnsQuestion.qtype q) 11 open w1 more w2 →
             ∃ p, run = Ok (p, w2) ∧ responds context request (DnsHeader.rescode (DnsPacket.header result)) [q] p ∧
               DnsHeader.authoritative_answer (DnsPacket.header p) = DnsHeader.authoritative_answer (DnsPacket.header result) ∧
               collects DnsPacket.answers p (result :: more) ∧ collects DnsPacket.authorities p (result :: more) ∧
               collects DnsPacket.resources p (result :: more)) ∧
          (returns → ∃ more w2, leads_to (DnsQuestion.qtype q) 11 open w1 more w2)
      end
  end.
Proof.
  intros run rd. subst run rd. unfold execute_query.
  destruct (_ && _); [by eexists|]. destruct (DnsPacket.questions request) as [|q qs]; [by eexists|].
  destruct (resolve _ _ _ w) as [[[e|result] w1]|[]| |] eqn:Hr.
  - rewrite (mbind_run _ _ _ _ _ Hr). by eexists.
  - rewrite (mbind_run _ _ _ _ _ Hr). set (open := DnsPacket.get_unresolved_cnames result (DnsQuestion.qtype q)).
    split; [|intros Hret; destruct (leads_exist 0 (DnsQuestion.qtype q) 11 Hret open w1) as (more & w2 & ? & _); eauto].
    intros more w2 Hm. set (header := DnsHeader.set_rescode
      (if DnsHeader.authoritative_answer (DnsPacket.header result)
       then DnsHeader.set_authoritative (reply_header context request) else reply_header context request)
      (DnsHeader.rescode (DnsPacket.header result))).
    pose proof (merge_spec header [q] ([result] ++ more)) as (Hh & Hq & Hrest). eexists. split.
    { rewrite (mbind_run _ _ w1 (header, [result] ++ more) w2); [reflexivity|].
      by rewrite (mbind_run _ _ _ _ _ (leads_run _ _ _ _ _ _ Hm [result])). }
    unfold responds. rewrite Hh, Hq. split; [|split]; [|unfold header; by destruct (DnsHeader.authoritative_answer (DnsPacket.header result))|done].
    unfold header. by destruct (DnsHeader.authoritative_answer (DnsPacket.header result)).
  - unfold mbind_ at 1. by rewrite Hr.
  - unfold mbind_ at 1. by rewrite Hr.
Qed.

(** Aliases are followed to a bounded depth: when a reply of the resolver
    leaves at most [k] aliases unresolved, following [n] aliases of a result
    adds at most [n * (1 + k + ... + k^10)] packets, one for each query made
    that succeeds: a chain of aliases ([k = 1]) costs at most 11 queries; and
    the following always ends when the resolver returns. *)
Theorem aliases_bounded (k : nat) (qtype : QueryType.t) (lst : list DnsRecord.t) (results : list DnsPacket.t) (w : world) :
  returns → few_aliases k qtype →
  ∃ more w', resolve_cnames resolve 11 lst results qtype w = Ok (results ++ more, w') ∧
    length more ≤ length lst * sum_list ((λ i, k ^ i) <$> seq 0 11).
Proof.
  intros Hret Hk. destruct (leads_exist k qtype 11 Hret lst w) as (more & w' & Hr & Hl).
  exists more, w'. split; [by apply leads_run|]. specialize (Hl Hk). etransitivity; [exact Hl|].
  by rewrite cost_sum.
Qed.
End Server.

(** ** Examples *)
Module ServerExamples.
Import ResolveTests.
#[local] Existing Instance CacheTests.in_order.
#[local] Existing Instance ascii_tables.
Definition www_ms := str "www.microsoft.com".
Definition cdn_ms := str "cdn.microsoft.com".

(** The callback of [tests::test_execute_query] for addresses and aliases. *)
Definition callback (qname : rstr) : DnsPacket.t :=
  if bool_decide (qname = google) then a_answer 0 google
  else if bool_decide (qname = www_ms) then
    DnsPacket.mk DnsHeader.new [] [DnsRecord.CNAME www_ms cdn_ms 3600] [] []
  else if bool_decide (qname = cdn_ms) then a_answer 0 cdn_ms
  else nx.
Definition build_query (qname : rstr) (qtype : QueryType.t) : DnsPacket.t :=
  DnsPacket.mk (DnsHeader.mk 77 true false false 0 false ResultCode.NOERROR false false false false 0 0 0 0)
    [DnsQuestion.new qname qtype] [] [] [].

Definition forward_context : ServerContext := context (Forward [str "127.0.0.1:53"]).
#[local] Instance stub_env : Env := stub (λ qname _, callback qname).

Definition execute {BP : Build} (request : DnsPacket.t) : option (ResultCode.t * list DnsRecord.t) :=
  match execute_query (resolver forward_context 0) forward_context request empty with
  | Ok (p, _) => Some (DnsHeader.rescode (DnsPacket.header p), DnsPacket.answers p)
  | _ => None
  end.

Example test_execute_query (BP : Build) :
  execute (build_query google QueryType.A) = Some (ResultCode.NOERROR, [DnsRecord.A google (Ipv4 127 0 0 1) 3600]) ∧
  execute (build_query www_ms QueryType.A) =
    Some (ResultCode.NOERROR, [DnsRecord.CNAME www_ms cdn_ms 3600; DnsRecord.A cdn_ms (Ipv4 127 0 0 1) 3600]) ∧
  execute (build_query (str "yahoo.com") QueryType.A) = Some (ResultCode.NXDOMAIN, []) ∧
  execute DnsPacket.new = Some (ResultCode.FORMERR, []).
Proof. destruct BP; vm_compute; done. Qed.

(** A resolver that answers from the callback alone. *)
Definition direct (qname : rstr) (qtype : QueryType.t) (recursive : bool) : R DnsPacket.t := rret (callback qname).
Lemma direct_returns : returns direct.
Proof. intros qname qtype recursive w. do 2 eexists. reflexivity. Defined.

(** An alias is followed. *)
Lemma execute_query_reply_witness : ∃ p,
  execute_query direct forward_context (build_query www_ms QueryType.A) empty = Ok (p, empty) ∧
  DnsHeader.id (DnsPacket.header p) = 77%Z ∧ DnsPacket.questions p = [DnsQuestion.new www_ms QueryType.A] ∧
  ∀ r, r ∈ DnsPacket.answers p ↔ r ∈ [DnsRecord.CNAME www_ms cdn_ms 3600; DnsRecord.A cdn_ms (Ipv4 127 0 0 1) 3600].
Proof.
  destruct (execute_query_reply direct forward_context (build_query www_ms QueryType.A) empty) as [H _].
  destruct (H [a_answer 0 cdn_ms] empty) as (p & Hr & (Hid & _ & _ & _ & _ & Hq) & _ & [_ Ha] & _).
  - change [a_answer 0 cdn_ms] with ([a_answer 0 cdn_ms] ++ [] ++ []).
    eapply leads_packet; [reflexivity|reflexivity|apply leads_end|apply leads_end].
  - exists p. split; [exact Hr|]. split; [exact Hid|]. split; [exact Hq|]. intros r. rewrite Ha. split.
    + intros (x & Hx & Hrx). repeat (apply elem_of_cons in Hx as [->|Hx]); [..|by apply elem_of_nil in Hx]; simpl in Hrx;
        apply list_elem_of_singleton in Hrx as ->; [by left|by right; left].
    + intros Hrx. repeat (apply elem_of_cons in Hrx as [->|Hrx]); [..|by apply elem_of_nil in Hrx].
      * eexists. split; [by left|]. by left.
      * eexists. split; [right; by left|]. by left.
Defined.

Lemma direct_aliases : few_aliases direct 1 QueryType.A.
Proof.
  intros qname w p w' H. unfold direct, rret, mret in H. injection H as <- <-. unfold callback.
  repeat case_bool_decide; vm_compute; lia.
Qed.

Lemma aliases_bounded_witness : ∃ more w',
  resolve_cnames direct 11 [DnsRecord.CNAME www_ms cdn_ms 60] [] QueryType.A empty = Ok ([] ++ more, w') ∧
  length more ≤ 11.
Proof.
  destruct (aliases_bounded direct 1 QueryType.A [DnsRecord.CNAME www_ms cdn_ms 60] [] empty direct_returns direct_aliases)
    as (more & w' & Hr & Hl).
  exists more, w'. split; [exact Hr|exact Hl].
Defined.
End ServerExamples.
