(* ===== verification/Client.v ===== *)
(** * The DNS client (src/dns/client.rs)

    Queries over UDP are sent by the threads that make them, answers are read
    by two worker threads (one for each socket) and handed over through a
    channel, and a third thread gives up old queries. The three share the list
    of pending queries behind a mutex, which a panic of its holder poisons.

    A state has the counters, the list, the threads and every call made so
    far; an [action] is what one thread does between two points where another
    one can interfere. Sockets, name lookups and clocks are arguments of the
    actions. The client for DNS over HTTPS comes last. *)

From stdpp Require Import sorting.
From S2P Require Import Prelude Text Net Buffer Protocol Server.
Open Scope Z_scope.

Inductive ClientError := Protocol (e : ProtocolError) | Io | PoisonedLock | LookupFailed | TimeOut.
#[export] Instance protocol_to_client : From ProtocolError ClientError := Protocol.

(** Fuel for reading a name from a buffer of 512 bytes: one more iteration than
    the buffer has bytes. *)
Definition udp_fuel : nat := 513.

Module Client.

(** ** Data *)

(** [pq_tx]: the sending half of the channel of the call with that number. *)
Record PendingQuery := mkPending { pq_seq : Z; pq_timestamp : Z; pq_tx : nat }.

(** The arguments of a call. [Query] is [send_query], the other two the methods
    it uses. *)
Inductive method := UdpQuery | TcpQuery | Query.
#[export] Instance method_eq_dec : EqDecision method.
Proof. solve_decision. Defined.

Record request := mkRequest { qname : rstr; qtype : QueryType.t; recursive : bool }.

(** How far a call has come. *)
Inductive stage :=
  | Called
  | Numbered
  | Prepared
  | Registered
  | Waiting
  | Returned (r : outcome ClientError DnsPacket.t).

(** [number] is [packet.header.id]; [inbox] what the channel holds. *)
Record call := mkCall {
  how : method;
  asked : request;
  number : Z;
  at_stage : stage;
  inbox : list (option DnsPacket.t);
}.

Definition set_stage (c : call) (s : stage) : call := mkCall (how c) (asked c) (number c) s (inbox c).
Definition set_number (c : call) (n : Z) : call := mkCall (how c) (asked c) n (at_stage c) (inbox c).
Definition set_inbox (c : call) (b : list (option DnsPacket.t)) : call :=
  mkCall (how c) (asked c) (number c) (at_stage c) b.

(** A thread that has not been started, runs, has left its loop, has panicked,
    or is in a loop of the packet parser that does not end. *)
Inductive thread := Idle | Running | Finished | Panicked | Looping.
#[export] Instance thread_eq_dec : EqDecision thread.
Proof. solve_decision. Defined.

Record t := mk {
  total_sent : Z;
  total_failed : Z;
  seq : Z;
  pending_queries : list PendingQuery;
  poisoned : bool;
  stopped : bool;
  worker : bool → thread;
  timer : thread;
  calls : gmap nat call;
  (** what was given to the sockets *)
  datagrams : list (SocketAddr * bytes);
}.

Definition set_counters (s : t) (sent failed seq : Z) : t :=
  mk sent failed seq (pending_queries s) (poisoned s) (stopped s) (worker s) (timer s) (calls s) (datagrams s).
Definition set_pending (s : t) (l : list PendingQuery) : t :=
  mk (total_sent s) (total_failed s) (seq s) l (poisoned s) (stopped s) (worker s) (timer s) (calls s) (datagrams s).
Definition set_poisoned (s : t) : t :=
  mk (total_sent s) (total_failed s) (seq s) (pending_queries s) true (stopped s) (worker s) (timer s) (calls s)
    (datagrams s).
Definition set_worker (s : t) (v6 : bool) (w : thread) : t :=
  mk (total_sent s) (total_failed s) (seq s) (pending_queries s) (poisoned s) (stopped s)
    (λ v, if bool_decide (v = v6) then w else worker s v) (timer s) (calls s) (datagrams s).
Definition set_timer (s : t) (w : thread) : t :=
  mk (total_sent s) (total_failed s) (seq s) (pending_queries s) (poisoned s) (stopped s) (worker s) w (calls s)
    (datagrams s).
Definition set_call (s : t) (i : nat) (c : call) : t :=
  mk (total_sent s) (total_failed s) (seq s) (pending_queries s) (poisoned s) (stopped s) (worker s) (timer s)
    (<[i := c]> (calls s)) (datagrams s).
Definition set_datagrams (s : t) (l : list (SocketAddr * bytes)) : t :=
  mk (total_sent s) (total_failed s) (seq s) (pending_queries s) (poisoned s) (stopped s) (worker s) (timer s)
    (calls s) l.

(** [DnsNetworkClient::new], with whether the two sockets could be bound. *)
Definition new {BP : Build} (port : Z) (bound4 bound6 : bool) : outcome ClientError t :=
  if negb bound4 then Panic else
  let! _ := add_w (E := ClientError) 16 port 1 in
  if negb bound6 then Panic else
  Ok (mk 0 0 0 [] false false (λ _, Idle) Idle ∅ []).

(** [run], with whether each thread could be started. *)
Definition run (s : t) (started : bool * bool * bool) : outcome ClientError unit * t :=
  let '(a, b, c) := started in
  if negb a then (Err Io, s) else
  let s := set_worker s false Running in
  if negb b then (Err Io, s) else
  let s := set_worker s true Running in
  if negb c then (Err Io, s) else
  (Ok tt, set_timer s Running).

Definition stop (s : t) : t :=
  mk (total_sent s) (total_failed s) (seq s) (pending_queries s) (poisoned s) true (worker s) (timer s) (calls s)
    (datagrams s).

Definition get_sent_count (s : t) : Z := total_sent s.
Definition get_failed_count (s : t) : Z := total_failed s.

Section Ops.
Context {BP : Build} {U : Unicode}.

(** ** Numbers of queries *)

(** [seq.fetch_add(1) as u16]: the number and the new counter. *)
Definition fetch_number (seq : Z) : Z * Z := (wrap 16 seq, wrap 64 (seq + 1)).

(** [if packet.header.id + 1 == 0xFFFF { seq.compare_exchange(0xFFFF, 0) }] *)
Definition reset_number (id seq : Z) : outcome ClientError Z :=
  let! next := add_w (E := ClientError) 16 id 1 in
  Ok (if (next =? 65535) && (seq =? 65535) then 0 else seq).

Definition take_number (s : t) (c : call) : t * call :=
  let (id, next) := fetch_number (seq s) in
  (set_counters s (wrap 64 (total_sent s + 1)) (total_failed s) next, set_stage (set_number c id) Numbered).

Definition wrap_number (s : t) (c : call) : t * call :=
  match reset_number (number c) (seq s) with
  | Ok seq => (set_counters s (total_sent s) (total_failed s) seq, set_stage c Prepared)
  | _ => (s, set_stage c (Returned Panic))
  end.

(** The packet of a call. *)
Definition query_packet (c : call) : DnsPacket.t :=
  DnsPacket.mk
    (DnsHeader.mk (number c) (recursive (asked c)) false false 0 false ResultCode.NOERROR
       false false false false 1 0 0 0)
    [DnsQuestion.new (qname (asked c)) (qtype (asked c))] [] [] [].

(** ** Over UDP *)

(** Adding to the list of pending queries. *)
Definition register (s : t) (i : nat) (c : call) (now : Z) : t * call :=
  if poisoned s then (s, set_stage c (Returned (Err PoisonedLock))) else
  (set_pending s (pending_queries s ++ [mkPending (number c) now i]), set_stage c Registered).

(** Writing the packet and sending it. [addrs] is the result of
    [to_socket_addrs], [sent] that of [send_to]. *)
Definition send_udp (s : t) (c : call) (addrs : option (list SocketAddr)) (sent : bool) : t * call :=
  match DnsPacket.write (query_packet c) 512 BytePacketBuffer.new with
  | Ok (_, req_buffer) =>
      match addrs with
      | None => (s, set_stage c (Returned (Err Io)))
      | Some [] => (s, set_stage c (Returned Panic))
      | Some (addr :: _) =>
          if sent then
            (set_datagrams s (datagrams s ++
               [(addr, take (BytePacketBuffer.pos req_buffer) (BytePacketBuffer.buf req_buffer))]),
             set_stage c Waiting)
          else (s, set_stage c (Returned (Err Io)))
      end
  | Err e => (s, set_stage c (Returned (Err (Protocol e))))
  | Panic => (s, set_stage c (Returned Panic))
  | OutOfFuel => (s, set_stage c (Returned OutOfFuel))
  end.

Definition count_failed (s : t) : t :=
  set_counters s (total_sent s) (wrap 64 (total_failed s + 1)) (seq s).

(** The channel of call [i] still has a sending half. *)
Definition has_sender (s : t) (i : nat) : bool :=
  existsb (λ p, bool_decide (pq_tx p = i)) (pending_queries s).

(** The end of [send_query]: a truncated answer is asked for again over TCP. *)
Definition answer (c : call) (p : DnsPacket.t) : call :=
  if bool_decide (how c = Query) && DnsHeader.truncated_message (DnsPacket.header p)
  then mkCall TcpQuery (asked c) (number c) Called []
  else set_inbox (set_stage c (Returned (Ok p))) [].

(** [rx.recv()] and the rest of [send_udp_query]; [None] while it blocks. *)
Definition receive (s : t) (i : nat) (c : call) : option (t * call) :=
  match inbox c with
  | Some qr :: _ => Some (s, answer c qr)
  | None :: _ => Some (count_failed s, set_inbox (set_stage c (Returned (Err TimeOut))) [])
  | [] => if has_sender s i then None
          else Some (count_failed s, set_stage c (Returned (Err LookupFailed)))
  end.

(** ** Over TCP *)

(** What a connection does: whether it is made, takes what is written, and
    which bytes come back before it ends. *)
Record connection := mkConn { connects : bool; takes : bool; replies : bytes }.

(** [send_tcp_query] from writing the packet on: the result and the bytes
    written. *)
Definition tcp_exchange (c : call) (conn : connection) : outcome ClientError DnsPacket.t * bytes :=
  match DnsPacket.write (query_packet c) (Z.to_nat 65535) BytePacketBuffer.new with
  | Ok (_, req_buffer) =>
      if negb (connects conn) then (Err Io, []) else
      if negb (takes conn) then (Err Io, []) else
      let pos := BytePacketBuffer.pos req_buffer in
      let written := packet_length_bytes (Z.of_nat pos) ++ take pos (BytePacketBuffer.buf req_buffer) in
      match replies conn with
      | _ :: _ :: stream =>
          match DnsPacket.from_buffer (S (length stream)) (StreamPacketBuffer.new stream) with
          | Ok (packet, _) => (Ok packet, written)
          | Err e => (Err (Protocol e), written)
          | Panic => (Panic, written)
          | OutOfFuel => (OutOfFuel, written)
          end
      | _ => (Err Io, written)
      end
  | Err e => (Err (Protocol e), [])
  | Panic => (Panic, [])
  | OutOfFuel => (OutOfFuel, [])
  end.

(** ** The worker threads *)

(** [recv_from] into a new buffer; what does not fit is lost. *)
Definition received_buffer (data : bytes) : BytePacketBuffer.t :=
  BytePacketBuffer.mk (take 512 (data ++ replicate 512 0)) 0.

Definition parse (data : bytes) : outcome ProtocolError DnsPacket.t :=
  let! (packet, _) := DnsPacket.from_buffer udp_fuel (received_buffer data) in Ok packet.

(** [tx.send(message)]: lost when the call has ended. *)
Definition tx_send (s : t) (i : nat) (message : option DnsPacket.t) : t :=
  match calls s !! i with
  | Some c =>
      match at_stage c with
      | Returned _ => s
      | _ => set_call s i (set_inbox c (inbox c ++ [message]))
      end
  | None => s
  end.

(** The first pending query with the number, and its place. *)
Fixpoint find_pending (l : list PendingQuery) (id : Z) (i : nat) : option (nat * PendingQuery) :=
  match l with
  | [] => None
  | p :: l => if pq_seq p =? id then Some (i, p) else find_pending l id (S i)
  end.

(** Delivering a packet; without a matching query [packet.questions[0]] is
    printed, and the panic when there is none happens with the lock held. *)
Definition deliver (s : t) (v6 : bool) (packet : DnsPacket.t) : t :=
  if poisoned s then s else
  match find_pending (pending_queries s) (DnsHeader.id (DnsPacket.header packet)) 0 with
  | Some (i, p) => set_pending (tx_send s (pq_tx p) (Some packet)) (delete i (pending_queries s))
  | None =>
      match DnsPacket.questions packet with
      | [] => set_worker (set_poisoned s) v6 Panicked
      | _ :: _ => s
      end
  end.

(** One turn of a worker; [data] is what [recv_from] gives, [None] for an error
    or after half a second. *)
Definition worker_turn (s : t) (v6 : bool) (data : option bytes) : option t :=
  if negb (bool_decide (worker s v6 = Running)) then None else
  if stopped s then Some (set_worker s v6 Finished) else
  match data with
  | None => Some s
  | Some data =>
      Some match parse data with
           | Ok packet => deliver s v6 packet
           | Err _ => s
           | Panic => set_worker s v6 Panicked
           | OutOfFuel => set_worker s v6 Looping
           end
  end.

(** ** The timeout thread *)

Definition TIMEOUT : Z := 5000.

(** The loop over the pending queries, with the clock as each is looked at;
    the places of the expired ones are returned. *)
Fixpoint expire (now : nat → Z) (l : list PendingQuery) (i : nat) (s : t) : t * list nat :=
  match l with
  | [] => (s, [])
  | p :: l =>
      if pq_timestamp p + TIMEOUT <? now i then
        let (s, finished_queries) := expire now l (S i) (tx_send s (pq_tx p) None) in
        (s, i :: finished_queries)
      else expire now l (S i) s
  end.

Definition timer_turn (s : t) (now : nat → Z) : option t :=
  if negb (bool_decide (timer s = Running)) then None else
  if stopped s then Some (set_timer s Finished) else
  if poisoned s then Some s else
  let (s, finished_queries) := expire now (pending_queries s) 0 s in
  Some (set_pending s (foldl (λ l idx, delete idx l) (pending_queries s) (reverse finished_queries))).

(** ** Runs *)

Inductive action :=
  | Call (i : nat) (m : method) (r : request)
  | Number (i : nat)
  | Renumber (i : nat)
  | Register_ (i : nat) (now : Z)
  | Send (i : nat) (addrs : option (list SocketAddr)) (sent : bool)
  | Exchange (i : nat) (conn : connection)
  | Receive (i : nat)
  | Run (started : bool * bool * bool)
  | Worker (v6 : bool) (data : option bytes)
  | Timer (now : nat → Z)
  | Stop.

(** One thing a call does; [None] when it is not its turn. *)
Definition call_step (s : t) (i : nat) (f : call → option (t * call)) : option t :=
  c ← calls s !! i; '(s, c) ← f c; Some (set_call s i c).

Definition exec (s : t) (a : action) : option t :=
  match a with
  | Call i m r =>
      match calls s !! i with
      | Some _ => None
      | None => Some (set_call s i (mkCall m r 0 Called []))
      end
  | Number i => call_step s i (λ c, match at_stage c with Called => Some (take_number s c) | _ => None end)
  | Renumber i => call_step s i (λ c, match at_stage c with Numbered => Some (wrap_number s c) | _ => None end)
  | Register_ i now => call_step s i (λ c,
      match at_stage c, how c with
      | Prepared, (UdpQuery | Query) => Some (register s i c now)
      | _, _ => None
      end)
  | Send i addrs sent => call_step s i (λ c,
      match at_stage c with Registered => Some (send_udp s c addrs sent) | _ => None end)
  | Exchange i conn => call_step s i (λ c,
      match at_stage c, how c with
      | Prepared, TcpQuery => Some (s, set_stage c (Returned (tcp_exchange c conn).1))
      | _, _ => None
      end)
  | Receive i => call_step s i (λ c, match at_stage c with Waiting => receive s i c | _ => None end)
  | Run started =>
      if bool_decide (worker s false = Idle) && bool_decide (worker s true = Idle) && bool_decide (timer s = Idle)
      then Some (run s started).2 else None
  | Worker v6 data => worker_turn s v6 data
  | Timer now => timer_turn s now
  | Stop => Some (stop s)
  end.

Definition execs (s : t) (acts : list action) : option t := foldl (λ o a, s ← o; exec s a) (Some s) acts.
End Ops.
End Client.

(** ** DNS over HTTPS: [HttpsDnsClient]

    The HTTP client ([ureq]) is the argument [response]; the counter of the
    query numbers is used with [Client.fetch_number] and [Client.reset_number]. *)
Module Https.
Import Client.

(** A response: status, the [Content-Length] header, and the body with whether
    it can be read without an error. *)
Record response := mkResponse {
  status : Z;
  content_length : option rstr;
  body : bytes;
  body_ok : bool;
}.

Section Ops.
Context {BP : Build} {U : Unicode}.

(** [str.parse::<usize>()] *)
Fixpoint decimal (acc : Z) (s : rstr) : option Z :=
  match s with
  | [] => Some acc
  | c :: s =>
      if is_ascii_digit c then
        let acc := acc * 10 + (c - 48) in if acc <? 2 ^ 64 then decimal acc s else None
      else None
  end.
Definition parse_usize (s : rstr) : option Z :=
  match s with
  | [] => None
  | [43] => None
  | 43 :: s => decimal 0 s
  | _ => decimal 0 s
  end.

(** [send_query] once it has its number: the result and the request body.
    [Vec::with_capacity] panics above [isize::MAX]. *)
Definition send_query (id : Z) (r : request) (response : option response) : outcome ClientError DnsPacket.t * bytes :=
  match DnsPacket.write (query_packet (mkCall Query r id Prepared [])) (512 - 32) VectorPacketBuffer.new with
  | Ok (_, req_buffer) =>
      let result :=
        match response with
        | None => Err LookupFailed
        | Some response =>
            if negb (status response =? 200) then Err LookupFailed else
            match content_length response with
            | None => Err LookupFailed
            | Some str =>
                match parse_usize str with
                | None => Err LookupFailed
                | Some size =>
                    if 2 ^ 63 <=? size then Panic else
                    if negb (body_ok response) then Err Io else
                    let buffer := take (Z.to_nat 4096) (body response) in
                    match DnsPacket.from_buffer (S (length buffer)) (VectorPacketBuffer.mk buffer 0 ∅) with
                    | Ok (packet, _) => Ok packet
                    | Err _ => Err LookupFailed
                    | Panic => Panic
                    | OutOfFuel => OutOfFuel
                    end
                end
            end
        end in
      (result, VectorPacketBuffer.buffer req_buffer)
  | Err _ => (Panic, [])
  | Panic => (Panic, [])
  | OutOfFuel => (OutOfFuel, [])
  end.

(** *** The resolver of the HTTP client *)

(** The part of the address before the colon. *)
Definition host_part (addr : rstr) : rstr :=
  match list_find (λ c, c = 58) addr with
  | Some (index, _) => take index addr
  | None => addr
  end.

Definition bootstrap_servers (bootstraps : list rstr) : list SocketAddr := omap parse_socket bootstraps.

(** The order of [IpAddr]. *)
Definition ip_leb (a b : IpAddr) : bool :=
  let '(va, ka) := ip_key a in
  let '(vb, kb) := ip_key b in
  if bool_decide (va = vb) then str_leb ka kb else vb.
Definition ip_le (a b : IpAddr) : Prop := ip_leb a b = true.
#[export] Instance ip_le_dec a b : Decision (ip_le a b).
Proof. unfold ip_le. apply _. Defined.

(** [dedup] *)
Fixpoint dedup (l : list IpAddr) : list IpAddr :=
  match l with
  | a :: (b :: _) as rest => if bool_decide (a = b) then dedup rest else a :: dedup rest
  | _ => l
  end.

(** The addresses in the answers of one server: [lookup] is [send_udp_query]. *)
Definition server_answers (lookup : SocketAddr → QueryType.t → option DnsPacket.t) (server : SocketAddr)
    : list IpAddr :=
  let ips f qtype := match lookup server qtype with
                     | Some res => omap f (DnsPacket.answers res)
                     | None => []
                     end in
  ips (λ r, match r with DnsRecord.A _ addr _ => Some (V4 addr) | _ => None end) QueryType.A ++
  ips (λ r, match r with DnsRecord.AAAA _ addr _ => Some (V6 addr) | _ => None end) QueryType.AAAA.

(** What the resolver answers and stores when the cache has nothing. *)
Definition resolve_bootstrap (bootstraps : list rstr)
    (lookup : SocketAddr → QueryType.t → option DnsPacket.t) : list SocketAddr :=
  (λ ip, {| ip := ip; port := 443 |}) <$>
    dedup (merge_sort ip_le (bootstrap_servers bootstraps ≫= server_answers lookup)).

(** The closure that the HTTP client calls for a host. The LRU cache is a library:
    [get] may change its order, [put] may drop another entry. *)
Definition resolver {Cache : Type} (get : rstr → Cache → option (list SocketAddr) * Cache)
    (put : rstr → list SocketAddr → Cache → Cache) (bootstraps : list rstr)
    (lookup : rstr → SocketAddr → QueryType.t → option DnsPacket.t) (addr : rstr) (cache : Cache)
    : list SocketAddr * Cache :=
  let addr := host_part addr in
  match get addr cache with
  | (Some addrs, cache) => (addrs, cache)
  | (None, cache) =>
      let addrs := resolve_bootstrap bootstraps (lookup addr) in
      (addrs, put addr addrs cache)
  end.
End Ops.
End Https.
