(* ===== verification/ClientProps.v ===== *)
(** * Theorems on the DNS client

    An invariant of the pending queries and the calls that every action of
    every thread keeps; what it says of the answers the callers get, that
    nobody waits for ever while the lock is sound, and what one stray datagram
    does to that. *)

From stdpp Require Import sorting.
From S2P Require Import Prelude Text Net Buffer BufferProps Protocol Server Client.
Open Scope Z_scope.
Import Client.

Section Client.
Context {BP : Build} {U : Unicode}.

(** ** Runs *)

Lemma execs_snoc s acts a : execs s (acts ++ [a]) = execs s acts ≫= λ s, exec s a.
Proof. unfold execs. by rewrite foldl_app. Qed.

Lemma execs_app s acts acts' : execs s (acts ++ acts') = execs s acts ≫= λ s, execs s acts'.
Proof.
  induction acts' as [|a acts' IH] using rev_ind.
  - rewrite app_nil_r. by destruct (execs s acts).
  - rewrite app_assoc, execs_snoc, IH. destruct (execs s acts); simpl; [|done]. by rewrite execs_snoc.
Qed.

(** What holds at the start and is kept by every action holds at the end. *)
Lemma execs_invariant (P : t → Prop) s acts s' :
  P s → (∀ a s1 s2, a ∈ acts → P s1 → exec s1 a = Some s2 → P s2) → execs s acts = Some s' → P s'.
Proof.
  intros H0 Hstep. revert s'. induction acts as [|a acts IH] using rev_ind; intros s' Hs.
  - unfold execs in Hs. simpl in Hs. by simplify_eq.
  - rewrite execs_snoc in Hs. apply bind_Some in Hs as (s1 & Hs1 & Ha).
    eapply Hstep; [|apply IH; [|done]|done]; [set_solver|]. intros a' s2 s3 Hin. apply Hstep. set_solver.
Qed.

(** ** The invariant *)

(** [H] are the packets the workers have read. *)
Section Invariant.
Context (H : DnsPacket.t → Prop).

Definition fits_call (c : call) (packet : DnsPacket.t) : Prop :=
  H packet ∧ DnsHeader.id (DnsPacket.header packet) = number c.

(** The call whose query is pending. *)
Definition pending_ok (p : PendingQuery) (c : call) : Prop :=
  inbox c = [] ∧ number c = pq_seq p ∧ how c ≠ TcpQuery ∧
  match at_stage c with Registered | Waiting => True | Returned (Ok _) => False | Returned _ => True | _ => False end.

Definition call_ok (l : list PendingQuery) (i : nat) (c : call) : Prop :=
  match at_stage c with
  | Called | Numbered | Prepared => inbox c = []
  | Registered | Waiting =>
      how c ≠ TcpQuery ∧
      (inbox c = [] ∧ i ∈ pq_tx <$> l ∨ inbox c = [None] ∨ ∃ packet, inbox c = [Some packet] ∧ fits_call c packet)
  | Returned (Ok packet) => how c ≠ TcpQuery → fits_call c packet
  | Returned (Err LookupFailed) => False
  | Returned _ => True
  end.

Record inv (l : list PendingQuery) (m : gmap nat call) : Prop := {
  inv_nodup : NoDup (pq_tx <$> l);
  inv_pending : ∀ p, p ∈ l → ∃ c, m !! pq_tx p = Some c ∧ pending_ok p c;
  inv_calls : ∀ i c, m !! i = Some c → call_ok l i c;
}.

(** A call changes that has, or keeps, the right pending query. *)
Lemma inv_update l m i c :
  inv l m → (∀ p, p ∈ l → pq_tx p = i → pending_ok p c) → call_ok l i c → inv l (<[i := c]> m).
Proof.
  intros [Hnd Hp Hc] Hpend Hok. split; [done| |].
  - intros p Hin. destruct (decide (pq_tx p = i)) as [<-|Hne].
    + exists c. rewrite lookup_insert_eq. auto.
    + rewrite lookup_insert_ne by done. auto.
  - intros j d. destruct (decide (i = j)) as [<-|Hne].
    + rewrite lookup_insert_eq. by intros [= <-].
    + rewrite lookup_insert_ne by done. auto.
Qed.

(** Calls that are not yet registered have no pending query. *)
Lemma inv_fresh l m i c p :
  inv l m → m !! i = Some c → match at_stage c with Called | Numbered | Prepared => True | _ => False end →
  p ∈ l → pq_tx p ≠ i.
Proof.
  intros [_ Hp _] Hi Hst Hin <-. destruct (Hp p Hin) as (d & Hd & _ & _ & _ & Hs).
  rewrite Hi in Hd. simplify_eq. by destruct (at_stage d).
Qed.

Lemma inv_register l m i c now :
  inv l m → m !! i = Some c → at_stage c = Prepared → how c ≠ TcpQuery →
  inv (l ++ [mkPending (number c) now i]) (<[i := set_stage c Registered]> m).
Proof.
  intros Hinv Hi Hst Hhow. pose proof (inv_calls _ _ Hinv i c Hi) as Hci. unfold call_ok in Hci. rewrite Hst in Hci.
  assert (∀ p, p ∈ l → pq_tx p ≠ i) as Hfresh.
  { intros p. eapply inv_fresh; [done..|]. by rewrite Hst. }
  destruct Hinv as [Hnd Hp Hc]. split.
  - rewrite fmap_app. apply NoDup_app. split; [done|]. split; [|apply NoDup_singleton].
    intros j Hj. apply list_elem_of_fmap in Hj as (p & -> & Hin). simpl. rewrite list_elem_of_singleton. auto.
  - intros p [Hin| ->%list_elem_of_singleton]%elem_of_app.
    + rewrite lookup_insert_ne by (intros Heq; by eapply (Hfresh p)). auto.
    + simpl. rewrite lookup_insert_eq. eexists. split; [done|]. by repeat split.
  - intros j d. destruct (decide (i = j)) as [<-|Hne].
    + rewrite lookup_insert_eq. intros [= <-]. unfold call_ok. simpl. split; [done|]. left.
      rewrite fmap_app. split; [done|]. apply elem_of_app. right. simpl. set_solver.
    + rewrite lookup_insert_ne by done. intros Hj. specialize (Hc j d Hj). unfold call_ok in *.
      rewrite fmap_app. destruct (at_stage d); try done; set_solver.
Qed.

(** A message goes to the call of a pending query, which leaves the list. *)
Lemma inv_send pre p l s msg :
  inv (pre ++ p :: l) (calls s) →
  (∀ packet, msg = Some packet → H packet ∧ DnsHeader.id (DnsPacket.header packet) = pq_seq p) →
  inv (pre ++ l) (calls (tx_send s (pq_tx p) msg)).
Proof.
  intros [Hnd Hp Hc] Hmsg.
  destruct (Hp p) as (c & Hi & Hin & Hnum & Hhow & Hst); [set_solver|].
  assert (pq_tx p ∉ pq_tx <$> (pre ++ l)) as Hout.
  { rewrite fmap_app in *. simpl in *. apply NoDup_app in Hnd as (_ & Hd & [Hn _]%NoDup_cons).
    rewrite elem_of_app. intros [Hx|Hx]; [|done]. eapply Hd; [done|]. set_solver. }
  assert (NoDup (pq_tx <$> (pre ++ l))) as Hnd'.
  { rewrite fmap_app in *. simpl in *. apply NoDup_app in Hnd as (H1 & Hd & [_ H2]%NoDup_cons).
    apply NoDup_app. split; [done|]. split; [set_solver|done]. }
  assert (∀ q, q ∈ pre ++ l → q ∈ pre ++ p :: l ∧ pq_tx q ≠ pq_tx p) as Hrest.
  { intros q Hq. split; [set_solver|]. intros Heq. apply Hout. rewrite <- Heq. apply list_elem_of_fmap. eauto. }
  assert (∀ j d, j ≠ pq_tx p → call_ok (pre ++ p :: l) j d → call_ok (pre ++ l) j d) as Hcalls.
  { intros j d Hj. unfold call_ok. rewrite !fmap_app. simpl. destruct (at_stage d); try done; set_solver. }
  unfold tx_send. rewrite Hi. destruct (at_stage c) eqn:Hs; try done.
  1, 2: split; [done| |]; simpl;
    [intros q [Hq Hne]%Hrest; rewrite lookup_insert_ne by done; auto|];
    intros j d; destruct (decide (pq_tx p = j)) as [<-|Hne];
      [rewrite lookup_insert_eq; intros [= <-]|rewrite lookup_insert_ne by done; auto];
    unfold call_ok; simpl; rewrite Hs, Hin; split; [done|]; right; destruct msg as [packet|]; [right|by left];
    exists packet; split; [done|]; unfold fits_call; simpl; rewrite Hnum; auto.
  split; [done| |].
  - intros q [Hq _]%Hrest. auto.
  - intros j d Hj. destruct (decide (j = pq_tx p)) as [->|Hne]; [|auto].
    specialize (Hc _ _ Hj). rewrite Hi in Hj. simplify_eq. unfold call_ok in *. by rewrite Hs in *.
Qed.
End Invariant.

Lemma inv_mono (H H' : DnsPacket.t → Prop) l m : (∀ p, H p → H' p) → inv H l m → inv H' l m.
Proof.
  intros HH [Hnd Hp Hc]. split; [done|done|]. intros i c Hi. specialize (Hc i c Hi). unfold call_ok, fits_call in *.
  destruct (at_stage c) as [| | | | |[packet|e| |]]; try done.
  1, 2: destruct Hc as [? [?|[?|(packet & ? & ? & ?)]]]; split; auto; right; right; exists packet; auto.
  intros Hh. destruct (Hc Hh). auto.
Qed.

(** ** Every action keeps it *)

(** What is left of the list when the expired queries have been removed. *)
Fixpoint kept (now : nat → Z) (l : list PendingQuery) (i : nat) : list PendingQuery :=
  match l with
  | [] => []
  | p :: l => if pq_timestamp p + TIMEOUT <? now i then kept now l (S i) else p :: kept now l (S i)
  end.

Lemma tx_send_frame s i msg :
  pending_queries (tx_send s i msg) = pending_queries s ∧ poisoned (tx_send s i msg) = poisoned s.
Proof. unfold tx_send. by destruct (calls s !! i) as [c|]; [destruct (at_stage c)|]. Qed.

Lemma expire_frame now l : ∀ k s s' fin, expire now l k s = (s', fin) →
  pending_queries s' = pending_queries s ∧ poisoned s' = poisoned s.
Proof.
  induction l as [|p l IH]; intros k s s' fin; simpl; [by intros [= <- _]|]. destruct (_ <? _); [|apply IH].
  destruct (expire _ _ _ _) as [s1 fin1] eqn:He. intros [= <- _]. apply IH in He as [-> ->]. apply tx_send_frame.
Qed.

Lemma expire_spec H now l : ∀ pre s,
  (∀ p, p ∈ l → p ∈ pending_queries s) → inv H (pre ++ l) (calls s) → ∀ k s' fin, expire now l k s = (s', fin) →
  inv H (pre ++ kept now l k) (calls s') ∧
  ∀ full : list PendingQuery, length full = k →
    foldl (λ l idx, delete idx l) (full ++ l) (reverse fin) = full ++ kept now l k.
Proof.
  induction l as [|p l IH]; intros pre s Hsub Hinv k s' fin He; simpl in *.
  - simplify_eq. rewrite app_nil_r in *. split; [done|]. intros full _. by rewrite !app_nil_r.
  - destruct (_ <? _).
    + destruct (expire now l (S k) (tx_send s (pq_tx p) None)) as [s1 fin1] eqn:He1. simplify_eq.
      apply (IH pre) in He1 as [Hinv' Hdel].
      * split; [done|]. intros full Hlen. rewrite reverse_cons, foldl_app. simpl.
        rewrite (cons_middle p full l), app_assoc, (Hdel (full ++ [p])) by (rewrite length_app; simpl; lia).
        rewrite <- app_assoc, <- Hlen. apply delete_middle.
      * intros q Hq. destruct (tx_send_frame s (pq_tx p) None) as [-> _]. auto using list_elem_of_further.
      * by apply inv_send.
    + apply (IH (pre ++ [p])) in He as [Hinv' Hdel].
      * rewrite <- app_assoc in Hinv'. split; [done|]. intros full Hlen.
        specialize (Hdel (full ++ [p])). rewrite <- !app_assoc in Hdel. apply Hdel. rewrite length_app. simpl. lia.
      * auto using list_elem_of_further.
      * by rewrite <- app_assoc.
Qed.

Lemma timer_kept H s now s' :
  inv H (pending_queries s) (calls s) → timer_turn s now = Some s' → inv H (pending_queries s') (calls s').
Proof.
  intros Hinv. unfold timer_turn. case_bool_decide; simpl; [|done].
  destruct (stopped s); [by intros [= <-]|]. destruct (poisoned s); [by intros [= <-]|].
  destruct (expire now (pending_queries s) 0 s) as [s1 fin] eqn:He. intros [= <-]. simpl.
  destruct (expire_spec H now _ [] s (λ _ h, h) Hinv 0 s1 fin He) as [Hinv' Hdel].
  destruct (expire_frame _ _ _ _ _ _ He) as [-> _]. pose proof (Hdel [] eq_refl) as Hd. simpl in Hd. by rewrite Hd.
Qed.

Lemma find_pending_spec l id k i p :
  find_pending l id k = Some (i, p) → (k ≤ i)%nat ∧ l !! (i - k)%nat = Some p ∧ pq_seq p = id.
Proof.
  revert k. induction l as [|q l IH]; intros k; simpl; [done|].
  destruct (pq_seq q =? id) eqn:Hq.
  - intros [= <- <-]. rewrite Nat.sub_diag. split; [lia|]. split; [done|lia].
  - intros (Hle & Hl & Hid)%IH. split; [lia|]. split; [|done]. by replace (i - k)%nat with (S (i - S k)) by lia.
Qed.

Lemma deliver_kept (H : DnsPacket.t → Prop) s v6 packet :
  H packet → inv H (pending_queries s) (calls s) →
  inv H (pending_queries (deliver s v6 packet)) (calls (deliver s v6 packet)).
Proof.
  intros HH Hinv. unfold deliver. destruct (poisoned s); [done|].
  destruct (find_pending _ _ _) as [[i p]|] eqn:Hf; [|by destruct (DnsPacket.questions packet)].
  apply find_pending_spec in Hf as (_ & Hl & Hid). rewrite Nat.sub_0_r in Hl. simpl.
  rewrite delete_take_drop. apply inv_send; [by rewrite take_drop_middle|]. intros q [= <-]. auto.
Qed.

(** Changes of one call that is not pending. *)
Lemma answer_ok (H : DnsPacket.t → Prop) l i c packet : fits_call H c packet → call_ok H l i (answer c packet).
Proof. intros Hf. unfold answer. destruct (_ && _); unfold call_ok; simpl; [done|]. by intros _. Qed.

Lemma tcp_no_lookup_failed c conn : (tcp_exchange c conn).1 ≠ Err LookupFailed.
Proof.
  unfold tcp_exchange. destruct (DnsPacket.write _ _ _) as [[? ?]| | |]; simpl; try done.
  destruct (connects conn), (takes conn); simpl; try done.
  destruct (replies conn) as [|? [|? ?]]; simpl; try done. by destruct (DnsPacket.from_buffer _ _) as [[? ?]| | |].
Qed.

Lemma call_step_inv s i f s' : call_step s i f = Some s' →
  ∃ c s1 c1, calls s !! i = Some c ∧ f c = Some (s1, c1) ∧ s' = set_call s1 i c1.
Proof.
  unfold call_step. intros (c & Hi & ([s1 c1] & Hf & Heq)%bind_Some)%bind_Some. simplify_eq. eauto 6.
Qed.

Lemma has_sender_spec s i : has_sender s i = true ↔ i ∈ pq_tx <$> pending_queries s.
Proof.
  unfold has_sender. rewrite existsb_exists, list_elem_of_fmap. split.
  - intros (p & Hin & Hp). apply bool_decide_eq_true in Hp. exists p. by rewrite list_elem_of_In.
  - intros (p & -> & Hin). exists p. rewrite list_elem_of_In in Hin. by rewrite bool_decide_eq_true.
Qed.

(** The parts of a state the invariant does not speak of. *)
Lemma run_frame s started :
  pending_queries (run s started).2 = pending_queries s ∧ calls (run s started).2 = calls s ∧
  poisoned (run s started).2 = poisoned s.
Proof. destruct started as [[[] []] []]; simpl; auto. Qed.

Lemma call_action_kept H s i c s1 c1 (f : call → option (t * call)) :
  inv H (pending_queries s) (calls s) → calls s !! i = Some c → f c = Some (s1, c1) →
  pending_queries s1 = pending_queries s → calls s1 = calls s →
  (∀ p, p ∈ pending_queries s → pq_tx p = i → pending_ok p c1) → call_ok H (pending_queries s) i c1 →
  inv H (pending_queries (set_call s1 i c1)) (calls (set_call s1 i c1)).
Proof. intros Hinv Hi Hf Hl Hm Hp Hok. simpl. rewrite Hl, Hm. by apply inv_update. Qed.

Lemma prepare_kept (H : DnsPacket.t → Prop) s i c :
  inv H (pending_queries s) (calls s) → calls s !! i = Some c →
  match at_stage c with Called | Numbered | Prepared => True | _ => False end →
  inbox c = [] ∧ ∀ p c', p ∈ pending_queries s → pq_tx p = i → pending_ok p c'.
Proof.
  intros Hinv Hi Hst. split.
  - pose proof (inv_calls _ _ _ Hinv i c Hi) as Hc. unfold call_ok in Hc. by destruct (at_stage c).
  - intros p c' Hin Htx. exfalso. by eapply inv_fresh.
Qed.

Lemma send_udp_kept (H : DnsPacket.t → Prop) s i c addrs sent s1 c1 :
  inv H (pending_queries s) (calls s) → calls s !! i = Some c → at_stage c = Registered →
  send_udp s c addrs sent = (s1, c1) →
  pending_queries s1 = pending_queries s ∧ calls s1 = calls s ∧
  (∀ p, p ∈ pending_queries s → pq_tx p = i → pending_ok p c1) ∧ call_ok H (pending_queries s) i c1.
Proof.
  intros Hinv Hi Hst Hs.
  assert (∃ st, c1 = set_stage c st ∧ pending_queries s1 = pending_queries s ∧ calls s1 = calls s ∧
            (st = Waiting ∨ ∃ r, st = Returned r ∧ (∀ q, r ≠ Ok q) ∧ r ≠ Err LookupFailed))
    as (st & -> & Hl & Hm & Hst').
  { unfold send_udp in Hs. destruct (DnsPacket.write _ _ _) as [[? b]| | |].
    2-4: simplify_eq; eauto 10.
    destruct addrs as [[|addr ?]|]; [| |]; [|destruct sent|]; simplify_eq; eauto 10. }
  split; [done|]. split; [done|]. pose proof (inv_calls _ _ _ Hinv i c Hi) as Hc.
  unfold call_ok in Hc. rewrite Hst in Hc. split.
  - intros p Hin Htx. destruct (inv_pending _ _ _ Hinv p Hin) as (d & Hd & Hb & Hn & Hh & _).
    rewrite Htx, Hi in Hd. simplify_eq. repeat split; try done. simpl.
    destruct Hst' as [->|(r & -> & Hr & _)]; [done|]. destruct r; try done. by edestruct Hr.
  - unfold call_ok. simpl. destruct Hst' as [->|(r & -> & Hr & Hr')]; [done|].
    destruct r as [q|[]| |]; try done. by edestruct Hr.
Qed.

Lemma receive_kept (H : DnsPacket.t → Prop) s i c s1 c1 :
  inv H (pending_queries s) (calls s) → calls s !! i = Some c → at_stage c = Waiting →
  receive s i c = Some (s1, c1) →
  pending_queries s1 = pending_queries s ∧ calls s1 = calls s ∧
  (∀ p, p ∈ pending_queries s → pq_tx p = i → pending_ok p c1) ∧ call_ok H (pending_queries s) i c1 ∧
  (at_stage c1 = Returned (Err TimeOut) ∨ (∃ packet, at_stage c1 = Returned (Ok packet)) ∨
   how c1 = TcpQuery ∧ at_stage c1 = Called).
Proof.
  intros Hinv Hi Hst Hr. pose proof (inv_calls _ _ _ Hinv i c Hi) as Hc. unfold call_ok in Hc. rewrite Hst in Hc.
  assert (∀ p c', inbox c ≠ [] → p ∈ pending_queries s → pq_tx p = i → pending_ok p c') as Hno.
  { intros p c' Hne Hin Htx. destruct (inv_pending _ _ _ Hinv p Hin) as (d & Hd & Hb & _).
    rewrite Htx, Hi in Hd. by simplify_eq. }
  unfold receive in Hr. destruct Hc as [Hh [[Hb Hin]|[Hb|(packet & Hb & Hf)]]]; rewrite Hb in Hr.
  - rewrite (proj2 (has_sender_spec s i) Hin) in Hr. done.
  - simplify_eq. split; [done|]. split; [done|]. split; [intros p; apply Hno; by rewrite Hb|]. split; [done|by left].
  - simplify_eq. split; [done|]. split; [done|]. split; [intros p; apply Hno; by rewrite Hb|].
    split; [by apply answer_ok|]. unfold answer. destruct (_ && _); simpl; eauto.
Qed.

Lemma exec_kept (H : DnsPacket.t → Prop) s a s' :
  (∀ v6 d packet, a = Worker v6 (Some d) → parse d = Ok packet → H packet) →
  inv H (pending_queries s) (calls s) → exec s a = Some s' → inv H (pending_queries s') (calls s').
Proof.
  intros HH Hinv He. destruct a as [i m r|i|i|i now|i addrs sent|i conn|i|started|v6 data|now|]; simpl in He.
  - destruct (calls s !! i) eqn:Hi; [done|]. simplify_eq. simpl. apply inv_update; [done| |done].
    intros p Hin Htx. destruct (inv_pending _ _ _ Hinv p Hin) as (d & Hd & _). by rewrite Htx, Hi in Hd.
  - apply call_step_inv in He as (c & s1 & c1 & Hi & Hf & ->).
    destruct (at_stage c) eqn:Hst; [|done..].
    destruct (prepare_kept H s i c Hinv Hi ltac:(by rewrite Hst)) as [Hb Hp].
    unfold take_number, fetch_number in Hf. simplify_eq. by apply inv_update; eauto.
  - apply call_step_inv in He as (c & s1 & c1 & Hi & Hf & ->). destruct (at_stage c) eqn:Hst; try done.
    destruct (prepare_kept H s i c Hinv Hi ltac:(by rewrite Hst)) as [Hb Hp]. unfold wrap_number in Hf.
    destruct (reset_number _ _); simplify_eq; apply inv_update; eauto; done.
  - apply call_step_inv in He as (c & s1 & c1 & Hi & Hf & ->).
    destruct (at_stage c) eqn:Hst; try done.
    assert (how c ≠ TcpQuery ∧ register s i c now = (s1, c1)) as [Hh Hr] by (destruct (how c); by simplify_eq).
    unfold register in Hr. destruct (poisoned s); simplify_eq.
    + destruct (prepare_kept H s1 i c Hinv Hi ltac:(by rewrite Hst)) as [Hb Hp]. apply inv_update; eauto; done.
    + by apply inv_register.
  - apply call_step_inv in He as (c & s1 & c1 & Hi & Hf & ->). destruct (at_stage c) eqn:Hst; try done.
    injection Hf as Hf. destruct (send_udp_kept H s i c addrs sent s1 c1 Hinv Hi Hst Hf) as (Hl & Hm & Hp & Hok).
    simpl. rewrite Hl, Hm. by apply inv_update.
  - apply call_step_inv in He as (c & s1 & c1 & Hi & Hf & ->). destruct (at_stage c) eqn:Hst; try done.
    destruct (how c) eqn:Hh; simplify_eq.
    destruct (prepare_kept H s1 i c Hinv Hi ltac:(by rewrite Hst)) as [Hb Hp]. apply inv_update; [done|eauto|].
    unfold call_ok. simpl. pose proof (tcp_no_lookup_failed c conn).
    destruct (tcp_exchange c conn).1 as [|[]| |]; done.
  - apply call_step_inv in He as (c & s1 & c1 & Hi & Hf & ->). destruct (at_stage c) eqn:Hst; try done.
    destruct (receive_kept H s i c s1 c1 Hinv Hi Hst Hf) as (Hl & Hm & Hp & Hok & _).
    simpl. rewrite Hl, Hm. by apply inv_update.
  - destruct (_ && _); simplify_eq. by destruct (run_frame s started) as (-> & -> & _).
  - unfold worker_turn in He. case_bool_decide; simpl in He; [|done]. destruct (stopped s); simplify_eq; [done|].
    destruct data as [data|]; simplify_eq; [|done].
    destruct (parse data) as [packet| | |] eqn:Hpd; [|done..]. apply deliver_kept; eauto.
  - by eapply timer_kept.
  - by simplify_eq.
Qed.

(** ** What the callers get *)

(** The packets that came in and could be read. *)
Definition received (acts : list action) (packet : DnsPacket.t) : Prop :=
  ∃ v6 data, Worker v6 (Some data) ∈ acts ∧ parse data = Ok packet.

Lemma new_inv H port bound4 bound6 s :
  new port bound4 bound6 = Ok s → inv H (pending_queries s) (calls s) ∧ poisoned s = false.
Proof.
  unfold new. destruct bound4; simpl; [|done]. intros (_ & _ & Hs)%obind_inv. destruct bound6; simplify_eq/=.
  split; [|done]. split; [constructor|intros p Hp; by apply not_elem_of_nil in Hp|done].
Qed.

Lemma reachable_inv port bound4 bound6 s acts s' :
  new port bound4 bound6 = Ok s → execs s acts = Some s' → inv (received acts) (pending_queries s') (calls s').
Proof.
  intros Hs. apply (execs_invariant (λ s, inv (received acts) (pending_queries s) (calls s))).
  - by eapply new_inv.
  - intros a s1 s2 Hin Hinv. apply exec_kept; [|done]. intros v6 d packet -> Hp. exists v6, d. auto.
Qed.

(** C20: whatever the threads do and in whatever order, a packet that a caller of
    [send_udp_query] gets came in over a socket after the start and carries the
    number of that caller's query; and no caller is told that its channel was
    closed. *)
Theorem answers_match port bound4 bound6 s acts s' i c r :
  new port bound4 bound6 = Ok s → execs s acts = Some s' →
  calls s' !! i = Some c → at_stage c = Returned r →
  r ≠ Err LookupFailed ∧
  (how c ≠ TcpQuery → ∀ packet, r = Ok packet →
   DnsHeader.id (DnsPacket.header packet) = number c ∧
   ∃ v6 data, Worker v6 (Some data) ∈ acts ∧ parse data = Ok packet).
Proof.
  intros Hs Hex Hi Hst. pose proof (inv_calls _ _ _ (reachable_inv _ _ _ _ _ _ Hs Hex) i c Hi) as Hc.
  unfold call_ok in Hc. rewrite Hst in Hc. split; [by intros ->|]. intros Hh packet ->.
  by destruct (Hc Hh) as [Hr Hid].
Qed.

Lemma expire_stage now l : ∀ k s s' fin, expire now l k s = (s', fin) →
  ∀ i c, calls s !! i = Some c → ∃ c', calls s' !! i = Some c' ∧ at_stage c' = at_stage c.
Proof.
  induction l as [|p l IH]; intros k s s' fin; simpl; [intros [= <- _]; eauto|]. destruct (_ <? _); [|apply IH].
  destruct (expire _ _ _ _) as [s1 fin1] eqn:He. intros [= <- _] i c Hi.
  assert (∃ c1, calls (tx_send s (pq_tx p) None) !! i = Some c1 ∧ at_stage c1 = at_stage c) as (c1 & Hc1 & <-).
  { unfold tx_send. destruct (calls s !! pq_tx p) as [d|] eqn:Hd; [|eauto].
    destruct (decide (pq_tx p = i)) as [Heq|Hne]; [|destruct (at_stage d); simpl; rewrite ?lookup_insert_ne; eauto].
    rewrite Heq, Hi in Hd. simplify_eq. destruct (at_stage d) eqn:Hst; simpl; rewrite ?lookup_insert_eq; eauto. }
  by eapply IH.
Qed.

Lemma kept_nil now l k : (∀ p j, p ∈ l → pq_timestamp p + TIMEOUT < now j) → kept now l k = [].
Proof.
  revert k. induction l as [|p l IH]; intros k Hl; simpl; [done|].
  specialize (Hl p k) as Hp. rewrite (proj2 (Z.ltb_lt _ _)) by (apply Hp; set_solver).
  apply IH. intros q j Hq. apply Hl. set_solver.
Qed.

(** C21: while the lock is sound nobody waits for ever: after the turn of the
    timeout thread that finds every pending query older than five seconds the
    list is empty, and every caller that waits goes on with an answer or the
    timeout. *)
Theorem callers_are_answered port bound4 bound6 s0 acts s now :
  new port bound4 bound6 = Ok s0 → execs s0 acts = Some s →
  timer s = Running → stopped s = false → poisoned s = false →
  (∀ p k, p ∈ pending_queries s → pq_timestamp p + TIMEOUT < now k) →
  ∃ s', exec s (Timer now) = Some s' ∧ pending_queries s' = [] ∧
  ∀ i c, calls s !! i = Some c → at_stage c = Waiting →
    ∃ s'' c', exec s' (Receive i) = Some s'' ∧ calls s'' !! i = Some c' ∧
    (at_stage c' = Returned (Err TimeOut) ∨ (∃ packet, at_stage c' = Returned (Ok packet)) ∨
     how c' = TcpQuery ∧ at_stage c' = Called).
Proof.
  intros Hs0 Hex Ht Hstop Hpois Hold. pose proof (reachable_inv _ _ _ _ _ _ Hs0 Hex) as Hinv.
  destruct (expire now (pending_queries s) 0 s) as [s1 fin] eqn:He.
  destruct (expire_spec _ now _ [] s (λ _ h, h) Hinv 0 s1 fin He) as [Hinv1 Hdel].
  destruct (expire_frame _ _ _ _ _ _ He) as [Hl _]. pose proof (Hdel [] eq_refl) as Hk. simpl in Hk, Hinv1.
  rewrite kept_nil in Hk, Hinv1 by done.
  exists (set_pending s1 []). split.
  { simpl. unfold timer_turn. rewrite bool_decide_true by done. simpl. rewrite Hstop, Hpois, He.
    by rewrite Hl, Hk. }
  split; [done|]. intros i c Hi Hst. destruct (expire_stage _ _ _ _ _ _ He i c Hi) as (c1 & Hc1 & Hst1).
  rewrite Hst in Hst1. pose proof (inv_calls _ _ _ Hinv1 i c1 Hc1) as Hok. unfold call_ok in Hok. rewrite Hst1 in Hok.
  assert (∃ s2 c2, receive (set_pending s1 []) i c1 = Some (s2, c2)) as (s2 & c2 & Hr).
  { unfold receive. destruct Hok as [_ [[_ Hin]|[->|(packet & -> & _)]]]; [|eauto..].
    simpl in Hin. by apply not_elem_of_nil in Hin. }
  exists (set_call s2 i c2), c2. split; [|split; [apply lookup_insert_eq|]].
  - simpl. unfold call_step. simpl. rewrite Hc1. simpl. rewrite Hst1, Hr. done.
  - by apply (receive_kept (received acts) (set_pending s1 []) i c1 s2 c2 Hinv1 Hc1 Hst1 Hr).
Qed.

(** ** The poisoned lock *)

Lemma pending_frame s v6 data s' :
  poisoned s = true → worker_turn s v6 data = Some s' →
  poisoned s' = true ∧ pending_queries s' = pending_queries s ∧ calls s' = calls s.
Proof.
  intros Hp. unfold worker_turn. case_bool_decide; simpl; [|done]. destruct (stopped s); [by intros [= <-]|].
  destruct data as [data|]; intros [= <-]; [|done]. destruct (parse data); simpl; [|done..].
  unfold deliver. by rewrite Hp.
Qed.

Lemma timer_frame s now s' :
  poisoned s = true → timer_turn s now = Some s' →
  poisoned s' = true ∧ pending_queries s' = pending_queries s ∧ calls s' = calls s.
Proof.
  intros Hp. unfold timer_turn. case_bool_decide; simpl; [|done]. destruct (stopped s); [by intros [= <-]|].
  rewrite Hp. by intros [= <-].
Qed.

(** With the lock poisoned the list does not change, and an action changes the
    call it is of only. *)
Lemma poisoned_exec s a s' :
  poisoned s = true → exec s a = Some s' →
  poisoned s' = true ∧ pending_queries s' = pending_queries s ∧
  ∀ i, calls s' !! i = calls s !! i ∨
    (calls s !! i = None ∧ ∃ m r, calls s' !! i = Some (mkCall m r 0 Called [])) ∨
    ∃ c c', calls s !! i = Some c ∧ calls s' !! i = Some c' ∧
      match at_stage c with
      | Called => how c' = how c ∧ at_stage c' = Numbered
      | Numbered => how c' = how c ∧ (at_stage c' = Prepared ∨ at_stage c' = Returned Panic)
      | Prepared => how c' = how c ∧ (how c = TcpQuery ∨ at_stage c' = Returned (Err PoisonedLock))
      | Registered => how c' = how c
      | Waiting => receive s i c ≠ None ∧ (how c' = how c ∨ how c' = TcpQuery)
      | Returned _ => False
      end.
Proof.
  intros Hp He. destruct a as [j m r|j|j|j now|j addrs sent|j conn|j|started|v6 data|now|]; simpl in He.
  8: { destruct (_ && _); simplify_eq. destruct (run_frame s started) as (-> & -> & ->). auto. }
  8: { destruct (pending_frame s v6 data s' Hp He) as (-> & -> & ->). auto. }
  8: { destruct (timer_frame s now s' Hp He) as (-> & -> & ->). auto. }
  8: { simplify_eq. auto. }
  { destruct (calls s !! j) eqn:Hj; [done|]. simplify_eq. split; [done|]. split; [done|]. intros i. simpl.
    destruct (decide (j = i)) as [<-|Hne]; [rewrite lookup_insert_eq; eauto 6|rewrite lookup_insert_ne; auto]. }
  all: apply call_step_inv in He as (c & s1 & c1 & Hj & Hf & ->).
  all: enough (poisoned s1 = true ∧ pending_queries s1 = pending_queries s ∧ calls s1 = calls s ∧
               match at_stage c with
               | Called => how c1 = how c ∧ at_stage c1 = Numbered
               | Numbered => how c1 = how c ∧ (at_stage c1 = Prepared ∨ at_stage c1 = Returned Panic)
               | Prepared => how c1 = how c ∧ (how c = TcpQuery ∨ at_stage c1 = Returned (Err PoisonedLock))
               | Registered => how c1 = how c
               | Waiting => receive s j c ≠ None ∧ (how c1 = how c ∨ how c1 = TcpQuery)
               | Returned _ => False
               end) as (Hp1 & Hl1 & Hm1 & Hst) by
    (split; [done|]; split; [done|]; intros i; simpl; rewrite Hm1;
     destruct (decide (j = i)) as [<-|Hne]; [rewrite lookup_insert_eq; right; right; eauto|rewrite lookup_insert_ne; auto]).
  all: destruct (at_stage c) eqn:Hst; try done.
  - unfold take_number, fetch_number in Hf. by simplify_eq.
  - unfold wrap_number in Hf. destruct (reset_number _ _); simplify_eq; repeat split; simpl; auto.
  - destruct (how c) eqn:Hh; try done; unfold register in Hf; rewrite Hp in Hf; simplify_eq; repeat split; simpl; auto.
  - unfold send_udp in Hf. destruct (DnsPacket.write _ _ _) as [[? b]| | |]; simplify_eq; try done.
    destruct addrs as [[|addr ?]|]; [| |]; [|destruct sent|]; by simplify_eq.
  - destruct (how c) eqn:Hh; simplify_eq; repeat split; simpl; auto.
  - pose proof Hf as Hf'. unfold receive in Hf. destruct (inbox c) as [|[packet|] ?]; simpl in *; [destruct (has_sender s j)| |];
      simplify_eq; rewrite Hf'; repeat split; auto. unfold answer. destruct (_ && _); auto.
Qed.

Lemma poisoned_execs s acts s' :
  poisoned s = true → execs s acts = Some s' →
  poisoned s' = true ∧ pending_queries s' = pending_queries s ∧
  (∀ i c, calls s !! i = Some c → at_stage c = Waiting → inbox c = [] → i ∈ pq_tx <$> pending_queries s →
     calls s' !! i = Some c) ∧
  (∀ i c, calls s !! i = None → calls s' !! i = Some c → how c ≠ TcpQuery →
     match at_stage c with
     | Registered | Waiting => False
     | Returned r => r = Panic ∨ r = Err PoisonedLock
     | _ => True
     end).
Proof.
  intros Hp. apply (execs_invariant (λ s', poisoned s' = true ∧ pending_queries s' = pending_queries s ∧
    (∀ i c, calls s !! i = Some c → at_stage c = Waiting → inbox c = [] → i ∈ pq_tx <$> pending_queries s →
       calls s' !! i = Some c) ∧
    (∀ i c, calls s !! i = None → calls s' !! i = Some c → how c ≠ TcpQuery →
       match at_stage c with
       | Registered | Waiting => False
       | Returned r => r = Panic ∨ r = Err PoisonedLock
       | _ => True
       end))).
  { split; [done|]. split; [done|]. split; [done|]. intros i c Hn Hi. congruence. }
  intros a s1 s2 _ (Hp1 & Hl1 & Hw & Hn) Hex. destruct (poisoned_exec s1 a s2 Hp1 Hex) as (Hp2 & Hl2 & Hch).
  split; [done|]. split; [congruence|]. split.
  - intros i c Hi Hst Hb Hin. specialize (Hw i c Hi Hst Hb Hin). destruct (Hch i) as [->|[[Hno _]|(d & d' & Hd & _ & Hm)]];
      [done|congruence|]. rewrite Hw in Hd. simplify_eq. rewrite Hst in Hm. destruct Hm as [[] _].
    unfold receive. rewrite Hb. by rewrite (proj2 (has_sender_spec s1 i)) by congruence.
  - intros i c Hnone Hi Hh. destruct (Hch i) as [Heq|[(_ & m & r & Hc)|(d & d' & Hd & Hd' & Hm)]].
    + rewrite Heq in Hi. exact (Hn i c Hnone Hi Hh).
    + rewrite Hc in Hi. by simplify_eq.
    + rewrite Hd' in Hi. simplify_eq. specialize (Hn i d Hnone Hd).
      destruct (at_stage d); [| | | | |done].
      * by destruct Hm as [_ ->].
      * destruct Hm as [_ [->| ->]]; auto.
      * destruct Hm as [Hhow [Ht| ->]]; [congruence|auto].
      * destruct Hn. congruence.
      * destruct Hn. destruct Hm as [_ [<-|?]]; congruence.
Qed.

Lemma find_pending_none l id : (∀ p, p ∈ l → pq_seq p ≠ id) → ∀ k, find_pending l id k = None.
Proof.
  induction l as [|p l IH]; intros Hl k; simpl; [done|].
  rewrite (proj2 (Z.eqb_neq _ _)) by (apply Hl; set_solver). apply IH. intros q Hq. apply Hl. set_solver.
Qed.

(** C22: a datagram that reads as a packet without questions and with a number
    no pending query has ends the client: the worker panics with the lock held,
    and from then on, whatever happens, every caller that waits waits for ever
    and every new query over UDP that returns has failed with the poisoned lock
    or a panic. *)
Theorem stray_response_poisons port bound4 bound6 s0 acts s v6 data packet :
  new port bound4 bound6 = Ok s0 → execs s0 acts = Some s →
  poisoned s = false → worker s v6 = Running → stopped s = false →
  parse data = Ok packet → DnsPacket.questions packet = [] →
  (∀ p, p ∈ pending_queries s → pq_seq p ≠ DnsHeader.id (DnsPacket.header packet)) →
  ∃ s', exec s (Worker v6 (Some data)) = Some s' ∧ worker s' v6 = Panicked ∧
  ∀ acts' s'', execs s' acts' = Some s'' →
    (∀ i c, calls s !! i = Some c → at_stage c = Waiting → inbox c = [] → calls s'' !! i = Some c) ∧
    (∀ i c r, calls s !! i = None → calls s'' !! i = Some c → how c ≠ TcpQuery → at_stage c = Returned r →
       r = Panic ∨ r = Err PoisonedLock).
Proof.
  intros Hs0 Hex Hpois Hw Hstop Hparse Hq Hnum. pose proof (reachable_inv _ _ _ _ _ _ Hs0 Hex) as Hinv.
  exists (set_worker (set_poisoned s) v6 Panicked). split; [|split].
  - simpl. unfold worker_turn. rewrite bool_decide_true by done. rewrite Hstop, Hparse. simpl.
    unfold deliver. by rewrite Hpois, find_pending_none, Hq.
  - simpl. by rewrite bool_decide_true.
  - intros acts' s'' Hacts. destruct (poisoned_execs _ _ _ (eq_refl : poisoned (set_worker (set_poisoned s) v6 Panicked) = true) Hacts)
      as (_ & _ & Hwait & Hnew).
    split.
    + intros i c Hi Hst Hb. apply Hwait; try done. simpl.
      pose proof (inv_calls _ _ _ Hinv i c Hi) as Hc. unfold call_ok in Hc. rewrite Hst in Hc.
      destruct Hc as [_ [[_ Hin]|[Hb'|(p & Hb' & _)]]]; congruence.
    + intros i c r Hnone Hi Hh Hst. specialize (Hnew i c Hnone Hi Hh). by rewrite Hst in Hnew.
Qed.

(** ** Numbers *)

(** The numbers of queries that are made one after the other: the counter stays
    below 65535 and [packet.header.id + 1] does not overflow. *)
Lemma number_alone seq :
  0 ≤ seq < 65535 →
  (fetch_number seq).1 = seq ∧
  reset_number seq (fetch_number seq).2 = Ok ((seq + 1) mod 65535) ∧ 0 ≤ (seq + 1) mod 65535 < 65535.
Proof.
  intros Hs. unfold fetch_number, reset_number, wrap. simpl.
  rewrite !Z.mod_small by lia. unfold add_w, arith. split; [done|].
  assert (fits 16 (seq + 1) = true) as -> by (apply andb_true_intro; rewrite Z.leb_le, Z.ltb_lt; lia). simpl. split; [|by apply Z.mod_pos_bound].
  destruct (decide (seq + 1 = 65535)) as [->|Hne]; [done|].
  rewrite (proj2 (Z.eqb_neq _ _)) by done. simpl. by rewrite Z.mod_small by lia.
Qed.
End Client.
