(* ===== verification/ClientFuel.v ===== *)
(** * The fuel for datagrams

    [Client.udp_fuel] settles the parsing of every datagram: on a buffer of 512
    bytes more fuel gives the same result, so a parse that runs out of it is a
    parse that does not end. *)

From S2P Require Import Prelude Text Buffer BufferProps Protocol Client.
Open Scope nat_scope.

Definition whole (b : BytePacketBuffer.t) : Prop := length (BytePacketBuffer.buf b) = 512.

(** Two readers that do the same on every buffer of the right size. *)
Definition agree {E A} (m m' : M BytePacketBuffer.t E A) : Prop :=
  ∀ s, whole s → m s = m' s ∧ ∀ a s', m s = Ok (a, s') → whole s'.

Lemma agree_bind {E1 E2 A B} `{From E1 E2} (m m' : M _ E1 A) (k k' : A → M _ E2 B) :
  agree m m' → (∀ a, agree (k a) (k' a)) → agree (mbind_ m k) (mbind_ m' k').
Proof.
  intros Hm Hk s Hs. destruct (Hm s Hs) as [He Hw]. unfold mbind_. rewrite <- He.
  destruct (m s) as [[a s1]| | |]; simpl; try done. by apply Hk, (Hw a).
Qed.

Lemma agree_refl {E A} (m : M _ E A) : Steps (preserved whole) m → agree m m.
Proof. intros Hm s Hs. split; [done|]. intros a s' Hr. by apply (Hm s a s' Hr). Qed.

Lemma agree_repeat {E A} n (f f' : M _ E A) : agree f f' → agree (mrepeat n f) (mrepeat n f').
Proof.
  intros Hf. induction n as [|n IH]; simpl; [apply agree_refl; steps|].
  apply agree_bind; [done|]. intros a. apply agree_bind; [done|]. intros l. apply agree_refl. steps.
Qed.

(** The buffer's own methods. *)
Lemma whole_read : Steps (preserved whole) BytePacketBuffer.read.
Proof. intros s a s'. unfold BytePacketBuffer.read. case_bool_decide; [done|]. destruct (_ !! _); [|done]. intros [= _ <-]. exact (λ h, h). Qed.
Lemma whole_get p : Steps (preserved whole) (BytePacketBuffer.get p).
Proof. intros s a s'. unfold BytePacketBuffer.get. case_bool_decide; [done|]. destruct (_ !! _); [|done]. intros [= _ <-]. exact (λ h, h). Qed.
Lemma whole_get_range p n : Steps (preserved whole) (BytePacketBuffer.get_range p n).
Proof. intros s a s'. unfold BytePacketBuffer.get_range. case_bool_decide; [done|]. intros [= _ <-]. exact (λ h, h). Qed.
Lemma whole_seek p : Steps (preserved whole) (BytePacketBuffer.seek p).
Proof. intros s a s'. intros [= _ <-]. exact (λ h, h). Qed.
Lemma whole_step n : Steps (preserved whole) (BytePacketBuffer.step n).
Proof. intros s a s'. intros [= _ <-]. exact (λ h, h). Qed.
#[export] Hint Resolve whole_read whole_get whole_get_range whole_seek whole_step : steps.

Section Fuel.
Context {BP : Build} {U : Unicode}.

Lemma whole_loop fuel : ∀ p jumped delim out,
  Steps (preserved whole) (read_qname_loop (B := BytePacketBuffer.t) fuel p jumped delim out).
Proof.
  induction fuel as [|fuel IH]; intros p jumped delim out; [by intros s a s'|]. simpl.
  apply steps_bind; [apply _|apply whole_get|intros len]. apply steps_if.
  - apply steps_bind; [apply _|destruct jumped; [steps|apply whole_seek]|intros _].
    apply steps_bind; [apply _|apply whole_get|intros b2]. apply IH.
  - apply steps_if; [steps|]. apply steps_bind; [apply _|apply whole_get_range|intros str]. apply IH.
Qed.

Lemma whole_qname fuel out : Steps (preserved whole) (read_qname (B := BytePacketBuffer.t) fuel out).
Proof.
  unfold read_qname. apply steps_bind; [apply _|apply steps_get; apply _|intros p].
  apply steps_bind; [apply _|apply whole_loop|intros [[q jumped] o]]. apply steps_if; [steps|].
  apply steps_bind; [apply _|apply whole_seek|intros _]. steps.
Qed.

(** More fuel does not change a result. *)
Definition more {S E A} (m m' : M S E A) : Prop := ∀ s, m s ≠ OutOfFuel → m' s = m s.

Lemma more_bind {S E1 E2 A B} `{From E1 E2} (m : M S E1 A) (k k' : A → M S E2 B) :
  (∀ a, more (k a) (k' a)) → more (mbind_ m k) (mbind_ m k').
Proof. intros Hk s. unfold mbind_. destruct (m s) as [[a s1]| | |]; simpl; [apply Hk|done..]. Qed.

Lemma loop_more {B} `{PacketBuffer B} fuel k : ∀ p jumped delim out,
  more (read_qname_loop (B := B) fuel p jumped delim out) (read_qname_loop (fuel + k) p jumped delim out).
Proof.
  induction fuel as [|fuel IH]; intros p jumped delim out; [by intros s Hs; destruct Hs|]. simpl. apply more_bind. intros len.
  destruct (Z.gtb _ _); [apply more_bind; intros _; apply more_bind; intros b2; apply IH|].
  destruct (Z.eqb _ _); [by intros s|]. apply more_bind. intros str. apply IH.
Qed.

Lemma qname_agree k out : agree (read_qname (513 + k) out) (read_qname 513 out).
Proof.
  intros s Hs. split; [|intros a s' Hr; by apply (whole_qname _ _ _ _ _ Hr)].
  assert (read_qname_loop 513 (pb_pos s) false [] out s = OutOfFuel ∨
          read_qname_loop 513 (pb_pos s) false [] out s ≠ OutOfFuel) as [Ho|Hn]
    by (destruct (read_qname_loop _ _ _ _ _ s); auto).
  - assert (read_qname 513 out s = OutOfFuel) as Hq by (unfold read_qname, mbind_; cbn [mget obind]; by rewrite Ho).
    rewrite Hq. by apply byte_qname_fuel.
  - unfold read_qname, mbind_. cbn [mget obind]. by rewrite loop_more.
Qed.

(** ** Through the packet parser *)

Section Parser.
Context (f f' : nat) (Hq : ∀ out, agree (read_qname f out) (read_qname f' out)).

Ltac agree :=
  repeat first
    [ apply Hq | apply agree_bind; [|intros ?] | apply agree_repeat
    | solve [apply agree_refl; unfold read_u16, read_u32; steps] ].

Lemma record_agree : agree (DnsRecord.read f) (DnsRecord.read f').
Proof.
  unfold DnsRecord.read. agree. unfold DnsRecord.read_rdata. destruct (QueryType.from_num _); agree.
Qed.

Lemma question_agree q : agree (DnsQuestion.read f q) (DnsQuestion.read f' q).
Proof. unfold DnsQuestion.read. agree. Qed.

Lemma packet_agree : agree (DnsPacket.from_buffer f) (DnsPacket.from_buffer f').
Proof.
  unfold DnsPacket.from_buffer.
  apply agree_bind; [apply agree_refl; unfold DnsHeader.read, read_u16; steps|intros h].
  repeat (apply agree_bind; [apply agree_repeat; first [apply question_agree|apply record_agree]|intros ?]). agree.
Qed.
End Parser.

Lemma received_whole data : whole (Client.received_buffer data).
Proof. unfold whole, Client.received_buffer. cbn [BytePacketBuffer.buf]. rewrite length_take, length_app, length_replicate. lia. Qed.

(** More fuel than [udp_fuel] changes nothing. *)
Lemma parse_settled data fuel :
  udp_fuel ≤ fuel →
  DnsPacket.from_buffer fuel (Client.received_buffer data) = DnsPacket.from_buffer udp_fuel (Client.received_buffer data).
Proof.
  intros Hf. refine (proj1 (packet_agree fuel udp_fuel _ _ (received_whole data))). intros out.
  unfold udp_fuel in *. replace fuel with (513 + (fuel - 513)) by lia. apply qname_agree.
Qed.
End Fuel.
