(* ===== verification/ParserProps.v ===== *)
(** * The errors of the packet parser

    What the reader of DNS messages can do with bytes from the network: return
    a packet whose every field is within its Rust type, return the one error of
    its buffer, or follow names for ever. The rules of [Safe] carry a
    postcondition, an error condition and a panic condition through the reads;
    [SafeReads] is what the rules ask of a buffer, and both buffers that hold
    bytes of others (the datagram of [BytePacketBuffer], the TCP message of
    [StreamPacketBuffer]) provide it. *)

From S2P Require Import Prelude Text Net Buffer BufferFacts Protocol ProtocolFacts Client ClientFuel.
Open Scope Z_scope.

(** ** Postconditions of fallible computations *)

(** From a state of [I] the computation keeps [I] and returns a value of [Q], or
    fails with an error of [X], or panics when [K] allows it. *)
Definition Safe {S E A} (I : S → Prop) (X : E → Prop) (K : Prop) (Q : A → Prop) (m : M S E A) : Prop :=
  ∀ s, I s → match m s with
             | Ok (a, s') => Q a ∧ I s'
             | Err e => X e
             | Panic => K
             | OutOfFuel => True
             end.

Section Rules.
Context {S : Type} (I : S → Prop) (K : Prop).

Lemma safe_bind {E1 E2 A B} `{From E1 E2} (X1 : E1 → Prop) (X2 : E2 → Prop) (P : A → Prop) (Q : B → Prop) m k :
  Safe I X1 K P m → (∀ e, X1 e → X2 (from e)) → (∀ a, P a → Safe I X2 K Q (k a)) → Safe I X2 K Q (mbind_ m k).
Proof.
  intros Hm HX Hk s Hs. unfold mbind_. specialize (Hm s Hs).
  destruct (m s) as [[a s']|e| |]; simpl; auto. destruct Hm as [Ha Hs']. by apply Hk.
Qed.

Lemma safe_ret {E A} (X : E → Prop) (Q : A → Prop) a : Q a → Safe I X K Q (mret a).
Proof. by intros Ha s Hs. Qed.

Lemma safe_weaken {E A} (X : E → Prop) (P Q : A → Prop) m : Safe I X K P m → (∀ a, P a → Q a) → Safe I X K Q m.
Proof. intros Hm HPQ s Hs. specialize (Hm s Hs). destruct (m s) as [[a s']| | |]; naive_solver. Qed.

Lemma safe_get {E A} (X : E → Prop) (f : S → A) : Safe I X K (λ _, True) (mget f).
Proof. by intros s Hs. Qed.

Lemma safe_repeat {E A} (X : E → Prop) (P : A → Prop) n f :
  Safe I X K P f → Safe I X K (λ l, length l = n ∧ Forall P l) (mrepeat n f).
Proof.
  intros Hf. induction n as [|n IH]; simpl; [by apply safe_ret|].
  eapply safe_bind; [exact Hf|done|intros a Ha]. eapply safe_bind; [exact IH|done|].
  intros l [<- Hl]. apply safe_ret. split; [done|by constructor].
Qed.
End Rules.

(** ** Buffers of foreign bytes *)

(** A buffer that holds the bytes of [message]. *)
Class SafeReads (B : Type) `{PacketBuffer B} (message : bytes) (K : Prop) := {
  (** the states that hold the message *)
  sr_inv : B → Prop;
  (** the one error of its reads *)
  sr_eof : BufferError;
  sr_read : Safe sr_inv (.= sr_eof) K is_u8 pb_read;
  (** a read is of the next byte of the message *)
  sr_next b v b' : sr_inv b → pb_read b = Ok (v, b') → message !! pb_pos b = Some v ∧ pb_pos b' = S (pb_pos b);
  sr_get p : Safe sr_inv (.= sr_eof) K is_u8 (pb_get p);
  sr_get_range p n : Safe sr_inv (.= sr_eof) K bytes_ok (pb_get_range p n);
  sr_seek p : Safe sr_inv (.= sr_eof) K (λ _, True) (pb_seek p);
  sr_step n : Safe sr_inv (.= sr_eof) K (λ _, True) (pb_step n);
}.

Lemma bytes_ok_range p n b : bytes_ok b → bytes_ok (take n (drop p b)).
Proof. intros Hb. by apply Forall_take, Forall_drop. Qed.

Lemma bytes_ok_lookup p b v : bytes_ok b → b !! p = Some v → is_u8 v.
Proof. apply Forall_lookup_1. Qed.
Lemma bytes_ok_app b1 b2 : bytes_ok (b1 ++ b2) → bytes_ok b1.
Proof. by intros [? _]%Forall_app. Qed.

#[export] Program Instance byte_safe message K : SafeReads BytePacketBuffer.t message K := {|
  sr_inv b := length message = 512%nat ∧ bytes_ok message ∧ BytePacketBuffer.buf b = message;
  sr_eof := EndOfBuffer;
|}.
Next Obligation.
  intros message K s (Hl & Hb & Hm). simpl. unfold BytePacketBuffer.read. case_bool_decide as Hp; [done|]. rewrite Hm.
  destruct (lookup_lt_is_Some_2 message (BytePacketBuffer.pos s)) as [v Hv]; [lia|].
  rewrite Hv. split; [by eapply bytes_ok_lookup|done].
Qed.
Next Obligation.
  intros message K s v s' (Hl & Hb & Hm). simpl. unfold BytePacketBuffer.read. case_bool_decide as Hp; [done|]. rewrite Hm.
  destruct (message !! _); [|done]. intros [= <- <-]. simpl. split; [done|lia].
Qed.
Next Obligation.
  intros message K p s (Hl & Hb & Hm). simpl. unfold BytePacketBuffer.get. case_bool_decide as Hp; [done|]. rewrite Hm.
  destruct (lookup_lt_is_Some_2 message p) as [v Hv]; [lia|].
  rewrite Hv. split; [by eapply bytes_ok_lookup|done].
Qed.
Next Obligation.
  intros message K p n s (Hl & Hb & Hm). simpl. unfold BytePacketBuffer.get_range. case_bool_decide; [done|]. rewrite Hm.
  split; [by apply bytes_ok_range|done].
Qed.
Next Obligation. by intros message K p s Hs. Qed.
Next Obligation. by intros message K n s Hs. Qed.

(** [fill] either delivers what is asked or is at the end of the stream. *)
Lemma fill_safe n stream : ∀ buffer,
  match StreamPacketBuffer.fill n stream buffer with
  | Ok (stream', buffer') => buffer' ++ stream' = buffer ++ stream ∧ (n ≤ length buffer')%nat
  | Err e => e = Buffer.Io
  | _ => False
  end.
Proof.
  induction stream as [|c stream IH]; intros buffer; simpl; case_bool_decide; auto with lia.
  specialize (IH (buffer ++ [c])). rewrite <- app_assoc in IH. exact IH.
Qed.

#[export] Program Instance stream_safe message K : SafeReads StreamPacketBuffer.t message K := {|
  sr_inv b := bytes_ok message ∧ StreamPacketBuffer.buffer b ++ StreamPacketBuffer.stream b = message;
  sr_eof := Buffer.Io;
|}.
Next Obligation.
  intros message K s [Hb Hm]. simpl. unfold StreamPacketBuffer.read.
  pose proof (fill_safe (StreamPacketBuffer.pos s + 1) (StreamPacketBuffer.stream s) (StreamPacketBuffer.buffer s)) as Hf.
  destruct (StreamPacketBuffer.fill _ _ _) as [[st bu]| | |]; simpl; try done. destruct Hf as [He Hl]. rewrite Hm in He.
  destruct (lookup_lt_is_Some_2 bu (StreamPacketBuffer.pos s)) as [v Hv]; [lia|]. rewrite Hv.
  split; [|done]. apply (bytes_ok_lookup (StreamPacketBuffer.pos s) message); [done|]. rewrite <- He. by apply lookup_app_l_Some.
Qed.
Next Obligation.
  intros message K s v s' [Hb Hm]. simpl. unfold StreamPacketBuffer.read.
  pose proof (fill_safe (StreamPacketBuffer.pos s + 1) (StreamPacketBuffer.stream s) (StreamPacketBuffer.buffer s)) as Hf.
  destruct (StreamPacketBuffer.fill _ _ _) as [[st bu]| | |]; simpl; try done. destruct Hf as [He Hl]. rewrite Hm in He.
  destruct (bu !! _) as [x|] eqn:Hv; [|done]. intros [= <- <-]. simpl. split; [|lia].
  rewrite <- He. by apply lookup_app_l_Some.
Qed.
Next Obligation.
  intros message K p s [Hb Hm]. simpl. unfold StreamPacketBuffer.get.
  pose proof (fill_safe (p + 1) (StreamPacketBuffer.stream s) (StreamPacketBuffer.buffer s)) as Hf.
  destruct (StreamPacketBuffer.fill _ _ _) as [[st bu]| | |]; simpl; try done. destruct Hf as [He Hl]. rewrite Hm in He.
  destruct (lookup_lt_is_Some_2 bu p) as [v Hv]; [lia|]. rewrite Hv.
  split; [|done]. apply (bytes_ok_lookup p message); [done|]. rewrite <- He. by apply lookup_app_l_Some.
Qed.
Next Obligation.
  intros message K p n s [Hb Hm]. simpl. unfold StreamPacketBuffer.get_range.
  pose proof (fill_safe (p + n) (StreamPacketBuffer.stream s) (StreamPacketBuffer.buffer s)) as Hf.
  destruct (StreamPacketBuffer.fill _ _ _) as [[st bu]| | |]; simpl; try done. destruct Hf as [He Hl]. rewrite Hm in He.
  rewrite bool_decide_true by done. split; [|done]. rewrite <- He in Hb. apply bytes_ok_range, (bytes_ok_app _ _ Hb).
Qed.
Next Obligation. by intros message K p s Hs. Qed.
Next Obligation. by intros message K n s Hs. Qed.

(** ** Values within their Rust types *)

(** [record_ok] without what only a writer asks for. *)
Definition typed_record (r : DnsRecord.t) : Prop :=
  match r with
  | DnsRecord.UNKNOWN _ q n ttl => is_u16 q ∧ is_u16 n ∧ is_u32 ttl
  | DnsRecord.TLSA _ u s m data ttl => is_u8 u ∧ is_u8 s ∧ is_u8 m ∧ bytes_ok data ∧ is_u32 ttl
  | _ => ints_ok r
  end.

Definition typed_header (h : DnsHeader.t) : Prop :=
  is_u16 (DnsHeader.id h) ∧ is_u 4 (DnsHeader.opcode h) ∧ is_u16 (DnsHeader.questions h) ∧
  is_u16 (DnsHeader.answers h) ∧ is_u16 (DnsHeader.authoritative_entries h) ∧
  is_u16 (DnsHeader.resource_entries h).

(** [l] has as many entries as the header says, all of them [P]. *)
Definition section_ok {A} (P : A → Prop) (n : Z) (l : list A) : Prop := Z.of_nat (length l) = n ∧ Forall P l.

Definition typed_packet (p : DnsPacket.t) : Prop :=
  let h := DnsPacket.header p in
  typed_header h ∧
  section_ok (λ q, is_u16 (QueryType.to_num (DnsQuestion.qtype q))) (DnsHeader.questions h) (DnsPacket.questions p) ∧
  section_ok typed_record (DnsHeader.answers h) (DnsPacket.answers p) ∧
  section_ok typed_record (DnsHeader.authoritative_entries h) (DnsPacket.authorities p) ∧
  section_ok typed_record (DnsHeader.resource_entries h) (DnsPacket.resources p).

(** ** Machine words from bytes *)

Lemma is_u_land w z : 0 <= w → is_u w z ↔ Z.land z (Z.ones w) = z.
Proof.
  intros Hw. rewrite Z.land_ones by done. unfold is_u. split; intros Hz; [by apply Z.mod_small|].
  rewrite <- Hz. apply Z.mod_pos_bound. by apply Z.pow_pos_nonneg.
Qed.

Lemma is_u_lor w a b : 0 <= w → is_u w a → is_u w b → is_u w (Z.lor a b).
Proof. intros Hw. rewrite !is_u_land by done. intros Ha Hb. by rewrite Z.land_lor_distr_l, Ha, Hb. Qed.

Lemma is_u_shiftl w k a : 0 <= w → 0 <= k → is_u w a → is_u (w + k) (Z.shiftl a k).
Proof.
  intros Hw Hk [H1 H2]. unfold is_u. rewrite Z.shiftl_mul_pow2, Z.pow_add_r by done.
  pose proof (Z.pow_pos_nonneg 2 k eq_refl Hk). split; [lia|by apply Z.mul_lt_mono_pos_r].
Qed.

Lemma is_u_le v w z : v <= w → is_u v z → is_u w z.
Proof. intros Hv [H1 H2]. split; [done|]. eapply Z.lt_le_trans; [done|]. by apply Z.pow_le_mono_r. Qed.

Lemma is_u_wrap w z : 0 <= w → is_u w (wrap w z).
Proof. apply wrap_is_u. Qed.

(** ** The reader, function by function *)

(** A TLSA record (type 52) with less than three bytes of data, somewhere in a
    message: its type, class, TTL and length. *)
Definition short_tlsa (message : bytes) : Prop := ∃ p n,
  message !! p = Some 0 ∧ message !! (p + 1)%nat = Some 52 ∧ message !! (p + 8)%nat = Some 0 ∧
  message !! (p + 9)%nat = Some n ∧ n < 3.

Section Reader.
Context {B : Type} {message : bytes} {K : Prop} `{SR : SafeReads B message K} {U : Unicode} {BP : Build}.
Context (Hchecks : overflow_checks = true → short_tlsa message → K).

Abbreviation safe_io Q := (Safe sr_inv (λ e, e = sr_eof) K Q).
Abbreviation safe_packet Q := (Safe sr_inv (λ e, e = BufferErr sr_eof) K Q).

Lemma safe_u16 : safe_io is_u16 read_u16.
Proof.
  unfold read_u16. eapply safe_bind; [apply sr_read|done|intros a Ha]. eapply safe_bind; [apply sr_read|done|intros b Hb].
  apply safe_ret, is_u_lor; [done|by apply (is_u_shiftl 8 8)|by apply (is_u_le 8)].
Qed.

(** Which bytes a number is read from. *)
Lemma byte_at b v b' : sr_inv b → pb_read b = Ok (v, b') →
  sr_inv b' ∧ is_u8 v ∧ message !! pb_pos b = Some v ∧ pb_pos b' = S (pb_pos b).
Proof.
  intros Hb Hr. pose proof (sr_read b Hb) as Hs. rewrite Hr in Hs. destruct Hs as [? ?].
  by destruct (sr_next _ _ _ Hb Hr).
Qed.

Lemma u16_at b v b' : sr_inv b → read_u16 b = Ok (v, b') → pb_pos b' = (pb_pos b + 2)%nat ∧
  ∃ x y, message !! pb_pos b = Some x ∧ message !! (pb_pos b + 1)%nat = Some y ∧ is_u8 x ∧ is_u8 y ∧ v = x * 256 + y.
Proof.
  intros Hb. unfold read_u16, mbind_. destruct (pb_read b) as [[x b1]| | |] eqn:Hx; try done.
  apply byte_at in Hx as (Hb1 & Hx8 & Hx & Hp1); [|done]. cbn [obind].
  destruct (pb_read b1) as [[y b2]| | |] eqn:Hy; try done.
  apply byte_at in Hy as (Hb2 & Hy8 & Hy & Hp2); [|done]. intros [= <- <-].
  rewrite Hp1 in Hy. split; [lia|]. exists x, y. rewrite Nat.add_1_r, lor_shiftl_add by done. done.
Qed.

Lemma u32_at b v b' : sr_inv b → read_u32 b = Ok (v, b') → pb_pos b' = (pb_pos b + 4)%nat.
Proof.
  intros Hb. unfold read_u32, mbind_.
  do 4 (match goal with |- context [pb_read ?s] =>
    destruct (pb_read s) as [[? ?]| | |] eqn:Hr; try done; apply byte_at in Hr as (? & _ & _ & ?); [|done]; cbn [obind] end).
  intros [= _ <-]. lia.
Qed.

Lemma safe_u32 : safe_io is_u32 read_u32.
Proof.
  unfold read_u32. do 4 (eapply safe_bind; [apply sr_read|done|intros ? ?]).
  apply safe_ret. repeat apply is_u_lor; try done.
  - by apply (is_u_shiftl 8 24).
  - apply (is_u_le 24); [done|]. by apply (is_u_shiftl 8 16).
  - apply (is_u_le 16); [done|]. by apply (is_u_shiftl 8 8).
  - by apply (is_u_le 8).
Qed.

Lemma safe_loop fuel : ∀ p jumped delim out, safe_io (λ _, True) (read_qname_loop fuel p jumped delim out).
Proof.
  induction fuel as [|fuel IH]; intros p jumped delim out; [by intros s Hs|]. simpl.
  eapply safe_bind; [apply sr_get|done|intros len Hlen]. destruct (Z.gtb _ _).
  - eapply (safe_bind _ _ (.= sr_eof) _ (λ _, True)); [destruct jumped; [by apply safe_ret|apply sr_seek]|done|intros _ _].
    eapply safe_bind; [apply sr_get|done|intros b2 _]. apply IH.
  - destruct (Z.eqb _ _); [by apply safe_ret|].
    eapply safe_bind; [apply sr_get_range|done|intros d _]. apply IH.
Qed.

Lemma safe_qname fuel out : safe_io (λ _, True) (read_qname fuel out).
Proof.
  unfold read_qname. eapply safe_bind; [by apply safe_get|done|intros p _].
  eapply safe_bind; [apply safe_loop|done|intros [[q jumped] o] _]. destruct jumped; [by apply safe_ret|].
  eapply safe_bind; [apply sr_seek|done|intros _ _]. by apply safe_ret.
Qed.

(** [data_len - 3]: the one arithmetic of the reader that can leave its type. *)
Lemma safe_sub {E} a : is_u16 a → (a < 3 → short_tlsa message) → Safe sr_inv (λ _ : E, False) K is_u16 (mlift (sub_w 16 a 3)).
Proof.
  intros Ha Hshort s Hs. unfold mlift, sub_w, arith. destruct (fits 16 (a - 3)) eqn:Hf; simpl; [by rewrite fits_is_u in Hf|].
  assert (a < 3) as Ha3.
  { destruct (Z.lt_ge_cases a 3) as [|Hge]; [done|]. assert (fits 16 (a - 3) = true); [|congruence].
    apply fits_is_u. destruct Ha. split; lia. }
  destruct overflow_checks eqn:Hc; simpl; [auto|]. split; [by apply is_u_wrap|done].
Qed.

(** A step of the parser that calls the buffer. *)
Ltac call := first
  [ eapply safe_bind; [first [apply safe_u16|apply safe_u32|apply safe_qname|apply sr_read|apply sr_step|apply sr_get_range
                             |by apply (safe_get _ _ (.= sr_eof))]|by intros ? ->|intros ? ?; cbv beta in *]
  | eapply safe_bind; [apply safe_sub; [assumption|by eauto]|by intros ? []|intros ? ?]
  | apply safe_ret ].

Lemma safe_rdata fuel domain q cls ttl n : is_u16 q → is_u16 cls → is_u32 ttl → is_u16 n →
  (q = 52 → n < 3 → short_tlsa message) →
  safe_packet typed_record (DnsRecord.read_rdata fuel domain q cls ttl n).
Proof.
  intros Hq Hc Ht Hn Hshort. unfold DnsRecord.read_rdata.
  destruct (QueryType.from_num q) eqn:Hnum.
  all: try (assert (q = 52) as H52 by (revert Hnum; unfold QueryType.from_num; repeat case_match; try done; intros _; lia)).
  all: repeat call.
  all: simpl; repeat first [done | by apply is_u_wrap | apply conj | constructor].
Qed.

Lemma safe_record fuel : safe_packet typed_record (DnsRecord.read fuel).
Proof.
  intros s Hs. unfold DnsRecord.read, mbind_.
  pose proof (safe_qname fuel [] s Hs) as Hr0. destruct (read_qname fuel [] s) as [[d s0]| | |]; simpl; auto; [|by rewrite Hr0].
  destruct Hr0 as [_ Hs0].
  pose proof (safe_u16 s0 Hs0) as Hr1. destruct (read_u16 s0) as [[q s1]| | |] eqn:Hq; simpl; auto; [|by rewrite Hr1].
  apply u16_at in Hq as (Hp1 & x & y & Hx & Hy & ? & ? & ->); [|done]. destruct Hr1 as [Hq16 Hs1].
  pose proof (safe_u16 s1 Hs1) as Hr2. destruct (read_u16 s1) as [[cls s2]| | |] eqn:Hc; simpl; auto; [|by rewrite Hr2].
  apply u16_at in Hc as [Hp2 _]; [|done]. destruct Hr2 as [Hc16 Hs2].
  pose proof (safe_u32 s2 Hs2) as Hr3. destruct (read_u32 s2) as [[ttl s3]| | |] eqn:Ht; simpl; auto; [|by rewrite Hr3].
  apply u32_at in Ht as Hp3; [|done]. destruct Hr3 as [Ht32 Hs3].
  pose proof (safe_u16 s3 Hs3) as Hr4. destruct (read_u16 s3) as [[n s4]| | |] eqn:Hn; simpl; auto; [|by rewrite Hr4].
  apply u16_at in Hn as (_ & u & w & Hu & Hw & ? & ? & ->); [|done]. destruct Hr4 as [Hn16 Hs4].
  apply safe_rdata; try done. intros H52 Hr3. unfold is_u8, is_u in *.
  exists (pb_pos s0), w. replace x with 0 in * by lia. replace y with 52 in * by lia. replace u with 0 in * by lia.
  rewrite Hp3, Hp2, Hp1, <- !Nat.add_assoc in *. simpl in *. repeat split; first [done|lia].
Qed.

Lemma to_from_num n : QueryType.to_num (QueryType.from_num n) = n.
Proof. unfold QueryType.from_num. repeat case_match; simpl; lia. Qed.

Lemma safe_question fuel q : safe_packet (λ q, is_u16 (QueryType.to_num (DnsQuestion.qtype q))) (DnsQuestion.read fuel q).
Proof. unfold DnsQuestion.read. do 4 call. simpl. by rewrite to_from_num. Qed.

Lemma is_u_land4 a : is_u 4 (Z.land a 15).
Proof. apply is_u_land; [done|]. by rewrite <- Z.land_assoc. Qed.

Lemma safe_header : safe_packet typed_header DnsHeader.read.
Proof. unfold DnsHeader.read. repeat call. unfold typed_header; simpl. repeat split_and; try done; apply is_u_land4. Qed.

(** The parser, whatever the packet. *)
Lemma safe_from_buffer fuel : safe_packet typed_packet (DnsPacket.from_buffer fuel).
Proof.
  unfold DnsPacket.from_buffer. eapply safe_bind; [apply safe_header|by intros ? ->|intros h Hh].
  eapply safe_bind; [apply safe_repeat, safe_question|by intros ? ->|intros qs [Hq1 Hq2]].
  do 3 (eapply safe_bind; [apply safe_repeat, safe_record|by intros ? ->|intros ? [? ?]]).
  apply safe_ret. split; [done|]. destruct Hh as (_ & _ & [? _] & [? _] & [? _] & [? _]). simpl.
  split; [|split; [|split]]; (split; [lia|done]).
Qed.
End Reader.

(** ** Datagrams and messages of TCP *)

(** A result of the parser: [panics] is the condition of a panic. *)
Definition parsed (eof : BufferError) (panics : Prop) (o : outcome ProtocolError DnsPacket.t) : Prop :=
  match o with
  | Ok p => typed_packet p
  | Err e => e = Protocol.BufferErr eof
  | Panic => panics
  | OutOfFuel => True
  end.

(** The subtraction [data_len - 3] of a short TLSA record, in a checked build. *)
Definition tlsa_panics `{BP : Build} (message : bytes) : Prop := overflow_checks = true ∧ short_tlsa message.

(** A datagram as the parser has it: the buffer of 512 bytes, zeros behind it. *)
Definition in_buffer (data : bytes) : bytes := BytePacketBuffer.buf (Client.received_buffer data).

Lemma received_safe data K : bytes_ok data → sr_inv (SafeReads := byte_safe (in_buffer data) K) (Client.received_buffer data).
Proof.
  intros Hd. split; [apply received_whole|]. split; [|done]. apply Forall_take, Forall_app. split; [done|]. by apply Forall_replicate.
Qed.

Lemma parsed_of {B} `{BP : Build} message `{SR : SafeReads B message (tlsa_panics message)} {U : Unicode} (b : B) fuel :
  sr_inv b →
  parsed sr_eof (tlsa_panics message) (let! (packet, _) := DnsPacket.from_buffer fuel b in Ok packet).
Proof.
  intros Hb. pose proof (safe_from_buffer (λ Hc Hs, conj Hc Hs) fuel b Hb) as Hp.
  destruct (DnsPacket.from_buffer fuel b) as [[p b']|e| |]; simpl in *; try done. apply Hp.
Qed.

(** [Client::parse] and a message over TCP. *)
Lemma parse_parsed `{BP : Build} `{U : Unicode} data :
  bytes_ok data → parsed EndOfBuffer (tlsa_panics (in_buffer data)) (Client.parse data).
Proof. intros Hd. apply (parsed_of (in_buffer data) (SR := byte_safe _ _)). by apply received_safe. Qed.

Lemma stream_parsed `{BP : Build} `{U : Unicode} data fuel : bytes_ok data →
  parsed Buffer.Io (tlsa_panics data)
    (let! (packet, _) := DnsPacket.from_buffer fuel (StreamPacketBuffer.new data) in Ok packet).
Proof. intros Hd. by apply (parsed_of data (SR := stream_safe _ _)). Qed.

(** C13: what bytes from the network can make the parser do. From any datagram, and
    from any message of a TCP connection, [DnsPacket::from_buffer] returns a
    packet with as many questions and records as its header counts, every field
    within its Rust type; or it fails with the one error of its buffer, the end of
    the buffer for a datagram, the end of the stream for a connection; or it
    follows a name for ever. It panics only in a build with overflow checks, and
    only on a message that holds the head of a TLSA record whose length is below
    three, where [data_len - 3] leaves its type: no other record, and no other
    arithmetic of the parser, panics. *)
Theorem parser_errors `{BP : Build} `{U : Unicode} data : bytes_ok data →
  parsed EndOfBuffer (tlsa_panics (in_buffer data)) (Client.parse data) ∧
  ∀ fuel, parsed Buffer.Io (tlsa_panics data)
    (let! (packet, _) := DnsPacket.from_buffer fuel (StreamPacketBuffer.new data) in Ok packet).
Proof. split; [by apply parse_parsed|]. intros fuel. by apply stream_parsed. Qed.

(** The answer of a server to which a TLSA record of two bytes belongs. *)
Definition tlsa_datagram : bytes := [0; 7; 128; 0; 0; 0; 0; 1; 0; 0; 0; 0; 0; 0; 52; 0; 1; 0; 0; 0; 0; 0; 2; 3; 1].

Lemma parser_errors_witness :
  bytes_ok tlsa_datagram ∧ Client.parse (BP := true) (U := ascii_tables) tlsa_datagram = Panic ∧
  Client.parse (BP := false) (U := ascii_tables) tlsa_datagram = Err (Protocol.BufferErr EndOfBuffer) ∧
  parsed EndOfBuffer (tlsa_panics (BP := false) (in_buffer tlsa_datagram)) (Client.parse (BP := false) (U := ascii_tables) tlsa_datagram) ∧
  DnsPacket.from_buffer (BP := false) (U := ascii_tables) 20 (StreamPacketBuffer.new tlsa_datagram) = Err (Protocol.BufferErr Buffer.Io).
Proof.
  assert (bytes_ok tlsa_datagram) as Hd by (repeat (constructor; [by compute|]); constructor).
  split; [done|]. split; [by vm_compute|]. split; [by vm_compute|]. split; [|by vm_compute].
  by apply (parser_errors (BP := false) (U := ascii_tables)).
Defined.
