(* ===== verification/ClientExamples.v ===== *)
(** * The DNS client at work

    A client with one query under way, on which the theorems are applied, and
    the behaviours that the findings name, computed. *)

From S2P Require Import Prelude Text Net Buffer Protocol Client ClientFuel ClientProps.
Open Scope Z_scope.
Import Client.

#[local] Existing Instance ascii_tables.
#[local] Instance checked : Build := true.

Definition server : SocketAddr := {| ip := V4 (Ipv4 9 9 9 9); port := 53 |}.
Definition ask : Client.request := mkRequest (str "a.b") QueryType.A true.

Definition or_default {E A} (o : outcome E A) (a : A) : A := match o with Ok x => x | _ => a end.

(** [DnsNetworkClient::new(10000)] *)
Definition created : Client.t := mk 0 0 0 [] false false (λ _, Idle) Idle ∅ [].

(** What call [i] does until it waits. *)
Definition sending (i : nat) (now : Z) : list action :=
  [Call i Query ask; Number i; Renumber i; Register_ i now; Send i (Some [server]) true].
Definition start : list action := Run (true, true, true) :: sending 1 1000.

Definition waiting : Client.t := default created (execs created start).

(** The answer: the query sent back. *)
Definition reply : bytes := match datagrams waiting with (_, d) :: _ => d | [] => [] end.

Example reply_bytes : reply = [0; 0; 1; 0; 0; 1; 0; 0; 0; 0; 0; 0; 1; 97; 1; 98; 0; 0; 1; 0; 1].
Proof. vm_compute. reflexivity. Qed.

Definition answered : Client.t := default created (execs created (start ++ [Worker false (Some reply); Receive 1])).

Definition answered_call : call :=
  Eval vm_compute in default (mkCall UdpQuery ask 0 Called []) (calls answered !! 1%nat).
Definition answered_packet : DnsPacket.t := Eval vm_compute in or_default (parse reply) DnsPacket.new.

Lemma answers_match_witness :
  at_stage answered_call = Returned (Ok answered_packet) ∧
  DnsHeader.id (DnsPacket.header answered_packet) = number answered_call.
Proof.
  split; [reflexivity|].
  refine (proj1 (proj2 (answers_match 10000 true true created (start ++ [Worker false (Some reply); Receive 1])
    answered 1 answered_call (Ok answered_packet) eq_refl _ _ eq_refl) _ answered_packet eq_refl));
    [vm_compute; reflexivity..|discriminate].
Defined.

Lemma started : execs created start = Some waiting.
Proof. vm_compute. reflexivity. Qed.

Lemma pending_one p : p ∈ pending_queries waiting → p = mkPending 0 1000 1.
Proof. change (pending_queries waiting) with [mkPending 0 1000 1]. apply list_elem_of_singleton. Qed.

Lemma callers_are_answered_witness :
  ∃ s', exec waiting (Timer (λ _, 6001)) = Some s' ∧ pending_queries s' = [].
Proof.
  destruct (callers_are_answered 10000 true true created start waiting (λ _, 6001) eq_refl started
    eq_refl eq_refl eq_refl) as (s' & H1 & H2 & _).
  - intros p k ->%pending_one. reflexivity.
  - exists s'. exact (conj H1 H2).
Defined.

(** A header of zeros with a number nobody waits for. *)
Definition stray : bytes := [255; 255].

Lemma stray_response_poisons_witness :
  ∃ s', exec waiting (Worker false (Some stray)) = Some s' ∧ worker s' false = Panicked ∧
  ∀ acts' s'', execs s' acts' = Some s'' → calls s'' !! 1%nat = calls waiting !! 1%nat.
Proof.
  edestruct (stray_response_poisons 10000 true true created start waiting false stray
    (or_default (parse stray) DnsPacket.new)) as (s' & H1 & H2 & H3); [vm_compute; reflexivity..| |].
  - intros p Hp. vm_compute in Hp. assert (p = mkPending 0 1000 1) as -> by set_solver. vm_compute. discriminate.
  - exists s'. split; [done|]. split; [done|]. intros acts' s'' Hex.
    rewrite (proj1 (H3 acts' s'' Hex) 1%nat _ eq_refl eq_refl eq_refl). reflexivity.
Defined.

(** A name that points to itself: the worker does not come back. *)
Definition loop_datagram : bytes := [255; 255; 0; 0; 0; 1; 0; 0; 0; 0; 0; 0; 192; 12].

Example worker_loops :
  (λ s, worker s true) <$> exec waiting (Worker true (Some loop_datagram)) = Some Looping ∧
  ∀ fuel, (udp_fuel ≤ fuel)%nat → DnsPacket.from_buffer fuel (received_buffer loop_datagram) = OutOfFuel.
Proof.
  split; [vm_compute; reflexivity|]. intros fuel Hf. rewrite parse_settled by done. vm_compute. reflexivity.
Qed.

(** Two queries made at the same time at the end of the numbers: the second
    takes 65535, and [packet.header.id + 1] panics with overflow checks. *)
Definition at_the_end : Client.t := set_counters created 0 0 65534.
Example number_race :
  (λ s, (at_stage <$> calls s !! 1%nat, at_stage <$> calls s !! 2%nat, seq s)) <$>
    execs at_the_end [Call 1 UdpQuery ask; Call 2 UdpQuery ask; Number 1; Number 2; Renumber 1; Renumber 2] =
  Some (Some Prepared, Some (Returned Panic), 65536).
Proof. vm_compute. reflexivity. Qed.

(** An empty body, or an absurd length, from the DoH server ends in a panic. *)
Example doh_empty_body :
  (Https.send_query 1 ask (Some (Https.mkResponse 200 (Some (str "0")) [] true))).1 = Panic.
Proof. vm_compute. reflexivity. Qed.
Example doh_length :
  (Https.send_query 1 ask (Some (Https.mkResponse 200 (Some (str "18446744073709551615")) reply true))).1 = Panic.
Proof. vm_compute. reflexivity. Qed.
Example doh_answer :
  DnsPacket.questions <$>
    match (Https.send_query 0 ask (Some (Https.mkResponse 200 (Some (str "21")) reply true))).1 with
    | Ok p => Some p | _ => None
    end = Some [DnsQuestion.new (str "a.b") QueryType.A].
Proof. vm_compute. reflexivity. Qed.

Example bootstraps_sorted :
  Https.resolve_bootstrap [str "9.9.9.9:53"; str "bad"]
    (λ _ qtype, match qtype with
                | QueryType.A => Some (DnsPacket.mk DnsHeader.new []
                    [DnsRecord.A [] (Ipv4 2 0 0 1) 1; DnsRecord.A [] (Ipv4 1 0 0 1) 1; DnsRecord.A [] (Ipv4 2 0 0 1) 1] [] [])
                | _ => None
                end) =
  [{| ip := V4 (Ipv4 1 0 0 1); port := 443 |}; {| ip := V4 (Ipv4 2 0 0 1); port := 443 |}].
Proof. vm_compute. reflexivity. Qed.

(** A cache of one entry, as the LRU cache keeps it at least. *)
Definition one_entry : Type := option (rstr * list SocketAddr).
Definition get_entry (host : rstr) (c : one_entry) : option (list SocketAddr) * one_entry :=
  (match c with Some (h, l) => if bool_decide (h = host) then Some l else None | None => None end, c).
Definition put_entry (host : rstr) (l : list SocketAddr) (c : one_entry) : one_entry := Some (host, l).

(** When no bootstrap server answers, nothing is remembered as the address of the
    host. The servers are not asked again, though they would answer now. *)
Lemma failed_bootstrap_kept :
  let resolve lookup := Https.resolver get_entry put_entry [str "9.9.9.9:53"] lookup (str "dns.test:443") in
  let answers _ _ qtype :=
    match qtype with
    | QueryType.A => Some (DnsPacket.mk DnsHeader.new [] [DnsRecord.A [] (Ipv4 1 0 0 1) 1] [] [])
    | _ => None
    end in
  let (failed, cache) := resolve (λ _ _ _, None) None in
  failed = [] ∧ (resolve answers cache).1 = [] ∧ (resolve answers None).1 = [{| ip := V4 (Ipv4 1 0 0 1); port := 443 |}].
Proof. vm_compute. done. Qed.
