(* ===== verification/Servers.v ===== *)
(** * The threads of the DNS servers (src/dns/server.rs)

    The UDP server: a listener that parses datagrams, skips those that were sent
    again and hands the rest over to the request threads through one channel. The
    TCP server: a listener that hands each connection over to a request thread of
    its own channel, chosen at random.

    An action is one turn of a listener, one [recv] of a request thread, or the
    rest of its turn. A turn that answers is one action: the resolver is shared
    through the [world], and how two resolutions mix is not modelled here. After
    a panic or a [return] a thread is gone; a thread in a loop that does not end
    is stuck, and is of no use any more: that the loop may also use up the memory
    is not modelled. *)

From S2P Require Import Prelude Text Net Commons Buffer Protocol Cache Authority Resolve Server Client.
Open Scope Z_scope.

(** [LruCache] of the crate lru, of times by source and number. *)
Class Lru := {
  lru : Type;
  lru_new : lru;
  lru_get : SocketAddr * Z → lru → option Z * lru;
  lru_put : SocketAddr * Z → Z → lru → lru;
}.

(** The codes with which Windows ends a listener. *)
Definition udp_finished (code : option Z) : bool := bool_decide (code = Some 10004) || bool_decide (code = Some 10093).
Definition tcp_finished (code : option Z) : bool := bool_decide (code = Some 10004).

Inductive life := Alive_ | Ended | Stuck.

(** ** UDP *)
Module DnsUdpServer.

Inductive worker :=
  | Idle
  | Serving (src : SocketAddr) (request : DnsPacket.t)
  | Gone (how : life).

Record t `{Lru} := mk {
  udp_query_count : Z;
  working_ids : lru;
  listener : life;
  queue : list (SocketAddr * DnsPacket.t);
  workers : list worker;
  resolver : world;
  sent : list (SocketAddr * bytes);
  (** For the theorems: what was handed over, answered, and lost with a thread. *)
  accepted : list (SocketAddr * DnsPacket.t);
  answered : list (SocketAddr * DnsPacket.t);
  lost : list (SocketAddr * DnsPacket.t);
}.

Inductive action :=
  | Receive (data : bytes) (src : SocketAddr) (cur_time : Z)
  | ReceiveFails (code : option Z)
  | Take (i : nat)
  (** The rest of the turn; [delivered] is whether [send_to] succeeds. *)
  | Reply (i : nat) (delivered : bool).

Section Udp.
Context {BP : Build} {U : Unicode} {HI : HashIter} {EV : Env} {LR : Lru}.
Context (resolve : rstr → QueryType.t → bool → R DnsPacket.t) (context : ServerContext).

(** [run_server]: a thread for each socket that could be cloned; the first turn
    of the listener counts a query before it waits. *)
Definition run_server (bound : bool) (cloned : list bool) (w : world) : option t :=
  if negb bound then None else
  Some (mk _ 1 lru_new Alive_ [] ((λ _, Idle) <$> List.filter id cloned) w [] [] [] []).

Definition set_listener (s : t) (l : life) : t :=
  mk _ (udp_query_count s) (working_ids s) l (queue s) (workers s) (resolver s) (sent s) (accepted s) (answered s) (lost s).
(** The next turn of the listener, with the cache of numbers [ids]. *)
Definition next_turn (s : t) (ids : lru) : t :=
  mk _ (wrap 64 (udp_query_count s + 1)) ids (listener s) (queue s) (workers s) (resolver s) (sent s) (accepted s)
    (answered s) (lost s).
Definition enqueue (s : t) (r : SocketAddr * DnsPacket.t) : t :=
  mk _ (udp_query_count s) (working_ids s) (listener s) (queue s ++ [r]) (workers s) (resolver s) (sent s)
    (accepted s ++ [r]) (answered s) (lost s).
Definition set_worker (s : t) (i : nat) (w : worker) : t :=
  mk _ (udp_query_count s) (working_ids s) (listener s) (queue s) (<[i := w]> (workers s)) (resolver s) (sent s)
    (accepted s) (answered s) (lost s).
Definition set_queue (s : t) (q : list (SocketAddr * DnsPacket.t)) : t :=
  mk _ (udp_query_count s) (working_ids s) (listener s) q (workers s) (resolver s) (sent s) (accepted s) (answered s) (lost s).
Definition set_resolver (s : t) (w : world) : t :=
  mk _ (udp_query_count s) (working_ids s) (listener s) (queue s) (workers s) w (sent s) (accepted s) (answered s) (lost s).
Definition deliver (s : t) (src : SocketAddr) (request : DnsPacket.t) (data : bytes) : t :=
  mk _ (udp_query_count s) (working_ids s) (listener s) (queue s) (workers s) (resolver s) (sent s ++ [(src, data)])
    (accepted s) (answered s ++ [(src, request)]) (lost s).
(** A thread is gone, and its request with it. *)
Definition lose (s : t) (i : nat) (how : life) (r : SocketAddr * DnsPacket.t) : t :=
  mk _ (udp_query_count s) (working_ids s) (listener s) (queue s) (<[i := Gone how]> (workers s)) (resolver s) (sent s)
    (accepted s) (answered s) (lost s ++ [r]).

(** A thread that is stuck still holds its receiver. *)
Definition has_receiver (w : worker) : bool := match w with Gone Ended => false | _ => true end.

Definition receive (data : bytes) (src : SocketAddr) (cur_time : Z) (s : t) : t :=
  match Client.parse data with
  | Ok request =>
      let key := (src, DnsHeader.id (DnsPacket.header request)) in
      let (time, ids) := lru_get key (working_ids s) in
      if resent time cur_time then next_turn s ids else
      let s := next_turn s (lru_put key cur_time ids) in
      if existsb has_receiver (workers s) then enqueue s (src, request) else s
  | Err _ => next_turn s (working_ids s)
  | Panic => set_listener s Ended
  | OutOfFuel => set_listener s Stuck
  end.

Definition reply (i : nat) (delivered : bool) (src : SocketAddr) (request : DnsPacket.t) (s : t) : t :=
  match udp_reply resolve context request (resolver s) with
  | Ok (Some data, w) =>
      let s := set_resolver s w in
      if delivered then deliver (set_worker s i Idle) src request data else lose s i Ended (src, request)
  | Ok (None, w) => lose (set_resolver s w) i Ended (src, request)
  | OutOfFuel => lose s i Stuck (src, request)
  | _ => lose s i Ended (src, request)
  end.

Definition exec (a : action) (s : t) : option t :=
  match a with
  | Receive data src cur_time =>
      match listener s with Alive_ => Some (receive data src cur_time s) | _ => None end
  | ReceiveFails code =>
      match listener s with
      | Alive_ => Some (if udp_finished code then set_listener s Ended else next_turn s (working_ids s))
      | _ => None
      end
  | Take i =>
      match workers s !! i, queue s with
      | Some Idle, (src, request) :: queue => Some (set_worker (set_queue s queue) i (Serving src request))
      | _, _ => None
      end
  | Reply i delivered =>
      match workers s !! i with
      | Some (Serving src request) => Some (reply i delivered src request s)
      | _ => None
      end
  end.

Definition step (s s' : t) : Prop := ∃ a, exec a s = Some s'.
End Udp.
End DnsUdpServer.

(** ** TCP *)
Module DnsTcpServer.

(** A connection: the bytes that come before it ends; whether the length can be
    written; how many bytes of the packet its one [write] takes, [None] for an
    error; whether [shutdown] succeeds. *)
Record stream := mkStream { incoming : bytes; takes_length : bool; takes : option nat; shuts : bool }.

Record worker := mkWorker { alive : life; pending : list stream }.

Record t := mk {
  tcp_query_count : Z;
  listener : life;
  workers : list worker;
  resolver : world;
  (** The bytes written to each connection that was served. *)
  written : list bytes;
}.

Inductive action :=
  (** [random] is [random::<usize>()]. *)
  | Accept (s : stream) (random : nat)
  | AcceptFails (code : option Z)
  | Serve (i : nat).

Section Tcp.
Context {BP : Build} {U : Unicode} {HI : HashIter} {EV : Env}.
Context (resolve : rstr → QueryType.t → bool → R DnsPacket.t) (context : ServerContext).

Definition run_server (bound : bool) (thread_count : nat) (w : world) : option t :=
  if negb bound then None else Some (mk 0 Alive_ (replicate thread_count (mkWorker Alive_ [])) w []).

Definition set_listener (s : t) (l : life) : t := mk (tcp_query_count s) l (workers s) (resolver s) (written s).
Definition set_worker (s : t) (i : nat) (w : worker) : t :=
  mk (tcp_query_count s) (listener s) (<[i := w]> (workers s)) (resolver s) (written s).

(** The connection is closed when the receiver of its thread is gone; no thread
    to choose from is a division by zero. *)
Definition accept (c : stream) (random : nat) (s : t) : t :=
  match length (workers s) with
  | O => set_listener s Ended
  | n =>
      let thread_no := (random mod n)%nat in
      match workers s !! thread_no with
      | Some (mkWorker Ended _) | None => s
      | Some (mkWorker life pending) => set_worker s thread_no (mkWorker life (pending ++ [c]))
      end
  end.

(** A thread that ends drops the connections of its channel; one that is stuck
    keeps them waiting. *)
Definition gone (how : life) : worker := mkWorker how [].

(** One turn of request thread [i]: the thread after it, the world and what was
    written. *)
Definition serve (c : stream) (rest : list stream) (w : world) : worker * world * bytes :=
  match incoming c with
  | _ :: _ :: data =>
      match DnsPacket.from_buffer (S (length data)) (StreamPacketBuffer.new data) with
      | Ok (request, _) =>
          match tcp_reply resolve context request w with
          | Ok (Some reply, w) =>
              if negb (takes_length c) then (gone Ended, w, []) else
              match takes c with
              | None => (gone Ended, w, take 2 reply)
              | Some n => (if shuts c then mkWorker Alive_ rest else gone Ended, w, take (2 + n) reply)
              end
          | Ok (None, w) => (gone Ended, w, [])
          | OutOfFuel => (mkWorker Stuck rest, w, [])
          | _ => (gone Ended, w, [])
          end
      | OutOfFuel => (mkWorker Stuck rest, w, [])
      | _ => (gone Ended, w, [])
      end
  | _ => (gone Ended, w, [])
  end.

Definition exec (a : action) (s : t) : option t :=
  match a with
  | Accept c random => match listener s with Alive_ => Some (accept c random s) | _ => None end
  | AcceptFails code =>
      match listener s with
      | Alive_ => Some (if tcp_finished code then set_listener s Ended else s)
      | _ => None
      end
  | Serve i =>
      match workers s !! i with
      | Some (mkWorker Alive_ (c :: rest)) =>
          let '(worker, w, bytes) := serve c rest (resolver s) in
          Some (mk (wrap 64 (tcp_query_count s + 1)) (listener s) (<[i := worker]> (workers s)) w (written s ++ [bytes]))
      | _ => None
      end
  end.

Definition step (s s' : t) : Prop := ∃ a, exec a s = Some s'.
End Tcp.
End DnsTcpServer.
