(* ===== verification/ServersProps.v ===== *)
(** * Theorems on the threads of the DNS servers

    The UDP threads neither lose nor repeat a request, except with a thread that
    ends; one datagram can stop their listener for good, and as many empty
    connections as there are threads stop the TCP server. *)

From S2P Require Import Prelude Text Net Commons Buffer Protocol Cache Authority Resolve ResolveProps Server ServerProps.
From S2P Require Import Client ClientFuel ParserProps ClientExamples Servers.
Open Scope Z_scope.

(** ** UDP *)
Section Udp.
Context {BP : Build} {U : Unicode} {HI : HashIter} {EV : Env} {LR : Lru}.
Context (resolve : rstr → QueryType.t → bool → R DnsPacket.t) (context : ServerContext).
Import DnsUdpServer.

(** The request a thread is working on. *)
Definition held (w : worker) : list (SocketAddr * DnsPacket.t) :=
  match w with Serving src request => [(src, request)] | _ => [] end.
Definition serving (l : list worker) : list (SocketAddr * DnsPacket.t) := l ≫= held.

Lemma serving_insert l i w w' : l !! i = Some w → held w' ++ serving l ≡ₚ held w ++ serving (<[i := w']> l).
Proof.
  revert i. induction l as [|x l IH]; intros [|i] Hi; simpl in *; try done.
  - injection Hi as ->. unfold serving. simpl. solve_Permutation.
  - unfold serving in *. simpl. specialize (IH i Hi). rewrite Permutation_app_swap_app, IH. by rewrite Permutation_app_swap_app.
Qed.

Lemma serving_idle {A} (l : list A) : serving ((λ _, Idle) <$> l) = [].
Proof. induction l; done. Qed.

(** A reply is what [udp_reply] makes of the request, for the one who asked. *)
Definition reply_of (x : SocketAddr * bytes) (y : SocketAddr * DnsPacket.t) : Prop :=
  x.1 = y.1 ∧ ∃ w w', udp_reply resolve context y.2 w = Ok (Some x.2, w').

Record served (s : t) : Prop := {
  sv_requests : accepted s ≡ₚ queue s ++ serving (workers s) ++ answered s ++ lost s;
  sv_replies : Forall2 reply_of (sent s) (answered s);
}.

Lemma served_reply i delivered src request s : served s → workers s !! i = Some (Serving src request) →
  served (reply resolve context i delivered src request s).
Proof.
  intros [Hr Hs] Hi.
  assert (∀ s1 how, accepted s1 = accepted s → queue s1 = queue s → workers s1 = workers s → answered s1 = answered s →
    lost s1 = lost s → sent s1 = sent s → served (lose s1 i how (src, request))) as Hlose.
  { intros s1 how A Q W An L Se. pose proof (serving_insert _ _ _ (Gone how) Hi) as Hp. simpl in Hp.
    split; simpl; [|by rewrite Se, An]. rewrite A, Q, W, An, L, Hr, Hp. solve_Permutation. }
  unfold reply. destruct (udp_reply _ _ _ _) as [[[data|] w]| | |] eqn:Hu; try by apply Hlose.
  destruct delivered; [|by apply Hlose]. pose proof (serving_insert _ _ _ Idle Hi) as Hp. simpl in Hp. split; simpl.
  - rewrite Hr, Hp. solve_Permutation.
  - apply Forall2_app; [done|]. constructor; [|done]. split; [done|]. by exists (resolver s), w.
Qed.

Lemma served_step s s' : served s → step resolve context s s' → served s'.
Proof.
  intros [Hr Hs] [[data src time|code|i|i delivered] H]; simpl in H.
  - destruct (listener s); try done. injection H as <-. unfold receive.
    destruct (Client.parse data) as [request| | |]; try by split.
    destruct (lru_get _ _) as [last ids]. destruct (resent _ _); [by split|]. simpl. destruct (existsb _ _); [|by split].
    split; simpl; [|done]. rewrite Hr. solve_Permutation.
  - destruct (listener s); try done. injection H as <-. by destruct (udp_finished code).
  - destruct (workers s !! i) as [[]|] eqn:Hi; try done. destruct (queue s) as [|[src request] q] eqn:Hq; [done|].
    injection H as <-. pose proof (serving_insert _ _ _ (Serving src request) Hi) as Hp. simpl in Hp.
    split; simpl; [|done]. rewrite <- Hp, Hr. solve_Permutation.
  - destruct (workers s !! i) as [[]|] eqn:Hi; try done. injection H as <-. by apply served_reply.
Qed.

(** C33: the threads of the UDP server neither lose nor repeat a request. In every
    state they reach, in any order of their turns, each datagram that the
    listener handed over either waits, or is with one thread, or was answered
    once, or went down with a thread that ended; and the replies are those of
    [udp_reply] to the answered requests, each to the address it came from. *)
Theorem udp_requests_served cloned w s0 s :
  run_server true cloned w = Some s0 → rtc (step resolve context) s0 s →
  accepted s ≡ₚ queue s ++ serving (workers s) ++ answered s ++ lost s ∧ Forall2 reply_of (sent s) (answered s).
Proof.
  intros [= <-] Hr. enough (served s) as [H1 H2] by done. assert (served (mk _ 1 lru_new Alive_ [] ((λ _, Idle) <$> List.filter id cloned) w [] [] [] [])) as H0.
  { split; simpl; [|constructor]. by rewrite serving_idle. }
  revert H0. induction Hr; [done|]. intros Hs. by eapply IHHr, served_step.
Qed.

Lemma looping_datagram data src time s s1 s2 :
  Client.parse data = OutOfFuel → exec resolve context (Receive data src time) s = Some s1 →
  rtc (step resolve context) s1 s2 →
  (∀ fuel, (Client.udp_fuel <= fuel)%nat → DnsPacket.from_buffer fuel (Client.received_buffer data) = OutOfFuel) ∧
  listener s2 = Stuck ∧ accepted s2 = accepted s.
Proof.
  intros Hp Ha Hr. split.
  { intros fuel Hf. rewrite parse_settled by done. unfold Client.parse in Hp.
    by destruct (DnsPacket.from_buffer _ _) as [[]| | |]. }
  simpl in Ha. destruct (listener s) eqn:Hl; try done. injection Ha as <-. unfold receive in Hr. rewrite Hp in Hr.
  remember (set_listener s Stuck) as s1 eqn:H1.
  assert (listener s1 = Stuck ∧ accepted s1 = accepted s) as H by by rewrite H1. clear H1.
  induction Hr as [|x y z [a Hstep] _ IH]; [done|]. apply IH. clear IH. destruct H as [Hx Hacc].
  destruct a; simpl in Hstep; rewrite ?Hx in Hstep; try done; repeat case_match; simplify_eq; try done.
  unfold reply. repeat case_match; done.
Qed.

(** One datagram stops the UDP server for good. When the parser does not come
    back from a datagram, whatever its fuel, the listener never hands over
    another request. *)
Theorem datagram_stops_listener data src time s s1 s2 :
  Client.parse data = OutOfFuel → exec resolve context (Receive data src time) s = Some s1 →
  rtc (step resolve context) s1 s2 →
  (∀ fuel, (Client.udp_fuel <= fuel)%nat → DnsPacket.from_buffer fuel (Client.received_buffer data) = OutOfFuel) ∧
  listener s2 = Stuck ∧ accepted s2 = accepted s.
Proof. apply looping_datagram. Qed.

(** ** Who can stop the listener *)

(** A step in which the socket fails at most in the ways the listener expects. *)
Definition usual (a : action) : Prop :=
  match a with
  | Receive data _ _ => bytes_ok data
  | ReceiveFails code => udp_finished code = false
  | _ => True
  end.
Definition usual_step (s s' : t) : Prop := ∃ a, usual a ∧ exec resolve context a s = Some s'.

Lemma listener_reply i d src request s : listener (reply resolve context i d src request s) = listener s.
Proof. unfold reply. repeat case_match; done. Qed.

(** A datagram that the parser does not return from, with any fuel. *)
Definition endless (data : bytes) : Prop :=
  ∀ fuel, (Client.udp_fuel <= fuel)%nat → DnsPacket.from_buffer fuel (Client.received_buffer data) = OutOfFuel.

Lemma usual_alive s s' : overflow_checks = false → usual_step s s' → listener s = Alive_ →
  listener s' = Alive_ ∨
  ∃ data src time, exec resolve context (Receive data src time) s = Some s' ∧ Client.parse data = OutOfFuel.
Proof.
  intros Hc [a [Hu Ha]] Hs. destruct a as [data src time|code|i|i d]; simpl in Ha; rewrite ?Hs in Ha.
  - injection Ha as <-. pose proof (parse_parsed data Hu) as Hp. unfold tlsa_panics in Hp. rewrite Hc in Hp.
    destruct (Client.parse data) as [p|e| |] eqn:Hd; [| |by destruct Hp|].
    + left. unfold receive. rewrite Hd. destruct (lru_get _ _). repeat case_match; simpl; by rewrite Hs.
    + left. unfold receive. by rewrite Hd.
    + right. exists data, src, time. simpl. by rewrite Hs.
  - injection Ha as <-. simpl in Hu. rewrite Hu. by left.
  - left. repeat case_match; by simplify_eq.
  - left. repeat case_match; simplify_eq. by rewrite listener_reply.
Qed.

(** C34: in a release build, after any datagrams, from anyone, and any failures
    of the socket but the two that end the listener on purpose, the listener of the
    UDP server is alive, but for one cause: it once took a datagram from which the
    parser does not return. Then it is stuck for good and has handed over no
    request since. With overflow checks one datagram with a short TLSA record
    panics it. *)
Theorem listener_survives cloned w s0 s :
  overflow_checks = false → run_server true cloned w = Some s0 → rtc usual_step s0 s →
  listener s = Alive_ ∨
  ∃ data src time s1 s2, rtc usual_step s0 s1 ∧ exec resolve context (Receive data src time) s1 = Some s2 ∧
    rtc usual_step s2 s ∧ endless data ∧ listener s = Stuck ∧ accepted s = accepted s1.
Proof.
  intros Hc [= <-] Hr. assert (listener (mk _ 1 lru_new Alive_ [] ((λ _, Idle) <$> List.filter id cloned) w [] [] [] []) = Alive_) as Ha by done.
  induction Hr as [|x y z Hs Hr IH]; [by left|].
  destruct (usual_alive _ _ Hc Hs Ha) as [Hy|(data & src & time & He & Hp)].
  - destruct (IH Hy) as [|(data & src & time & s1 & s2 & H1 & Hrest)]; [by left|]. right.
    exists data, src, time, s1, s2. split; [by eapply rtc_l|done].
  - right. exists data, src, time, x, y.
    destruct (looping_datagram data src time x y z Hp He) as (H1 & H2 & H3); [|done].
    eapply rtc_subrel; [|exact Hr]. intros u v [a [_ H]]. by exists a.
Qed.
End Udp.

(** ** TCP *)
Section Tcp.
Context {BP : Build} {U : Unicode} {HI : HashIter} {EV : Env}.
Context (resolve : rstr → QueryType.t → bool → R DnsPacket.t) (context : ServerContext).
Import DnsTcpServer.

(** A connection that ends before it says anything. *)
Definition silent : stream := mkStream [] true (Some 0%nat) true.

(** The state after silent connections to the first [k] threads. *)
Definition stopped (n k : nat) (w : world) : t :=
  mk (wrap 64 (Z.of_nat k)) Alive_ (replicate k (gone Ended) ++ replicate (n - k) (mkWorker Alive_ [])) w (replicate k []).

Lemma silence n k w : (k < n)%nat → rtc (step resolve context) (stopped n k w) (stopped n (S k) w).
Proof.
  intros Hk. set (workers' := replicate k (gone Ended) ++ mkWorker Alive_ [silent] :: replicate (n - S k) (mkWorker Alive_ [])).
  apply rtc_l with (mk (wrap 64 (Z.of_nat k)) Alive_ workers' w (replicate k [])).
  - exists (Accept silent k). simpl. unfold accept, stopped. cbn [DnsTcpServer.workers].
    replace (n - k)%nat with (S (n - S k)) by lia. cbn [replicate].
    rewrite length_app, length_replicate. cbn [length]. rewrite length_replicate.
    replace (k + S (n - S k))%nat with n by lia. destruct n as [|n]; [lia|].
    rewrite Nat.mod_small by lia. rewrite list_lookup_middle by (by rewrite length_replicate).
    unfold set_worker. cbn. do 2 f_equal. by rewrite insert_app_r_alt, length_replicate, Nat.sub_diag by (rewrite length_replicate; lia).
  - apply rtc_once. exists (Serve k). simpl. unfold workers'.
    rewrite list_lookup_middle by (by rewrite length_replicate). simpl. unfold stopped. do 2 f_equal.
    + unfold wrap. rewrite Zplus_mod_idemp_l. f_equal. lia.
    + rewrite insert_app_r_alt, length_replicate, Nat.sub_diag by (rewrite length_replicate; lia). simpl.
      by rewrite cons_middle, app_assoc, <- replicate_cons_app.
    + simpl. by rewrite replicate_cons_app.
Qed.

Lemma all_silent n w : rtc (step resolve context) (stopped n 0 w) (stopped n n w).
Proof.
  enough (∀ k, (k <= n)%nat → rtc (step resolve context) (stopped n 0 w) (stopped n k w)) by eauto.
  induction k as [|k IH]; intros Hk; [reflexivity|]. etransitivity; [apply IH; lia|by apply silence].
Qed.

(** The TCP server does not outlast its threads: a connection that is closed
    before it sends a length ends its thread, for the macro that reports the
    error returns from it. After one such connection for each thread, which any
    client can make, no connection is ever answered again. *)
Theorem silent_connections_stop_tcp n w s0 :
  run_server true n w = Some s0 → ∃ s, rtc (step resolve context) s0 s ∧ length (written s) = n ∧
    ∀ s', rtc (step resolve context) s s' → written s' = written s ∧ Forall (λ b, b = []) (written s').
Proof.
  intros [= <-]. exists (stopped n n w). split.
  { replace (mk 0 Alive_ (replicate n (mkWorker Alive_ [])) w []) with (stopped n 0 w); [apply all_silent|].
    unfold stopped. by rewrite Nat.sub_0_r. }
  split; [simpl; by rewrite length_replicate|]. intros s' Hr.
  assert (workers s' = replicate n (gone Ended) ∧ written s' = replicate n []) as [_ ->].
  2: { split; [done|]. by apply Forall_replicate. }
  assert (workers (stopped n n w) = replicate n (gone Ended) ∧ written (stopped n n w) = replicate n []) as H0.
  { simpl. by rewrite Nat.sub_diag, app_nil_r. }
  revert H0. generalize (stopped n n w) Hr. clear Hr. intros s Hr.
  induction Hr as [|x y z [a Hstep] _ IH]; [done|]. intros [Hw Hb]. apply IH. clear IH. destruct a as [c random|code|i]; simpl in Hstep.
  - destruct (listener x); try done. injection Hstep as <-. unfold accept. rewrite Hw, length_replicate. destruct n as [|n]; [done|].
    rewrite lookup_replicate_2 by (apply Nat.mod_upper_bound; lia). done.
  - destruct (listener x); try done. injection Hstep as <-. by destruct (tcp_finished code).
  - rewrite Hw in Hstep. destruct (replicate n (gone Ended) !! i) as [wk|] eqn:Hi; [|done].
    apply lookup_replicate in Hi as [-> _]. done.
Qed.
End Tcp.

(** ** Servers at work *)
Module ServersExamples.
Import ResolveTests ServerExamples.
#[local] Existing Instances CacheTests.in_order ascii_tables stub_env.
#[local] Instance release : Build := false.
(** A cache of two numbers. *)
#[local] Instance small_lru : Lru := {|
  lru := list (SocketAddr * Z * Z);
  lru_new := [];
  lru_get := λ key l,
    match list_find (λ e, e.1 = key) l with
    | Some (i, e) => (Some e.2, e :: delete i l)
    | None => (None, l)
    end;
  lru_put := λ key time l, take 2 ((key, time) :: List.filter (λ e, negb (bool_decide (e.1 = key))) l);
|}.

Definition ann : SocketAddr := {| ip := V4 (Ipv4 10 0 0 1); port := 5000 |}.
Definition bob : SocketAddr := {| ip := V4 (Ipv4 10 0 0 2); port := 5000 |}.
(** A question as a datagram. *)
Definition datagram : bytes := Eval vm_compute in
  match DnsPacket.write (build_query google QueryType.A) 512 VectorPacketBuffer.new with
  | Ok (_, b) => VectorPacketBuffer.buffer b
  | _ => []
  end.
Definition two_threads : DnsUdpServer.t := Eval vm_compute in
  default (DnsUdpServer.mk _ 0 lru_new Ended [] [] empty [] [] [] []) (DnsUdpServer.run_server true [true; false; true] empty).
Definition serve_udp : DnsUdpServer.action → DnsUdpServer.t → option DnsUdpServer.t :=
  DnsUdpServer.exec direct forward_context.
Fixpoint run_udp (acts : list DnsUdpServer.action) (s : DnsUdpServer.t) : option DnsUdpServer.t :=
  match acts with [] => Some s | a :: acts => s ← serve_udp a s; run_udp acts s end.

Lemma run_udp_steps acts s s' : run_udp acts s = Some s' → rtc (DnsUdpServer.step direct forward_context) s s'.
Proof.
  revert s. induction acts as [|a acts IH]; intros s H; simpl in H; [by injection H as <-|].
  apply bind_Some in H as (s1 & Ha & H). eapply rtc_l; [by exists a|]. by apply IH.
Qed.

(** Ann asks, asks again at once, and Bob asks; one is answered, one waits. *)
Definition asked : list DnsUdpServer.action :=
  [DnsUdpServer.Receive datagram ann 1000; DnsUdpServer.Receive datagram ann 1050;
   DnsUdpServer.Receive datagram bob 1060; DnsUdpServer.Take 1; DnsUdpServer.Reply 1 true].
Definition one_answered : DnsUdpServer.t := Eval vm_compute in default two_threads (run_udp asked two_threads).

Lemma udp_requests_served_witness :
  (length (DnsUdpServer.accepted one_answered) = 2 ∧ length (DnsUdpServer.sent one_answered) = 1)%nat ∧
  DnsUdpServer.accepted one_answered ≡ₚ
    DnsUdpServer.queue one_answered ++ serving (DnsUdpServer.workers one_answered) ++
    DnsUdpServer.answered one_answered ++ DnsUdpServer.lost one_answered.
Proof.
  split; [split; reflexivity|].
  destruct (udp_requests_served direct forward_context [true; false; true] empty two_threads one_answered) as [H _].
  - reflexivity.
  - apply (run_udp_steps asked). vm_compute. reflexivity.
  - exact H.
Defined.

Definition silenced : DnsUdpServer.t := Eval vm_compute in
  default two_threads (serve_udp (DnsUdpServer.Receive loop_datagram ann 1000) two_threads).
Lemma datagram_stops_listener_witness :
  DnsUdpServer.listener silenced = Stuck ∧ DnsUdpServer.accepted silenced = [].
Proof.
  destruct (datagram_stops_listener direct forward_context loop_datagram ann 1000 two_threads silenced silenced)
    as (_ & H1 & H2).
  - vm_compute. reflexivity.
  - vm_compute. reflexivity.
  - reflexivity.
  - exact (conj H1 H2).
Defined.

(** Lost requests, a failing socket and the record that panics other builds. *)
Definition rough : list DnsUdpServer.action :=
  [DnsUdpServer.ReceiveFails (Some 104); DnsUdpServer.Receive tlsa_datagram ann 1000; DnsUdpServer.Receive [] ann 1001;
   DnsUdpServer.Receive datagram bob 1060; DnsUdpServer.Take 1; DnsUdpServer.Reply 1 false].
Definition after_rough : DnsUdpServer.t := Eval vm_compute in default two_threads (run_udp rough two_threads).

Lemma listener_survives_witness :
  DnsUdpServer.listener after_rough = Alive_ ∧ (length (DnsUdpServer.lost after_rough) = 1)%nat ∧
  DnsUdpServer.listener (DnsUdpServer.receive (BP := true) tlsa_datagram ann 1000 two_threads) = Ended.
Proof.
  split; [|split; by vm_compute].
  destruct (listener_survives direct forward_context [true; false; true] empty two_threads after_rough) as
    [H|(data & src & time & s1 & s2 & _ & _ & _ & _ & H & _)]; [done|done| |exact H|vm_compute in H; discriminate H].
  assert (∀ acts s s', Forall usual acts → run_udp acts s = Some s' → rtc (usual_step direct forward_context) s s') as Hrun.
  { intros acts. induction acts as [|a acts IH]; intros s s' Hu H; simpl in H; [by injection H as <-|].
    apply Forall_cons in Hu as [Ha Hu]. apply bind_Some in H as (s1 & H1 & H). eapply rtc_l; [by exists a|]. by apply IH. }
  apply (Hrun rough); [|vm_compute; reflexivity].
  repeat (constructor; [try reflexivity; repeat (constructor; [by compute|]); constructor|]). constructor.
Defined.

(** The default number of threads. *)
Lemma silent_connections_stop_tcp_witness : ∃ s0 s,
  DnsTcpServer.run_server true 20 empty = Some s0 ∧
  rtc (DnsTcpServer.step direct forward_context) s0 s ∧ length (DnsTcpServer.written s) = 20%nat.
Proof.
  destruct (silent_connections_stop_tcp direct forward_context 20 empty _ eq_refl) as (s & Hr & Hl & _).
  eexists _, s. split; [reflexivity|]. exact (conj Hr Hl).
Defined.
End ServersExamples.
