(* ===== verification/Miner.v ===== *)
(** * The miner (src/miner.rs)

    A queue of jobs, the main loop that takes them, and the threads that search
    for a hash. They share the queue, the flags [running] and [mining] and the
    context with the chain.

    An action is what one thread does between two points where another one can
    interfere. [find_hash] is cut where it reads shared state: a turn of its
    outer loop, the look at the flag, one nonce, the look at the clock. The
    main loop is cut at its sleeps and waits; a call of [mine_internal], which
    holds the queue, is one action. Random numbers, the clock and whether
    [try_lock] succeeds are arguments of the actions. *)

From S2P Require Import Prelude Text Commons Hash Keystore Net Buffer Protocol Block Store Chain.
Open Scope Z_scope.

Definition BLOCK_SIGNERS_START_RANDOM : Z := 90.

Module Miner.

(** ** Jobs *)
Record MineJob := mkJob { start : Z; block : Block.t; keystore : Keystore.t }.

Definition is_full (job : MineJob) : bool := is_some (Block.transaction (block job)).
Definition is_signing (job : MineJob) : bool := negb (is_some (Block.transaction (block job))).
Definition is_due (now : Z) (job : MineJob) : bool := (start job =? 0) || (start job <? now).

Record MinerState := mkState { ms_mining : bool; ms_full : bool }.

(** The events the miner posts. *)
Inductive Event :=
  | MinerStarted
  | MinerStopped (success full : bool)
  | MinerStats (thread speed max_diff target_diff : Z).

(** Field updates of the mined block. *)
Definition set_time (b : Block.t) (timestamp : Z) : Block.t :=
  Block.from_params (Block.index b) timestamp (Block.version b) (Block.difficulty b) (Block.random b) (Block.nonce b)
    (Block.hash b) (Block.prev_block_hash b) (Block.pub_key b) (Block.signature b) (Block.transaction b) (Block.hash_good b).
Definition set_random (b : Block.t) (random : Z) : Block.t :=
  Block.from_params (Block.index b) (Block.timestamp b) (Block.version b) (Block.difficulty b) random (Block.nonce b)
    (Block.hash b) (Block.prev_block_hash b) (Block.pub_key b) (Block.signature b) (Block.transaction b) (Block.hash_good b).
Definition set_nonce (b : Block.t) (nonce : Z) : Block.t :=
  Block.from_params (Block.index b) (Block.timestamp b) (Block.version b) (Block.difficulty b) (Block.random b) nonce
    (Block.hash b) (Block.prev_block_hash b) (Block.pub_key b) (Block.signature b) (Block.transaction b) (Block.hash_good b).
Definition set_version (b : Block.t) (version : Z) : Block.t :=
  Block.from_params (Block.index b) (Block.timestamp b) version (Block.difficulty b) (Block.random b) (Block.nonce b)
    (Block.hash b) (Block.prev_block_hash b) (Block.pub_key b) (Block.signature b) (Block.transaction b) (Block.hash_good b).
Definition set_pub_key (b : Block.t) (key : bytes) : Block.t :=
  Block.from_params (Block.index b) (Block.timestamp b) (Block.version b) (Block.difficulty b) (Block.random b) (Block.nonce b)
    (Block.hash b) (Block.prev_block_hash b) key (Block.signature b) (Block.transaction b) (Block.hash_good b).

(** ** The search for a hash: [find_hash] *)

(** Where the search is: at the head of its loop; past the read of the chain;
    before a nonce; after the nonce, at the look at the clock. *)
Inductive phase :=
  | Outer
  | Placed (waiting_signers : bool)
  | Trying (nonce prev_nonce : Z)
  | Timing (nonce prev_nonce : Z).

Record search := mkSearch {
  candidate : Block.t;
  target_diff : Z;
  full : bool;
  max_diff : Z;
  at_phase : phase;
}.

Definition set_phase (s : search) (p : phase) : search :=
  mkSearch (candidate s) (target_diff s) (full s) (max_diff s) p.
Definition set_candidate (s : search) (b : Block.t) : search :=
  mkSearch b (target_diff s) (full s) (max_diff s) (at_phase s).
Definition set_max_diff (s : search) (d : Z) : search :=
  mkSearch (candidate s) (target_diff s) (full s) d (at_phase s).

Definition start_search (block : Block.t) : search :=
  mkSearch block (Block.difficulty block) (is_some (Block.transaction block)) 0 Outer.

(** How a step of the search ends. [Cancelled true]: it has cleared the flag. *)
Inductive progress :=
  | Continue (s : search)
  | Found (b : Block.t)
  | Cancelled (cleared : bool).

Inductive blocked := Disabled.

Section Search.
Context {CR : Crypto} {SD : Serde} {BP : Build}.

(** The head of the loop: a fresh random number and time, and the place after
    the last block. *)
Definition place (random now : Z) (c : Chain.t) (s : search) : outcome blocked progress :=
  let b := set_time (set_random (candidate s) random) now in
  let! b := match Chain.last_block c with
            | Some last => let! next := add_w (E := blocked) 64 (Block.index last) 1 in
                           Ok (set_place b next (Block.hash last))
            | None => Ok b
            end in
  let! waiting := Chain.is_waiting_signers (E := blocked) c in
  Ok (Continue (set_phase (set_candidate s b) (Placed waiting))).

(** The look at the flag; a full block waits (five seconds) for signers. *)
Definition decide_turn (running waiting_signers : bool) (s : search) : progress :=
  if negb running then Cancelled false else
  if full s && waiting_signers then Continue (set_phase s Outer)
  else Continue (set_phase s (Trying 0 0)).

(** One nonce. *)
Definition try_nonce (running : bool) (nonce prev_nonce : Z) (s : search) : outcome blocked progress :=
  if negb running then Ok (Cancelled false) else
  let b := set_nonce (candidate s) nonce in
  let digest := blakeout_data (as_bytes_compact b) in
  let! diff := hash_difficulty (E := blocked) digest in
  if target_diff s <=? diff then Ok (Found (set_hash b digest)) else
  let s := set_candidate s b in
  let s := if max_diff s <? diff then set_max_diff s diff else s in
  Ok (Continue (set_phase s (Timing nonce prev_nonce))).

Definition U64_MAX : Z := 18446744073709551615.

(** The next turn of [for nonce in 0..u64::MAX]; when it ends the outer loop goes on. *)
Definition next_nonce (nonce prev_nonce : Z) (s : search) : search :=
  if nonce + 1 <? U64_MAX then set_phase s (Trying (nonce + 1) prev_nonce) else set_phase s Outer.

(** The look at the clock: [elapsed] are milliseconds, [locked] the chain when
    [try_lock] succeeds. Statistics are posted after ten seconds. *)
Definition look (elapsed now : Z) (locked : option Chain.t) (thread nonce prev_nonce : Z) (s : search)
    : outcome blocked (list Event * progress) :=
  if elapsed <? 1000 then Ok ([], Continue (next_nonce nonce prev_nonce s)) else
  let s := set_candidate s (set_time (candidate s) now) in
  let! (stats, prev_nonce) :=
    (if 10000 <? elapsed then
       let seconds := wrap 64 elapsed / 1000 in
       if seconds =? 0 then Panic else
       let! tried := sub_w (E := blocked) 64 nonce prev_nonce in
       Ok ([MinerStats thread (tried / seconds) (max_diff s) (target_diff s)], nonce)
     else Ok ([], prev_nonce) : outcome blocked (list Event * Z)) in
  let changed := match locked with
                 | Some c => (1 <? Block.index (candidate s)) && (Block.index (candidate s) <=? Chain.get_height c)
                 | None => false
                 end in
  if changed then
    if negb (full s) then Ok (stats, Cancelled true) else Ok (stats, Continue (set_phase s Outer))
  else Ok (stats, Continue (next_nonce nonce prev_nonce s)).
End Search.

(** ** State *)

(** A mining thread: not yet running, searching, with a block to submit, on its
    way out after a cancelled search, or gone. *)
Inductive status :=
  | Spawned (s : search)
  | Searching (s : search)
  | Submitting (b : Block.t)
  | Leaving
  | Gone.

(** [t_full] is the [full] of the job, [t_group] the call of [mine_internal]. *)
Record task := mkTask {
  t_keystore : Keystore.t;
  t_full : bool;
  t_thread : Z;
  t_group : nat;
  t_status : status;
}.
Definition set_status (k : task) (st : status) : task :=
  mkTask (t_keystore k) (t_full k) (t_thread k) (t_group k) st.

(** Where the main loop is: at its head; in the pause after it has cancelled the
    current job for [job], the queue locked; after its wait, at the end of a
    turn; left. *)
Inductive main_pc := Idle | Head | Replacing (job : MineJob) | Resting | Ended.

Record t := mk {
  chain : Chain.t;
  keystores : list Keystore.t;
  (** [settings.origin] and [settings.mining.threads] *)
  origin : rstr;
  threads : Z;
  miner_state : MinerState;
  jobs : list MineJob;
  running : bool;
  mining : bool;
  current_job : option MineJob;
  pc : main_pc;
  tasks : list task;
  (** [live_threads] of each call of [mine_internal] *)
  live : list Z;
  events : list Event;
}.

Definition set_chain (m : t) (c : Chain.t) : t :=
  mk c (keystores m) (origin m) (threads m) (miner_state m) (jobs m) (running m) (mining m) (current_job m) (pc m) (tasks m) (live m) (events m).
Definition set_origin (m : t) (o : rstr) : t :=
  mk (chain m) (keystores m) o (threads m) (miner_state m) (jobs m) (running m) (mining m) (current_job m) (pc m) (tasks m) (live m) (events m).
Definition set_miner_state (m : t) (s : MinerState) : t :=
  mk (chain m) (keystores m) (origin m) (threads m) s (jobs m) (running m) (mining m) (current_job m) (pc m) (tasks m) (live m) (events m).
Definition set_jobs (m : t) (l : list MineJob) : t :=
  mk (chain m) (keystores m) (origin m) (threads m) (miner_state m) l (running m) (mining m) (current_job m) (pc m) (tasks m) (live m) (events m).
Definition set_flags (m : t) (r g : bool) : t :=
  mk (chain m) (keystores m) (origin m) (threads m) (miner_state m) (jobs m) r g (current_job m) (pc m) (tasks m) (live m) (events m).
Definition set_mining (m : t) (g : bool) : t := set_flags m (running m) g.
Definition set_current (m : t) (j : option MineJob) : t :=
  mk (chain m) (keystores m) (origin m) (threads m) (miner_state m) (jobs m) (running m) (mining m) j (pc m) (tasks m) (live m) (events m).
Definition set_pc (m : t) (p : main_pc) : t :=
  mk (chain m) (keystores m) (origin m) (threads m) (miner_state m) (jobs m) (running m) (mining m) (current_job m) p (tasks m) (live m) (events m).
Definition set_tasks (m : t) (l : list task) : t :=
  mk (chain m) (keystores m) (origin m) (threads m) (miner_state m) (jobs m) (running m) (mining m) (current_job m) (pc m) l (live m) (events m).
Definition set_live (m : t) (l : list Z) : t :=
  mk (chain m) (keystores m) (origin m) (threads m) (miner_state m) (jobs m) (running m) (mining m) (current_job m) (pc m) (tasks m) l (events m).
Definition post_event (m : t) (e : Event) : t :=
  mk (chain m) (keystores m) (origin m) (threads m) (miner_state m) (jobs m) (running m) (mining m) (current_job m) (pc m) (tasks m) (live m) (events m ++ [e]).

(** [Miner::new], on the context it is given. *)
Definition new (c : Chain.t) (keys : list Keystore.t) (origin : rstr) (threads : Z) : t :=
  mk c keys origin threads (mkState false false) [] false false None Idle [] [] [].

Abbreviation io A := (M t blocked A).

(** An operation of the chain under the lock of the context. *)
Definition on_chain {A} (m : M Chain.t DbError A) : io A := λ s,
  match m (chain s) with
  | Ok (a, c) => Ok (a, set_chain s c)
  | Err _ => Panic
  | Panic => Panic
  | OutOfFuel => OutOfFuel
  end.

Definition emit (e : Event) : io unit := mput (λ m, post_event m e).

Section Ops.
Context {CR : Crypto} {SD : Serde} {EC : Ecies} {U : Unicode} {BP : Build}.
(** The fuel of the search for the signers of a block. *)
Context (fuel : nat).

(** ** What others ask of the miner *)

(** [add_block]: a signing block replaces those in the queue. *)
Definition add_block (block : Block.t) (keystore : Keystore.t) : io unit :=
  mput (λ m,
    let jobs := if is_some (Block.transaction block) then jobs m else List.filter is_full (jobs m) in
    set_jobs m (jobs ++ [mkJob 0 block keystore])).

Definition stop : io unit := mput (λ m, set_flags m false false).
(** The listener of the bus: [ActionQuit] and [ActionStopMining]. *)
Definition quit : io unit := mput (λ m, set_flags m false (mining m)).
Definition stop_mining : io unit := mput (λ m, set_mining m false).
Definition is_mining (m : t) : bool := running m.

(** ** The main loop *)

(** Asking the chain for a block to sign, and queueing it. [random] is
    [rand::random::<i64>()], [choice] that of the chain. *)
Definition queue_sign_block (now random : Z) (choice : nat) : io unit :=
  let? keys := mget keystores in
  let? found := on_chain (Chain.get_sign_block now fuel choice keys) in
  match found with
  | Some (block, keystore) =>
      let? start := mlift (add_s 64 now (Z.rem random BLOCK_SIGNERS_START_RANDOM)) in
      mput (λ m, set_jobs m (jobs m ++ [mkJob start block keystore]))
  | None => mret tt
  end.

(** The threads of one call of [mine_internal]. *)
Definition spawn (job : MineJob) (n : Z) (group : nat) : list task :=
  (λ cpu, mkTask (keystore job) (is_full job) cpu group (Spawned (start_search (block job)))) <$> seqZ 0 n.

Definition stop_job : io unit := emit (MinerStopped false false) ;? mput (λ m, set_mining m false).

(** [mine_internal]; [cpus] is the number of processors. *)
Definition mine_internal (cpus : Z) (job : MineJob) : io unit :=
  let b := set_version (set_hash (set_signature (block job) []) []) CHAIN_VERSION in
  let? c := mget chain in
  let? ready :=
    (if (0 <? Block.index b) && negb (bool_decide (Block.prev_block_hash b = [])) then
       let b := set_pub_key b (Keystore.get_public (keystore job)) in
       let? strong := mlift (Keystore.check_public_key_strength (Block.pub_key b) KEYSTORE_DIFFICULTY) in
       if negb strong then mret None else
       mlift (Chain.update_sign_block_for_mining c b)
     else
       let? next := mlift (add_w 64 (Chain.get_height c) 1) in
       mret (Some (set_place b next (match Chain.last_block c with None => [] | Some last => Block.hash last end)))) in
  match ready with
  | None => stop_job
  | Some b =>
      emit MinerStarted ;?
      mput (λ m, set_miner_state m (mkState true (is_some (Block.transaction b)))) ;?
      mput (λ m,
        let n := wrap 32 (if threads m =? 0 then cpus else threads m) in
        set_live (set_tasks m (tasks m ++ spawn (mkJob (start job) b (keystore job)) n (length (live m))))
          (live m ++ [0]))
  end.

(** The branch for an idle miner. *)
Definition take_job (now random : Z) (choice : nat) (cpus : Z) : io unit :=
  let? queue := mget jobs in
  match queue with
  | job :: rest =>
      if is_due now job then
        mput (λ m, set_current (set_mining (set_jobs m rest) true) (Some job)) ;?
        mine_internal cpus job
      else mret tt
  | [] => queue_sign_block now random choice
  end ;?
  mput (λ m, set_pc m Resting).

(** The branch for a full block being mined: a signing job that is due takes
    over, otherwise the chain is asked for one unless it is the next. *)
Definition busy_turn (now random : Z) (choice : nat) : io unit :=
  let? queue := mget jobs in
  match queue with
  | job :: rest =>
      if is_signing job && is_due now job then
        mput (λ m, set_pc (set_mining (set_jobs m rest) false) (Replacing job))
      else
        (if is_signing job then mret tt else queue_sign_block now random choice) ;?
        mput (λ m, set_pc m Resting)
  | [] => queue_sign_block now random choice ;? mput (λ m, set_pc m Resting)
  end.

(** One turn of [run_main_loop], up to a pause. *)
Definition turn (now random : Z) (choice : nat) (cpus : Z) : io unit :=
  let? m := mget (λ m, m) in
  if negb (running m) then mput (λ m, set_pc m Ended) else
  match current_job m with
  | Some cur_job =>
      if mining m && is_signing cur_job then mret tt else
      if mining m && is_full cur_job then busy_turn now random choice
      else mput (λ m, set_pc m Resting)
  | None => take_job now random choice cpus
  end.

(** After the pause of 100 ms: the current job goes back to the queue. *)
Definition replace_job (cpus : Z) (job : MineJob) : io unit :=
  let? m := mget (λ m, m) in
  match current_job m with
  | None => mpanic
  | Some cur_job =>
      mput (λ m, set_current (set_mining (set_jobs m (cur_job :: jobs m)) true) (Some job)) ;?
      mine_internal cpus job ;?
      mput (λ m, set_pc m Head)
  end.

(** The end of a turn. *)
Definition end_turn : io unit :=
  mput (λ m, set_pc (if mining m then m else set_current m None) Head).

(** ** The mining threads *)

(** [live_threads] of a group, before and after a change. *)
Definition get_live (m : t) (group : nat) : Z := default 0 (live m !! group).
Definition change_live (m : t) (group : nat) (d : Z) : t :=
  set_live m (<[group := wrap 32 (get_live m group + d)]> (live m)).
Definition put_task (i : nat) (k : task) : io unit := mput (λ m, set_tasks m (<[i := k]> (tasks m))).

(** What the thread makes of a step of its search. *)
Definition progressed (i : nat) (k : task) (p : progress) : io unit :=
  match p with
  | Continue s => put_task i (set_status k (Searching s))
  | Found b => put_task i (set_status k (Submitting b))
  | Cancelled cleared =>
      (if (cleared : bool) then mput (λ m, set_mining m false) else mret tt) ;?
      put_task i (set_status k Leaving)
  end.

(** The end of a cancelled thread: the last one of its group says so. *)
Definition leave (i : nat) (k : task) : io unit :=
  let? count := mget (λ m, get_live m (t_group k)) in
  mput (λ m, change_live m (t_group k) (-1)) ;?
  put_task i (set_status k Gone) ;?
  if count =? 1 then
    mput (λ m, set_miner_state m (mkState false (ms_full (miner_state m)))) ;?
    emit (MinerStopped false (t_full k))
  else mret tt.

(** The end of a thread that has found a hash: the block is signed, checked and
    added. *)
Definition submit (now : Z) (i : nat) (k : task) (block : Block.t) : io unit :=
  let index := Block.index block in
  let block := set_signature block (Keystore.sign (t_keystore k) (as_bytes_compact block)) in
  let? (quality, block) := on_chain (Chain.check_new_block now fuel block) in
  let? success :=
    (if negb (bool_decide (quality = Good)) then mret false else
       (if Block.index block =? 1 then mput (λ m, set_origin m (to_hex (Block.hash block))) else mret tt) ;?
       on_chain (Chain.add_block block) ;?
       mret true) in
  mput (λ m, set_miner_state m (mkState false (ms_full (miner_state m)))) ;?
  emit (MinerStopped success (t_full k)) ;?
  mput (λ m, set_mining m false) ;?
  put_task i (set_status k Gone).

(** ** Runs *)

Inductive action :=
  | AddBlock (block : Block.t) (keystore : Keystore.t)
  | StopAll
  | Quit_
  | StopMining
  | StartThread
  | Turn (now random : Z) (choice : nat) (cpus : Z)
  | Resume (cpus : Z)
  | EndTurn
  | Start (i : nat)
  | Place (i : nat) (random now : Z)
  | Decide (i : nat)
  | Try (i : nat)
  | Look (i : nat) (elapsed now : Z) (lock : bool)
  | Leave (i : nat)
  | Submit (i : nat) (now : Z)
  | Others (c : Chain.t).

Definition disabled {A} : io A := mfail Disabled.

(** A task does its next step, when it is in the right place for it. *)
Definition with_task (i : nat) (f : task → io unit) : io unit :=
  let? m := mget (λ m, m) in match tasks m !! i with Some k => f k | None => disabled end.
Definition with_search (i : nat) (f : task → search → io unit) : io unit :=
  with_task i (λ k, match t_status k with Searching s => f k s | _ => disabled end).

(** [Others]: the rest of the program changes the chain. The queue is locked
    while the main loop replaces a job. *)
Definition exec (a : action) : io unit :=
  let? m := mget (λ m, m) in
  match a with
  | AddBlock block keystore => match pc m with Replacing _ => disabled | _ => add_block block keystore end
  | StopAll => stop
  | Quit_ => quit
  | StopMining => stop_mining
  | StartThread =>
      match pc m with Idle => mput (λ m, set_pc (set_flags m true (mining m)) Head) | _ => disabled end
  | Turn now random choice cpus => match pc m with Head => turn now random choice cpus | _ => disabled end
  | Resume cpus => match pc m with Replacing job => replace_job cpus job | _ => disabled end
  | EndTurn => match pc m with Resting => end_turn | _ => disabled end
  | Start i => with_task i (λ k,
      match t_status k with
      | Spawned s => mput (λ m, change_live m (t_group k) 1) ;? put_task i (set_status k (Searching s))
      | _ => disabled
      end)
  | Place i random now => with_search i (λ k s,
      match at_phase s with
      | Outer => let? p := mlift (place random now (chain m) s) in progressed i k p
      | _ => disabled
      end)
  | Decide i => with_search i (λ k s,
      match at_phase s with Placed waiting => progressed i k (decide_turn (mining m) waiting s) | _ => disabled end)
  | Try i => with_search i (λ k s,
      match at_phase s with
      | Trying nonce prev => let? p := mlift (try_nonce (mining m) nonce prev s) in progressed i k p
      | _ => disabled
      end)
  | Look i elapsed now lock => with_search i (λ k s,
      match at_phase s with
      | Timing nonce prev =>
          let? (stats, p) := mlift (look elapsed now (if lock then Some (chain m) else None) (t_thread k) nonce prev s) in
          mput (λ m, fold_left post_event stats m) ;?
          progressed i k p
      | _ => disabled
      end)
  | Leave i => with_task i (λ k, match t_status k with Leaving => leave i k | _ => disabled end)
  | Submit i now => with_task i (λ k,
      match t_status k with Submitting b => submit now i k b | _ => disabled end)
  | Others c => mput (λ m, set_chain m c)
  end.

Fixpoint execs (acts : list action) : io unit :=
  match acts with [] => mret tt | a :: acts => exec a ;? execs acts end.
End Ops.
End Miner.
