(* ===== verification/MinerProps.v ===== *)
(** * Theorems on the miner

    What holds in every state the miner and its threads reach, in any order of
    their actions and whatever happens to the chain meanwhile: the blocks they
    find are sound and signed by the right key, and they change the chain by
    adding good blocks only. *)

From S2P Require Import Prelude Text Commons Hash Keystore Net Buffer Protocol Block Store Chain.
From S2P Require Import ChainFacts ChainProps Miner.
Open Scope Z_scope.
Import Miner.

Section Miner.
Context {CR : Crypto} {SD : Serde} {EC : Ecies} {U : Unicode} {BP : Build}.
Context (fuel : nat).
(** The Blakeout library gives bytes. *)
Context (blakeout_bytes : ∀ data, bytes_ok (blakeout data)).

(** ** The chain under the miner *)

(** What the miner does to the chain: it asks for a block to sign, checks a
    block, adds a good one. *)
Inductive mine_step : Chain.t → Chain.t → Prop :=
  | mine_sign now choice keys r c c' :
      Chain.get_sign_block now fuel choice keys c = Ok (r, c') → mine_step c c'
  | mine_check now b r c c' : Chain.check_new_block now fuel b c = Ok (r, c') → mine_step c c'
  | mine_add now b b' c c1 c2 :
      typed b → numbered b → Chain.check_new_block now fuel b c = Ok ((Good, b'), c1) →
      Chain.add_block b' c1 = Ok (tt, c2) → mine_step c c2.

(** A chain as the rest of the program keeps it, with a hash on its last block. *)
Definition chain_ok (c : Chain.t) : Prop :=
  wf c ∧ ∀ last, Chain.last_block c = Some last → Block.hash last ≠ [].
(** There is room for one more block number. *)
Definition room (c : Chain.t) : Prop := Chain.get_height c + 1 < MAX.

Lemma cache_chain_ok c c' : same_but_cache c c' → chain_ok c → chain_ok c' ∧ (room c → room c').
Proof.
  intros Hc [Hwf Hh]. pose proof Hc as (i & s & ->). split; [split; [by apply (wf_same_cache _ _ Hc)|done]|done].
Qed.

(** A block to sign is placed after the last one. *)
Lemma sign_block_fresh now choice keys b k c c' :
  chain_ok c → Chain.get_sign_block now fuel choice keys c = Ok (Some (b, k), c') →
  0 < Block.index b ∧ Block.prev_block_hash b ≠ [] ∧ Block.hash_good b = false.
Proof.
  intros [Hwf Hh] H. pose proof (height_bound _ Hwf) as Hb. unfold Chain.get_sign_block in H.
  crush_check; try done.
  destruct (Chain.last_full_block _) as [full|]; crush_check; try done.
  match type of H with context [Chain.last_block ?y] => destruct (Chain.last_block y) as [last|] eqn:Hlast end;
    crush_check; try done.
  destruct (_ !! _); crush_check; try done. simpl.
  destruct Hwf as [_ Hl]. destruct (Hl last Hlast) as [Hi _].
  match goal with H : add_w 64 (Block.index last) 1 = Ok _ |- _ =>
    unfold add_w, arith, fits in H; rewrite (proj2 (andb_true_iff _ _)) in H by (unfold MAX in *; lia);
    injection H as <- end.
  split; [lia|]. split; [by apply Hh|done].
Qed.

(** ** The invariant *)

(** A block under way for a keystore: unsigned, unhashed, with its key. *)
Record block_ok (k : Keystore.t) (b : Block.t) : Prop := {
  bk_signature : Block.signature b = [];
  bk_fresh : Block.hash_good b = false;
  bk_version : Block.version b = CHAIN_VERSION;
  bk_key : Block.pub_key b = Keystore.get_public k;
  bk_index : 1 <= Block.index b < MAX;
}.

Definition search_ok (k : Keystore.t) (s : search) : Prop :=
  block_ok k (candidate s) ∧ Block.hash (candidate s) = [] ∧ target_diff s = Block.difficulty (candidate s) ∧
  full s = is_some (Block.transaction (candidate s)).

(** A block that was found has the hash of its contents, which is hard enough. *)
Definition found_ok (k : Keystore.t) (b : Block.t) : Prop :=
  block_ok k b ∧ Block.hash b = blakeout_data (as_bytes_compact (set_hash b [])) ∧
  ∃ d, hash_difficulty (E := blocked) (Block.hash b) = Ok d ∧ Block.difficulty b <= d.

Definition task_ok (k : task) : Prop :=
  match t_status k with
  | Spawned s | Searching s => search_ok (t_keystore k) s
  | Submitting b => found_ok (t_keystore k) b
  | Leaving | Gone => True
  end.

(** A job names the key it is mined with, or [mine_internal] will set it. *)
Definition job_ok (job : MineJob) : Prop :=
  Block.hash_good (block job) = false ∧
  (Block.pub_key (block job) = Keystore.get_public (keystore job) ∨
   0 < Block.index (block job) ∧ Block.prev_block_hash (block job) ≠ []).

Record minv (m : t) : Prop := {
  mi_chain : chain_ok (chain m);
  mi_jobs : Forall job_ok (jobs m);
  mi_current : ∀ job, current_job m = Some job → job_ok job;
  mi_pc : ∀ job, pc m = Replacing job → job_ok job;
  mi_tasks : Forall task_ok (tasks m);
}.

(** What an action does: the invariant is kept, and the chain moves as said. *)
Definition mines (m m' : t) : Prop :=
  minv m → room (chain m) → minv m' ∧ room (chain m') ∧ rtc mine_step (chain m) (chain m').

#[local] Instance mines_preorder : PreOrder mines.
Proof.
  split; [done|]. intros m1 m2 m3 H1 H2 Hm Hr. destruct (H1 Hm Hr) as (Hm2 & Hr2 & S1).
  destruct (H2 Hm2 Hr2) as (Hm3 & Hr3 & S2). split; [done|]. split; [done|]. by etransitivity.
Qed.
Abbreviation Mines := (Steps mines).

(** Changes that leave the chain alone. *)
Lemma mines_put {E} (f : t → t) : (∀ m, minv m → minv (f m) ∧ chain (f m) = chain m) → Mines (mput (E := E) f).
Proof. intros Hf. apply steps_put. intros m Hm Hr. destruct (Hf m Hm) as [Hm' ->]. done. Qed.

Lemma mines_emit e : Mines (emit e).
Proof. apply mines_put. by intros m [H1 H2 H3 H4 H5]. Qed.
Lemma mines_mining g : Mines (mput (E := blocked) (λ m, set_mining m g)).
Proof. apply mines_put. by intros m [H1 H2 H3 H4 H5]. Qed.
Lemma mines_flags r g : Mines (mput (E := blocked) (λ m, set_flags m (r m) (g m))).
Proof. apply mines_put. by intros m [H1 H2 H3 H4 H5]. Qed.
Lemma mines_state st : Mines (mput (E := blocked) (λ m, set_miner_state m (st m))).
Proof. apply mines_put. by intros m [H1 H2 H3 H4 H5]. Qed.
Lemma mines_origin o : Mines (mput (E := blocked) (λ m, set_origin m o)).
Proof. apply mines_put. by intros m [H1 H2 H3 H4 H5]. Qed.
Lemma mines_live g d : Mines (mput (E := blocked) (λ m, change_live m g d)).
Proof. apply mines_put. by intros m [H1 H2 H3 H4 H5]. Qed.
Lemma mines_stats l : Mines (mput (E := blocked) (λ m, fold_left post_event l m)).
Proof.
  apply mines_put. induction l as [|e l IH]; intros m Hm; [done|]. simpl.
  destruct (IH (post_event m e)) as [H1 H2]; [by destruct Hm|]. split; [done|]. by rewrite H2.
Qed.
Lemma mines_pc p : (∀ job, p = Replacing job → False) → Mines (mput (E := blocked) (λ m, set_pc m p)).
Proof.
  intros Hp. apply mines_put. intros m [H1 H2 H3 H4 H5]. split; [|done]. split; try done.
  intros job Hj. by destruct (Hp job Hj).
Qed.
Lemma mines_task i k : task_ok k → Mines (put_task i k).
Proof.
  intros Hk. apply mines_put. intros m [H1 H2 H3 H4 H5]. split; [|done]. split; try done. simpl.
  by apply Forall_insert.
Qed.
#[local] Hint Resolve mines_emit mines_mining mines_flags mines_state mines_origin mines_live mines_stats : steps.
#[local] Hint Extern 1 (Steps mines (mput (λ m, set_pc m _))) => apply mines_pc; done : steps.

Lemma chain_call_inv {A} (o : M Chain.t DbError A) m a m' :
  on_chain o m = Ok (a, m') → ∃ c', o (chain m) = Ok (a, c') ∧ m' = set_chain m c'.
Proof. unfold on_chain. destruct (o (chain m)) as [[a' c']| | |]; try done. intros [= <- <-]. eauto. Qed.

(** An operation of the chain that only writes the signer cache. *)
Lemma mines_cache {A} (o : M Chain.t DbError A) m a m' :
  (∀ c', o (chain m) = Ok (a, c') → same_but_cache (chain m) c' ∧ mine_step (chain m) c') →
  on_chain o m = Ok (a, m') → mines m m'.
Proof.
  intros Hs (c' & Ho & ->)%chain_call_inv [H1 H2 H3 H4 H5] Hr. destruct (Hs c' Ho) as [Hc Hstep].
  destruct (cache_chain_ok _ _ Hc H1) as [Hc' Hr']. split; [by split|]. split; [by apply Hr'|]. by apply rtc_once.
Qed.

Lemma mines_queue_sign now random choice : Mines (queue_sign_block fuel now random choice).
Proof.
  intros m [] m' Hr. unfold queue_sign_block in Hr. apply mbind_inv in Hr as (keys & m1 & [= <- <-] & Hr).
  apply mbind_inv in Hr as (found & m2 & Ho & Hr).
  intros Hm Hroom.
  assert (mines m m2) as Hm2.
  { eapply mines_cache; [|exact Ho]. intros c' Hc. split; [by eapply sign_cache|by econstructor]. }
  destruct (Hm2 Hm Hroom) as (Hok & Hroom2 & Hch).
  destruct found as [[b k]|]; [|by injection Hr as <-].
  apply chain_call_inv in Ho as (c' & Hsign & Hc'). destruct (sign_block_fresh _ _ _ _ _ _ _ (mi_chain _ Hm) Hsign) as (Hi & Hp & Hg).
  apply mbind_inv in Hr as (start & m3 & [_ ->]%mlift_inv & Hr). injection Hr as <-.
  split; [|done]. destruct Hok as [H1 H2 H3 H4 H5]. split; try done. simpl. apply Forall_app. split; [done|].
  constructor; [|done]. split; [done|by right].
Qed.

#[local] Hint Resolve mines_queue_sign : steps.

(** ** Starting to mine *)

Lemma spawn_ok job n group :
  block_ok (keystore job) (block job) → Block.hash (block job) = [] → Forall task_ok (spawn job n group).
Proof.
  intros Hb Hh. unfold spawn. apply Forall_fmap, Forall_forall. intros cpu _. by repeat split; try apply Hb.
Qed.

Lemma next_index i j : 0 <= i → i + 1 < MAX → add_w (E := blocked) 64 i 1 = Ok j → j = i + 1.
Proof.
  intros H0 H1. unfold add_w, arith, fits. rewrite (proj2 (andb_true_iff _ _)) by (unfold MAX in *; lia). by intros [= <-].
Qed.

Lemma mines_spawn cpus job b :
  block_ok (keystore job) b → Block.hash b = [] →
  Mines (emit MinerStarted ;?
         mput (λ m, set_miner_state m (mkState true (is_some (Block.transaction b)))) ;?
         mput (E := blocked) (λ m,
           let n := wrap 32 (if threads m =? 0 then cpus else threads m) in
           set_live (set_tasks m (tasks m ++ spawn (mkJob (start job) b (keystore job)) n (length (live m))))
             (live m ++ [0]))).
Proof.
  intros Hb Hh. apply steps_bind; [apply _|apply mines_emit|intros _].
  apply steps_bind; [apply _|apply (mines_state (λ _, _))|intros _].
  apply mines_put. intros m [H1 H2 H3 H4 H5]. split; [|done]. split; try done. simpl. apply Forall_app.
  split; [done|]. by apply spawn_ok.
Qed.

Lemma mines_stop_job : Mines stop_job.
Proof. unfold stop_job. steps. Qed.

Lemma mines_mine_internal cpus job : job_ok job → Mines (mine_internal cpus job).
Proof.
  intros [Hg Hk] m [] m' Hr Hm Hroom. unfold mine_internal in Hr.
  apply mbind_inv in Hr as (c & m1 & [= <- <-] & Hr). apply mbind_inv in Hr as (ready & m1 & Hready & Hr).
  pose proof (height_bound _ (proj1 (mi_chain _ Hm))) as Hb0. unfold room in Hroom.
  assert (m1 = m ∧ ∀ b, ready = Some b → block_ok (keystore job) b ∧ Block.hash b = []) as [-> Hok].
  { destruct ((0 <? _) && _) eqn:Hi.
    - apply mbind_inv in Hready as (strong & m2 & [_ ->]%mlift_inv & Hready).
      destruct strong; simpl in Hready; [|by injection Hready as <- <-].
      apply mlift_inv in Hready as [Hu ->]. split; [done|]. intros b ->. unfold Chain.update_sign_block_for_mining in Hu.
      destruct (Chain.last_full_block _); [|done]. apply obind_inv in Hu as (count & _ & Hu).
      destruct (BLOCK_SIGNERS_MIN <=? count); [done|]. destruct (Chain.last_block _) as [last|] eqn:Hl; [|done].
      apply obind_inv in Hu as (next & Hnext & Hu). injection Hu as <-.
      pose proof (proj2 (proj1 (mi_chain _ Hm)) last Hl) as [Hil _].
      assert (Chain.get_height (chain m) = Block.index last) as Hheight by (unfold Chain.get_height; by rewrite Hl).
      apply next_index in Hnext; [|lia|lia]. split; [|done]. split; simpl; try done. lia.
    - apply mbind_inv in Hready as (next & m2 & [Hnext ->]%mlift_inv & Hready). injection Hready as <- <-.
      split; [done|]. intros b [= <-]. apply next_index in Hnext; [|lia|lia]. split; [|done].
      split; simpl; try done; [|lia]. destruct Hk as [Hk|[Hk1 Hk2]]; [done|].
      exfalso. apply andb_false_iff in Hi. simpl in Hi.
      rewrite Z.ltb_ge, negb_false_iff, bool_decide_eq_true in Hi. destruct Hi; [lia|done]. }
  destruct ready as [b|]; [|by apply (mines_stop_job m tt m' Hr)].
  destruct (Hok b eq_refl) as [Hb Hh]. by apply (mines_spawn cpus job b Hb Hh m tt m' Hr).
Qed.

(** ** The main loop *)

Lemma took_ok m job rest : minv m → jobs m = job :: rest → job_ok job ∧ Forall job_ok rest.
Proof. intros [_ H2 _ _ _] Hj. rewrite Hj in H2. by apply Forall_cons in H2. Qed.

Lemma mines_turn now random choice cpus : Mines (turn fuel now random choice cpus).
Proof.
  intros m [] m' Hr Hm Hroom. unfold turn in Hr. apply mbind_inv in Hr as (? & m1 & [= <- <-] & Hr).
  destruct (running m); simpl in Hr; [|injection Hr as <-; by apply (mines_pc Ended ltac:(done) m tt)].
  destruct (current_job m) as [cur|] eqn:Hcur.
  - destruct (mining m && is_signing cur); [by injection Hr as <-|].
    destruct (mining m && is_full cur); [|injection Hr as <-; by apply (mines_pc Resting ltac:(done) m tt)].
    unfold busy_turn in Hr. apply mbind_inv in Hr as (queue & m1 & [= <- <-] & Hr).
    destruct (jobs m) as [|job rest] eqn:Hj.
    { assert (mines m m') as Hmv; [|by apply Hmv]. run_steps Hr. steps. }
    destruct (is_signing job && is_due now job).
    + injection Hr as <-. destruct (took_ok _ _ _ Hm Hj) as [Hjob Hrest]. destruct Hm as [H1 H2 H3 H4 H5].
      split; [|done]. split; try done. simpl. by intros j [= <-].
    + assert (mines m m') as Hmv; [|by apply Hmv].
      run_steps Hr. destruct (is_signing job); steps.
  - unfold take_job in Hr. apply mbind_inv in Hr as (queue & m1 & [= <- <-] & Hr).
    apply mbind_inv in Hr as ([] & m2 & Hq & Hr). injection Hr as <-.
    assert (mines m m2) as Hmv.
    { destruct (jobs m) as [|job rest] eqn:Hj; [by apply (mines_queue_sign now random choice m tt)|].
      destruct (is_due now job); [|by injection Hq as <-].
      apply mbind_inv in Hq as ([] & m3 & Hput & Hq). injection Hput as <-.
      destruct (took_ok _ _ _ Hm Hj) as [Hjob Hrest].
      etransitivity; [|by apply (mines_mine_internal cpus job Hjob _ tt m2 Hq)].
      intros [H1 H2 H3 H4 H5] Hr'. split; [|done]. split; try done. simpl. by intros j [= <-]. }
    destruct (Hmv Hm Hroom) as (Hm2 & Hr2 & Hc).
    destruct (mines_pc Resting ltac:(done) m2 tt _ eq_refl Hm2 Hr2) as (Hm3 & Hr3 & Hc'). split; [done|]. split; [done|].
    by etransitivity.
Qed.

Lemma mines_replace cpus job : job_ok job → Mines (replace_job cpus job).
Proof.
  intros Hjob m [] m' Hr Hm Hroom. unfold replace_job in Hr. apply mbind_inv in Hr as (? & m1 & [= <- <-] & Hr).
  destruct (current_job m) as [cur|] eqn:Hcur; [|done].
  apply mbind_inv in Hr as ([] & m2 & Hput & Hr). injection Hput as <-.
  assert (mines m (set_current (set_mining (set_jobs m (cur :: jobs m)) true) (Some job))) as H1.
  { intros [H1 H2 H3 H4 H5] Hr'. split; [|done]. split; try done; simpl; [constructor; auto|]. by intros j [= <-]. }
  destruct (H1 Hm Hroom) as (Hm1 & Hr1 & Hc1).
  assert (Mines (mine_internal cpus job ;? mput (E := blocked) (λ m, set_pc m Head))) as H2.
  { apply steps_bind; [apply _|by apply mines_mine_internal|intros _; steps]. }
  destruct (H2 _ _ _ Hr Hm1 Hr1) as (Hm2 & Hr2 & Hc2). split; [done|]. split; [done|]. by etransitivity.
Qed.

Lemma mines_end_turn : Mines end_turn.
Proof. apply mines_put. intros m [H1 H2 H3 H4 H5]. destruct (mining m); by split. Qed.

(** What the user interface gives to the miner: a full block with its key. *)
Definition offered (b : Block.t) (k : Keystore.t) : Prop :=
  is_some (Block.transaction b) = true ∧ Block.pub_key b = Keystore.get_public k ∧ Block.hash_good b = false.

Lemma mines_add_block b k : offered b k → Mines (add_block b k).
Proof.
  intros (Htx & Hk & Hg). apply mines_put. intros m [H1 H2 H3 H4 H5]. rewrite Htx. split; [|done]. split; try done.
  simpl. apply Forall_app. split; [done|]. constructor; [|done]. split; [done|by left].
Qed.

(** ** The mining threads *)

Lemma place_ok random now c k s p :
  chain_ok c → room c → search_ok k s → place random now c s = Ok p → ∃ s', p = Continue s' ∧ search_ok k s'.
Proof.
  intros [Hwf _] Hroom (Hb & Hh & Ht & Hf) Hp. unfold place in Hp. apply obind_inv in Hp as (b & Hpl & Hp).
  apply obind_inv in Hp as (waiting & _ & Hp). injection Hp as <-. eexists. split; [done|].
  destruct (Chain.last_block c) as [last|] eqn:Hl.
  - apply obind_inv in Hpl as (next & Hnext & Hpl). injection Hpl as <-.
    destruct (proj2 Hwf last Hl) as [Hi _]. unfold room, Chain.get_height in Hroom. rewrite Hl in Hroom.
    apply next_index in Hnext; [|lia|done]. destruct Hb as [? ? ? ? []]. repeat split; simpl; try done; lia.
  - injection Hpl as <-. destruct Hb as [? ? ? ? []]. by repeat split.
Qed.

Lemma decide_ok r waiting k s : search_ok k s →
  decide_turn r waiting s = Cancelled false ∨ ∃ s', decide_turn r waiting s = Continue s' ∧ search_ok k s'.
Proof. intros Hs. unfold decide_turn. destruct r; [right|by left]. destruct (_ && _); eauto. Qed.

Definition progress_ok (k : Keystore.t) (p : progress) : Prop :=
  match p with Continue s => search_ok k s | Found b => found_ok k b | Cancelled _ => True end.

Lemma try_ok r nonce prev k s p : search_ok k s → try_nonce r nonce prev s = Ok p → progress_ok k p.
Proof.
  intros (Hb & Hh & Ht & Hf) Hp. unfold try_nonce in Hp. destruct r; simpl in Hp; [|by injection Hp as <-].
  apply obind_inv in Hp as (d & Hd & Hp). destruct (target_diff s <=? d) eqn:Hle.
  - injection Hp as <-. destruct Hb as [? ? ? ? []]. split; [by split|]. simpl. split.
    + f_equal. f_equal. unfold set_hash, set_nonce. simpl. by rewrite Hh.
    + exists d. split; [done|]. rewrite <- Ht. lia.
  - injection Hp as <-. destruct Hb as [? ? ? ? []]. destruct (max_diff s <? d); by repeat split.
Qed.

Lemma next_nonce_ok nonce prev k s : search_ok k s → search_ok k (next_nonce nonce prev s).
Proof. intros Hs. unfold next_nonce. by destruct (_ <? _). Qed.

Lemma look_ok elapsed now locked thread nonce prev k s stats p :
  search_ok k s → look elapsed now locked thread nonce prev s = Ok (stats, p) → progress_ok k p.
Proof.
  intros Hs Hp. unfold look in Hp. destruct (elapsed <? 1000); [injection Hp as <- <-; by apply next_nonce_ok|].
  assert (search_ok k (set_candidate s (set_time (candidate s) now))) as Hs'.
  { destruct Hs as ([? ? ? ? []] & ? & ? & ?). by repeat split. }
  apply obind_inv in Hp as ([st prev'] & _ & Hp).
  destruct (match locked with Some _ => _ | None => _ end); [|injection Hp as <- <-; by apply next_nonce_ok].
  destruct (negb _); by injection Hp as <- <-.
Qed.

Lemma mines_progressed i k p : progress_ok (t_keystore k) p → Mines (progressed i k p).
Proof.
  intros Hp. destruct p as [s|b|cleared]; simpl in *; [by apply mines_task|by apply mines_task|].
  apply steps_bind; [apply _|destruct cleared; steps|intros _; by apply mines_task].
Qed.

Lemma mines_leave i k : Mines (leave i k).
Proof.
  unfold leave. apply steps_bind; [apply _|apply steps_get; apply _|intros count].
  apply steps_bind; [apply _|apply mines_live|intros _].
  apply steps_bind; [apply _|by apply mines_task|intros _]. apply steps_if; [|steps].
  apply steps_bind; [apply _|apply (mines_state (λ m, mkState false (ms_full (miner_state m))))|intros _; steps].
Qed.

(** ** Submitting a block *)

Lemma difficulty_nonempty h d : hash_difficulty (E := DbError) h = Ok d → h ≠ [].
Proof. by intros Hd ->. Qed.

(** Checking a block and adding it when it is good. *)
Lemma submit_chain now b c q b' c1 c2 :
  chain_ok c → typed b → numbered b → Chain.check_new_block now fuel b c = Ok ((q, b'), c1) →
  (if bool_decide (q = Good) then Chain.add_block b' c1 = Ok (tt, c2) else c2 = c1) →
  chain_ok c2 ∧ rtc mine_step c c2.
Proof.
  intros Hc Hty Hnum Hcheck Hadd. case_bool_decide as Hq; [subst q|subst c2].
  - destruct (good_block_extends now fuel b b' c c1 (proj1 Hc) Hty Hnum Hcheck) as (c3 & Ha & Hwf & _ & _ & Hlast & _).
    rewrite Hadd in Ha. injection Ha as <-. split; [|by eapply rtc_once, mine_add]. split; [done|].
    intros last. rewrite Hlast. intros [= <-].
    destruct (good_checked _ _ _ _ _ _ Hcheck) as (-> & _ & [_ _ _ (need & d & _ & _ & Hd & _) _ _ _]).
    by eapply difficulty_nonempty.
  - split; [|by eapply rtc_once, mine_check]. eapply cache_chain_ok; [|done]. by eapply check_cache.
Qed.

Lemma submit_kept now i k b m m' :
  minv m → found_ok (t_keystore k) b → submit fuel now i k b m = Ok (tt, m') →
  minv m' ∧ rtc mine_step (chain m) (chain m').
Proof.
  intros Hm (Hb & Hh & _) Hr. unfold submit in Hr.
  set (sb := set_signature b (Keystore.sign (t_keystore k) (as_bytes_compact b))) in *.
  apply mbind_inv in Hr as ([q b'] & m1 & Hc & Hr). apply mbind_inv in Hr as (success & m2 & Hs & Hr).
  assert (numbered sb) as Hnum by apply Hb.
  assert (typed sb) as Hty.
  { apply typed_fresh; [by apply numbered_u64| |apply Hb]. simpl. rewrite Hh. apply blakeout_bytes. }
  destruct (chain_call_inv _ _ _ _ Hc) as (c1 & Hcheck & ->).
  assert (minv m2 ∧ rtc mine_step (chain m) (chain m2)) as [Hm2 Hst2].
  { assert (∃ o c2, m2 = set_chain (set_origin m o) c2 ∧
      if bool_decide (q = Good) then Chain.add_block b' c1 = Ok (tt, c2) else c2 = c1) as (o & c2 & -> & Hadd).
    { case_bool_decide; simpl in Hs.
      - apply mbind_inv in Hs as ([] & m3 & Ho & Hs). apply mbind_inv in Hs as ([] & m4 & Ha & Hs).
        injection Hs as _ <-. apply chain_call_inv in Ha as (c2 & Ha & ->). destruct (Block.index b' =? 1).
        + injection Ho as <-. by eexists _, c2.
        + injection Ho as <-. by exists (origin m), c2; destruct m.
      - injection Hs as _ <-. by exists (origin m), c1; destruct m. }
    destruct (submit_chain now sb (chain m) q b' c1 c2 (mi_chain _ Hm) Hty Hnum Hcheck Hadd) as [Hc2 Hstep].
    destruct Hm as [H1 H2 H3 H4 H5]. split; [by split|done]. }
  assert (∃ st g, m' = set_tasks (set_mining (post_event (set_miner_state m2 st) (MinerStopped success (t_full k))) g)
    (<[i := set_status k Gone]> (tasks m2))) as (st & g & ->).
  { injection Hr as <-. eauto. }
  split; [|done]. destruct Hm2 as [H1 H2 H3 H4 H5]. split; try done. simpl. by apply Forall_insert.
Qed.

(** ** Every action *)

(** What the actions need from outside: the blocks offered to the miner are full
    and name their key, and the rest of the program keeps the chain sound. *)
Definition allowed (a : action) (m : t) : Prop :=
  match a with
  | AddBlock b k => offered b k ∧ room (chain m)
  | Others c => chain_ok c
  | _ => room (chain m)
  end.

Lemma with_task_inv i f m m' : with_task i f m = Ok (tt, m') →
  ∃ k, tasks m !! i = Some k ∧ f k m = Ok (tt, m').
Proof.
  unfold with_task. intros Hr. apply mbind_inv in Hr as (? & m1 & [= <- <-] & Hr).
  destruct (tasks m !! i) as [k|]; [eauto|done].
Qed.

Lemma with_search_inv i f m m' : with_search i f m = Ok (tt, m') →
  ∃ k s, tasks m !! i = Some k ∧ t_status k = Searching s ∧ f k s m = Ok (tt, m').
Proof. unfold with_search. intros (k & Hk & Hr)%with_task_inv. destruct (t_status k) as [|s| | |] eqn:Hs; try done. eauto. Qed.

Lemma task_found m i k : minv m → tasks m !! i = Some k → task_ok k.
Proof. intros [_ _ _ _ H5] Hk. by eapply Forall_lookup_1. Qed.

Lemma search_found m i k s : minv m → tasks m !! i = Some k → t_status k = Searching s → search_ok (t_keystore k) s.
Proof. intros Hm Hk Hs. pose proof (task_found m i k Hm Hk) as Ht. unfold task_ok in Ht. by rewrite Hs in Ht. Qed.

Lemma mines_act a m m' : minv m → room (chain m) → allowed a m →
  (match a with Others _ | Submit _ _ => False | _ => True end) →
  exec fuel a m = Ok (tt, m') → mines m m'.
Proof.
  intros Hm Hroom Ha Hkind Hr. unfold exec in Hr. apply mbind_inv in Hr as (? & m1 & [= <- <-] & Hr).
  destruct a as [b k| | | | |now random choice cpus|cpus| |i|i random now|i|i|i elapsed now lock|i|i now|c]; try done.
  - destruct Ha as [Hoff _].
    destruct (pc m); first [exact (mines_add_block b k Hoff m tt m' Hr)|done].
  - exact (mines_flags (λ _, false) (λ _, false) m tt m' Hr).
  - exact (mines_flags (λ _, false) mining m tt m' Hr).
  - exact (mines_flags running (λ _, false) m tt m' Hr).
  - destruct (pc m); try done. injection Hr as <-. clear Hm. intros [H1 H2 H3 H4 H5] Hr. split; [by split|done].
  - destruct (pc m); try done. by apply (mines_turn now random choice cpus m tt).
  - destruct (pc m) as [| |job| |] eqn:Hpc; try done.
    apply (mines_replace cpus job (mi_pc _ Hm job Hpc) m tt m' Hr).
  - destruct (pc m); try done. apply (mines_end_turn m tt m' Hr).
  - apply with_task_inv in Hr as (k & Hk & Hr). pose proof (task_found m i k Hm Hk) as Hok. unfold task_ok in Hok.
    destruct (t_status k) as [s| | | |] eqn:Hs; try done. run_steps Hr.
    apply steps_bind; [apply _|apply mines_live|intros _]. by apply mines_task.
  - apply with_search_inv in Hr as (k & s & Hk & Hs & Hr). destruct (at_phase s); try done.
    apply mbind_inv in Hr as (p & m1 & [Hp ->]%mlift_inv & Hr).
    destruct (place_ok random now (chain m) _ s p (mi_chain _ Hm) Hroom (search_found m i k s Hm Hk Hs) Hp) as (s' & -> & Hs').
    by apply (mines_progressed i k (Continue s') Hs' m tt).
  - apply with_search_inv in Hr as (k & s & Hk & Hs & Hr). destruct (at_phase s) as [|waiting| |]; try done.
    apply (mines_progressed i k (decide_turn (mining m) waiting s)) in Hr; [done|].
    by destruct (decide_ok (mining m) waiting (t_keystore k) s (search_found m i k s Hm Hk Hs)) as [->|(s' & -> & Hs')].
  - apply with_search_inv in Hr as (k & s & Hk & Hs & Hr). destruct (at_phase s) as [| |nonce prev|]; try done.
    apply mbind_inv in Hr as (p & m1 & [Hp ->]%mlift_inv & Hr).
    apply (mines_progressed i k p) in Hr; [done|]. eapply try_ok; [|done]. by eapply search_found.
  - apply with_search_inv in Hr as (k & s & Hk & Hs & Hr). destruct (at_phase s) as [| | |nonce prev]; try done.
    apply mbind_inv in Hr as ([stats p] & m1 & [Hp ->]%mlift_inv & Hr).
    assert (progress_ok (t_keystore k) p) as Hpk by (eapply look_ok; [by eapply search_found|done]).
    run_steps Hr. apply steps_bind; [apply _|apply mines_stats|intros _]. by apply mines_progressed.
  - apply with_task_inv in Hr as (k & Hk & Hr). destruct (t_status k); try done. by apply (mines_leave i k m tt).
Qed.

(** A step: an allowed action that does not panic. *)
Definition step (m m' : t) : Prop := ∃ a, allowed a m ∧ exec fuel a m = Ok (tt, m').

Lemma act_kept a m m' : minv m → allowed a m → (match a with Others _ => False | _ => True end) →
  exec fuel a m = Ok (tt, m') → minv m' ∧ rtc mine_step (chain m) (chain m').
Proof.
  intros Hm Ha Hown Hr. destruct a as [b k| | | | |now random choice cpus|cpus| |i|i random now|i|i|i elapsed now lock|i|i now|c]; try done.
  15: { unfold exec in Hr. apply mbind_inv in Hr as (? & m1 & [= <- <-] & Hr).
    apply with_task_inv in Hr as (k & Hk & Hr). pose proof (task_found m i k Hm Hk) as Hok. unfold task_ok in Hok.
    destruct (t_status k) as [| |b| |]; try done. by destruct (submit_kept now i k b m m' Hm Hok Hr). }
  all: match goal with Hr : exec _ ?a _ = _ |- _ =>
    assert (room (chain m)) as Hroom by first [exact Ha|exact (proj2 Ha)];
    destruct (mines_act a m m' Hm Hroom Ha I Hr Hm Hroom) as (H1 & _ & H2); done end.
Qed.

Lemma step_kept m m' : minv m → step m m' →
  minv m' ∧ (rtc mine_step (chain m) (chain m') ∨ ∃ c, m' = set_chain m c ∧ chain_ok c).
Proof.
  intros Hm (a & Ha & Hr). destruct (match a with Others _ => true | _ => false end) eqn:Ho.
  - destruct a as [| | | | | | | | | | | | | | |c]; try done. injection Hr as <-. split; [|right; exists c; done].
    destruct Hm as [H1 H2 H3 H4 H5]. by split.
  - destruct (act_kept a m m' Hm Ha) as [H1 H2]; [by destruct a|done|]. auto.
Qed.

Lemma new_minv c keys origin threads : chain_ok c → minv (new c keys origin threads).
Proof. intros Hc. by split. Qed.

Lemma reachable_minv c keys origin threads m :
  chain_ok c → rtc step (new c keys origin threads) m → minv m.
Proof.
  intros Hc Hr. assert (minv (new c keys origin threads)) as H0 by by apply new_minv.
  revert H0. induction Hr as [|m1 m2 m3 Hs _ IH]; [done|]. intros Hm. by apply IH, (step_kept m1 m2).
Qed.

(** C17: whatever the order in which the miner's threads, the user and the rest of
    the program act, the chain stays sound, and the miner itself changes it only
    by checking blocks, by adding blocks that were found good and by remembering
    signers: it never replaces or removes a block. *)
Theorem miner_keeps_chain c keys origin threads m m' :
  chain_ok c → rtc step (new c keys origin threads) m → step m m' →
  wf (chain m) ∧ wf (chain m') ∧
  (rtc mine_step (chain m) (chain m') ∨ ∃ c', m' = set_chain m c' ∧ chain_ok c').
Proof.
  intros Hc Hr Hs. pose proof (reachable_minv _ _ _ _ _ Hc Hr) as Hm. destruct (step_kept m m' Hm Hs) as [Hm' Hch].
  split; [apply Hm|]. split; [apply Hm'|done].
Qed.

(** The laws of Ed25519 for keys made from a secret. *)
Definition ed25519_keys : Prop :=
  ∀ secret, length (ed_public secret) = 32%nat ∧ ed_key_valid (ed_public secret) = true.
Definition ed25519_signs : Prop := ∀ secret msg,
  length (ed_sign secret msg) = 64%nat ∧ ed_verify (ed_public secret) msg (ed_sign secret msg) = true.

(** A found block passes the checks of its hash and, once signed, of its signature. *)
Lemma found_verifies k b : ed25519_keys → ed25519_signs → found_ok k b →
  let signed := set_signature b (Keystore.sign k (as_bytes_compact b)) in
  check_block_hash signed = (true, set_hash_good signed true) ∧
  check_block_signature (E := DbError) signed = Ok true.
Proof.
  intros Hkey Hsig ([Bs Bg Bv Bk Bi] & Hh & _) signed.
  assert (set_signature signed [] = b) as Hunsigned by (destruct b; simpl in *; by subst).
  assert (set_signature (set_hash signed []) [] = set_hash b []) as Hclean by (destruct b; simpl in *; by subst).
  split.
  - unfold check_block_hash. unfold signed at 1. simpl. rewrite Bg, Hclean.
    change (Block.hash signed) with (Block.hash b). rewrite <- Hh, same_hash_eq. by rewrite bool_decide_true.
  - unfold check_block_signature, Keystore.check. rewrite Hunsigned. rewrite Bk. unfold Keystore.get_public.
    destruct (Hkey (Keystore.keypair k)) as [Hl Hv]. destruct (Hsig (Keystore.keypair k) (as_bytes_compact b)) as [Hls Hver].
    rewrite bool_decide_false by (rewrite Hl; auto). rewrite Hv. simpl. unfold Keystore.sign.
    rewrite bool_decide_true by done. by rewrite Hver.
Qed.

(** C18: every block a mining thread is about to submit, in whatever state, passes
    the checks that do not depend on the chain once it is signed: its hash is
    that of its contents, it is as hard as it says, its version is the current
    one, and the signature is that of its public key. *)
Theorem mined_blocks_valid c keys origin threads m i k b :
  ed25519_keys → ed25519_signs → chain_ok c → rtc step (new c keys origin threads) m →
  tasks m !! i = Some k → t_status k = Submitting b →
  let signed := set_signature b (Keystore.sign (t_keystore k) (as_bytes_compact b)) in
  check_block_hash signed = (true, set_hash_good signed true) ∧
  check_block_signature (E := DbError) signed = Ok true ∧
  Block.version signed = CHAIN_VERSION ∧
  ∃ d, hash_difficulty (E := blocked) (Block.hash signed) = Ok d ∧ Block.difficulty signed <= d.
Proof.
  intros Hkey Hsig Hc Hr Hk Hst signed. pose proof (reachable_minv _ _ _ _ _ Hc Hr) as Hm.
  pose proof (task_found m i k Hm Hk) as Hok. unfold task_ok in Hok. rewrite Hst in Hok.
  destruct (found_verifies _ _ Hkey Hsig Hok) as [Hhash Hsigned].
  destruct Hok as ([Bs Bg Bv Bk Bi] & Hh & d & Hd & Hle). split; [done|]. split; [done|]. split; [done|]. by exists d.
Qed.
End Miner.
