(* ===== verification/MinerLiveness.v ===== *)
(** * What the miner does not get done

    Signing jobs take over from full ones at the head of the queue, and cannot
    get there behind a full job: a state is described that the miner does not
    leave by itself, in which nothing is mined. *)

From S2P Require Import Prelude Text Commons Hash Keystore Net Buffer Protocol Block Store Chain.
From S2P Require Import ChainFacts ChainProps Miner MinerProps.
Open Scope Z_scope.
Import Miner.

Section Liveness.
Context {CR : Crypto} {SD : Serde} {EC : Ecies} {U : Unicode} {BP : Build}.
Context (fuel : nat).

(** ** Taking over *)

(** A signing job that is due and first in the queue takes over from the full
    block being mined: the flag is cleared for the threads, the queue stays
    locked during the pause, and when mining starts again it is with the signing
    job, and the interrupted job is the first to come back. *)
Theorem signing_job_preempts now random choice cpus m m1 m2 cur job rest :
  pc m = Head → running m = true → mining m = true → current_job m = Some cur → is_full cur = true →
  jobs m = job :: rest → is_signing job = true → is_due now job = true →
  exec fuel (Turn now random choice cpus) m = Ok (tt, m1) → exec fuel (Resume cpus) m1 = Ok (tt, m2) →
  mining m1 = false ∧ chain m1 = chain m ∧ (∀ b k, exec fuel (AddBlock b k) m1 = Err Disabled) ∧
  jobs m2 = cur :: rest ∧ current_job m2 = Some job ∧ pc m2 = Head ∧ chain m2 = chain m.
Proof.
  intros Hpc Hrun Hmin Hcur Hfull Hjobs Hsign Hdue H1 H2.
  assert (is_signing cur = false) as Hnot by (unfold is_signing, is_full in *; by rewrite Hfull).
  unfold exec, turn, busy_turn, mbind_ in H1. simpl in H1.
  rewrite Hpc, Hrun, Hcur, Hmin, Hnot, Hfull in H1. simpl in H1. rewrite Hjobs, Hsign, Hdue in H1. simpl in H1.
  injection H1 as <-. split; [done|]. split; [done|]. split; [done|].
  unfold exec in H2. apply mbind_inv in H2 as (? & ? & [= <- <-] & H2). simpl in H2.
  unfold replace_job in H2. apply mbind_inv in H2 as (? & ? & [= <- <-] & H2). simpl in H2. rewrite Hcur in H2.
  apply mbind_inv in H2 as ([] & m3 & Hput & H2). injection Hput as <-.
  apply mbind_inv in H2 as ([] & m4 & Hmine & H2). injection H2 as <-. simpl.
  assert (Steps (λ m m', jobs m' = jobs m ∧ current_job m' = current_job m ∧ chain m' = chain m) (mine_internal cpus job)) as Hs.
  { assert (PreOrder (λ m m' : t, jobs m' = jobs m ∧ current_job m' = current_job m ∧ chain m' = chain m)) as Hpre
      by (split; [done|]; intros a b c (-> & -> & ->) (-> & -> & ->); done).
    unfold mine_internal. apply steps_bind; [done|by apply steps_get|intros c].
    apply steps_bind; [done| |intros [b|]].
    - apply steps_if; (apply steps_bind; [done|by apply steps_lift|intros x]); [|by apply steps_ret].
      apply steps_if; [by apply steps_ret|by apply steps_lift].
    - repeat (apply steps_bind; [done|by apply steps_put|intros _]). by apply steps_put.
    - unfold stop_job. apply steps_bind; [done|by apply steps_put|intros _]. by apply steps_put. }
  destruct (Hs _ _ _ Hmine) as (-> & -> & ->). done.
Qed.

(** ** Starvation *)

(** A search of a full block that has not got past the wait for signers. *)
Definition asleep (s : search) : Prop :=
  full s = true ∧ match at_phase s with Outer => True | Placed w => w = true | _ => False end.
Definition task_asleep (k : task) : Prop :=
  match t_status k with Spawned s | Searching s => asleep s | Submitting _ => False | Leaving | Gone => True end.

(** A full block is being mined while the last one waits for its signers, and
    the next in the queue is full too. *)
Record stalled (cur next : MineJob) (c : Chain.t) (m : t) : Prop := {
  st_pc : pc m = Head ∨ pc m = Resting;
  st_running : running m = true;
  st_mining : mining m = true;
  st_current : current_job m = Some cur;
  st_full : is_full cur = true ∧ is_full next = true;
  st_jobs : ∃ rest, jobs m = next :: rest;
  st_chain : same_but_cache c (chain m);
  st_waiting : Chain.is_waiting_signers (E := blocked) c = Ok true;
  st_tasks : Forall task_asleep (tasks m);
}.

(** The actions of the miner and its user: not those that stop it or change the
    chain from outside. *)
Definition own (a : action) : Prop :=
  match a with StopAll | Quit_ | StopMining | Others _ => False | _ => True end.

Lemma waiting_cache c c' : same_but_cache c c' →
  Chain.is_waiting_signers (E := blocked) c' = Chain.is_waiting_signers c.
Proof. by intros (i & s & ->). Qed.

Lemma stalled_queue cur next c now random choice m m' :
  stalled cur next c m → queue_sign_block fuel now random choice m = Ok (tt, m') → stalled cur next c m'.
Proof.
  intros [S1 S2 S3 S4 S5 (rest & Hj) S7 S8 S9] Hr. unfold queue_sign_block in Hr.
  apply mbind_inv in Hr as (keys & ? & [= <- <-] & Hr). apply mbind_inv in Hr as (found & m1 & Ho & Hr).
  apply chain_call_inv in Ho as (c' & Hsign & ->).
  assert (same_but_cache c c') as Hc'.
  { destruct S7 as (i & l & Hc). apply sign_cache in Hsign as (i' & l' & ->). rewrite Hc. by exists i', l'. }
  destruct found as [[b k]|].
  - apply mbind_inv in Hr as (start & ? & [_ ->]%mlift_inv & Hr). injection Hr as <-.
    split; try done. simpl. rewrite Hj. by eexists.
  - injection Hr as <-. split; try done. simpl. eauto.
Qed.

Lemma stalled_set_pc cur next c m p : p = Head ∨ p = Resting → stalled cur next c m → stalled cur next c (set_pc m p).
Proof. by intros Hp []. Qed.

Lemma stalled_task cur next c m i k : task_asleep k → stalled cur next c m →
  stalled cur next c (set_tasks m (<[i := k]> (tasks m))).
Proof. intros Hk [S1 S2 S3 S4 S5 S6 S7 S8 S9]. split; try done. by apply Forall_insert. Qed.

Lemma stalled_turn cur next c now random choice cpus m m' :
  stalled cur next c m → turn fuel now random choice cpus m = Ok (tt, m') → stalled cur next c m'.
Proof.
  intros Hs Hr. pose proof Hs as [S1 S2 S3 S4 [S5 S5'] (rest & Hj) S7 S8 S9].
  assert (is_signing cur = false ∧ is_signing next = false) as [Hc Hn] by (unfold is_signing, is_full in *; by rewrite S5, S5').
  unfold turn in Hr. apply mbind_inv in Hr as (? & ? & [= <- <-] & Hr). rewrite S2, S4, S3, Hc, S5 in Hr. simpl in Hr.
  unfold busy_turn in Hr. apply mbind_inv in Hr as (? & ? & [= <- <-] & Hr). rewrite Hj, Hn in Hr. simpl in Hr.
  apply mbind_inv in Hr as ([] & m1 & Hq & Hr). injection Hr as <-.
  apply stalled_set_pc; [by right|]. by eapply stalled_queue.
Qed.

Lemma stalled_exec cur next c m a m' :
  stalled cur next c m → own a → exec fuel a m = Ok (tt, m') → stalled cur next c m'.
Proof.
  intros Hs Hown Hr. pose proof Hs as [S1 S2 S3 S4 S5 (rest & Hj) S7 S8 S9].
  unfold exec in Hr. apply mbind_inv in Hr as (? & ? & [= <- <-] & Hr).
  assert (∀ i k, tasks m !! i = Some k → task_asleep k) as Htask by (intros i k Hk; by eapply Forall_lookup_1).
  destruct a as [b k| | | | |now random choice cpus|cpus| |i|i random now|i|i|i elapsed now lock|i|i now|c']; try done.
  - assert (add_block b k m = Ok (tt, m')) as Hadd by (destruct S1 as [Hp|Hp]; rewrite Hp in Hr; exact Hr).
    injection Hadd as <-. split; try done. simpl. rewrite Hj. destruct (is_some _); [by eexists|].
    simpl. rewrite (proj2 S5). by eexists.
  - by destruct S1 as [Hp|Hp]; rewrite Hp in Hr.
  - assert (turn fuel now random choice cpus m = Ok (tt, m')) as Ht by (destruct S1 as [Hp|Hp]; rewrite Hp in Hr; [exact Hr|done]).
    by eapply stalled_turn.
  - by destruct S1 as [Hp|Hp]; rewrite Hp in Hr.
  - assert (end_turn m = Ok (tt, m')) as Ht by (destruct S1 as [Hp|Hp]; rewrite Hp in Hr; [done|exact Hr]).
    injection Ht as <-. rewrite S3. apply stalled_set_pc; [by left|done].
  - apply with_task_inv in Hr as (k & Hk & Hr). specialize (Htask i k Hk). unfold task_asleep in Htask.
    destruct (t_status k) as [s| | | |] eqn:Hst; try done.
    apply mbind_inv in Hr as ([] & m1 & Hl & Hr). injection Hl as <-. injection Hr as <-.
    apply (stalled_task cur next c (change_live m (t_group k) 1)); [done|by split; try done; eexists].
  - apply with_search_inv in Hr as (k & s & Hk & Hst & Hr). specialize (Htask i k Hk). unfold task_asleep in Htask.
    rewrite Hst in Htask. destruct Htask as [Hf Hp]. destruct (at_phase s); try done.
    apply mbind_inv in Hr as (p & ? & [Hpl ->]%mlift_inv & Hr). unfold place in Hpl.
    apply obind_inv in Hpl as (b & _ & Hpl). rewrite (waiting_cache c _ S7), S8 in Hpl. injection Hpl as <-.
    injection Hr as <-. by apply stalled_task.
  - apply with_search_inv in Hr as (k & s & Hk & Hst & Hr). specialize (Htask i k Hk). unfold task_asleep in Htask.
    rewrite Hst in Htask. destruct Htask as [Hf Hp]. destruct (at_phase s) as [|w| |] eqn:Hph; try done. subst w.
    unfold decide_turn in Hr. rewrite S3, Hf in Hr. injection Hr as <-. by apply stalled_task.
  - apply with_search_inv in Hr as (k & s & Hk & Hst & Hr). specialize (Htask i k Hk). unfold task_asleep in Htask.
    rewrite Hst in Htask. destruct Htask as [Hf Hp]. by destruct (at_phase s).
  - apply with_search_inv in Hr as (k & s & Hk & Hst & Hr). specialize (Htask i k Hk). unfold task_asleep in Htask.
    rewrite Hst in Htask. destruct Htask as [Hf Hp]. by destruct (at_phase s).
  - apply with_task_inv in Hr as (k & Hk & Hr). destruct (t_status k) eqn:Hst; try done. unfold leave in Hr.
    apply mbind_inv in Hr as (count & ? & [= <- <-] & Hr). apply mbind_inv in Hr as ([] & ? & [= <-] & Hr).
    apply mbind_inv in Hr as ([] & ? & [= <-] & Hr).
    assert (stalled cur next c (set_tasks (change_live m (t_group k) (-1)) (<[i:=set_status k Gone]> (tasks m)))) as Hs'
      by (apply (stalled_task cur next c (change_live m (t_group k) (-1))); [done|by split; try done; eexists]).
    destruct (_ =? 1); [|by injection Hr as <-].
    apply mbind_inv in Hr as ([] & ? & [= <-] & Hr). injection Hr as <-. by destruct Hs'; split.
  - apply with_task_inv in Hr as (k & Hk & Hr). specialize (Htask i k Hk). unfold task_asleep in Htask.
    by destruct (t_status k).
Qed.

(** C19: while a full block is mined and the next job in the queue is full, the
    jobs behind it are never taken: if the last full block still waits for its
    signers, then whatever the miner, its threads and its user do, short of
    stopping it, no block is mined, the same job stays current and the same one
    first in the queue - also when the signatures waited for are this node's and
    its signing jobs are in the queue. Only a change of the chain by others ends
    it. *)
Theorem signing_jobs_starve cur next c m acts m' :
  stalled cur next c m → Forall own acts → execs fuel acts m = Ok (tt, m') →
  current_job m' = Some cur ∧ (∃ rest, jobs m' = next :: rest) ∧ mining m' = true ∧
  Chain.last_block (chain m') = Chain.last_block c ∧ Chain.db (chain m') = Chain.db c ∧
  ∀ i k b, tasks m' !! i = Some k → t_status k ≠ Submitting b.
Proof.
  intros Hs Hown Hr. assert (stalled cur next c m') as [S1 S2 S3 S4 S5 S6 S7 S8 S9].
  { revert m Hs Hr. induction Hown as [|a acts Ha _ IH]; intros m Hs Hr; simpl in Hr; [by injection Hr as <-|].
    apply mbind_inv in Hr as ([] & m1 & Ha1 & Hr). by eapply IH, Hr; eapply stalled_exec. }
  destruct (same_cache_reads _ _ S7) as (Hdb & Hl & _). do 5 (split; [done|]).
  intros i k b Hk Hst. pose proof (Forall_lookup_1 _ _ _ _ S9 Hk) as Ht. unfold task_asleep in Ht. by rewrite Hst in Ht.
Qed.
End Liveness.
