(* ===== verification/MinerExamples.v ===== *)
(** * The miner at work

    The genesis block mined step by step, a queue in which a signing job
    starves, and threads that outlive their cancellation; the theorems on the
    miner are applied to these runs. *)

From S2P Require Import Prelude Text Commons Hash Keystore Net Buffer Protocol Block Store Chain.
From S2P Require Import ChainFacts ChainProps Miner MinerProps MinerLiveness.
From S2P Require ChainExamples.
Open Scope Z_scope.
Import Miner.

(** Toy libraries that satisfy the laws: hashes are bytes and easy, keys have
    32 bytes, every signature holds. *)
#[local] Instance toy_crypto : Crypto := {|
  sha256 := λ data, replicate 8 0 ++ ((λ x, x mod 256) <$> data) ++ replicate 8 0;
  blakeout := λ data, replicate 8 0 ++ ((λ x, x mod 256) <$> data) ++ replicate 8 0;
  ed_key_valid := λ _, true;
  ed_verify := λ _ _ _, true;
  ed_public := λ secret, take 32 (secret ++ replicate 32 0);
  ed_sign := λ _ _, replicate 64 0;
|}.
#[local] Existing Instances ChainExamples.Toy.toy_serde ChainExamples.Toy.toy_ecies ascii_tables.
#[local] Instance release : Build := false.

Lemma toy_bytes data : bytes_ok (blakeout data).
Proof.
  unfold bytes_ok. simpl. repeat constructor; try done. apply Forall_app. split.
  - apply Forall_fmap, Forall_forall. intros x _. apply (Z.mod_pos_bound x 256). lia.
  - repeat constructor; done.
Qed.
Lemma toy_keys secret : length (ed_public secret) = 32%nat ∧ ed_key_valid (ed_public secret) = true.
Proof. split; [|done]. cbn [ed_public toy_crypto]. rewrite length_take, length_app, length_replicate. lia. Qed.
Lemma toy_signs secret msg :
  length (ed_sign secret msg) = 64%nat ∧ ed_verify (ed_public secret) msg (ed_sign secret msg) = true.
Proof. done. Qed.

Definition me : Keystore.t := Keystore.new (replicate 32 5) (CryptoBox.mk [] []).
Definition origin_block : Block.t :=
  block_new (Some (transaction_origin [1] (Keystore.get_public me) [])) (Keystore.get_public me) [] ORIGIN_DIFFICULTY.
Definition empty_chain : Chain.t := Chain.new (replicate 32 0) (load_zones ZONES_TXT) None.

Lemma empty_ok : chain_ok empty_chain.
Proof. split; [apply wf_new|done]. Qed.

Definition fresh : Miner.t := new empty_chain [me] [] 1.
Definition state (o : outcome blocked (unit * Miner.t)) : Miner.t := match o with Ok (_, m) => m | _ => fresh end.

(** The run up to the found block: queue it, start, take the job, search. *)
Definition mining_run : list action :=
  [AddBlock origin_block me; StartThread; Turn 1000 0 0 4; EndTurn; Start 0; Place 0 77 1001; Decide 0; Try 0].
Definition found : Miner.t := Eval vm_compute in state (execs 0 mining_run fresh).

Lemma reach acts m m' : execs 0 acts m = Ok (tt, m') →
  (fix ok (acts : list action) (m : Miner.t) : Prop :=
     match acts with
     | [] => True
     | a :: acts => allowed a m ∧ match exec 0 a m with Ok (_, m1) => ok acts m1 | _ => False end
     end) acts m → rtc (step 0) m m'.
Proof.
  revert m. induction acts as [|a acts IH]; intros m Hr; simpl in Hr; [injection Hr as <-; reflexivity|].
  apply mbind_inv in Hr as ([] & m1 & Ha & Hr). rewrite Ha. intros [Hal Hok].
  eapply rtc_l; [by exists a|]. by apply IH.
Qed.

Lemma found_reached : rtc (step 0) fresh found.
Proof.
  apply (reach mining_run); [vm_compute; reflexivity|].
  repeat (split; [first [by vm_compute|split; [|by vm_compute]; by vm_compute]|]; simpl). exact I.
Qed.

Definition found_task : task := Eval vm_compute in default (mkTask me true 0 0 Gone) (tasks found !! 0%nat).
Definition found_block : Block.t :=
  Eval vm_compute in match t_status found_task with Submitting b => b | _ => origin_block end.

Lemma mined_blocks_valid_witness :
  Block.index found_block = 1 ∧
  check_block_signature (E := DbError)
    (set_signature found_block (Keystore.sign me (as_bytes_compact found_block))) = Ok true.
Proof.
  split; [reflexivity|].
  apply (mined_blocks_valid 0 toy_bytes empty_chain [me] [] 1 found 0 found_task found_block
    toy_keys toy_signs empty_ok found_reached eq_refl eq_refl).
Defined.

(** The block is accepted, and its hash becomes the origin of the settings. *)
Definition submitted : Miner.t := Eval vm_compute in state (exec 0 (Submit 0 1002) found).
Example genesis_mined :
  Chain.get_height (chain submitted) = 1 ∧ origin submitted = to_hex (Block.hash found_block) ∧
  events submitted = [MinerStarted; MinerStopped true true] ∧ mining submitted = false.
Proof. vm_compute. done. Qed.

Lemma miner_keeps_chain_witness : wf (chain found) ∧ wf (chain submitted).
Proof.
  destruct (miner_keeps_chain 0 toy_bytes empty_chain [me] [] 1 found submitted empty_ok found_reached) as (H1 & H2 & _).
  - exists (Submit 0 1002). split; vm_compute; reflexivity.
  - exact (conj H1 H2).
Defined.

(** ** A full block that waits *)

Definition domain_block (name : string) : Block.t :=
  block_new (Some (transaction_from_str (str name) CLASS_DOMAIN [] (Keystore.get_public me) []))
    (Keystore.get_public me) [] DOMAIN_DIFFICULTY.
(** A chain whose last block, by another key, is full and not signed yet; this
    node is one of its signers. *)
Definition unsigned_block : Block.t :=
  Block.from_params 40 1000 1 24 0 0 [7] [6] (replicate 32 9) [] (Block.transaction (domain_block "a.ruv")) true.
Definition waiting_chain : Chain.t :=
  Chain.mk [] (Some unsigned_block) (Some unsigned_block) 40
    (Store.mk {[ 40 := Chain.row_of_block unsigned_block ]} ∅ []) [] 40 [Keystore.get_public me].

(** Two domains are given to the miner; while it mines the first one, a full
    block of somebody else arrives. *)
Definition stalled_state : Miner.t := Eval vm_compute in
  state (execs 0 [AddBlock (domain_block "b.ruv") me; AddBlock (domain_block "c.ruv") me; StartThread; Turn 1000 0 0 4;
                  EndTurn; Start 0; Others waiting_chain] fresh).
Definition cur_job : MineJob := mkJob 0 (domain_block "b.ruv") me.
Definition next_job : MineJob := mkJob 0 (domain_block "c.ruv") me.

Lemma stalled_here : stalled cur_job next_job waiting_chain stalled_state.
Proof.
  split; try (vm_compute; done).
  - left. reflexivity.
  - exists []. vm_compute. reflexivity.
  - exists 40, [Keystore.get_public me]. reflexivity.
  - apply Forall_forall. intros k Hk. vm_compute in Hk. apply list_elem_of_singleton in Hk as ->. vm_compute. done.
Qed.

(** The signing jobs that are queued stay behind. *)
Definition long_wait : list action :=
  [Turn 2000 5 0 4; EndTurn; Place 0 1 2001; Decide 0; Turn 9000 5 0 4; EndTurn; Place 0 2 9001; Decide 0].
Definition starved : Miner.t := Eval vm_compute in state (execs 0 long_wait stalled_state).

Lemma signing_jobs_starve_witness :
  current_job starved = Some cur_job ∧ Chain.last_block (chain starved) = Chain.last_block waiting_chain.
Proof.
  assert (execs 0 long_wait stalled_state = Ok (tt, starved)) as Hr by (vm_compute; reflexivity).
  destruct (signing_jobs_starve 0 cur_job next_job waiting_chain stalled_state long_wait starved stalled_here)
    as (H1 & _ & _ & H4 & _); [by repeat constructor|exact Hr|]. exact (conj H1 H4).
Defined.

(** Each turn queues a signing job more. *)
Example queue_grows :
  let m := state (execs 0 [Turn 2000 5 0 4; EndTurn; Turn 3000 5 0 4; EndTurn] stalled_state) in
  (λ j, (is_signing j, start j)) <$> jobs m = [(false, 0); (true, 2005); (true, 3005)].
Proof. vm_compute. reflexivity. Qed.

(** ** Taking over *)

Definition sign_job : Block.t := set_place (block_new None [] [7] SIGNER_DIFFICULTY) 41 [7].
Definition signing_first : Miner.t := set_jobs stalled_state [mkJob 0 sign_job me; next_job].
Definition paused : Miner.t := Eval vm_compute in state (exec 0 (Turn 3000 0 0 4) signing_first).
Definition resumed : Miner.t := Eval vm_compute in state (exec 0 (Resume 4) paused).

Lemma signing_job_preempts_witness :
  mining paused = false ∧ jobs resumed = [cur_job; next_job] ∧ current_job resumed = Some (mkJob 0 sign_job me).
Proof.
  destruct (signing_job_preempts 0 3000 0 0 4 signing_first paused resumed cur_job (mkJob 0 sign_job me) [next_job]
    eq_refl eq_refl eq_refl eq_refl eq_refl eq_refl eq_refl eq_refl) as (H1 & _ & _ & H4 & H5 & _).
  - vm_compute. reflexivity.
  - vm_compute. reflexivity.
  - exact (conj H1 (conj H4 H5)).
Defined.

(** A thread that sleeps for the signers does not look at the flag during the
    pause, and goes on beside the threads of the signing job. *)
Example outlives_cancellation :
  let m := state (execs 0 [Place 0 1 3000; Decide 0; Turn 3000 0 0 4; Resume 4; Start 1; Place 0 2 3001; Decide 0] signing_first) in
  mining m = true ∧
  (λ k, (t_group k, match t_status k with Searching _ => true | _ => false end)) <$> tasks m =
    [(0%nat, true); (1%nat, true)].
Proof. vm_compute. done. Qed.

(** The delay before a signing job can be negative: it is due at once. *)
Example negative_delay :
  let m := state (execs 0 [Turn 2000 (-89) 0 4] (set_jobs stalled_state [])) in
  (λ j, (start j, is_due 2000 j)) <$> jobs m = [(1911, true)].
Proof. vm_compute. done. Qed.
