(* ===== verification/Context.v ===== *)
(** * The shared context (src/context.rs, settings.rs, keystore.rs, commons/simplebus.rs, dns_utils.rs, main.rs)

    The settings with their defaults, the key files, the context with its active
    key, the event bus, and how they are put together at the start. The TOML
    library is the class [Toml]; files are arguments. *)

From S2P Require Import Prelude Text Net Commons Hash Keystore Buffer Protocol Block Store Chain Authority Cache Resolve Hosts Miner.
Open Scope Z_scope.

(** ** Settings (src/settings.rs) *)
Module Settings.
Record Net := mkNet { peers : list rstr; net_listen : rstr; public : bool; ruvchain_only : bool }.
Record Dns := mkDns {
  dns_listen : rstr;
  dns_threads : Z;
  forwarders : list rstr;
  bootstraps : list rstr;
  hosts : list rstr;
}.
Record Mining := mkMining { mining_threads : Z; lower : bool }.
Record t := mk {
  origin : rstr;
  key_files : list rstr;
  check_blocks : Z;
  net : Net;
  dns : Dns;
  mining : Mining;
}.

Definition default_listen : rstr := str "[::]:6890".
Definition default_listen_dns : rstr := str "0.0.0.0:53".
Definition default_threads : Z := 100.
Definition default_check_blocks : Z := 8.
Definition default_key_files : list rstr :=
  str <$> ["key1.toml"; "key2.toml"; "key3.toml"; "key4.toml"; "key5.toml"]%string.
Definition default_dns_bootstraps : list rstr := str <$> ["9.9.9.9:53"; "94.140.14.14:53"]%string.

Definition default_net : Net :=
  mkNet (str <$> ["[fa00:4715:66fa:2bd:3032:b5d1:e86f:239c]:6890"; "[fa01:4d05:21d7:372b:2060:efe4:c759:a803]:6890"]%string)
    (str "[::]:6890") true false.
Definition default_dns : Dns :=
  mkDns (str "127.0.0.1:53") 20 (str <$> ["94.140.14.14:53"; "94.140.15.15:53"]%string) default_dns_bootstraps [].
Definition default_mining : Mining := mkMining 0 false.
Definition default_settings : t :=
  mk (str "067661AEE359CE85F95F6C3A3D994350979340011C0616D8296B0BF21E000000") default_key_files
    default_check_blocks default_net default_dns default_mining.

(** An empty origin stands for a chain of one's own. *)
Definition get_origin {E} {BP : Build} {U : Unicode} (s : t) : outcome E bytes :=
  if bool_decide (origin s = []) then Ok Bytes.zero32 else
  match from_hex (origin s) with Ok b => Ok b | Err _ => Panic | Panic => Panic | OutOfFuel => OutOfFuel end.
End Settings.

(** ** Key files (src/keystore.rs) *)
Module KeyFile.
Record KeyPack := mkPack { public : rstr; secret : rstr }.
Record Keys := mkKeys { encrypted : bool; signing : KeyPack; encryption : KeyPack }.
End KeyFile.

(** [toml::to_string] and [toml::from_str]. *)
Class Toml := {
  toml_of_keys : KeyFile.Keys → rstr;
  toml_keys : rstr → option KeyFile.Keys;
  toml_settings : rstr → option Settings.t;
}.

Section KeyFiles.
Context {CR : Crypto} {EC : Ecies} {BP : Build} {U : Unicode} {TM : Toml}.
Import KeyFile.

Definition get_keys (k : Keystore.t) : Keys :=
  mkKeys false (mkPack (to_hex (Keystore.get_public k)) (to_hex (Keystore.get_private k)))
    (mkPack (to_hex (CryptoBox.public (Keystore.crypto_box k))) (to_hex (CryptoBox.secret (Keystore.crypto_box k)))).

(** [unwrap] of the hexadecimal text and of its length. *)
Definition secret_key {E} (text : rstr) : outcome E bytes :=
  match from_hex text with
  | Ok b => if bool_decide (length b = 32%nat) then Ok b else Panic
  | OutOfFuel => OutOfFuel
  | _ => Panic
  end.

(** [from_file]: [file] is what [fs::read] gives, [None] for an error. *)
Definition from_file {E} (filename : rstr) (file : option bytes) : outcome E (option Keystore.t) :=
  match file with
  | None => Ok None
  | Some key =>
      match toml_keys (if from_utf8_ok key then key else []) with
      | None => Ok None
      | Some keys =>
          let! secret := secret_key (E := E) (KeyFile.secret (signing keys)) in
          let! crypto_box := CryptoBox.from_strings (E := E) (KeyFile.secret (encryption keys)) (public (encryption keys)) in
          let keystore := Keystore.mk secret [] filename crypto_box false in
          let! strong := Keystore.check_public_key_strength (E := E) (Keystore.get_public keystore) KEYSTORE_DIFFICULTY in
          Ok (if (strong : bool) then Some keystore else None)
      end
  end.

(** [save]: the file written, when it could be created, and the keystore with
    its new path; a failed write panics. *)
Definition save {E} (filename : rstr) (created written : bool) (k : Keystore.t)
    : outcome E (option bytes * Keystore.t) :=
  if negb created then Ok (None, k) else
  if negb written then Panic else
  Ok (Some (trim (toml_of_keys (get_keys k))),
      Keystore.mk (Keystore.keypair k) (Keystore.hash k) filename (Keystore.crypto_box k) (Keystore.old k)).

(** [Settings::load]: text that is no UTF-8 panics. *)
Definition load_settings {E} (file : option bytes) : outcome E (option Settings.t) :=
  match file with
  | None => Ok None
  | Some text => if from_utf8_ok text then Ok (toml_settings text) else Panic
  end.

(** [load_keys] of main.rs: the key files that can be read. *)
Fixpoint load_keys {E} (read : rstr → option bytes) (names : list rstr) : outcome E (list Keystore.t) :=
  match names with
  | [] => Ok []
  | name :: names =>
      let! k := from_file (E := E) name (read name) in
      let! rest := load_keys (E := E) read names in
      Ok (match k with Some k => k :: rest | None => rest end)
  end.
End KeyFiles.

(** ** The context (src/context.rs) *)
Module Context.
Record t := mk {
  app_version : rstr;
  settings : Settings.t;
  keystores : list Keystore.t;
  active_key : nat;
  chain : Chain.t;
  miner_state : Miner.MinerState;
}.
Definition with_keys (c : t) (keys : list Keystore.t) (active : nat) : t :=
  mk (app_version c) (settings c) keys active (chain c) (miner_state c).

Definition new (version : rstr) (settings : Settings.t) (keys : list Keystore.t) (chain : Chain.t) : t :=
  mk version settings keys 0 chain (Miner.mkState false false).

(** [get_keystore] and [get_keystore_mut]. *)
Definition get_keystore (c : t) : option Keystore.t := keystores c !! active_key c.
Definition get_keystores (c : t) : list Keystore.t := keystores c.
Definition has_keys (c : t) : bool := negb (bool_decide (keystores c = [])).
Definition set_keystores (c : t) (keys : list Keystore.t) : t := with_keys c keys 0.
Definition add_keystore (c : t) (k : Keystore.t) : t :=
  let keys := keystores c ++ [k] in with_keys c keys (length keys - 1).
Definition select_key_by_index (c : t) (index : nat) : bool * t :=
  if bool_decide (index < length (keystores c))%nat then (true, with_keys c (keystores c) index) else (false, c).
Definition select_key_by_public {CR : Crypto} (c : t) (public : bytes) : bool * t :=
  match list_find (λ k, Keystore.get_public k = public) (keystores c) with
  | Some (i, _) => (true, with_keys c (keystores c) i)
  | None => (false, c)
  end.
Definition get_active_key_index (c : t) : nat := active_key c.
Definition get_chain (c : t) : Chain.t := chain c.
End Context.

(** ** The event bus (src/commons/simplebus.rs)

    A listener is a closure with a state of type [F]; [call] is what it does
    with an event: its new state and whether it stays. The order of the map is
    not specified; no listener sees another. *)
Module Bus.
Section Bus.
Context {T F : Type} (call : F → Z → T → F * bool).

Definition t : Type := gmap Z F.
Definition new : t := ∅.
(** [uuid] is the new random id. *)
Definition register (uuid : Z) (closure : F) (b : t) : t := <[uuid := closure]> b.
Definition unregister (uuid : Z) (b : t) : t := delete uuid b.
Definition post (event : T) (b : t) : t :=
  map_imap (λ uuid f, let (f, stays) := call f uuid event in if stays then Some f else None) b.
End Bus.
End Bus.

(** ** Putting the parts together (src/dns_utils.rs, src/main.rs) *)
Section Start.
Context {CR : Crypto} {SD : Serde} {EC : Ecies} {BP : Build} {U : Unicode} {TM : Toml}.

(** The filter of a hosts file; [system] is the path of the system's file,
    [None] on Windows without a system root. *)
Definition hosts_filter {E} (read : rstr → option bytes) (system : option rstr) (host : rstr)
    : outcome E (option Hosts.t) :=
  match (if bool_decide (host = str "system") then system else Some host) with
  | Some filename => let! h := Hosts.new (E := E) (read filename) in Ok (Some h)
  | None => Ok None
  end.

Fixpoint hosts_filters {E} (read : rstr → option bytes) (system : option rstr) (hosts : list rstr)
    : outcome E (list Hosts.t) :=
  match hosts with
  | [] => Ok []
  | host :: hosts =>
      let! f := hosts_filter (E := E) read system host in
      let! rest := hosts_filters (E := E) read system hosts in
      Ok (match f with Some f => f :: rest | None => rest end)
  end.

(** [create_server_context]: the filters in the order they are asked, the one of
    the chain last. [initialized] is the result of [initialize]. *)
Definition create_server_context {E} (settings : Settings.t) (read : rstr → option bytes) (system : option rstr)
    (chain_filter : nat → rstr → QueryType.t → outcome Empty_set (option DnsPacket.t))
    (has_doh initialized : bool) (zones : Authority.t) : outcome E ServerContext :=
  let! hosts := hosts_filters (E := E) read system (Settings.hosts (Settings.dns settings)) in
  let forwarders := Settings.forwarders (Settings.dns settings) in
  if negb initialized then Panic else
  Ok {| authority := zones;
        filters := ((λ h (_ : nat) qname qtype, Ok (Hosts.lookup h qname qtype)) <$> hosts) ++ [chain_filter];
        has_doh_client := has_doh;
        resolve_strategy := if bool_decide (forwarders = []) then Recursive else Forward forwarders;
        allow_recursive := true |}.

(** [start_dns_server]: whether the listeners, both enabled in a new context,
    could be bound. *)
Definition start_dns_server {E} (settings : Settings.t) (read : rstr → option bytes) (system : option rstr)
    (chain_filter : nat → rstr → QueryType.t → outcome Empty_set (option DnsPacket.t))
    (has_doh initialized : bool) (zones : Authority.t) (udp_bound tcp_bound : bool) : outcome E bool :=
  let! _ := create_server_context (E := E) settings read system chain_filter has_doh initialized zones in
  let result := true in
  let result := if negb udp_bound then false else result in
  Ok (if negb tcp_bound then false else result).

(** [create_context], without printing the blocks. *)
Definition create_context {E} (version : rstr) (settings : Settings.t) (disk : option Store.t)
    (read : rstr → option bytes) : outcome E Context.t :=
  let! origin := Settings.get_origin (E := E) settings in
  let! chain := Chain.open (E := E) origin (load_zones ZONES_TXT) disk in
  let! keys := load_keys (E := E) read (Settings.key_files settings) in
  Ok (Context.new version settings keys chain).

(** The first part of [start_services]: the stored chain is checked. *)
Definition check_stored {E} (now : Z) (fuel : nat) (c : Context.t) : outcome E Context.t :=
  match Chain.check_chain now fuel (Settings.check_blocks (Context.settings c)) (Context.chain c) with
  | Ok (_, chain) => Ok (Context.mk (Context.app_version c) (Context.settings c) (Context.keystores c)
                           (Context.active_key c) chain (Context.miner_state c))
  | Err _ => Panic
  | Panic => Panic
  | OutOfFuel => OutOfFuel
  end.

(** [start_services] up to the threads of the miner and the network, which start
    after it; [dns_server] is what [start_dns_server] gives. *)
Definition start_services {E} (now : Z) (fuel : nat) (dns_server : outcome E bool) (c : Context.t)
    : outcome E (bool * Context.t) :=
  let! c := check_stored (E := E) now fuel c in
  let! dns_server_ok :=
    (if 0 <? Settings.dns_threads (Settings.dns (Context.settings c)) then dns_server else Ok true) in
  Ok (dns_server_ok, c).

(** [create_genesis_if_needed]: the job for the miner. *)
Definition create_genesis_if_needed {E} (c : Context.t) : outcome E (option (Block.t * Keystore.t)) :=
  let last_block := Chain.last_block (Context.get_chain c) in
  let origin := Settings.origin (Context.settings c) in
  if bool_decide (origin = []) && negb (is_some last_block) then
    match Context.get_keystore c with
    | Some keystore =>
        let transaction := transaction_origin get_zones_hash (Keystore.get_public keystore)
                             (Keystore.get_encryption_public keystore) in
        let block := block_new (Some transaction) (Keystore.get_public keystore) [] ORIGIN_DIFFICULTY in
        let! keystore := Keystore.clone (E := E) keystore in
        Ok (Some (block, keystore))
    | None => Ok None
    end
  else Ok None.
End Start.
