(* ===== verification/ContextProps.v ===== *)
(** * Theorems on key files

    What is saved is read back, and every key the node works with is strong. *)

From S2P Require Import Prelude Text Commons Hash Keystore Net Buffer Protocol Block BlockProps Store Chain Miner MinerExamples Context.
From S2P Require ChainExamples.
Open Scope Z_scope.

Section KeyFiles.
Context {CR : Crypto} {EC : Ecies} {BP : Build} {U : Unicode} {TM : Toml}.

(** A keystore as the code makes them: keys of 32 bytes, a box whose parts the
    library accepts, a strong public key. *)
Record key_ok (k : Keystore.t) : Prop := {
  ko_length : length (Keystore.keypair k) = 32%nat;
  ko_secret : ecies_secret_valid (CryptoBox.secret (Keystore.crypto_box k)) = true;
  ko_public : ecies_public_valid (CryptoBox.public (Keystore.crypto_box k)) = true;
  ko_strong : Keystore.check_public_key_strength (E := DbError) (Keystore.get_public k) KEYSTORE_DIFFICULTY = Ok true;
}.

Definition writable (b : bytes) : Prop := bytes_ok b ∧ b ≠ [] ∧ 2 * Z.of_nat (length b) < 2 ^ 64.

Lemma strength_any {E1 E2} key strength b :
  Keystore.check_public_key_strength (E := E1) key strength = Ok b →
  Keystore.check_public_key_strength (E := E2) key strength = Ok b.
Proof. unfold Keystore.check_public_key_strength, key_hash_difficulty. case_bool_decide; [done|]. simpl. congruence. Qed.

Lemma from_file_ok {E} filename file k :
  from_file (E := E) filename file = Ok (Some k) → key_ok k ∧ Keystore.path k = filename ∧ Keystore.old k = false.
Proof.
  unfold from_file. intros H. destruct file as [text|]; [|done]. destruct (toml_keys _) as [keys|]; [|done].
  apply obind_inv in H as (secret & Hs & H). apply obind_inv in H as (box & Hbox & H).
  apply obind_inv in H as (strong & Hk & H). destruct strong; [|done]. injection H as <-.
  split; [|done]. unfold secret_key in Hs. destruct (from_hex _) in Hs; try done. case_bool_decide; [|done].
  injection Hs as ->. unfold CryptoBox.from_strings in Hbox. destruct (from_hex _) as [s| | |] in Hbox; try done.
  destruct (ecies_secret_valid s) eqn:Hsv; [|done]. simpl in Hbox. destruct (from_hex _) as [p| | |] in Hbox; try done.
  destruct (ecies_public_valid p) eqn:Hpv; [|done]. injection Hbox as <-. split; try done. by eapply strength_any.
Qed.

(** Every key the node loads from its key files is usable: its secret has 32
    bytes, the encryption library takes both parts of its box, its public key
    has the strength that the chain asks of the owner of a block, and it carries
    the name of a configured file. *)
Theorem loaded_keys_usable {E} read names keys :
  load_keys (E := E) read names = Ok keys → Forall (λ k, key_ok k ∧ Keystore.path k ∈ names) keys.
Proof.
  revert keys. induction names as [|name names IH]; intros keys H; cbn [load_keys] in H; [by injection H as <-|].
  apply obind_inv in H as (k & Hk & H). apply obind_inv in H as (rest & Hrest & [= <-]). specialize (IH _ Hrest).
  assert (Forall (λ k, key_ok k ∧ Keystore.path k ∈ name :: names) rest).
  { eapply Forall_impl; [exact IH|]. intros x [Hx Hin]. split; [done|by right]. }
  destruct k as [k|]; [|done]. destruct (from_file_ok _ _ _ Hk) as (Hok & <- & _).
  constructor; [split; [done|by left]|done].
Qed.

(** What is saved is read back. *)
Lemma save_read_back {E} filename k :
  key_ok k → writable (Keystore.keypair k) → writable (CryptoBox.secret (Keystore.crypto_box k)) →
  writable (CryptoBox.public (Keystore.crypto_box k)) →
  (** What the TOML library writes is text that it reads back. *)
  (let text := trim (toml_of_keys (get_keys k)) in from_utf8_ok text = true ∧ toml_keys text = Some (get_keys k)) →
  ∃ file, save (E := E) filename true true k =
      Ok (Some file, Keystore.mk (Keystore.keypair k) (Keystore.hash k) filename (Keystore.crypto_box k) (Keystore.old k)) ∧
    from_file (E := E) filename (Some file) =
      Ok (Some (Keystore.mk (Keystore.keypair k) [] filename (Keystore.crypto_box k) false)).
Proof.
  intros [Hlen Hs Hp Hk] (K1 & K2 & K3) (S1 & S2 & S3) (P1 & P2 & P3) [Htext Hread]. eexists. split; [done|].
  unfold from_file. rewrite Htext, Hread. cbn [KeyFile.secret KeyFile.signing KeyFile.encryption KeyFile.public get_keys].
  unfold secret_key, CryptoBox.from_strings. rewrite !hex_roundtrip by done. unfold Keystore.get_private.
  rewrite (bool_decide_true _ Hlen), obind_Ok, Hs. cbn [negb]. rewrite Hp, obind_Ok.
  change (Keystore.get_public (Keystore.mk _ _ _ _ _)) with (Keystore.get_public k).
  rewrite (strength_any _ _ _ Hk), obind_Ok. by destruct (Keystore.crypto_box k).
Qed.

(** A keystore that is saved is the one that is read back: the file holds its
    keys, and loading it gives a keystore with the same key pair and box, under
    the name of the file. *)
Theorem key_file_roundtrip {E} filename k :
  key_ok k → writable (Keystore.keypair k) → writable (CryptoBox.secret (Keystore.crypto_box k)) →
  writable (CryptoBox.public (Keystore.crypto_box k)) →
  (** What the TOML library writes is text that it reads back. *)
  (let text := trim (toml_of_keys (get_keys k)) in from_utf8_ok text = true ∧ toml_keys text = Some (get_keys k)) →
  ∃ file, save (E := E) filename true true k =
      Ok (Some file, Keystore.mk (Keystore.keypair k) (Keystore.hash k) filename (Keystore.crypto_box k) (Keystore.old k)) ∧
    from_file (E := E) filename (Some file) =
      Ok (Some (Keystore.mk (Keystore.keypair k) [] filename (Keystore.crypto_box k) false)).
Proof. apply save_read_back. Qed.
End KeyFiles.

(** ** A key file *)
#[local] Existing Instances MinerExamples.toy_crypto ChainExamples.Toy.toy_ecies ascii_tables MinerExamples.release.
(** A file of four keys of 64 digits. *)
#[local] Instance toy_toml : Toml := {|
  toml_of_keys := λ k, KeyFile.public (KeyFile.signing k) ++ KeyFile.secret (KeyFile.signing k) ++
    KeyFile.public (KeyFile.encryption k) ++ KeyFile.secret (KeyFile.encryption k);
  toml_keys := λ s,
    let field n := take 64 (drop (64 * n) s) in
    if bool_decide (length s = 256%nat)
    then Some (KeyFile.mkKeys false (KeyFile.mkPack (field 0%nat) (field 1%nat)) (KeyFile.mkPack (field 2%nat) (field 3%nat)))
    else None;
  toml_settings := λ _, None;
|}.
Definition my_key : Keystore.t :=
  Keystore.mk (replicate 32 5) [] [] (CryptoBox.mk (replicate 32 6) (replicate 32 7)) false.
Definition my_file : bytes := Eval vm_compute in
  match save (E := DbError) [] true true my_key with Ok (Some file, _) => file | _ => [] end.

Lemma my_key_ok : key_ok my_key.
Proof. split; vm_compute; reflexivity. Qed.
Lemma my_key_writable x : is_u8 x → writable (replicate 32 x).
Proof. intros Hx. split; [by apply Forall_replicate|]. split; [done|]. by rewrite length_replicate. Qed.

Lemma key_file_roundtrip_witness :
  save (E := DbError) (str "key1.toml") true true my_key =
    Ok (Some my_file, Keystore.mk (replicate 32 5) [] (str "key1.toml") (Keystore.crypto_box my_key) false) ∧
  from_file (E := DbError) (str "key1.toml") (Some my_file) =
    Ok (Some (Keystore.mk (replicate 32 5) [] (str "key1.toml") (Keystore.crypto_box my_key) false)).
Proof.
  destruct (key_file_roundtrip (E := DbError) (str "key1.toml") my_key my_key_ok
    (my_key_writable 5 ltac:(done)) (my_key_writable 6 ltac:(done)) (my_key_writable 7 ltac:(done))) as (file & Hs & Hl).
  - vm_compute. split; reflexivity.
  - assert (file = my_file) as ->; [|split; [exact Hs|exact Hl]].
    assert (∀ a b k, @Ok DbError (option bytes * Keystore.t) (Some a, k) = Ok (Some b, k) → a = b) as Hinj by congruence.
    eapply Hinj. rewrite <- Hs. vm_compute. reflexivity.
Defined.

Definition no_toml_file (name : rstr) : option bytes :=
  if bool_decide (name = str "key1.toml") then Some my_file
  else if bool_decide (name = str "key2.toml") then Some [] else None.
Definition loaded : list Keystore.t := Eval vm_compute in
  match load_keys (E := DbError) no_toml_file Settings.default_key_files with Ok l => l | _ => [] end.

(** Of the five default files one is there, and one is not a key file. *)
Lemma loaded_keys_usable_witness :
  length loaded = 1%nat ∧ Forall (λ k, key_ok k ∧ Keystore.path k ∈ Settings.default_key_files) loaded.
Proof.
  split; [reflexivity|]. apply (loaded_keys_usable (E := DbError) no_toml_file). vm_compute. reflexivity.
Defined.
