(* ===== verification/Answers.v ===== *)
(** * Names of the ledger, as the DNS server answers them

    The parts put together: the server context that dns_utils.rs builds, the
    resolver that it chooses, the filters in their order, the chain behind the
    last of them, and the ledger that the chain represents. A name of the ledger
    is answered from the ledger, whatever the other servers would say. *)

From S2P Require Import Prelude Text Net Commons Buffer Protocol Hash Keystore Block Store Chain ChainFacts ChainProps Ledger.
From S2P Require Import Cache CacheProps Authority Hosts Filter FilterProps Resolve ResolveProps Server ServerProps Context.
From S2P Require ChainExamples.
Import Chain Ledger.
Open Scope Z_scope.

(** ** What the ledger says of a domain *)
Section Domains.
Context {CR : Crypto} {SD : Serde} {EC : Ecies} {U : Unicode} {BP : Build}.

(** The data of a domain at a time: those of the registration in force, when it
    is of this very name and the year has not passed. *)
Definition ledger_data (l : Ledger.t) (now : Z) (domain : rstr) : option rstr :=
  match registration l (hash_identity domain None) (Ledger.height l) with
  | Some r =>
      if check_identity (transaction_of_row r) domain && (now <=? Store.d_timestamp r + DOMAIN_LIFETIME)
      then Some (Store.d_data r) else None
  | None => None
  end.

Lemma ledger_domain_info {E} c l now domain : represents c l → domain ≠ [] →
  (∀ r, registration l (hash_identity domain None) (Ledger.height l) = Some r → clock (Store.d_timestamp r)) →
  get_domain_info (E := E) now c domain = Ok (ledger_data l now domain).
Proof.
  intros Hr Hd Hclock. unfold get_domain_info, get_domain_transaction_and_state, get_identity_transaction_and_state, ledger_data.
  rewrite bool_decide_false by done. pose proof (height_bound _ (represents_wf _ _ Hr)).
  rewrite (represents_registration _ _ _ _ Hr), (represents_height _ _ Hr) by done.
  destruct (registration _ _ _) as [r|] eqn:Hreg; [|done]. rewrite domain_state_spec by auto. rewrite !obind_Ok.
  destruct (check_identity _ _); [|done]. cbn [andb]. rewrite obind_Ok.
  destruct (decide _) as [Hle|Hgt]; [by rewrite (proj2 (Z.leb_le _ _) Hle)|].
  destruct (Z.leb_spec now (Store.d_timestamp r + DOMAIN_LIFETIME)); [lia|]. by destruct (decide _).
Qed.
End Domains.

(** ** Filters that let a question through *)
Section Answers.
(** The release profile: storing in the cache never panics. *)
#[local] Instance release_build : Build := false.
Context {HI : HashIter} {EV : Env} {U : Unicode} {CR : Crypto} {SD : Serde} {EC : Ecies}.

Definition host_filter (h : Hosts.t) : nat → rstr → QueryType.t → outcome Empty_set (option DnsPacket.t) :=
  λ _ qname qtype, Ok (Hosts.lookup h qname qtype).

Lemma ask_after_hosts hs f qname qtype c t packet :
  Forall (λ h, Hosts.lookup h qname qtype = None) hs → f (t + length hs)%nat qname qtype = Ok (Some packet) →
  ∃ w, ask_filters ((host_filter <$> hs) ++ [f]) qname qtype (mkWorld (SynchronizedCache.mk c false) t) =
    Ok (inr (Some packet), w).
Proof.
  intros Hhs. revert t. induction Hhs as [|h hs Hh _ IH]; intros t Hf.
  - simpl in *. rewrite Nat.add_0_r in Hf. unfold mbind_ at 1. cbn [tick obind ticks cache]. rewrite (mbind_run _ _ _ (Some packet) (mkWorld (SynchronizedCache.mk c false) (S t))).
    2: { unfold mlift. by rewrite Hf. }
    destruct (store_release (stamped (S t) (DnsPacket.answers packet)) c) as [c' Hs].
    eexists. rewrite (rbind_run _ _ _ _ _ (cache_store_run _ _ _ _ Hs)). reflexivity.
  - rewrite fmap_cons. cbn [app ask_filters]. unfold mbind_ at 1. cbn [tick obind ticks cache].
    rewrite (mbind_run _ _ _ None (mkWorld (SynchronizedCache.mk c false) (S t))).
    2: { unfold mlift, host_filter. by rewrite Hh. }
    apply IH. rewrite <- Hf. f_equal. simpl. lia.
Qed.

(** ** The chain behind the server *)
Context (runs : nat → bool) (send : nat → rstr → QueryType.t → SocketAddr → outcome unit DnsPacket.t).
Context (clock_of : nat → Z) (chains : nat → nat → Chain.t).

(** [BlockchainFilter] at tick [t]: what its client does, the clock it reads,
    and the chain each time it locks the context. *)
Definition chain_filter (t : nat) (qname : rstr) (qtype : QueryType.t) : outcome Empty_set (option DnsPacket.t) :=
  BlockchainFilter.lookup (runs t) (send t) (clock_of t) (chains t) qname qtype.

(** Whether the data in force name servers of the domain itself, which the
    filter asks instead of answering. *)
Definition is_delegated (domain : rstr) (info : option rstr) : bool :=
  match info ≫= json_domain_data with
  | Some data => negb (bool_decide (BlockchainFilter.glue domain (BlockchainFilter.ns_hosts (records data)) (records data) = []))
  | None => false
  end.

(** What the filter answers of its own carries the authority flag. *)
Lemma own_answer_authoritative {E} client_runs (client : rstr → QueryType.t → SocketAddr → outcome unit DnsPacket.t)
    qname domain zone sub qtype (chain : nat → Chain.t) info packet :
  filter_answer (E := E) client_runs client qname domain zone sub qtype chain info = Ok (Some packet) →
  is_delegated domain info = false → DnsHeader.authoritative_answer (DnsPacket.header packet) = true.
Proof.
  unfold filter_answer, is_delegated. destruct info as [json|]; cbn [mbind option_bind].
  - destruct (json_domain_data json) as [data|]; [|done]. cbv zeta. intros H Hd%negb_false_iff. rewrite Hd in H. injection H as <-.
    unfold expected. by destruct (bool_decide _ && negb _).
  - destruct (Chain.is_available_zone _ _); [|done]. by intros [= <-] _.
Qed.

(** Nothing is cached that could answer the question. *)
Definition uncached (qname : rstr) (qtype : QueryType.t) (c : Cache.t) : Prop :=
  ∀ q n, q ∈ [qtype; QueryType.CNAME] → Cache.get_cache_state qname q n c = NotCached.

Lemma filters_of settings read system has_doh zones ctx :
  create_server_context (E := BufferError) settings read system chain_filter has_doh true zones = Ok ctx →
  authority ctx = zones ∧ allow_recursive ctx = true ∧
  ∃ hs, hosts_filters (E := BufferError) read system (Settings.hosts (Settings.dns settings)) = Ok hs ∧
    filters ctx = (host_filter <$> hs) ++ [chain_filter].
Proof. unfold create_server_context. intros (hs & Hhs & H)%obind_inv. simpl in H. injection H as <-. eauto 6. Qed.

(** Every resolver returns what the chain's filter gives. *)
Lemma resolve_by_chain ctx hs fuel qname qtype c t packet :
  filters ctx = (host_filter <$> hs) ++ [chain_filter] → allow_recursive ctx = true →
  known_type qtype → Authority.query qname qtype (authority ctx) = None → uncached qname qtype c →
  Forall (λ h, Hosts.lookup h qname qtype = None) hs →
  (∀ t, chain_filter t qname qtype = Ok (Some packet)) →
  ∃ w, resolver ctx fuel qname qtype true (mkWorld (SynchronizedCache.mk c false) t) = Ok (inr packet, w).
Proof.
  intros Hf Hrec Hk Hau Hun Hhs Hp.
  assert (∀ perform, ∃ w, resolve ctx perform qname qtype true (mkWorld (SynchronizedCache.mk c false) t) = Ok (inr packet, w)) as H.
  2: { unfold resolver. destruct (resolve_strategy ctx); apply H. }
  intros perform. rewrite resolve_remote by done.
  rewrite (rbind_run _ _ _ _ _ (cache_lookup_missing qname qtype t c (λ n, Hun qtype n ltac:(by left)))).
  destruct (cached_alias_missing qname qtype (S (S (S t))) c (λ n, Hun QueryType.CNAME n ltac:(right; by left))) as (t1 & _ & Hal).
  rewrite (rbind_run _ _ _ _ _ Hal), Hf.
  destruct (ask_after_hosts hs chain_filter qname qtype c t1 packet Hhs (Hp _)) as [w Hw].
  rewrite (rbind_run _ _ _ _ _ Hw). by eexists.
Qed.

(** The reply to a request whose question has a packet without open aliases for
    an answer. *)
Lemma reply_of_packet resolve ctx request q qs packet w w1 :
  DnsHeader.recursion_desired (DnsPacket.header request) = true → allow_recursive ctx = true →
  DnsPacket.questions request = q :: qs →
  resolve (DnsQuestion.name q) (DnsQuestion.qtype q) true w = Ok (inr packet, w1) →
  DnsPacket.get_unresolved_cnames packet (DnsQuestion.qtype q) = [] →
  ∃ p, execute_query resolve ctx request w = Ok (p, w1) ∧
    DnsHeader.id (DnsPacket.header p) = DnsHeader.id (DnsPacket.header request) ∧
    DnsHeader.response (DnsPacket.header p) = true ∧
    DnsHeader.rescode (DnsPacket.header p) = DnsHeader.rescode (DnsPacket.header packet) ∧
    DnsHeader.authoritative_answer (DnsPacket.header p) = DnsHeader.authoritative_answer (DnsPacket.header packet) ∧
    DnsPacket.questions p = [q] ∧ collects DnsPacket.answers p [packet] ∧ collects DnsPacket.authorities p [packet].
Proof.
  intros Hrd Hrec Hqs Hr Hun. unfold execute_query. rewrite Hrd, Hrec, Hqs. cbn [andb negb].
  rewrite (mbind_run _ _ _ _ _ Hr), Hun. cbn [resolve_cnames].
  set (header := DnsHeader.set_rescode (if DnsHeader.authoritative_answer (DnsPacket.header packet) then
    DnsHeader.set_authoritative (reply_header ctx request) else reply_header ctx request) (DnsHeader.rescode (DnsPacket.header packet))).
  pose proof (merge_spec header [q] [packet]) as (Hh & Hq & Han & Hau & _).
  eexists. split; [reflexivity|]. rewrite Hh, Hq.
  repeat (split; [unfold header; by destruct (DnsHeader.authoritative_answer _)|]). done.
Qed.

End Answers.

(** ** A registered name, asked for *)
Module AnswersExamples.
Import ChainExamples.Toy.
#[local] Existing Instances CacheTests.in_order ascii_tables.
#[local] Instance release_build : Build := false.

Definition name_data : DomainData := {|
  encrypted := []; zone := str "ruv"; info := []; contacts := [];
  records := [DnsRecord.AAAA (str "@") (Ipv6 64000 0 0 0 0 0 0 1) 60; DnsRecord.AAAA (str "*") (Ipv6 64000 0 0 0 0 0 0 9) 60] |}.

(** The serializers of the toy chain, with these data for every domain. *)
#[local] Instance named_serde : Serde := {|
  json_of_transaction := json_of_transaction (Serde := toy_serde);
  json_transaction := json_transaction (Serde := toy_serde);
  json_domain_data := λ _, Some name_data;
  json_of_origin := json_of_origin (Serde := toy_serde);
  bincode_block := bincode_block (Serde := toy_serde);
  cbor_of_block := cbor_of_block (Serde := toy_serde);
  cbor_block := cbor_block (Serde := toy_serde);
|}.

Definition good (b : Block.t) : Block.t := set_hash_good b true.
Definition grow (c : Chain.t) (b : Block.t) : Chain.t :=
  match check_new_block now 1000 b c with
  | Ok (_, c) => match add_block (good b) c with Ok (_, c) => c | _ => c end
  | _ => c
  end.
Definition checks (c : Chain.t) (b : Block.t) : bool :=
  ChainExamples.typedb b &&
  match check_new_block now 1000 b c with
  | Ok ((q, b'), c1) => bool_decide (q = Good) && bool_decide (b' = good b) &&
      match add_block (good b) c1 with Ok _ => true | _ => false end
  | _ => false
  end.

Lemma grown c l b : represents c l → checks c b = true → represents (grow c b) (l ++ [good b]).
Proof.
  intros Hr. unfold checks, grow. intros [Hty Hc]%andb_true_iff. apply ChainExamples.typedb_both in Hty as [Hty Hnum].
  destruct (check_new_block now 1000 b c) as [[[q b'] c1]| | |] eqn:Hcheck; try done.
  rewrite !andb_true_iff, !bool_decide_eq_true in Hc. destruct Hc as [[-> ->] Ha].
  destruct (add_block (good b) c1) as [[[] c2]| | |] eqn:Hadd; try done. by eapply add_refines.
Qed.

Definition no_blocks : Chain.t := Chain.new (Block.hash genesis) (load_zones ZONES_TXT) None.
Definition signing3 : Block.t := mined 3 150000 3 3 (Block.hash second) None.
Definition blocks3 : list Block.t := [genesis; second; signing3].
Definition named_chain : Chain.t := Eval vm_compute in fold_left grow blocks3 no_blocks.

Lemma named_ledger : represents named_chain (good <$> blocks3).
Proof.
  assert (represents (grow (grow (grow no_blocks genesis) second) signing3) ((([] ++ [good genesis]) ++ [good second]) ++ [good signing3])) as H.
  { apply grown; [apply grown; [apply grown; [apply represents_new|]|]|]; vm_compute; reflexivity. }
  replace named_chain with (grow (grow (grow no_blocks genesis) second) signing3) by (vm_compute; reflexivity). exact H.
Qed.

(** A hosts file, and forwarders that would say something else. *)
Definition settings : Settings.t :=
  Settings.mk [] [] 8 Settings.default_net
    (Settings.mkDns (str "127.0.0.1:53") 20 [str "8.8.8.8:53"] [] [str "/etc/hosts"]) Settings.default_mining.
Definition files (name : rstr) : option bytes := Some (str "127.0.0.1 localhost").
#[local] Instance liars : Env := ResolveTests.stub (λ qname _, ResolveTests.a_answer 0 qname).
Definition nobody (_ : nat) : rstr → QueryType.t → SocketAddr → outcome unit DnsPacket.t := λ _ _ _, Err ().

Definition server : ServerContext :=
  match create_server_context (E := BufferError) settings files None
    (chain_filter (λ _, true) nobody (λ _, now) (λ _ _, named_chain)) false true Authority.new with
  | Ok ctx => ctx
  | _ => ResolveTests.context Recursive
  end.

(** A name of no zone of the chain passes the hosts file and the chain's filter
    of the same server, and its forwarder is asked once. *)
Definition other : rstr := str "www.example.com".
Definition other_record : DnsRecord.t := DnsRecord.A other (Ipv4 127 0 0 1) 3600.

Lemma server_passes : not_filtered server other QueryType.A.
Proof.
  unfold not_filtered. replace (filters server) with
    ((host_filter <$> [Hosts.load (str "127.0.0.1 localhost")]) ++ [chain_filter (λ _, true) nobody (λ _, now) (λ _ _, named_chain)])
    by reflexivity.
  repeat (constructor; [intros t; vm_compute; reflexivity|]). constructor.
Defined.

End AnswersExamples.
