(* ===== verification/Domains.v ===== *)
(** * Creating a domain (src/web_ui.rs)

    What the user interface does with the command to mine a domain: its checks,
    each with its own refusal, and the job it gives to the miner; and the checks
    of names and records that the page asks for. A refusal is a value here; what
    the page shows of it is in [Ui]. *)

From S2P Require Import Prelude Text Commons Hash Keystore Net Buffer Protocol Block Store Chain Miner Context.
Open Scope Z_scope.

(** [serde_json::to_string] of domain data, of the list of keys (file name and
    public key) and of the zones, and [serde_json::from_str] of a record. *)
Class JsonData := {
  json_of_domain_data : DomainData → rstr;
  json_of_keys : list (rstr * rstr) → rstr;
  json_of_zones : list ZoneData → option rstr;
  json_record : rstr → option DnsRecord.t;
}.

(** [to_string] of an [i64]. *)
Definition dec_signed (z : Z) : rstr := if z <? 0 then str "-" ++ dec (- z) else dec z.

(** The warnings shown, and the job for the miner. *)
Inductive creation :=
  | NoKeys
  | WaitingForSigners
  | WrongDomainData
  | TooManyRecords
  | RuvchainOnly (zone : rstr)
  | NotMinable (why : MineResult)
  | Started (block : Block.t) (keystore : Keystore.t).

Section Domains.
Context {CR : Crypto} {SD : Serde} {JD : JsonData} {EC : Ecies} {U : Unicode} {BP : Build}.

(** [from_hex(..).unwrap()] *)
Definition hex_bytes {E} (text : rstr) : outcome E bytes :=
  match from_hex text with Ok b => Ok b | OutOfFuel => OutOfFuel | _ => Panic end.

Definition with_encrypted (data : DomainData) (e : bytes) : DomainData :=
  {| encrypted := e; zone := zone data; info := info data; records := records data; contacts := contacts data |}.

(** The owner of the domain: the given keys, or those of the keystore when one
    of them is missing. *)
Definition owner_keys (keystore : Keystore.t) (signing encryption : bytes) : bytes * bytes :=
  if bool_decide (signing = []) || bool_decide (encryption = [])
  then (Keystore.get_public keystore, Keystore.get_encryption_public keystore)
  else (signing, encryption).

(** [create_domain]; [rnd] is the randomness of the encryption. *)
Definition create_domain {E} (now : Z) (rnd : bytes) (c : Chain.t) (class name : rstr) (data : DomainData)
    (difficulty : Z) (keystore : Keystore.t) (signing encryption : bytes) (renewal : bool)
    : outcome E (Block.t * Keystore.t) :=
  let! encrypted := CryptoBox.encrypt (E := E) rnd encryption name in
  match encrypted with
  | None => Panic
  | Some encrypted =>
      let data := json_of_domain_data (with_encrypted data encrypted) in
      let (signing, encryption) := owner_keys keystore signing encryption in
      let transaction := transaction_from_str name class data signing encryption in
      let height := Chain.get_height c in
      let! discount := Chain.get_identity_discount (E := E) c (Transaction.identity transaction) renewal height now in
      let! difficulty := sub_w (E := E) 32 difficulty discount in
      let block := block_new (Some transaction) (Keystore.get_public keystore) [] difficulty in
      let! keystore := Keystore.clone (E := E) keystore in
      Ok (block, keystore)
  end.

(** The zone of the data is for ruvchain addresses only and a record is not one. *)
Definition zone_violated (c : Chain.t) (data : DomainData) : bool :=
  existsb (λ z, bool_decide (z_name z = zone data) && ruvchain z &&
                existsb (λ record, negb (is_ruvchain_record record)) (records data)) (Chain.zones c).

(** [action_create_domain] *)
Definition action_create_domain {E} (now : Z) (rnd : bytes) (ctx : Context.t) (name data signing encryption : rstr)
    (renewal : bool) : outcome E creation :=
  if negb (Context.has_keys ctx) then Ok NoKeys else
  let chain := Context.chain ctx in
  let! waiting := Chain.is_waiting_signers (E := E) chain in
  if (waiting : bool) then Ok WaitingForSigners else
  match Context.get_keystore ctx with
  | None => Panic
  | Some keystore =>
      let! keystore := Keystore.clone (E := E) keystore in
      let pub_key := Keystore.get_public keystore in
      match json_domain_data data with
      | None => Ok WrongDomainData
      | Some data =>
          if bool_decide (MAX_RECORDS < length (records data))%nat then Ok TooManyRecords else
          if zone_violated chain data then Ok (RuvchainOnly (zone data)) else
          let! (signing, encryption) :=
            (if bool_decide (signing = []) || bool_decide (encryption = [])
             then Ok (Keystore.get_public keystore, Keystore.get_encryption_public keystore)
             else let! signing := hex_bytes (E := E) signing in
                  let! encryption := hex_bytes (E := E) encryption in
                  Ok (signing, encryption)) in
          let! mine := Chain.can_mine_domain (E := E) now chain (Chain.get_height chain) name pub_key in
          match mine with
          | Fine =>
              let! (block, keystore) := create_domain (E := E) now rnd chain CLASS_DOMAIN name data DOMAIN_DIFFICULTY
                                          keystore signing encryption renewal in
              Ok (Started block keystore)
          | why => Ok (NotMinable why)
          end
      end
  end.

(** [action_check_domain]: what the page is told, nothing without a key. *)
Definition action_check_domain {E} (now : Z) (ctx : Context.t) (name : rstr) : outcome E (option bool) :=
  match Context.get_keystore ctx with
  | None => Ok None
  | Some keystore =>
      let chain := Context.chain ctx in
      let! mine := Chain.can_mine_domain (E := E) now chain (Chain.get_height chain) (to_lowercase name)
                     (Keystore.get_public keystore) in
      Ok (Some (bool_decide (mine = Fine)))
  end.

(** [action_check_record]: no answer for a record without text. *)
Definition action_check_record (data : rstr) : option bool :=
  match json_record data with
  | Some record =>
      (λ string, bool_decide (length string <= MAX_DATA_LEN)%nat) <$> DnsRecord.get_data record
  | None => Some false
  end.

(** [format_cooldown] *)
Definition format_cooldown (time : Z) : rstr :=
  if time <=? 60 then dec_signed time ++ str " seconds" else
  let minutes := Z.quot time 60 in
  if minutes <=? 60 then dec_signed minutes ++ str " minutes" else dec_signed (Z.quot minutes 60) ++ str " hours".
End Domains.
