(* ===== verification/DomainsProps.v ===== *)
(** * A domain from the command to the chain

    The checks of the user interface, of the miner and of the chain are three
    different pieces of code: what the first lets through and the second mines,
    the third accepts. *)

From stdpp Require Import fin_maps.
From S2P Require Import Prelude Text Commons Hash Keystore Net Buffer Protocol Block Store Chain.
From S2P Require Import ChainFacts ChainProps Miner MinerProps Context Domains.
Import Store.
Open Scope Z_scope.

(** ** Queries that ask for one block more *)

Lemma last_row_ext {R} (cond cond' : R → bool) (m : gmap Z R) :
  (∀ i r, m !! i = Some r → cond r = cond' r) → last_row cond m = last_row cond' m.
Proof.
  intros Hc. unfold last_row, last_where. f_equal. rewrite !map_fold_foldr.
  assert (∀ x, x ∈ map_to_list m → cond x.2 = cond' x.2) as Hl.
  { intros [i r] Hin. apply elem_of_map_to_list in Hin. by apply (Hc i). }
  induction (map_to_list m) as [|[i r] l IH]; [done|]. simpl. rewrite IH by (intros x Hx; apply Hl; by right).
  specialize (Hl (i, r) ltac:(by left)). simpl in Hl. by rewrite Hl.
Qed.

Section Created.
Context {CR : Crypto} {SD : Serde} {JD : JsonData} {EC : Ecies} {U : Unicode} {BP : Build}.

(** A chain whose last block is no registration: its top is a signing block. *)
Record quiet (c : Chain.t) (last : Block.t) : Prop := {
  q_wf : wf c;
  q_last : Chain.last_block c = Some last;
  q_signing : Block.transaction last = None;
  q_domains : domains (Chain.db c) !! Block.index last = None;
  q_full : ∀ f, Chain.last_full_block c = Some f → Block.index f < Block.index last;
  q_room : Block.index last + 1 < MAX;
}.

Section Quiet.
Context (c : Chain.t) (last : Block.t) (Hq : quiet c last).

Lemma quiet_height : Chain.get_height c = Block.index last.
Proof. unfold Chain.get_height. by rewrite (q_last _ _ Hq). Qed.

Lemma quiet_index : 1 <= Block.index last < MAX.
Proof. apply (proj2 (q_wf _ _ Hq)), Hq. Qed.

Lemma quiet_domain id :
  sql_get_domain id (as_i64 (Block.index last + 1)) (Chain.db c) = sql_get_domain id (as_i64 (Block.index last)) (Chain.db c).
Proof.
  pose proof quiet_index as Hi. pose proof (q_room _ _ Hq) as Hr. rewrite !as_i64_id by (unfold MAX in *; lia).
  apply last_row_ext. intros i r Hrow. rewrite (wf_dkey _ _ (proj1 (q_wf _ _ Hq)) i r Hrow).
  destruct (decide (i = Block.index last)) as [->|Hne]; [by rewrite (q_domains _ _ Hq) in Hrow|].
  f_equal. destruct (Z.ltb_spec i (Block.index last + 1)), (Z.ltb_spec i (Block.index last)); (done || lia).
Qed.

Lemma quiet_full_block key :
  Chain.get_last_full_block c (Block.index last + 1) (Some key) = Chain.get_last_full_block c (Block.index last) (Some key).
Proof.
  pose proof quiet_index as Hi. pose proof (q_room _ _ Hq) as Hr. unfold Chain.get_last_full_block.
  assert (sql_get_last_full_block_for_key (as_i64 (Block.index last + 1)) key (Chain.db c) =
          sql_get_last_full_block_for_key (as_i64 (Block.index last)) key (Chain.db c)) as Hdb.
  { rewrite !as_i64_id by (unfold MAX in *; lia). apply last_row_ext. intros i r Hrow.
    rewrite (wf_key _ _ (proj1 (q_wf _ _ Hq)) i r Hrow).
    destruct (decide (i = Block.index last)) as [->|Hne].
    - destruct (proj2 (q_wf _ _ Hq) last (q_last _ _ Hq)) as [_ Htop]. rewrite Htop in Hrow. injection Hrow as <-.
      unfold full, Chain.row_of_block. simpl. rewrite (q_signing _ _ Hq). by rewrite !andb_false_r.
    - do 2 f_equal. destruct (Z.ltb_spec i (Block.index last + 1)), (Z.ltb_spec i (Block.index last)); (done || lia). }
  rewrite Hdb. destruct (Chain.last_full_block c) as [f|] eqn:Hf; [|done].
  pose proof (q_full _ _ Hq f Hf). by rewrite !(proj2 (Z.ltb_lt _ _)) by lia.
Qed.
End Quiet.

(** ** Times *)

(** The times stored in the chain are readings of a clock. *)
Record clocked (c : Chain.t) (id : bytes) (t0 ts : Z) : Prop := {
  ck_full : ∀ before key f, Chain.get_last_full_block c before key = Some f → clock (Block.timestamp f);
  (** The registration of the name is not in the future, and does not turn a
      year old while the new one is mined. *)
  ck_domain : ∀ before r, sql_get_domain id before (Chain.db c) = Some r → clock (d_timestamp r) ∧
    d_timestamp r <= t0 ∧ (d_timestamp r < t0 - DOMAIN_LIFETIME ∨ ts - DOMAIN_LIFETIME <= d_timestamp r);
}.

Lemma clock_sub {E} x d : clock x → 0 <= d <= 2 ^ 61 → sub_s (E := E) 64 x d = Ok (x - d).
Proof. intros Hx Hd. unfold clock in Hx. apply sarith_fits. change (64 - 1) with 63. lia. Qed.

(** The day between two new domains has passed at every later time. *)
Lemma mine_identity_later {E} c last id key t0 ts :
  quiet c last → clocked c id t0 ts → clock t0 → clock ts → t0 <= ts →
  Chain.can_mine_identity (E := E) c id (Block.index last) t0 key = Ok Fine →
  Chain.can_mine_identity (E := E) c id (Block.index last + 1) ts key = Ok Fine.
Proof.
  intros Hq Hck H0 Hs Hle. unfold Chain.can_mine_identity, Chain.is_domain_in_blockchain.
  rewrite (quiet_full_block c last Hq), (quiet_domain c last Hq).
  destruct (Chain.get_last_full_block _ _ _) as [f|] eqn:Hf; [|done].
  pose proof (ck_full _ _ _ _ Hck _ _ _ Hf) as Hc. rewrite clock_add by (done || (unfold NEW_DOMAINS_INTERVAL; lia)).
  rewrite !obind_Ok. unfold sub_s.
  rewrite !sarith_fits by (unfold clock, NEW_DOMAINS_INTERVAL in *; change (64 - 1) with 63; lia).
  rewrite !obind_Ok. destruct (negb _); simpl; [|done].
  destruct (Z.ltb_spec 0 (Block.timestamp f + NEW_DOMAINS_INTERVAL - t0)); [done|]. intros _.
  destruct (Z.ltb_spec 0 (Block.timestamp f + NEW_DOMAINS_INTERVAL - ts)); [lia|done].
Qed.

(** A name that could be mined is available at every later time. *)
Lemma available_later {E} c last name key t0 ts now mine :
  quiet c last → clocked c (hash_identity name None) t0 ts → t0 <= now → name ≠ [] →
  (∀ r, sql_get_domain (hash_identity name None) (as_i64 (Block.index last)) (Chain.db c) = Some r →
     check_identity (Chain.transaction_of_row r) name = true) →
  Chain.get_domain_transaction_and_state (E := E) t0 c name = Ok mine →
  (match mine with
   | (Some transaction, (Alive _ _ | Expired _ _)) => negb (same_hash (Transaction.signing transaction) key)
   | _ => false
   end) = false →
  Chain.is_id_available (E := E) c (Block.index last) now (hash_identity name None) key = Ok true.
Proof.
  intros Hq Hck Hle Hne Hconf Hget Hown. unfold Chain.get_domain_transaction_and_state in Hget.
  rewrite bool_decide_false in Hget by done. rewrite (quiet_height c last Hq) in Hget.
  unfold Chain.is_id_available, Chain.get_identity_transaction_and_state in *.
  destruct (sql_get_domain _ _ _) as [r|] eqn:Hr; [|done].
  destruct (ck_domain _ _ _ _ Hck _ _ Hr) as (Hc & _ & _). rewrite (domain_state_spec _ _ Hc) in Hget. rewrite (domain_state_spec _ _ Hc).
  rewrite !obind_Ok in *. simpl in Hget |- *. rewrite (Hconf r eq_refl) in Hget. injection Hget as <-.
  change (Transaction.signing (Chain.transaction_of_row r)) with (d_signing r) in *.
  destruct (same_hash (d_signing r) key) eqn:Hs; [done|].
  unfold DOMAIN_LIFETIME, DOMAIN_RENEW_TIME in *. idtac.
  repeat case_decide; simpl in Hown; try rewrite Hs in Hown; try done; lia.
Qed.

(** The discount does not shrink while the block is mined. *)
Lemma discount_later {E} c last id renewal t0 ts d :
  quiet c last → clocked c id t0 ts → clock t0 → clock ts → t0 <= ts →
  Chain.get_identity_discount (E := E) c id renewal (Block.index last) t0 = Ok d →
  ∃ d', Chain.get_identity_discount (E := E) c id false (Block.index last + 1) ts = Ok d' ∧ 0 <= d <= d' ∧ d' <= 8.
Proof.
  intros Hq Hck H0 Hs Hle. unfold Chain.get_identity_discount, Chain.get_domain_update_time.
  rewrite (quiet_domain c last Hq), (quiet_height c last Hq).
  destruct (sql_get_domain _ _ _) as [r|] eqn:Hr; [|intros [= <-]; exists 0; split; [done|lia]].
  destruct (ck_domain _ _ _ _ Hck _ _ Hr) as (Hc & Hpast & Hyear). unfold Chain.too_old.
  rewrite !clock_sub by (done || (unfold DOMAIN_LIFETIME; lia)). rewrite !obind_Ok.
  unfold DOMAIN_LIFETIME in *.
  destruct (Z.ltb_spec (d_timestamp r) (t0 - 31536000)) as [H1|H1], (Z.ltb_spec (d_timestamp r) (ts - 31536000)) as [H2|H2];
    try lia; [intros [= <-]; exists 0; split; [done|lia]|].
  simpl. unfold clock in *. unfold sub_s. rewrite !sarith_fits by (change (64 - 1) with 63; lia).
  assert (∀ t, t0 <= t → 0 <= Z.quot (t - d_timestamp r) ONE_WEEK) as Hpos.
  { intros t Ht. apply Z.quot_pos; unfold ONE_WEEK; lia. }
  assert (∀ t, t0 <= t → wrap 32 (Z.min (Z.quot (t - d_timestamp r) ONE_WEEK) 7 + 1) = Z.min (Z.quot (t - d_timestamp r) ONE_WEEK) 7 + 1) as Hw.
  { intros t Ht. specialize (Hpos t Ht). unfold wrap. apply Z.mod_small. lia. }
  pose proof (Hpos t0 ltac:(lia)) as P0. pose proof (Hpos ts Hle) as P1.
  assert (Z.quot (t0 - d_timestamp r) ONE_WEEK <= Z.quot (ts - d_timestamp r) ONE_WEEK) as Hmono
    by (apply Z.quot_le_mono; unfold ONE_WEEK; lia).
  destruct (Block.index last <? BLOCKS_WITHOUT_DISCOUNT); simpl.
  - rewrite orb_true_r. intros [= <-]. exists 1. split; [done|lia].
  - rewrite orb_false_r. destruct renewal; simpl.
    + intros [= <-]. eexists. split; [done|]. rewrite Hw by done. lia.
    + rewrite !Hw by lia. intros [= <-]. eexists. split; [done|]. lia.
Qed.

(** ** Records *)

Lemma records_ok c data e :
  zone_violated c data = false →
  (∀ r text, r ∈ records data → DnsRecord.get_data r = Some text → (length text <= MAX_DATA_LEN)%nat) →
  Chain.bad_zone_records c (with_encrypted data e) = false.
Proof.
  intros Hz Hlen. unfold Chain.bad_zone_records. apply not_true_iff_false. rewrite existsb_exists.
  intros (z & Hin & Hbad). apply andb_true_iff in Hbad as [Hzone Hbad]. simpl in Hzone, Hbad.
  assert (∀ r, r ∈ records data → is_ruvchain_record r = true) as Hall.
  { intros r Hr. apply not_false_iff_true. intros Hno. apply not_true_iff_false in Hz. apply Hz.
    unfold zone_violated. rewrite existsb_exists. exists z. split; [done|]. rewrite Hzone. simpl.
    rewrite existsb_exists. exists r. rewrite <- list_elem_of_In. by rewrite Hno. }
  clear Hz Hin Hzone. revert Hlen Hall Hbad. induction (records data) as [|r rs IH]; intros Hlen Hall; simpl; [done|].
  rewrite Hall by by left. simpl. specialize (IH ltac:(eauto using list_elem_of_further) ltac:(eauto using list_elem_of_further)).
  destruct (DnsRecord.get_data r) as [text|] eqn:Ht; [|done].
  specialize (Hlen r text ltac:(by left) Ht). by rewrite bool_decide_false by lia.
Qed.

(** ** The block *)

Lemma clone_public {E} k k' : Keystore.clone (E := E) k = Ok k' → Keystore.get_public k' = Keystore.get_public k.
Proof. intros H. by apply obind_inv in H as (box & _ & [= <-]). Qed.

(** What a job given to the miner says of its checks. *)
Lemma started_inv {E} t0 rnd ctx name data signing encryption renewal job k :
  action_create_domain (E := E) t0 rnd ctx name data signing encryption renewal = Ok (Started job k) →
  let c := Context.chain ctx in
  ∃ dd e owner box d,
    json_domain_data data = Some dd ∧ (length (records dd) <= MAX_RECORDS)%nat ∧ zone_violated c dd = false ∧
    Chain.can_mine_domain (E := E) t0 c (Chain.get_height c) name (Keystore.get_public k) = Ok Fine ∧
    Chain.get_identity_discount (E := E) c (hash_identity name None) renewal (Chain.get_height c) t0 = Ok d ∧
    sub_w (E := E) 32 DOMAIN_DIFFICULTY d = Ok (Block.difficulty job) ∧
    Block.transaction job = Some (transaction_from_str name CLASS_DOMAIN (json_of_domain_data (with_encrypted dd e)) owner box) ∧
    (owner ≠ [] ∨ owner = Keystore.get_public k).
Proof.
  unfold action_create_domain. intros H. cbv zeta in H. set (c := Context.chain ctx) in *. destruct (negb _); [done|].
  apply obind_inv in H as (waiting & _ & H). destruct waiting; [done|]. destruct (Context.get_keystore _) as [k0|]; [|done].
  apply obind_inv in H as (k1 & _ & H). destruct (json_domain_data data) as [dd|]; [|done].
  case_bool_decide; [done|]. destruct (zone_violated c dd) eqn:Hz; [done|].
  apply obind_inv in H as ([s e] & _ & H). apply obind_inv in H as (mine & Hmine & H).
  destruct mine; try done. apply obind_inv in H as ([b k2] & Hb & [= -> ->]).
  unfold create_domain in Hb. apply obind_inv in Hb as ([en|] & _ & Hb); [|done].
  assert (∀ owner box, owner_keys k1 s e = (owner, box) → owner ≠ [] ∨ owner = Keystore.get_public k1) as Hown.
  { unfold owner_keys. intros owner box. destruct (_ || _) eqn:He; intros [= <- <-]; [by right|left].
    apply orb_false_iff in He as [He%bool_decide_eq_false _]. done. }
  destruct (owner_keys _ _ _) as [owner box]. specialize (Hown owner box eq_refl).
  apply obind_inv in Hb as (d & Hd & Hb). apply obind_inv in Hb as (diff & Hdiff & Hb). cbv zeta in Hb.
  apply obind_inv in Hb as (k3 & Hclone & [= <- <-]). apply clone_public in Hclone. rewrite <- Hclone in Hmine, Hown.
  exists dd, en, owner, box, d. simpl in *. split; [done|]. split; [lia|]. done.
Qed.

(** The block as the miner submits it: [f] was found, signed by [k]. *)
Definition sealed (k : Keystore.t) (f : Block.t) : Block.t :=
  set_signature f (Keystore.sign k (as_bytes_compact f)).

(** Found for the job, on top of [last], at the time [ts]. *)
Record found_for (k : Keystore.t) (job last : Block.t) (ts : Z) (f : Block.t) : Prop := {
  ff_ok : found_ok k f;
  ff_transaction : Block.transaction f = Block.transaction job;
  ff_difficulty : Block.difficulty f = Block.difficulty job;
  ff_index : Block.index f = Block.index last + 1;
  ff_prev : Block.prev_block_hash f = Block.hash last;
  ff_timestamp : Block.timestamp f = ts;
  ff_listed : Block.hash f ∉ WRONG_HASHES;
}.

Lemma position_next fuel b last full c :
  is_some (Block.transaction b) = true → 1 <= Block.index last → Block.index b = Block.index last + 1 →
  Block.index b < MAX → Block.prev_block_hash b = Block.hash last → Block.timestamp last <= Block.timestamp b →
  Chain.check_position fuel b (Some last) full c = Ok (Good, c).
Proof.
  intros Hfull Hl Hi Hmax Hp Hts. unfold Chain.check_position. rewrite run_get, (proj2 (Z.ltb_ge _ _) Hts). simpl.
  assert (add_w (E := DbError) 64 (Block.index last) 1 = Ok (Block.index b)) as Hnext.
  { unfold add_w. rewrite arith_fits by (unfold is_u, MAX in *; lia). by rewrite Hi. }
  rewrite (run_lift _ _ _ _ Hnext), Z.ltb_irrefl, (mbind_run _ _ _ true c).
  - simpl. destruct (Z.leb_spec (Block.index b) (Block.index last)); [lia|].
    rewrite same_hash_eq, bool_decide_true by done. done.
  - unfold Chain.is_good_sign_block. rewrite Hfull. by destruct (_ <? _).
Qed.

(** The checks are all there is: a block with a transaction that satisfies them
    and follows the last block is good, and the chain is left as it is. *)
Lemma check_next_good now fuel b c last :
  wf c → Chain.last_block c = Some last → checked now c (set_hash_good b true) →
  check_block_hash b = (true, set_hash_good b true) → is_some (Block.transaction b) = true →
  Block.index b = Block.index last + 1 → Block.index b < MAX → Block.prev_block_hash b = Block.hash last →
  Block.timestamp last <= Block.timestamp b →
  Chain.check_new_block now fuel b c = Ok ((Good, set_hash_good b true), c).
Proof.
  intros Hwf Hlast Hch Hhash Hfull Hi Hmax Hp Hts. destruct (proj2 Hwf last Hlast) as [Hil _].
  unfold Chain.check_new_block. rewrite Hlast. apply hash_check_good in Hhash as [_ Hok]. apply check_block_run; [done..| |].
  - intros l [= <-]. unfold is_u, MAX in *. lia.
  - apply position_next; done || lia.
Qed.
Lemma minable_inv {E} t0 c h name key :
  Chain.can_mine_domain (E := E) t0 c h name key = Ok Fine → to_lowercase name = name →
  ∃ mine, Chain.get_domain_transaction_and_state (E := E) t0 c name = Ok mine ∧
    (match mine with
     | (Some transaction, (Alive _ _ | Expired _ _)) => negb (same_hash (Transaction.signing transaction) key)
     | _ => false
     end) = false ∧
    Chain.can_mine_identity (E := E) c (hash_identity name None) h t0 key = Ok Fine.
Proof.
  unfold Chain.can_mine_domain. intros H Hlow. rewrite Hlow in H. destruct (check_domain name true) eqn:Hname; [|done].
  simpl in H. destruct (negb _); [done|]. apply obind_inv in H as ([tx st] & Hget & H).
  exists (tx, st). split; [done|].
  destruct (match tx with Some _ => _ | None => _ end) eqn:Hown in H; [done|]. split; [|done].
  by destruct tx as [tx|], st.
Qed.

(** What a creation at [t0] and its mining at [ts] rest on. *)
Record creatable (c : Chain.t) (last : Block.t) (name : rstr) (k : Keystore.t) (t0 ts now : Z) : Prop := {
  cr_quiet : quiet c last;
  cr_clocked : clocked c (hash_identity name None) t0 ts;
  cr_start : clock t0;
  cr_mined : clock ts;
  cr_now : clock now;
  cr_order : Block.timestamp last <= ts ∧ t0 <= ts ∧ t0 <= now ∧ ts <= now + 60;
  cr_strong : Keystore.check_public_key_strength (E := DbError) (Keystore.get_public k) KEYSTORE_DIFFICULTY = Ok true;
  cr_name : name ≠ [] ∧ to_lowercase name = name;
  (** A registration of the name confirms it. *)
  cr_confirmed : ∀ r, sql_get_domain (hash_identity name None) (as_i64 (Block.index last)) (Chain.db c) = Some r →
    check_identity (Chain.transaction_of_row r) name = true;
}.

Lemma prev_of_next {E} (c : Chain.t) (last b : Block.t) :
  quiet c last → Block.index b = Block.index last + 1 →
  sub_w (E := E) 64 (Block.index b) 1 = Ok (Block.index last).
Proof.
  intros Hq ->. pose proof (quiet_index c last Hq). unfold sub_w.
  rewrite arith_fits by (unfold is_u, MAX in *; lia). f_equal. lia.
Qed.

(** The transaction of the job is not bad in a block on top of [last]. *)
Lemma job_not_bad c last name k t0 ts now b dd e owner box :
  creatable c last name k t0 ts now →
  json_domain_data (json_of_domain_data (with_encrypted dd e)) = Some (with_encrypted dd e) →
  (∀ r text, r ∈ records dd → DnsRecord.get_data r = Some text → (length text <= MAX_DATA_LEN)%nat) →
  (length (records dd) <= MAX_RECORDS)%nat → zone_violated c dd = false →
  Chain.can_mine_domain (E := DbError) t0 c (Chain.get_height c) name (Keystore.get_public k) = Ok Fine →
  Block.transaction b = Some (transaction_from_str name CLASS_DOMAIN (json_of_domain_data (with_encrypted dd e)) owner box) →
  Block.pub_key b = Keystore.get_public k → Block.index b = Block.index last + 1 → Block.timestamp b = ts →
  Chain.bad_transaction (E := DbError) now c b = Ok false.
Proof.
  intros [Hq Hck H0 Hs Hn (Hlast & Hle & Hle' & Hle'') Hstrong [Hne Hlow] Hconf] Hjson Hlen Hmax Hz Hmine Htx Hkey Hi Hts.
  rewrite (quiet_height c last Hq) in Hmine. destruct (minable_inv _ _ _ _ _ Hmine Hlow) as (mine & Hget & Hown & Hid).
  unfold Chain.bad_transaction. rewrite Htx, Hkey, Hstrong, obind_Ok. cbn [negb].
  rewrite (prev_of_next c last b Hq Hi), obind_Ok. cbn [Transaction.identity transaction_from_str].
  rewrite (available_later c last name _ t0 ts now mine Hq Hck Hle' Hne Hconf Hget Hown), obind_Ok. cbn [negb].
  rewrite Hi, Hts, (mine_identity_later c last _ _ t0 ts Hq Hck H0 Hs Hle Hid), obind_Ok.
  rewrite bool_decide_true by done. cbn [negb]. f_equal. unfold Chain.bad_domain_data, get_domain_data.
  cbn [Transaction.class Transaction.data transaction_from_str]. rewrite bool_decide_true, Hjson by done. cbn [records with_encrypted].
  rewrite bool_decide_false by lia. by apply records_ok.
Qed.

(** The difficulty of the job suffices. *)
Lemma job_hard_enough c last name k t0 ts now b dd e owner box renewal d diff :
  creatable c last name k t0 ts now →
  json_domain_data (json_of_domain_data (with_encrypted dd e)) = Some (with_encrypted dd e) →
  Chain.get_identity_discount (E := DbError) c (hash_identity name None) renewal (Chain.get_height c) t0 = Ok d →
  sub_w (E := DbError) 32 DOMAIN_DIFFICULTY d = Ok diff →
  Block.transaction b = Some (transaction_from_str name CLASS_DOMAIN (json_of_domain_data (with_encrypted dd e)) owner box) →
  Block.index b = Block.index last + 1 → Block.timestamp b = ts →
  ∃ need, Chain.needed_difficulty (E := DbError) c b = Ok need ∧ need <= diff.
Proof.
  intros [Hq Hck H0 Hs Hn (Hlast & Hle & _) _ _ _] Hjson Hd Hdiff Htx Hi Hts. rewrite (quiet_height c last Hq) in Hd.
  destruct (discount_later _ _ _ _ _ _ _ Hq Hck H0 Hs Hle Hd) as (d' & Hd' & Hdd & H8).
  unfold sub_w, DOMAIN_DIFFICULTY in Hdiff. rewrite arith_fits in Hdiff by (unfold is_u; lia). injection Hdiff as <-.
  exists (24 - d'). split; [|lia].
  unfold Chain.needed_difficulty, Chain.get_difficulty_for_transaction. rewrite Htx.
  cbn [Transaction.class Transaction.data Transaction.identity transaction_from_str].
  rewrite bool_decide_true by done. rewrite Hi, Hts, Hd', obind_Ok, Hjson. unfold sub_w, DOMAIN_DIFFICULTY.
  by rewrite arith_fits by (unfold is_u; lia).
Qed.

(** The checks agree, as stated below. *)
Lemma created_good t0 ts now fuel rnd ctx name data signing encryption renewal job k last f :
  ed25519_keys → ed25519_signs →
  (∀ b good, bincode_block (set_hash_good b good) = bincode_block b) →
  (∀ dd e, json_domain_data data = Some dd →
     json_domain_data (json_of_domain_data (with_encrypted dd e)) = Some (with_encrypted dd e)) →
  creatable (Context.chain ctx) last name k t0 ts now →
  (∀ dd r text, json_domain_data data = Some dd → r ∈ records dd → DnsRecord.get_data r = Some text →
     (length text <= MAX_DATA_LEN)%nat) →
  action_create_domain (E := DbError) t0 rnd ctx name data signing encryption renewal = Ok (Started job k) →
  found_for k job last ts f →
  Chain.check_new_block now fuel (sealed k f) (Context.chain ctx) =
    Ok ((Good, set_hash_good (sealed k f) true), Context.chain ctx).
Proof.
  intros Hkeys Hsigs Hskip Hjson Hcr Hlen Hstart Hfor. set (c := Context.chain ctx) in *.
  destruct (started_inv _ _ _ _ _ _ _ _ _ _ Hstart) as (dd & e & owner & box & d & Hdata & Hmax & Hz & Hmine & Hd & Hdiff & Htx & _).
  specialize (Hjson dd e Hdata). destruct Hfor as [Hok Ft Fd Fi Fp Fts Fl]. rewrite <- Ft in Htx. rewrite <- Fd in Hdiff.
  destruct (found_verifies k f Hkeys Hsigs Hok) as [Hhash Hsign]. fold (sealed k f) in Hhash, Hsign.
  destruct Hok as ([Bs Bg Bv Bk Bi] & Hh & w & Hw & Hwork).
  pose proof (cr_quiet _ _ _ _ _ _ _ Hcr) as Hq. destruct (cr_order _ _ _ _ _ _ _ Hcr) as (Hlast & _ & _ & Hsoon).
  destruct (job_hard_enough c last name k t0 ts now (set_hash_good (sealed k f) true) _ _ _ _ _ _ _ Hcr Hjson Hd Hdiff Htx Fi Fts)
    as (need & Hneed & Hle).
  apply (check_next_good now fuel (sealed k f) c last (q_wf _ _ Hq) (q_last _ _ Hq)); try done; simpl; try lia.
  - split; simpl; try done.
    + by rewrite Bv.
    + exists (now + 60). rewrite clock_add by (done || apply Hcr || lia). split; [done|lia].
    + exists need, w. split; [done|]. split; [done|]. split; [|done].
      unfold hash_difficulty in *. case_bool_decide; [done|]. by injection Hw as <-.
    + rewrite <- Hsign. unfold check_block_signature, as_bytes_compact.
      by rewrite <- (Hskip (set_signature (sealed k f) []) true).
    + exists (Block.index last). split; [by apply (prev_of_next c last (sealed k f))|]. intros prev Hprev.
      pose proof (quiet_index c last Hq). rewrite get_block_row in Hprev by lia.
      rewrite (proj2 (proj2 (q_wf _ _ Hq) last (q_last _ _ Hq))) in Hprev. by injection Hprev as <-.
    + eapply (job_not_bad c last name k t0 ts now); eauto.
  - by rewrite Htx.
Qed.

(** What the user interface lets through, the miner mines and the chain takes.
    When the command to create a domain starts the miner at a time [t0], the
    block found for that job on top of the last block at a time [ts] and signed
    with its key is good for the chain at the time [now], provided that the last
    block is a signing block, that the key is strong, that the name is in lower
    case, and that its records have at most 255 characters: the number of
    records, the rules of the zone, the owner, the day between two domains and
    the discounted difficulty were all checked with the same result. *)
Theorem created_domain_accepted t0 ts now fuel rnd ctx name data signing encryption renewal job k last f :
  ed25519_keys → ed25519_signs →
  (** [hash_good] is not serialized, and the text of the data is read back. *)
  (∀ b good, bincode_block (set_hash_good b good) = bincode_block b) →
  (∀ dd e, json_domain_data data = Some dd →
     json_domain_data (json_of_domain_data (with_encrypted dd e)) = Some (with_encrypted dd e)) →
  creatable (Context.chain ctx) last name k t0 ts now →
  (∀ dd r text, json_domain_data data = Some dd → r ∈ records dd → DnsRecord.get_data r = Some text →
     (length text <= MAX_DATA_LEN)%nat) →
  action_create_domain (E := DbError) t0 rnd ctx name data signing encryption renewal = Ok (Started job k) →
  found_for k job last ts f →
  Chain.check_new_block now fuel (sealed k f) (Context.chain ctx) =
    Ok ((Good, set_hash_good (sealed k f) true), Context.chain ctx).
Proof. intros. by eapply created_good. Qed.
End Created.
