(* ===== verification/DomainsExamples.v ===== *)
(** * A domain created, mined and accepted

    The whole way on a small chain: the command, the run of the miner and the
    check of the block it found; and what the checks of the interface leave out. *)

From S2P Require Import Prelude Text Commons Hash Keystore Net Buffer Protocol Block Store Chain.
From S2P Require Import ChainFacts ChainProps Miner MinerProps MinerExamples Context Domains DomainsProps.
From S2P Require ChainExamples.
Import Store.
Open Scope Z_scope.

#[local] Existing Instances MinerExamples.toy_crypto ChainExamples.Toy.toy_ecies ascii_tables MinerExamples.release.
(** The text of domain data is its encrypted name. *)
Definition data_of (name : bytes) : DomainData :=
  {| encrypted := name; zone := str "ruv"; info := []; records := []; contacts := [] |}.
#[local] Instance toy_serde : Serde := {|
  json_of_transaction := json_of_transaction (Serde := ChainExamples.Toy.toy_serde);
  json_transaction := json_transaction (Serde := ChainExamples.Toy.toy_serde);
  json_domain_data := λ s, Some (data_of s);
  json_of_origin := json_of_origin (Serde := ChainExamples.Toy.toy_serde);
  bincode_block := bincode_block (Serde := ChainExamples.Toy.toy_serde);
  cbor_of_block := cbor_of_block (Serde := ChainExamples.Toy.toy_serde);
  cbor_block := cbor_block (Serde := ChainExamples.Toy.toy_serde);
|}.
#[local] Instance toy_json : JsonData := {|
  json_of_domain_data := encrypted; json_of_keys := λ _, []; json_of_zones := λ _, Some []; json_record := λ _, None;
|}.

(** ** A chain of a genesis block, a registration and a signing block *)
Definition sealed_block (index timestamp difficulty : Z) (prev : bytes) (tx : option Transaction.t) : Block.t :=
  from_all_params index timestamp 1 difficulty 0 0 prev (blakeout [wrap 8 index; 0])
    (Keystore.get_public me) (replicate 64 0) tx.
Definition genesis : Block.t :=
  sealed_block 1 1000 28 [] (Some (transaction_origin [1] (Keystore.get_public me) [])).
Definition name : rstr := Eval vm_compute in str "name.ruv".
Definition registration : Block.t :=
  sealed_block 2 90000 24 (Block.hash genesis)
    (Some (transaction_from_str name CLASS_DOMAIN [] (Keystore.get_public me) [])).
Definition signing_block : Block.t := sealed_block 3 91000 16 (Block.hash registration) None.

Definition no_chain : Chain.t := Chain.new (replicate 32 0) (load_zones ZONES_TXT) None.
Definition after (b : Block.t) (c : Chain.t) : Chain.t :=
  match Chain.add_block (set_hash_good b true) c with Ok (_, c) => c | _ => c end.
Definition chain1 : Chain.t := Eval vm_compute in after genesis no_chain.
Definition chain2 : Chain.t := Eval vm_compute in after registration chain1.
Definition chain3 : Chain.t := Eval vm_compute in after signing_block chain2.

Lemma after_wf b c : wf c → ChainExamples.typedb b = true →
  Chain.check_new_block 100000 0 b c = Ok ((Good, set_hash_good b true), c) → wf (after b c).
Proof.
  intros Hwf [Hty Hnum]%ChainExamples.typedb_both H. destruct (good_added _ _ _ _ _ _ Hwf Hty Hnum H) as (c2 & Ha & _ & Hwf2). unfold after. by rewrite Ha.
Qed.
Lemma chain3_wf : wf chain3.
Proof.
  change chain3 with (after signing_block chain2).
  apply after_wf; [|vm_compute; reflexivity|vm_compute; reflexivity]. change chain2 with (after registration chain1).
  apply after_wf; [|vm_compute; reflexivity|vm_compute; reflexivity]. change chain1 with (after genesis no_chain).
  apply after_wf; [apply wf_new|vm_compute; reflexivity|vm_compute; reflexivity].
Qed.
Definition last : Block.t := Eval vm_compute in default genesis (Chain.last_block chain3).

(** ** From the command to the found block *)
Definition ctx : Context.t := Context.new [] Settings.default_settings [me] chain3.
Definition created (t : Z) : outcome DbError creation :=
  action_create_domain t [] ctx name (str "data") [] [] false.
Definition started : Block.t * Keystore.t :=
  Eval vm_compute in match created 100000 with Ok (Started job k) => (job, k) | _ => (genesis, me) end.
Definition job : Block.t := Eval cbv in fst started.
Definition worker : Keystore.t := Eval cbv in snd started.

Lemma job_started : created 100000 = Ok (Started job worker).
Proof. vm_compute. reflexivity. Qed.

Definition idle : Miner.t := Miner.new chain3 [me] [] 1.
Definition found_state : Miner.t := Eval vm_compute in
  match Miner.execs 0 [Miner.AddBlock job worker; Miner.StartThread; Miner.Turn 101000 0 0 4; Miner.EndTurn;
                       Miner.Start 0; Miner.Place 0 77 101001; Miner.Decide 0; Miner.Try 0] idle with
  | Ok (_, m) => m
  | _ => idle
  end.
Definition found_block : Block.t := Eval vm_compute in
  match Miner.t_status <$> Miner.tasks found_state !! 0%nat with
  | Some (Miner.Submitting b) => b
  | _ => genesis
  end.

Lemma found_for_job : found_for worker job last 101001 found_block.
Proof.
  split; [|try (vm_compute; reflexivity)..].
  - split; [by split; vm_compute|]. split; [by vm_compute|]. exists 128. split; [by vm_compute|by vm_compute].
  - apply (bool_decide_unpack _). by vm_compute.
Qed.

(** ** The conditions *)
Lemma full_block_stored c before key f : Chain.get_last_full_block c before key = Some f →
  Chain.last_full_block c = Some f ∨ ∃ i r, blocks (Chain.db c) !! i = Some r ∧ f = Chain.block_of_row r.
Proof.
  unfold Chain.get_last_full_block, sql_get_last_full_block, sql_get_last_full_block_for_key. intros H.
  assert (∀ cond, Chain.block_of_row <$> last_row cond (blocks (Chain.db c)) = Some f →
    ∃ i r, blocks (Chain.db c) !! i = Some r ∧ f = Chain.block_of_row r) as Hrow.
  { intros cond (r & Hr & ->)%fmap_Some. apply last_row_Some in Hr as (i & Hi & _). eauto. }
  destruct (Chain.last_full_block c) as [b|]; [|right; destruct key; eauto].
  destruct (_ <? _); [|right; destruct key; eauto]. destruct key as [key|]; [|left; done].
  case_bool_decide; [by left|right; eauto].
Qed.

Lemma times_of_chain3 : map_Forall (λ _ r, - 2 ^ 61 <= b_timestamp r ∧ b_timestamp r < 2 ^ 61) (blocks (Chain.db chain3)).
Proof. apply (bool_decide_unpack _). vm_compute. exact I. Qed.
Lemma names_of_chain3 :
  map_Forall (λ _ r, d_identity r = hash_identity name None →
    d_timestamp r = 90000 ∧ check_identity (Chain.transaction_of_row r) name = true) (domains (Chain.db chain3)).
Proof. apply (bool_decide_unpack _). vm_compute. exact I. Qed.

Lemma chain3_row before r : sql_get_domain (hash_identity name None) before (Chain.db chain3) = Some r →
  d_timestamp r = 90000 ∧ check_identity (Chain.transaction_of_row r) name = true.
Proof.
  intros (i & Hi & Hc & _)%last_row_Some. apply andb_true_iff in Hc as [Hc%bool_decide_eq_true _].
  by apply (names_of_chain3 i).
Qed.

Lemma chain3_creatable : creatable chain3 last name worker 100000 101001 101002.
Proof.
  split; try (vm_compute; done).
  - split; [apply chain3_wf|try (vm_compute; reflexivity)..]. intros f [= <-]. by vm_compute.
  - split.
    + intros before key f [[= <-]|(i & r & Hr & ->)]%full_block_stored; [by vm_compute|]. exact (times_of_chain3 i r Hr).
    + intros before r Hr. destruct (chain3_row _ _ Hr) as [-> _]. split; [by vm_compute|]. split; [done|]. by right.
  - intros r Hr. by apply (chain3_row _ _ Hr).
Qed.

Lemma created_domain_accepted_witness :
  created 100000 = Ok (Started job worker) ∧
  Chain.check_new_block 101002 0 (sealed worker found_block) chain3 =
    Ok ((Good, set_hash_good (sealed worker found_block) true), chain3).
Proof.
  split; [exact job_started|].
  apply (created_domain_accepted 100000 101001 101002 0 [] ctx name (str "data") [] [] false job worker last found_block
    toy_keys toy_signs).
  - done.
  - intros dd e [= <-]. done.
  - exact chain3_creatable.
  - intros dd r text [= <-]. by intros ?%not_elem_of_nil.
  - exact job_started.
  - exact found_for_job.
Defined.

(** ** What the interface leaves out *)

(** A name in capitals passes, since only its check is in lower case; the
    registration is then of another identity than every lookup asks for. *)
Example capital_name :
  match action_create_domain (E := DbError) 200000 [] ctx (str "NAME.ruv") (str "data") [] [] false with
  | Ok (Started job _) => Transaction.identity <$> Block.transaction job
  | _ => None
  end = Some (hash_identity (str "NAME.ruv") None) ∧
  hash_identity (str "NAME.ruv") None ≠ hash_identity name None.
Proof. vm_compute. done. Qed.

(** The interface asks about the blocks below the last one. When that is the
    registration of another name by the same key, less than a day old, the
    interface starts the miner on a block that the chain refuses. *)
Example second_domain_refused :
  match action_create_domain (E := DbError) 91000 [] (Context.new [] Settings.default_settings [me] chain2)
          (str "other.ruv") (str "data") [] [] false with
  | Ok (Started job _) =>
      Chain.bad_transaction (E := DbError) 91060 chain2
        (Miner.set_time (set_place job 3 (Block.hash registration)) 91060)
  | _ => Ok false
  end = Ok true.
Proof. vm_compute. reflexivity. Qed.

(** Waits as the page shows them. *)
Example cooldowns : format_cooldown <$> [45; 3600; 86000] = [str "45 seconds"; str "60 minutes"; str "23 hours"].
Proof. vm_compute. reflexivity. Qed.
