(* ===== verification/Ui.v ===== *)
(** * The user interface (src/web_ui.rs, event.rs)

    The commands of the page and the events of the bus, with the scripts they
    make the page run. A script is its text; the page itself, in JavaScript, is
    not modelled. Each command and each event is handled by one call. *)

From stdpp Require Import sorting.
From S2P Require Import Prelude Text Commons Hash Keystore Net Buffer Protocol Block Store Chain Miner Context Domains.
Open Scope Z_scope.

Module Ui.

(** ** Events (src/event.rs) *)
Inductive Event :=
  | MinerStarted
  | MinerStopped (success full : bool)
  | MinerStats (thread speed max_diff target_diff : Z)
  | KeyGeneratorStarted
  | KeyGeneratorStopped
  | KeyCreated (path public hash : rstr)
  | KeyLoaded (path public hash : rstr)
  | KeySaved (path public hash : rstr)
  | NewBlockReceived
  | BlockchainChanged (index : Z)
  | ActionStopMining
  | ActionQuit
  | NetworkStatus (blocks domains keys nodes : Z)
  | Syncing (have height : Z)
  | SyncFinished
  | Error (text : rstr).

(** The commands of the page. *)
Inductive Cmd :=
  | Loaded
  | LoadKey
  | CreateKey
  | SaveKey
  | SelectKey (index : nat)
  | CheckRecord (data : rstr)
  | CheckDomain (name : rstr)
  | MineDomain (name data signing encryption : rstr) (renewal : bool)
  | TransferDomain (name owner : rstr)
  | StopMining
  | Open_ (link : rstr).

(** What a call gets from outside: the clock, as a number and as the text of
    [%d.%m.%y %X]; the randomness of the encryption; the answer of a file
    dialog; the files; whether a file could be created and written, and a link
    opened; the number of processors; whether the web view reports a script as
    run, and takes what another thread hands to it. *)
Record env := {
  now : Z;
  time : rstr;
  rnd : bytes;
  dialog : option rstr;
  read : rstr → option bytes;
  created : bool;
  written : bool;
  opens : bool;
  cpus : nat;
  evaluates : rstr → bool;
  dispatched : bool;
}.

(** ** Text in scripts *)

(** [str::replace] of one character and of two. *)
Fixpoint replace_char (c : Z) (to s : rstr) : rstr :=
  match s with
  | [] => []
  | x :: s => (if x =? c then to else [x]) ++ replace_char c to s
  end.
Fixpoint replace_pair (a b : Z) (to s : rstr) : rstr :=
  match s with
  | x :: ((y :: s'') as s') =>
      if (x =? a) && (y =? b) then to ++ replace_pair a b to s'' else x :: replace_pair a b to s'
  | _ => s
  end.

Definition QUOTE : Z := 39.
Definition DOUBLE_QUOTE : Z := 34.
Definition BACKSLASH : Z := 92.
Definition LETTER_N : Z := 110.

(** [format_event] with the time as text. *)
Definition format_event (kind : string) (time message : rstr) : rstr :=
  str "addEvent('" ++ str kind ++ str "', '" ++ time ++ str "', '" ++ message ++ str "');".

Definition warning (text : rstr) : rstr :=
  str "showWarning('" ++ replace_char QUOTE [BACKSLASH; QUOTE] text ++ str "');".

(** The replacements that [load_domains] makes in the JSON text. *)
Definition escape_data (d : rstr) : rstr :=
  replace_char DOUBLE_QUOTE [BACKSLASH; DOUBLE_QUOTE]
    (replace_pair BACKSLASH LETTER_N [BACKSLASH; BACKSLASH; LETTER_N] (replace_char QUOTE [BACKSLASH; QUOTE] d)).

(** ** Status *)
Record UiStatus := mkStatus {
  mining : bool;
  syncing : bool;
  synced_blocks : Z;
  sync_height : Z;
  max_diff : Z;
  speed : list Z;
}.
Definition status_new (threads : nat) : UiStatus := mkStatus false false 0 0 0 (replicate threads 0).
Definition set_mining (s : UiStatus) (b : bool) : UiStatus :=
  mkStatus b (syncing s) (synced_blocks s) (sync_height s) 0 (speed s).
Definition set_max_diff (s : UiStatus) (d : Z) : UiStatus :=
  mkStatus (mining s) (syncing s) (synced_blocks s) (sync_height s) d (speed s).
Definition set_synced (s : UiStatus) (b : bool) (have height : Z) : UiStatus :=
  mkStatus (mining s) b have height (max_diff s) (speed s).

Section Status.
Context {BP : Build}.
Definition set_thread_speed {E} (thread v : Z) (s : UiStatus) : outcome E UiStatus :=
  if (thread <? 0) || (Z.of_nat (length (speed s)) <=? thread) then Panic else
  Ok (mkStatus (mining s) (syncing s) (synced_blocks s) (sync_height s) (max_diff s) (<[Z.to_nat thread := v]> (speed s))).
(** The sum is of [u64]s. *)
Fixpoint sum_speed {E} (acc : Z) (l : list Z) : outcome E Z :=
  match l with
  | [] => Ok acc
  | v :: l => let! acc := add_w (E := E) 64 acc v in sum_speed acc l
  end.
Definition get_speed {E} (s : UiStatus) : outcome E Z := sum_speed 0 (speed s).
End Status.

Section Ui.
Context {CR : Crypto} {SD : Serde} {JD : JsonData} {EC : Ecies} {U : Unicode} {BP : Build} {TM : Toml}.

(** ** What the page is told *)

(** The script for one domain of the user. *)
Definition domain_command {E} (d : rstr * Z * DomainData) : outcome E rstr :=
  let '(domain, timestamp, data) := d in
  let d := escape_data (json_of_domain_data data) in
  let! until := add_s (E := E) 64 timestamp DOMAIN_LIFETIME in
  Ok (str "addMyDomain('" ++ domain ++ str "', " ++ dec_signed timestamp ++ str ", " ++ dec_signed until ++
      str ", '" ++ d ++ str "');").

Fixpoint domain_commands {E} (l : list (rstr * Z * DomainData)) : outcome E (list rstr) :=
  match l with
  | [] => Ok []
  | d :: l => let! c := domain_command (E := E) d in let! rest := domain_commands l in Ok (c :: rest)
  end.

Definition by_name (a b : rstr * Z * DomainData) : Prop := str_leb a.1.1 b.1.1 = true.
#[local] Instance by_name_dec a b : Decision (by_name a b).
Proof. unfold by_name. apply _. Defined.

(** [load_domains]: sorted by name; equal names stay in the order of the hash
    map, which is not specified and here that of the keys. *)
Definition load_domains {E} (t : Z) (ctx : Context.t) : outcome E (list rstr) :=
  let! domains := Chain.get_my_domains (E := E) t (Context.chain ctx) (Context.get_keystore ctx) in
  let! commands := domain_commands (merge_sort by_name (snd <$> map_to_list domains)) in
  Ok ([str "clearMyDomains();"] ++ commands ++ [str "refreshMyDomains();"]).

(** [KeysForJS]: the file name without its directory. *)
Definition key_for_js (key : Keystore.t) : rstr * rstr :=
  let path := replace_char BACKSLASH (str "/") (Keystore.path key) in
  (default [] (head (rsplitn 2 47 path)), to_hex (Keystore.get_public key)).

Definition send_keys_to_ui (ctx : Context.t) : list rstr :=
  let keys := key_for_js <$> Context.get_keystores ctx in
  if bool_decide (keys = []) then [] else
  [str "keysChanged('" ++ json_of_keys keys ++ str "'); keySelected(" ++
     dec (Z.of_nat (Context.get_active_key_index ctx)) ++ str ");"].

(** ** Events *)

Definition keystore_changed (path public hash : rstr) : rstr :=
  str "keystoreChanged('" ++ path ++ str "', '" ++ public ++ str "', '" ++ hash ++ str "');".
Definition MINING : rstr := str "setLeftStatusBarText('Mining...'); showMiningIndicator(true, false);".
Definition SYNCING : rstr := str "setLeftStatusBarText('Syncing...'); showMiningIndicator(true, true);".
Definition IDLE : rstr := str "setLeftStatusBarText('Idle'); showMiningIndicator(false, false);".

(** The [match] of the listener: the new status, the scripts run on the way and
    the one at the end. *)
Definition react {E} (w : env) (threads : nat) (ctx : Context.t) (s : UiStatus) (e : Event)
    : outcome E (UiStatus * list rstr * rstr) :=
  let info m := format_event "info" (time w) m in
  let luck m := format_event "luck" (time w) m in
  match e with
  | KeyCreated path public hash =>
      let! domains := load_domains (E := E) (now w) ctx in
      Ok (s, domains ++ send_keys_to_ui ctx ++ [luck (str "Key successfully created! Don\'t forget to save it!")],
          keystore_changed path public hash ++ str " showSuccess('New key mined successfully! Save it to a safe place!')")
  | KeyLoaded path public hash | KeySaved path public hash =>
      let! domains := load_domains (E := E) (now w) ctx in
      Ok (s, domains ++ send_keys_to_ui ctx, keystore_changed path public hash)
  | MinerStarted | KeyGeneratorStarted => Ok (set_mining s true, [info (str "Mining started")], MINING)
  | MinerStopped success full =>
      let text := if syncing s then SYNCING else IDLE in
      let s := set_mining s false in
      if full then
        if success then
          let! domains := load_domains (E := E) (now w) ctx in
          Ok (s, domains ++ [luck (str "Mining is successful!")], text ++ str " showSuccess('Block successfully mined!')")
        else Ok (s, [info (str "Mining finished without result.")], text ++ str " showWarning('Mining unsuccessful, sorry.')")
      else Ok (s, [], text)
  | MinerStats thread speed diff target_diff =>
      let s := if max_diff s <? diff then set_max_diff s diff else s in
      let! s := set_thread_speed (E := E) thread speed s in
      let! last := sub_w (E := E) 64 (Z.of_nat threads) 1 in
      if thread =? last then
        let! total := get_speed (E := E) s in
        Ok (s, [], str "setLeftStatusBarText('Mining speed " ++ dec total ++ str " H/s, max found difficulty " ++
                   dec (max_diff s) ++ str "/" ++ dec target_diff ++ str ".'); showMiningIndicator(true, false);")
      else Ok (s, [], [])
  | KeyGeneratorStopped =>
      let s := mkStatus false (syncing s) (synced_blocks s) (sync_height s) (max_diff s) (Ui.speed s) in
      Ok (s, [], if syncing s then SYNCING else IDLE)
  | Syncing have height =>
      let started := if height =? sync_height s then [] else [info (str "Syncing started...")] in
      let s := set_synced s true have height in
      Ok (s, started, if mining s then MINING
                      else str "setLeftStatusBarText('Synchronizing " ++ dec have ++ str "/" ++ dec height ++
                           str "'); showMiningIndicator(true, true);")
  | SyncFinished =>
      let! domains := load_domains (E := E) (now w) ctx in
      let s := set_synced s false (synced_blocks s) (sync_height s) in
      Ok (s, domains ++ [info (str "Syncing finished.")], if mining s then MINING else IDLE)
  | NetworkStatus blocks domains keys nodes =>
      let stats := str "setStats(" ++ dec blocks ++ str ", " ++ dec_signed domains ++ str ", " ++ dec_signed keys ++
                   str ", " ++ dec nodes ++ str ");" in
      Ok (s, [], if mining s || syncing s || (nodes <? 3) then stats else str "setLeftStatusBarText('Idle'); " ++ stats)
  | BlockchainChanged index =>
      Ok (s, [info (str "Blockchain changed, current block count is " ++ dec index ++ str " now.")], [])
  | Error text => Ok (s, [], str "showError('" ++ text ++ str "')")
  | NewBlockReceived | ActionStopMining | ActionQuit => Ok (s, [], [])
  end.

(** The whole listener: every script the page runs for one event. Only the last
    one must be taken. *)
Definition on_event {E} (w : env) (threads : nat) (ctx : Context.t) (s : UiStatus) (e : Event)
    : outcome E (UiStatus * list rstr) :=
  let! (s, scripts, eval) := react (E := E) w threads ctx s e in
  if dispatched w then
    Ok (s, if bool_decide (eval = []) then scripts
           else scripts ++ [replace_char BACKSLASH [BACKSLASH; BACKSLASH] eval])
  else if bool_decide (eval = []) then Ok (s, []) else Panic.

(** ** Commands *)

(** What a command changes: the context, the events posted, the scripts run,
    the jobs for the miner, and the files written. *)
Record t := mk {
  context : Context.t;
  posted : list Event;
  scripts : list rstr;
  jobs : list (Block.t * Keystore.t);
  files : list (rstr * bytes);
}.
Definition io (A : Type) : Type := M t DbError A.
Definition set_context (s : t) (c : Context.t) : t := mk c (posted s) (scripts s) (jobs s) (files s).
Definition post (e : Event) : io unit := mput (λ s, mk (context s) (posted s ++ [e]) (scripts s) (jobs s) (files s)).
Definition eval (script : rstr) : io unit :=
  mput (λ s, mk (context s) (posted s) (scripts s ++ [script]) (jobs s) (files s)).
(** [eval(..).expect("Error evaluating!")] *)
Definition eval_expect (w : env) (script : rstr) : io unit :=
  eval script ;? if evaluates w script then mret tt else mpanic.
Definition evals (l : list rstr) : io unit := mfor l eval.
Definition add_job (job : Block.t * Keystore.t) : io unit :=
  mput (λ s, mk (context s) (posted s) (scripts s) (jobs s ++ [job]) (files s)).
Definition write_file (name : rstr) (text : bytes) : io unit :=
  mput (λ s, mk (context s) (posted s) (scripts s) (jobs s) (files s ++ [(name, text)])).

(** [get_keystore_mut]: the active key replaced by [k]. *)
Definition put_keystore (k : Keystore.t) : io unit :=
  mput (λ s, set_context s (Context.with_keys (context s)
    (<[Context.active_key (context s) := k]> (Context.keystores (context s))) (Context.active_key (context s)))).

Definition action_save_key (w : env) : io unit :=
  let? c := mget context in
  if negb (Context.has_keys c) then mret tt else
  match dialog w with
  | None => mret tt
  | Some new_path =>
      let path := if ends_with new_path (str ".toml") then new_path else new_path ++ str ".toml" in
      match Context.get_keystore c with
      | None => mret tt
      | Some keystore =>
          let public := to_hex (Keystore.get_public keystore) in
          let (hash, keystore) := Keystore.get_hash keystore in
          let? (file, keystore) := mlift (save (E := DbError) path (created w) (written w) keystore) in
          match file with Some text => write_file path text | None => mret tt end ;?
          put_keystore keystore ;?
          post (KeySaved path public (to_hex hash))
      end
  end.

Definition action_select_key (w : env) (index : nat) : io unit :=
  let? c := mget context in
  let (found, c) := Context.select_key_by_index c index in
  if (found : bool) then
    mput (λ s, set_context s c) ;?
    match Context.get_keystore c with
    | None => mpanic
    | Some keystore =>
        let? keystore := mlift (Keystore.clone (E := DbError) keystore) in
        post (KeyLoaded (Keystore.path keystore) (to_hex (Keystore.get_public keystore))
                (to_hex (fst (Keystore.get_hash keystore)))) ;?
        eval_expect w (str "keySelected(" ++ dec (Z.of_nat index) ++ str ")")
    end
  else mret tt.

Definition action_load_key (w : env) : io unit :=
  match dialog w with
  | None => mret tt
  | Some file_name =>
      let? loaded := mlift (from_file (E := DbError) file_name (read w file_name)) in
      match loaded with
      | None =>
          eval (warning (str "Error loading key!<br>Key cannot be loaded or its difficulty is not enough.")) ;?
          eval (format_event "fail" (time w) (str "Error loading key from \'" ++ file_name ++ str "\'!"))
      | Some keystore =>
          let path := Keystore.path keystore in
          let public := to_hex (Keystore.get_public keystore) in
          let (hash, keystore) := Keystore.get_hash keystore in
          post (KeyLoaded path public (to_hex hash)) ;?
          let? c := mget context in
          let (found, c) := Context.select_key_by_public c (Keystore.get_public keystore) in
          mput (λ s, set_context s (if (found : bool) then c else Context.add_keystore c keystore))
      end
  end.

(** [action_loaded] without the registration of the listener, which is
    [on_event] from then on, with [status_new] of the number of threads. *)
Definition action_loaded (w : env) : io unit :=
  eval_expect w (str "showMiningIndicator(false, false);") ;?
  let? c := mget context in
  match Context.get_keystore c with
  | Some keystore =>
      let (hash, keystore) := Keystore.get_hash keystore in
      put_keystore keystore ;?
      post (KeyLoaded (Keystore.path keystore) (to_hex (Keystore.get_public keystore)) (to_hex hash))
  | None => mret tt
  end ;?
  let height := Chain.get_height (Context.chain c) in
  (if 0 <? height then post (BlockchainChanged height) else mret tt) ;?
  match json_of_zones (Chain.zones (Context.chain c)) with
  | Some zones => eval (str "zonesChanged('" ++ zones ++ str "');")
  | None => mret tt
  end ;?
  evals (send_keys_to_ui c) ;?
  eval (str "setStats(" ++ dec height ++ str ", " ++ dec (Chain.get_domains_count (Context.chain c)) ++ str ", " ++
        dec (Chain.get_users_count (Context.chain c)) ++ str ", 0);") ;?
  eval (format_event "info" (time w) (str "Application loaded")).

Definition listener_threads (w : env) (c : Context.t) : nat :=
  let threads := Z.to_nat (Settings.mining_threads (Settings.mining (Context.settings c))) in
  if bool_decide (threads = 0%nat) then cpus w else threads.

(** The answers to [action_create_domain]. *)
Definition refuse (text : rstr) : io unit := eval (warning text) ;? eval (str "domainMiningUnavailable();").
Definition show_creation (w : env) (name : rstr) (r : creation) : io unit :=
  match r with
  | NoKeys => refuse (str "You don't have keys loaded!<br>Load or mine the keys and try again.")
  | WaitingForSigners => refuse (str "Waiting for last full block to be signed. Try again later.")
  | WrongDomainData => refuse (str "Something wrong with domain data. I cannot mine it.")
  | TooManyRecords => refuse (str "Too many records. Mining more than 30 records not allowed.")
  | RuvchainOnly zone =>
      refuse (str "Zone " ++ zone ++ str " is Ruvchain only, you cannot use IPs from clearnet!")
  | NotMinable WrongName => refuse (str "You can't mine this domain!")
  | NotMinable WrongData => refuse (str "You have an error in records!")
  | NotMinable WrongKey => refuse (str "You can't mine with current key!")
  | NotMinable WrongZone => refuse (str "You can't mine domain in this zone!")
  | NotMinable NotOwned => refuse (str "This domain is already taken, and it is not yours!")
  | NotMinable (Cooldown time_left) =>
      let text := str "You have cooldown " ++ format_cooldown time_left ++ str "!" in
      eval (format_event "info" (time w) text) ;? refuse text
  | NotMinable Fine => mret tt
  | Started block keystore =>
      add_job (block, keystore) ;?
      eval (str "domainMiningStarted();") ;?
      eval (format_event "info" (time w) (str "Mining of domain \'" ++ name ++ str "\' has started"))
  end.

(** The handler of the page's commands; the threads of [CreateKey] are those of
    [KeyGen]. *)
Definition invoke (w : env) (cmd : Cmd) : io unit :=
  let? c := mget context in
  match cmd with
  | Loaded => action_loaded w
  | LoadKey => action_load_key w
  | CreateKey => post KeyGeneratorStarted
  | SaveKey => action_save_key w
  | SelectKey index => action_select_key w index
  | CheckRecord data =>
      match action_check_record data with
      | Some true => eval_expect w (str "recordOkay(true)")
      | Some false => eval_expect w (str "recordOkay(false)")
      | None => mret tt
      end
  | CheckDomain name =>
      let? available := mlift (action_check_domain (E := DbError) (now w) c name) in
      match available with
      | Some true => eval_expect w (str "domainAvailable(true)")
      | Some false => eval_expect w (str "domainAvailable(false)")
      | None => mret tt
      end
  | MineDomain name data signing encryption renewal =>
      let? r := mlift (action_create_domain (E := DbError) (now w) (rnd w) c name data signing encryption renewal) in
      show_creation w name r
  | TransferDomain _ _ => mret tt
  | StopMining => post ActionStopMining
  | Open_ _ =>
      if opens w then mret tt
      else eval (warning (str "Something wrong, I can't open the link " ++ [240; 159; 152; 162]))
  end.

(** The window was closed. *)
Definition close : io unit := post ActionQuit.
End Ui.
End Ui.
