(* ===== verification/KeyGen.v ===== *)
(** * Mining of keys (src/keystore.rs: create_key, generate_key)

    Every processor runs a thread that draws keys until one is strong or another
    thread has found one. They share the flag [mining], the count of running
    threads and the context. An action is what a thread does between two
    accesses to them: its start, one turn of the loop, the entry of the key,
    its end. *)

From S2P Require Import Prelude Text Commons Hash Keystore Net Buffer Protocol Block Store Chain Miner MinerExamples Context ContextProps Domains Ui.
From S2P Require ChainExamples.
Open Scope Z_scope.

Module KeyGen.

Inductive status :=
  | Spawned
  | Generating
  | Found (keystore : Keystore.t)
  | Leaving
  | Gone.

Record t := mk {
  context : Context.t;
  mining : bool;
  miners_count : Z;
  threads : list status;
  posted : list Ui.Event;
  (** The listener for [ActionStopMining] is registered. *)
  listening : bool;
}.

Inductive action :=
  | Start (i : nat)
  (** One turn: the key drawn, and the box made for it when it is kept. *)
  | Draw (i : nat) (buf : bytes) (box : CryptoBox.t)
  | Enter (i : nat)
  | Leave (i : nat)
  | Stop.

Definition set_thread (s : t) (i : nat) (st : status) : t :=
  mk (context s) (mining s) (miners_count s) (<[i := st]> (threads s)) (posted s) (listening s).
Definition set_mining (s : t) (b : bool) : t := mk (context s) b (miners_count s) (threads s) (posted s) (listening s).
Definition set_count (s : t) (n : Z) : t := mk (context s) (mining s) n (threads s) (posted s) (listening s).
Definition set_context (s : t) (c : Context.t) : t :=
  mk c (mining s) (miners_count s) (threads s) (posted s) (listening s).
Definition emit (s : t) (e : Ui.Event) : t :=
  mk (context s) (mining s) (miners_count s) (threads s) (posted s ++ [e]) (listening s).

(** [create_key]; the listener is registered last, and no event is lost between
    here and there in this model. *)
Definition create_key (cpus : nat) (c : Context.t) : t :=
  let n := Z.to_nat (Settings.mining_threads (Settings.mining (Context.settings c))) in
  mk c true 0 (replicate (if bool_decide (n = 0%nat) then cpus else n) Spawned) [Ui.KeyGeneratorStarted] true.

Section KeyGen.
Context {CR : Crypto} {EC : Ecies} {BP : Build} {U : Unicode}.

(** [None] when the action is not the thread's next one. *)
Definition exec (a : action) (s : t) : outcome DbError (option t) :=
  match a with
  | Start i =>
      match threads s !! i with
      | Some Spawned => Ok (Some (set_count (set_thread s i Generating) (miners_count s + 1)))
      | _ => Ok None
      end
  | Draw i buf box =>
      match threads s !! i with
      | Some Generating =>
          let! d := key_hash_difficulty (E := DbError) (blakeout (ed_public buf)) in
          if KEYSTORE_DIFFICULTY <=? d then
            let! keystore := Keystore.from_bytes (E := DbError) buf box in
            Ok (Some (set_mining (set_thread s i (Found keystore)) false))
          else if negb (mining s) then Ok (Some (set_thread s i Leaving))
          else Ok (Some s)
      | _ => Ok None
      end
  | Enter i =>
      match threads s !! i with
      | Some (Found keystore) =>
          let (hash, keystore) := Keystore.get_hash keystore in
          let s := set_thread (set_context s (Context.add_keystore (context s) keystore)) i Leaving in
          Ok (Some (emit s (Ui.KeyCreated (Keystore.path keystore) (to_hex (Keystore.get_public keystore)) (to_hex hash))))
      | _ => Ok None
      end
  | Leave i =>
      match threads s !! i with
      | Some Leaving =>
          let miners := miners_count s - 1 in
          let s := set_count (set_thread s i Gone) miners in
          Ok (Some (if miners =? 0 then emit s Ui.KeyGeneratorStopped else s))
      | _ => Ok None
      end
  | Stop =>
      if listening s
      then Ok (Some (mk (context s) false (miners_count s) (threads s) (posted s) false))
      else Ok None
  end.

Definition step (s s' : t) : Prop := ∃ a, exec a s = Ok (Some s').

(** ** What every run keeps *)

(** A key that was mined: 32 bytes, and as strong as the chain asks. *)
Definition mined (k : Keystore.t) : Prop :=
  length (Keystore.keypair k) = 32%nat ∧
  Keystore.check_public_key_strength (E := DbError) (Keystore.get_public k) KEYSTORE_DIFFICULTY = Ok true.

Definition has_key (st : status) : bool := match st with Found _ => true | _ => false end.
Definition unfinished (st : status) : bool := match st with Spawned | Generating | Found _ => true | _ => false end.
Definition running (st : status) : bool := match st with Generating | Found _ | Leaving => true | _ => false end.
Definition count (f : status → bool) (l : list status) : nat := length (List.filter f l).

(** [old] are the keys before, [n] the number of threads. *)
Record kept (old : list Keystore.t) (n : nat) (s : t) : Prop := {
  kp_new : ∃ fresh, Context.keystores (context s) = old ++ fresh ∧ Forall mined fresh ∧
             (length fresh + count unfinished (threads s) <= n)%nat ∧
             (fresh = [] ∨ Context.active_key (context s) = (length old + length fresh - 1)%nat);
  kp_found : ∀ i k, threads s !! i = Some (Found k) → mined k;
  kp_count : miners_count s = Z.of_nat (count running (threads s));
  (** When every thread is gone the last event says so. *)
  kp_end : threads s ≠ [] → Forall (λ st, st = Gone) (threads s) → list.last (posted s) = Some Ui.KeyGeneratorStopped;
}.

Lemma count_insert f l i st st' : l !! i = Some st →
  (count f (<[i := st']> l) + Nat.b2n (f st) = count f l + Nat.b2n (f st'))%nat.
Proof.
  unfold count. revert i. induction l as [|x l IH]; intros [|i] Hi; simpl in *; try done.
  - injection Hi as ->. destruct (f st), (f st'); simpl; lia.
  - specialize (IH i Hi). destruct (f x); simpl; lia.
Qed.

Lemma count_replicate f n st : f st = false → count f (replicate n st) = 0%nat.
Proof. intros Hf. unfold count. induction n; simpl; [done|]. by rewrite Hf. Qed.
Lemma count_le f l : (count f l <= length l)%nat.
Proof. unfold count. induction l as [|x l IH]; simpl; [done|]. destruct (f x); simpl; lia. Qed.

Lemma count_gone l : Forall (λ st, st = Gone) l → count running l = 0%nat.
Proof. unfold count. induction 1 as [|x l -> Hl IH]; simpl; [done|]. exact IH. Qed.

Lemma create_kept cpus c : kept (Context.keystores c) (length (threads (create_key cpus c))) (create_key cpus c).
Proof.
  split; simpl.
  - exists []. rewrite app_nil_r, length_replicate. split; [done|]. split; [done|]. split; [|by left].
    etransitivity; [apply count_le|]. by rewrite length_replicate.
  - by intros i k [Hst _]%lookup_replicate.
  - by rewrite count_replicate.
  - intros Hne Hg. destruct (if bool_decide (_ = 0%nat) then cpus else _) as [|n]; [done|]. simpl in Hg. by apply Forall_cons in Hg as [? _].
Qed.

(** A thread goes on, brings at most a strong key of its own, and posts nothing. *)
Lemma kept_move old n s i st st' m c l : kept old n s → threads s !! i = Some st → st' ≠ Gone →
  (∀ k, st' = Found k → mined k) → (Nat.b2n (unfinished st') <= Nat.b2n (unfinished st))%nat →
  c = miners_count s + Z.b2z (running st') - Z.b2z (running st) →
  kept old n (mk (context s) m c (<[i := st']> (threads s)) (posted s) l).
Proof.
  intros [(fresh & Hk & Hm & Hn & Ha) Hf Hc He] Hi Hg Hst Hu ->.
  pose proof (count_insert unfinished _ _ _ st' Hi) as Cu. pose proof (count_insert running _ _ _ st' Hi) as Cr.
  split; simpl.
  - exists fresh. split; [done|]. split; [done|]. split; [lia|done].
  - intros j k [(_ & Hj & _)|[_ Hj]]%list_lookup_insert_Some; [by apply Hst|by eapply Hf].
  - rewrite Hc. destruct (running st), (running st'); simpl in *; lia.
  - intros _ Hall. exfalso. apply Hg. rewrite Forall_lookup in Hall. apply (Hall i).
    apply list_lookup_insert_eq. by eapply lookup_lt_Some.
Qed.

Lemma draw_strong buf d box k : key_hash_difficulty (E := DbError) (blakeout (ed_public buf)) = Ok d →
  (KEYSTORE_DIFFICULTY <=? d) = true → Keystore.from_bytes (E := DbError) buf box = Ok k → mined k.
Proof.
  intros Hd Hle Hk. unfold Keystore.from_bytes in Hk. case_bool_decide; [|done]. injection Hk as <-.
  split; [done|]. unfold Keystore.check_public_key_strength. cbn zeta.
  change (blakeout_data (Keystore.get_public _)) with (blakeout (ed_public buf)). by rewrite Hd, obind_Ok, Hle.
Qed.

Lemma kept_enter old n s i k hash k' : kept old n s → threads s !! i = Some (Found k) →
  Keystore.get_hash k = (hash, k') →
  kept old n (emit (set_thread (set_context s (Context.add_keystore (context s) k')) i Leaving)
                (Ui.KeyCreated (Keystore.path k') (to_hex (Keystore.get_public k')) (to_hex hash))).
Proof.
  intros [(fresh & Hk & Hm & Hn & Ha) Hf Hc He] Hi Hh.
  pose proof (count_insert unfinished _ _ _ Leaving Hi) as Cu. pose proof (count_insert running _ _ _ Leaving Hi) as Cr.
  assert (mined k') as Hk'.
  { unfold Keystore.get_hash in Hh. specialize (Hf i k Hi). by case_bool_decide; injection Hh as <- <-. }
  split; simpl in *.
  - exists (fresh ++ [k']). rewrite Hk, app_assoc, !length_app. split; [done|].
    split; [by apply Forall_app; split; [|constructor]|]. simpl. split; [lia|right; lia].
  - intros j x [(_ & ? & _)|[_ Hj]]%list_lookup_insert_Some; [done|by eapply Hf].
  - lia.
  - intros _ Hall. rewrite Forall_lookup in Hall. exfalso.
    enough (Leaving = Gone) by done. apply (Hall i), list_lookup_insert_eq. by eapply lookup_lt_Some.
Qed.

Lemma kept_leave old n s i : kept old n s → threads s !! i = Some Leaving →
  let left := set_count (set_thread s i Gone) (miners_count s - 1) in
  kept old n (if miners_count s - 1 =? 0 then emit left Ui.KeyGeneratorStopped else left).
Proof.
  intros [(fresh & Hk & Hm & Hn & Ha) Hf Hc He] Hi left.
  pose proof (count_insert unfinished _ _ _ Gone Hi) as Cu. pose proof (count_insert running _ _ _ Gone Hi) as Cr.
  simpl in Cu, Cr.
  assert (kept old n (emit left Ui.KeyGeneratorStopped)) as Hstop.
  { split; simpl; [exists fresh; split; [done|]; split; [done|]; split; [lia|done]| |lia|by rewrite last_snoc].
    intros j x [(_ & ? & _)|[_ Hj]]%list_lookup_insert_Some; [done|by eapply Hf]. }
  destruct (Z.eqb_spec (miners_count s - 1) 0) as [|Hne]; [done|]. destruct Hstop as [K1 K2 K3 K4].
  split; [exact K1|exact K2|exact K3|]. simpl. intros _ Hall%count_gone. lia.
Qed.

Lemma kept_step old n s s' : kept old n s → step s s' → kept old n s'.
Proof.
  intros Hkept [[i|i buf box|i|i|] H]; simpl in H; [destruct (threads s !! i) as [[]|] eqn:Hi; try done..|].
  - injection H as <-. apply (kept_move old n s i _ _ _ _ _ Hkept Hi); simpl; try done. lia.
  - apply obind_inv in H as (d & Hd & H). destruct (_ <=? _) eqn:Hle.
    + apply obind_inv in H as (k & Hk & [= <-]). apply (kept_move old n s i _ _ _ _ _ Hkept Hi); simpl; try done; [|lia].
      intros k' [= <-]. by eapply draw_strong.
    + destruct (mining s); injection H as <-; [done|]. apply (kept_move old n s i _ _ _ _ _ Hkept Hi); simpl; try done; lia.
  - destruct (Keystore.get_hash keystore) as [hash k] eqn:Hh. injection H as <-. by eapply kept_enter.
  - injection H as <-. by apply kept_leave.
  - destruct (listening s); [|done]. injection H as <-. by destruct Hkept.
Qed.

(** However the threads of the key generator interleave, and whenever it is
    stopped: the keys it adds to those of the context are strong enough for the
    chain, there is at most one per thread, the last one is the active key, and
    when the last thread has ended the last event says that the generator has
    stopped. *)
Theorem keys_generated cpus c s : rtc step (create_key cpus c) s →
  (∃ fresh, Context.keystores (context s) = Context.keystores c ++ fresh ∧ Forall mined fresh ∧
     (length fresh <= length (threads (create_key cpus c)))%nat ∧
     (fresh = [] ∨ Context.get_keystore (context s) = list.last fresh)) ∧
  (threads s ≠ [] → Forall (λ st, st = Gone) (threads s) → list.last (posted s) = Some Ui.KeyGeneratorStopped).
Proof.
  intros Hr. assert (kept (Context.keystores c) (length (threads (create_key cpus c))) s) as [(fresh & Hk & Hm & Hn & Ha) _ _ He].
  { generalize (create_kept cpus c). generalize (length (threads (create_key cpus c))). induction Hr; intros n; [done|]. intros Hs. by eapply IHHr, kept_step. }
  split; [|done]. exists fresh. split; [done|]. split; [done|]. split; [lia|].
  destruct fresh as [|k fresh]; [by left|right]. destruct Ha as [?|Ha]; [done|]. unfold Context.get_keystore.
  rewrite Ha, Hk, last_lookup, lookup_app_r by (simpl; lia). f_equal. simpl. lia.
Qed.
End KeyGen.
End KeyGen.

(** ** Runs *)
Module KeyGenExamples.
Import KeyGen.
#[local] Existing Instances MinerExamples.toy_crypto ChainExamples.Toy.toy_serde ChainExamples.Toy.toy_ecies ascii_tables MinerExamples.release.

Definition no_keys : Context.t :=
  Context.new [] Settings.default_settings [] (Chain.new [] [] None).
Definition box : CryptoBox.t := CryptoBox.mk [1] [1].
Fixpoint run (acts : list action) (s : t) : outcome DbError (option t) :=
  match acts with
  | [] => Ok (Some s)
  | a :: acts =>
      let! r := exec a s in
      match r with Some s => run acts s | None => Ok None end
  end.
Definition end_of (r : outcome DbError (option t)) : t := match r with Ok (Some s) => s | _ => create_key 2 no_keys end.

Lemma run_reached acts s s' : run acts s = Ok (Some s') → rtc step s s'.
Proof.
  revert s. induction acts as [|a acts IH]; intros s H; simpl in H; [by injection H as <-|].
  apply obind_inv in H as ([s1|] & Ha & H); [|done]. eapply rtc_l; [by exists a|]. by apply IH.
Qed.

(** Two threads that find a key before either looks at the flag: two keys. *)
Definition two_keys : t := Eval vm_compute in
  end_of (run [Start 0; Start 1; Draw 0 (replicate 32 1) box; Draw 1 (replicate 32 2) box; Enter 1; Enter 0; Leave 0; Leave 1]
            (create_key 2 no_keys)).
Lemma keys_generated_witness :
  length (Context.keystores (context two_keys)) = 2%nat ∧ Forall mined (Context.keystores (context two_keys)) ∧
  list.last (posted two_keys) = Some Ui.KeyGeneratorStopped.
Proof.
  split; [reflexivity|].
  destruct (keys_generated 2 no_keys two_keys) as [(fresh & Hk & Hm & _) He].
  - apply (run_reached [Start 0; Start 1; Draw 0 (replicate 32 1) box; Draw 1 (replicate 32 2) box; Enter 1; Enter 0; Leave 0; Leave 1]).
    vm_compute. reflexivity.
  - change (Context.keystores (context two_keys) = fresh) in Hk. rewrite Hk. split; [exact Hm|].
    apply He; [discriminate|]. repeat constructor.
Defined.

(** A thread that ends before the other has started: the page is told that the
    generator stopped while it goes on. *)
Example stopped_too_early :
  match run [Start 0; Draw 0 (replicate 32 1) box; Enter 0; Leave 0; Start 1] (create_key 2 no_keys) with
  | Ok (Some s) => Some (posted s, miners_count s)
  | _ => None
  end = Some ([Ui.KeyGeneratorStarted;
               Ui.KeyCreated [] (to_hex (replicate 32 1)) (to_hex (blakeout (replicate 32 1)));
               Ui.KeyGeneratorStopped], 1).
Proof. vm_compute. reflexivity. Qed.
End KeyGenExamples.
