(* ===== verification/UiProps.v ===== *)
(** * The scripts that the page runs

    What a script with the name and the data of a domain means to the page: the
    string literals in it are read by a model of the literals of JavaScript. *)

From S2P Require Import Prelude Text Commons Hash Keystore Net Buffer Protocol Block Store Chain ChainProps.
From S2P Require Import Miner MinerExamples Context Domains DomainsExamples Ui.
From S2P Require ChainExamples ContextProps.
Import Ui.
Open Scope Z_scope.

(** ** String literals *)

(** A literal after its opening quote: the text up to the closing quote, and
    what follows. A backslash takes the next character with it; a literal does
    not go over the end of a line. *)
Fixpoint literal (s : rstr) : option (rstr * rstr) :=
  match s with
  | [] => None
  | x :: s =>
      if x =? QUOTE then Some ([], s)
      else if (x =? 10) || (x =? 13) then None
      else if x =? BACKSLASH then
        match s with
        | [] => None
        | y :: s => '(l, rest) ← literal s; Some (x :: y :: l, rest)
        end
      else '(l, rest) ← literal s; Some (x :: l, rest)
  end.

(** The value of the text of a literal; [None] for numeric escapes. *)
Fixpoint value (s : rstr) : option rstr :=
  match s with
  | [] => Some []
  | x :: s =>
      if x =? BACKSLASH then
        match s with
        | [] => None
        | y :: s =>
            if bool_decide (y ∈ [117; 120]) || is_ascii_digit y then None else
            (cons (if y =? 110 then 10 else if y =? 116 then 9 else if y =? 114 then 13 else
                   if y =? 98 then 8 else if y =? 102 then 12 else if y =? 118 then 11 else y)) <$> value s
        end
      else (cons x) <$> value s
  end.

Definition plain (x : Z) : Prop := x ≠ QUOTE ∧ x ≠ BACKSLASH ∧ x ≠ 10 ∧ x ≠ 13.

(** Text that stays in its literal. *)
Inductive closed : rstr → Prop :=
  | closed_nil : closed []
  | closed_char x s : plain x → closed s → closed (x :: s)
  | closed_pair y s : closed s → closed (BACKSLASH :: y :: s).

(** Text as [serde_json] writes it: control characters are escaped, and quotes
    of the one kind only. *)
Inductive json_text : rstr → Prop :=
  | json_nil : json_text []
  | json_char x s : x ≠ BACKSLASH → x ≠ 10 → x ≠ 13 → json_text s → json_text (x :: s)
  | json_pair y s : y ≠ QUOTE → json_text s → json_text (BACKSLASH :: y :: s).

(** JSON text whose only escapes are those of the line feed and the quote. *)
Inductive simple_text : rstr → Prop :=
  | simple_nil : simple_text []
  | simple_char x s : x ≠ BACKSLASH → x ≠ 10 → x ≠ 13 → simple_text s → simple_text (x :: s)
  | simple_pair y s : y = LETTER_N ∨ y = DOUBLE_QUOTE → simple_text s → simple_text (BACKSLASH :: y :: s).

Create HintDb scripts.
#[export] Hint Constructors closed json_text simple_text : scripts.

Lemma literal_closed s rest : closed s → literal (s ++ QUOTE :: rest) = Some (s, rest).
Proof.
  induction 1 as [|x s (Hq & Hb & Hn & Hr) Hs IH|y s Hs IH]; [done| |].
  - simpl. rewrite (proj2 (Z.eqb_neq _ _) Hq), (proj2 (Z.eqb_neq _ _) Hn), (proj2 (Z.eqb_neq _ _) Hr),
      (proj2 (Z.eqb_neq _ _) Hb). simpl. by rewrite IH.
  - simpl. by rewrite IH.
Qed.

(** ** The replacements *)

Ltac plain_char := repeat split; first [done|unfold QUOTE, BACKSLASH, DOUBLE_QUOTE, LETTER_N in *; lia].

Lemma quotes_closed s : json_text s → closed (replace_char QUOTE [BACKSLASH; QUOTE] s).
Proof.
  induction 1 as [|x s Hb Hn Hr Hs IH|y s Hy Hs IH]; simpl; [constructor| |].
  - destruct (Z.eqb_spec x QUOTE); simpl; [by apply closed_pair|by apply closed_char].
  - rewrite (proj2 (Z.eqb_neq _ _) Hy). simpl. by apply closed_pair.
Qed.

Lemma pair_head b to x s : x ≠ BACKSLASH → replace_pair BACKSLASH b to (x :: s) = x :: replace_pair BACKSLASH b to s.
Proof. intros Hx. simpl. destruct s as [|y s]; [done|]. by rewrite (proj2 (Z.eqb_neq _ _) Hx). Qed.

Lemma feeds_closed s : closed s → closed (replace_pair BACKSLASH LETTER_N [BACKSLASH; BACKSLASH; LETTER_N] s).
Proof.
  remember (length s) as n eqn:Hn. revert s Hn. induction (lt_wf n) as [n _ IH]. intros s -> Hs.
  assert (∀ s', (length s' < length s)%nat → closed s' →
    closed (replace_pair BACKSLASH LETTER_N [BACKSLASH; BACKSLASH; LETTER_N] s')) as Hrec by (intros; by eapply IH).
  clear IH. destruct Hs as [|x s Hx Hs|y s Hs]; [constructor| |].
  - rewrite pair_head by apply Hx. apply closed_char; [done|]. apply Hrec; [simpl; lia|done].
  - simpl. destruct (Z.eqb_spec y LETTER_N) as [->|Hy]; simpl.
    + apply closed_pair, closed_char; [plain_char|]. apply Hrec; [simpl; lia|done].
    + destruct (decide (y = BACKSLASH)) as [->|Hyb].
      * destruct s as [|z s]; [by apply closed_pair|]. simpl. destruct (Z.eqb_spec z LETTER_N) as [->|Hz]; simpl.
        -- apply closed_pair, closed_pair. inversion Hs as [|? ? Hp Hs'|]; subst.
           apply Hrec; [simpl; lia|done].
        -- apply closed_pair. apply (Hrec (z :: s)); [simpl; lia|done].
      * fold (replace_pair BACKSLASH LETTER_N [BACKSLASH; BACKSLASH; LETTER_N]).
        destruct s as [|z s]; [by apply closed_pair|]. rewrite (proj2 (Z.eqb_neq _ _) Hyb). simpl.
        apply closed_pair. apply (Hrec (z :: s)); [simpl; lia|done].
Qed.

Lemma doubles_closed s : closed s → closed (replace_char DOUBLE_QUOTE [BACKSLASH; DOUBLE_QUOTE] s).
Proof.
  induction 1 as [|x s Hx Hs IH|y s Hs IH]; simpl; [constructor| |].
  - destruct (Z.eqb_spec x DOUBLE_QUOTE); simpl; [by apply closed_pair|by apply closed_char].
  - destruct (Z.eqb_spec y DOUBLE_QUOTE) as [->|]; simpl; apply closed_pair; [|done].
    apply closed_char; [plain_char|done].
Qed.
#[export] Hint Resolve quotes_closed feeds_closed doubles_closed : scripts.

Lemma escape_closed d : json_text d → closed (escape_data d).
Proof. unfold escape_data. auto with scripts. Qed.

(** ** What the page reads *)

Lemma escape_char x s : x ≠ BACKSLASH →
  escape_data (x :: s) =
    (if x =? QUOTE then [BACKSLASH; QUOTE] else if x =? DOUBLE_QUOTE then [BACKSLASH; DOUBLE_QUOTE] else [x]) ++ escape_data s.
Proof.
  intros Hx. unfold escape_data. cbn [replace_char]. destruct (Z.eqb_spec x QUOTE) as [->|Hq].
  - cbn [app]. assert (∀ r, replace_pair BACKSLASH LETTER_N [BACKSLASH; BACKSLASH; LETTER_N] (BACKSLASH :: QUOTE :: r) =
      BACKSLASH :: QUOTE :: replace_pair BACKSLASH LETTER_N [BACKSLASH; BACKSLASH; LETTER_N] r) as -> by (intros [|]; done).
    done.
  - cbn [app]. rewrite pair_head by done. cbn [replace_char]. by destruct (x =? DOUBLE_QUOTE).
Qed.

Lemma escape_pair y s : y = LETTER_N ∨ y = DOUBLE_QUOTE →
  escape_data (BACKSLASH :: y :: s) = [BACKSLASH; BACKSLASH; y] ++ escape_data s.
Proof.
  unfold escape_data. intros [->| ->]; [done|]. cbn [replace_char]. cbn [app].
  assert (∀ r, replace_pair BACKSLASH LETTER_N [BACKSLASH; BACKSLASH; LETTER_N] (BACKSLASH :: DOUBLE_QUOTE :: r) =
    BACKSLASH :: DOUBLE_QUOTE :: replace_pair BACKSLASH LETTER_N [BACKSLASH; BACKSLASH; LETTER_N] r) as Hp by (intros [|]; done).
  simpl (BACKSLASH =? QUOTE). simpl (DOUBLE_QUOTE =? QUOTE). cbn [app]. by rewrite Hp.
Qed.

Lemma value_escape d : simple_text d → value (escape_data d) = Some d.
Proof.
  induction 1 as [|x s Hb Hn Hr Hs IH|y s Hy Hs IH]; [done| |].
  - rewrite escape_char by done. destruct (Z.eqb_spec x QUOTE) as [->|]; [simpl; by rewrite IH|].
    destruct (Z.eqb_spec x DOUBLE_QUOTE) as [->|]; [simpl; by rewrite IH|]. simpl.
    rewrite (proj2 (Z.eqb_neq _ _) Hb). by rewrite IH.
  - rewrite escape_pair by done. simpl. by destruct Hy as [->| ->]; simpl; rewrite IH.
Qed.

Lemma simple_json d : simple_text d → json_text d.
Proof. induction 1; auto with scripts. apply json_pair; [|done]. destruct H as [->| ->]; done. Qed.

Lemma alphanumeric_plain x : is_ascii_alphanumeric x = true ∨ x = 46 ∨ x = 45 → plain x.
Proof.
  unfold is_ascii_alphanumeric, is_ascii_digit, plain, QUOTE, BACKSLASH.
  rewrite !orb_true_iff, !andb_true_iff, !Z.leb_le. lia.
Qed.

Lemma checked_plain dots d h name : check_chars dots d h name = true → Forall plain name.
Proof.
  revert d h. induction name as [|x name IH]; intros d h H; [constructor|]. cbn [check_chars] in H.
  assert (∃ d' h', plain x ∧ check_chars dots d' h' name = true) as (d' & h' & Hx & Hrest).
  { destruct (dots && (x =? 46)) eqn:Hd.
    - apply andb_true_iff in Hd as [_ ->%Z.eqb_eq]. destruct d; [done|]. exists true, h. split; [apply alphanumeric_plain; auto|done].
    - destruct (Z.eqb_spec x 45) as [->|]; [destruct h; [done|]; exists d, true; split; [apply alphanumeric_plain; auto|done]|].
      destruct (is_ascii_alphanumeric x) eqn:Hx; [|done]. exists false, false. split; [apply alphanumeric_plain; auto|done]. }
  constructor; [done|]. by eapply IH.
Qed.

Lemma plain_closed s : Forall plain s → closed s.
Proof. induction 1; auto with scripts. Qed.
Lemma plain_value s : Forall plain s → value s = Some s.
Proof.
  induction 1 as [|x s (_ & Hb & _) Hs IH]; [done|]. simpl. by rewrite (proj2 (Z.eqb_neq _ _) Hb), IH.
Qed.

Section Shown.
Context {CR : Crypto} {SD : Serde} {JD : JsonData} {EC : Ecies} {U : Unicode} {BP : Build} {TM : Toml}.

(** C32: the script with which a domain is shown is one call with two string
    literals. For a name that may be registered the first literal is the name,
    and for data whose JSON text has only line feeds and quotes to escape the
    value of the second is that text: the page reads back what the chain holds. *)
Theorem domain_shown {E} name timestamp data :
  check_domain name true = true → clock timestamp → simple_text (json_of_domain_data data) →
  ∃ command rest numbers raw,
    domain_command (E := E) (name, timestamp, data) = Ok command ∧
    command = str "addMyDomain('" ++ rest ∧
    literal rest = Some (name, str ", " ++ numbers ++ str ", '" ++ raw) ∧ value name = Some name ∧
    literal raw = Some (escape_data (json_of_domain_data data), str ");") ∧
    value (escape_data (json_of_domain_data data)) = Some (json_of_domain_data data).
Proof.
  intros Hname Hc Hd.
  assert (Forall plain name) as Hp.
  { unfold check_domain in Hname. destruct (_ || _); [done|]. repeat case_match; try done; by eapply checked_plain. }
  unfold domain_command. rewrite clock_add by (done || (unfold DOMAIN_LIFETIME; lia)). rewrite obind_Ok.
  exists (str "addMyDomain('" ++ (name ++ QUOTE :: (str ", " ++ (dec_signed timestamp ++ str ", " ++ dec_signed (timestamp + DOMAIN_LIFETIME))
    ++ str ", '" ++ (escape_data (json_of_domain_data data) ++ QUOTE :: str ");")))).
  do 3 eexists. split; [|split; [reflexivity|]].
  - f_equal. change (str "', " : rstr) with ([QUOTE] ++ str ", "). change (str "');" : rstr) with ([QUOTE] ++ str ");").
    by rewrite <- !app_assoc.
  - split; [by apply literal_closed, plain_closed|]. split; [by apply plain_value|].
    split; [by apply literal_closed, escape_closed, simple_json|by apply value_escape].
Qed.

(** Whatever the data, its literal ends where it should. *)
Lemma data_stays_inside data rest : json_text (json_of_domain_data data) →
  literal (escape_data (json_of_domain_data data) ++ QUOTE :: rest) = Some (escape_data (json_of_domain_data data), rest).
Proof. intros Hj. by apply literal_closed, escape_closed. Qed.
End Shown.

(** ** Scripts computed *)
Module UiExamples.
#[local] Existing Instances MinerExamples.toy_crypto ChainExamples.Toy.toy_ecies ascii_tables MinerExamples.release.
#[local] Existing Instances DomainsExamples.toy_serde DomainsExamples.toy_json ContextProps.toy_toml.

(** JSON text with a quote of each kind and a line feed. *)
Definition note : rstr := [123] ++ [DOUBLE_QUOTE] ++ str "it's" ++ [BACKSLASH; LETTER_N] ++ [DOUBLE_QUOTE] ++ [125].
Lemma note_simple : simple_text note.
Proof. repeat (apply simple_nil || (apply simple_pair; [by left|]) || (apply simple_char; [done..|])). Qed.

Lemma domain_shown_witness :
  check_domain name true = true ∧ value (escape_data note) = Some note ∧
  ∃ command rest, domain_command (E := DbError) (name, 90000, data_of note) = Ok command ∧
    command = str "addMyDomain('" ++ rest.
Proof.
  destruct (domain_shown (E := DbError) name 90000 (data_of note) eq_refl ltac:(by vm_compute) note_simple)
    as (command & rest & numbers & raw & Hc & Hr & _ & _ & _ & Hv).
  split; [reflexivity|]. split; [exact Hv|]. exists command, rest. split; [exact Hc|exact Hr].
Defined.

(** The encrypted name is not compared with the identity it stands for, and is
    put into the script as it is. A stranger registers a domain for somebody
    else's key; the owner's page runs the stranger's script. *)
Definition evil : rstr := str "'); steal(); ('".
Definition gift : Block.t :=
  from_all_params 2 90000 1 24 0 0 (Block.hash genesis) (blakeout [2; 0]) (replicate 32 9) (replicate 64 0)
    (Some (transaction_from_str name CLASS_DOMAIN evil (Keystore.get_public me) [])).
Definition gifted : Chain.t := Eval vm_compute in after gift chain1.

Example gift_accepted : Chain.check_new_block 100000 0 gift chain1 = Ok ((Good, set_hash_good gift true), chain1).
Proof. vm_compute. reflexivity. Qed.
Example script_of_a_stranger :
  load_domains (E := DbError) 100000 (Context.new [] Settings.default_settings [me] gifted) =
    Ok [str "clearMyDomains();";
        str "addMyDomain(''); steal(); ('', 90000, 31626000, '\'); steal(); (\'');";
        str "refreshMyDomains();"].
Proof. vm_compute. reflexivity. Qed.

(** A backslash of the data is lost on the way to the page, and an escaped tab
    becomes a raw one, which is no JSON. *)
Example escapes_lost :
  value (escape_data [BACKSLASH; BACKSLASH]) = Some [BACKSLASH] ∧ value (escape_data [BACKSLASH; 116]) = Some [9].
Proof. vm_compute. done. Qed.

(** More threads that report than the status has places: the listener panics,
    and its lock is poisoned. *)
Example stats_out_of_range ctx w :
  on_event (E := DbError) w 1 ctx (status_new 1) (Ui.MinerStats 1 100 5 24) = Panic.
Proof. reflexivity. Qed.

Definition world : env :=
  {| now := 100000; time := str "01.01.25 00:00:00"; rnd := []; dialog := None; read := λ _, None; created := true;
     written := true; opens := true; cpus := 2; evaluates := λ _, true; dispatched := true |}.
Definition page : Ui.t := Ui.mk ctx [] [] [] [].

(** A command to mine a domain, as the page sends it. *)
Example mine_command :
  match invoke world (MineDomain name (str "data") [] [] false) page with
  | Ok (_, s) => Some (length (jobs s), scripts s)
  | _ => None
  end = Some (1%nat, [str "domainMiningStarted();";
                      str "addEvent('info', '01.01.25 00:00:00', 'Mining of domain \'name.ruv\' has started');"]).
Proof. vm_compute. reflexivity. Qed.
End UiExamples.
