(* ===== verification/Peers.v ===== *)
(** * Peers (src/p2p/state.rs, message.rs, peer.rs, peers.rs, src/crypto/chacha.rs)

    The connection states, the messages, one peer and the table of peers.
    Of a socket the readiness it is registered for is modelled; [Instant::now()]
    is an argument in nanoseconds; CBOR, ChaCha20-Poly1305 and X25519 are
    parameters. The table is a map from tokens,
    iterated in the order of [hash_iter]. *)

From stdpp Require Import fin_maps.
From S2P Require Import Prelude Text Net Commons Buffer Protocol Cache.
Open Scope Z_scope.

(** [from.elapsed().as_secs()] *)
Definition elapsed_secs (now from : Z) : Z := Z.max 0 (now - from) / 1000000000.

(** ** Messages *)
Module Message.
Inductive t :=
  | Error
  | Hand (app_version origin : rstr) (version : Z) (public : bool) (rand_id : rstr)
  | Shake (app_version origin : rstr) (version : Z) (public : bool) (rand_id : rstr) (height : Z)
  | Ping (height : Z) (hash : bytes)
  | Pong (height : Z) (hash : bytes)
  | Twin
  | Loop
  | GetPeers
  | Peers (peers : list rstr)
  | GetBlock (index : Z)
  | Block (index : Z) (block : bytes).
End Message.

(** The CBOR encoding of messages, the cipher and the key agreement of a
    connection. *)
Class Wire := {
  cbor_of_message : Message.t → bytes;
  cbor_message : bytes → option Message.t;
  (** key, nonce, text *)
  aead_encrypt : bytes → bytes → bytes → option bytes;
  aead_decrypt : bytes → bytes → bytes → option bytes;
  (** secret key, public key of the other side *)
  diffie_hellman : bytes → bytes → bytes;
}.

Module Chacha.
Record t := new { key : bytes; nonce : bytes }.
Definition ZERO_NONCE : bytes := replicate 12 0.
Definition encrypt {W : Wire} (c : t) (data : bytes) : option bytes := aead_encrypt (key c) (nonce c) data.
Definition decrypt {W : Wire} (c : t) (data : bytes) : option bytes := aead_decrypt (key c) (nonce c) data.
Definition get_nonce (c : t) : bytes := nonce c.
End Chacha.

(** ** Connection states *)
Module State.
Inductive t :=
  | Connecting
  | Connected (from : Z)
  | ServerHandshake (from : Z)
  | HandshakeFinished
  | Idle (from : Z)
  | Message (data : bytes)
  | Error
  | Banned
  | SendLoop
  | Loop
  | Twin
  | Offline (from : Z).

#[global] Instance t_eq_dec : EqDecision t.
Proof. solve_decision. Defined.

Definition idle (now : Z) : t := Idle now.
Definition offline (now : Z) : t := Offline now.
Definition message {W : Wire} (m : Message.t) : t := Message (cbor_of_message m).

Definition is_idle (s : t) : bool := match s with Idle _ => true | _ => false end.

Definition is_timed_out (now : Z) (s : t) : bool :=
  match s with
  | Error => true
  | Banned => true
  | Idle from => 60 <? elapsed_secs now from
  | Connected from => 10 <? elapsed_secs now from
  | _ => false
  end.

Definition is_loop (s : t) : bool := match s with Loop | SendLoop => true | _ => false end.

Definition disabled (now : Z) (s : t) : bool :=
  match s with
  | Error => true
  | Banned => true
  | Offline from => elapsed_secs now from <? 60
  | _ => false
  end.

Definition need_reconnect (now : Z) (s : t) : bool :=
  match s with Offline from => 60 <? elapsed_secs now from | _ => false end.
End State.

(** ** A peer

    A socket is what the event loop sees of it: the readiness it is registered
    for. [registry.register] and [reregister] set it. *)
Module Interest.
Record t := mk { readable : bool; writable : bool }.
Definition READABLE : t := mk true false.
Definition WRITABLE : t := mk false true.
Definition BOTH : t := mk true true.
End Interest.

Module Peer.
Record t := mk {
  addr : SocketAddr;
  stream : Interest.t;
  state : State.t;
  id : rstr;
  height : Z;
  inbound : bool;
  public : bool;
  is_active : bool;
  last_active : Z;
  reconnects : Z;
  received_block : Z;
  sent_height : Z;
  cipher : option Chacha.t;
}.

Definition new (now : Z) (addr : SocketAddr) (stream : Interest.t) (state : State.t) (inbound : bool) : t :=
  mk addr stream state [] 0 inbound false false now 0 0 0 None.

Definition set_cipher (c : Chacha.t) (p : t) : t :=
  mk (addr p) (stream p) (state p) (id p) (height p) (inbound p) (public p) (is_active p) (last_active p)
     (reconnects p) (received_block p) (sent_height p) (Some c).
Definition get_nonce (p : t) : bytes :=
  match cipher p with None => Chacha.ZERO_NONCE | Some chacha => Chacha.get_nonce chacha end.
Definition set_state (s : State.t) (p : t) : t :=
  mk (addr p) (stream p) s (id p) (height p) (inbound p) (public p) (is_active p) (last_active p)
     (reconnects p) (received_block p) (sent_height p) (cipher p).
Definition set_height (h : Z) (p : t) : t :=
  mk (addr p) (stream p) (state p) (id p) h (inbound p) (public p) (is_active p) (last_active p)
     (reconnects p) (received_block p) (sent_height p) (cipher p).
Definition set_sent_height (h : Z) (p : t) : t :=
  mk (addr p) (stream p) (state p) (id p) (height p) (inbound p) (public p) (is_active p) (last_active p)
     (reconnects p) (received_block p) h (cipher p).
Definition set_received_block (index : Z) (p : t) : t :=
  mk (addr p) (stream p) (state p) (id p) (height p) (inbound p) (public p) (is_active p) (last_active p)
     (reconnects p) index (sent_height p) (cipher p).
Definition set_public (b : bool) (p : t) : t :=
  mk (addr p) (stream p) (state p) (id p) (height p) (inbound p) b (is_active p) (last_active p)
     (reconnects p) (received_block p) (sent_height p) (cipher p).
Definition set_active (now : Z) (b : bool) (p : t) : t :=
  mk (addr p) (stream p) (state p) (id p) (height p) (inbound p) (public p) b (if b then now else last_active p)
     (reconnects p) (received_block p) (sent_height p) (cipher p).
Definition set_reconnects (n : Z) (p : t) : t :=
  mk (addr p) (stream p) (state p) (id p) (height p) (inbound p) (public p) (is_active p) (last_active p)
     n (received_block p) (sent_height p) (cipher p).
Definition set_stream (i : Interest.t) (p : t) : t :=
  mk (addr p) i (state p) (id p) (height p) (inbound p) (public p) (is_active p) (last_active p)
     (reconnects p) (received_block p) (sent_height p) (cipher p).
Definition inc_reconnects {BP : Build} {E} (p : t) : outcome E t :=
  let! n := add_w 32 (reconnects p) 1 in Ok (set_reconnects n p).
Definition reset_reconnects (p : t) : t := set_reconnects 0 p.

Definition is_higher (h : Z) (p : t) : bool := h <? height p.
Definition is_lower (h : Z) (p : t) : bool := height p <? h.
Definition has_more_blocks (h : Z) (p : t) : bool :=
  if height p <=? h then false else
  if h <? received_block p then false else
  if negb (State.is_idle (state p)) then false else
  h <? height p.

Definition active (now : Z) (p : t) : bool :=
  match state p with
  | State.Connected from => elapsed_secs now from <? 5
  | State.Idle from => elapsed_secs now from <? 120
  | State.ServerHandshake from => elapsed_secs now from <? 10
  | _ => is_active p && (elapsed_secs now (last_active p) <? 120)
  end.
Definition active_recently (now : Z) (p : t) : bool :=
  is_active p && (elapsed_secs now (last_active p) <? 10).
Definition disabled (now : Z) (p : t) : bool := State.disabled now (state p) || (2 <? reconnects p).

(** The port counts on the loopback only. *)
Definition equals (a : SocketAddr) (p : t) : bool :=
  if is_loopback (ip (addr p)) then bool_decide (addr p = a) else bool_decide (ip (addr p) = ip a).
End Peer.

(** ** The table of peers *)
Definition LISTEN_PORT : Z := 6890.
Definition MAX_NODES : Z := 15.
Definition MIN_CONNECTED_NODES_START_SYNC : Z := 4.
Definition MAX_RECONNECTS : Z := 5.

Definition skip_private_addr (addr : SocketAddr) : bool :=
  is_loopback (ip addr) || match ip addr with V4 a => is_private a | V6 _ => false end.

Module Peers.
Record t := mk {
  peers : gmap Z Peer.t;
  new_peers : list SocketAddr;
  ignored : gmap IpAddr Z;
  my_id : rstr;
  behind_ping_sent_time : Z;
}.

Definition new (my_id : rstr) : t := mk ∅ [] ∅ my_id 0.

Definition set_peers (ps : t) (m : gmap Z Peer.t) : t :=
  mk m (new_peers ps) (ignored ps) (my_id ps) (behind_ping_sent_time ps).
Definition set_ignored (ps : t) (m : gmap IpAddr Z) : t :=
  mk (peers ps) (new_peers ps) m (my_id ps) (behind_ping_sent_time ps).

Definition add_peer (token : Z) (peer : Peer.t) (ps : t) : t := set_peers ps (<[token := peer]> (peers ps)).
Definition get_peer (ps : t) (token : Z) : option Peer.t := peers ps !! token.

(** Closing removes the peer; a banned one is ignored from now on. *)
Definition close_peer (now token : Z) (ps : t) : t :=
  match peers ps !! token with
  | None => ps
  | Some peer =>
      let ps := set_peers ps (delete token (peers ps)) in
      match Peer.state peer with
      | State.Banned => set_ignored ps (<[ip (Peer.addr peer) := now]> (ignored ps))
      | _ => ps
      end
  end.

Section Iterate.
Context {HI : HashIter}.

(** [self.peers.iter()], [self.peers.keys()] *)
Definition iter (ps : t) : list (Z * Peer.t) := hash_iter (map_to_list (peers ps)).

Definition close_all_peers (now : Z) (ps : t) : t :=
  let tokens := fst <$> iter ps in
  let ps := fold_left (λ ps token, close_peer now token ps) tokens ps in
  set_peers ps ∅.

(** One turn of the loop of [add_peers_from_exchange]. *)
Definition add_exchanged (ps : t) (peer : rstr) : t :=
  match parse_socket peer with
  | None => ps
  | Some addr =>
      if existsb (λ '(_, peer), bool_decide (ip (Peer.addr peer) = ip addr)) (iter ps) then ps else
      if existsb (λ a, bool_decide (ip a = ip addr)) (new_peers ps) then ps else
      if bool_decide (is_Some (ignored ps !! ip addr)) then ps else
      if skip_private_addr addr then ps else
      mk (peers ps) (new_peers ps ++ [addr]) (ignored ps) (my_id ps) (behind_ping_sent_time ps)
  end.

(** The names are collected in a [HashSet] first. *)
Definition add_peers_from_exchange (names : list rstr) (ps : t) : t :=
  fold_left add_exchanged (hash_iter (remove_dups names)) ps.

Definition is_our_own_connect (ps : t) (rand : rstr) : bool := bool_decide (my_id ps = rand).
Definition is_ignored (ps : t) (addr : IpAddr) : bool := bool_decide (is_Some (ignored ps !! addr)).

(** The loop of [get_peers_for_exchange], which stops at ten names. *)
Fixpoint exchange_loop (now : Z) (peer_address : SocketAddr) (ps : list (Z * Peer.t)) (result : list rstr) : list rstr :=
  match ps with
  | [] => result
  | (_, peer) :: ps =>
      if Peer.disabled now peer then exchange_loop now peer_address ps result else
      if Peer.equals peer_address peer then exchange_loop now peer_address ps result else
      let result :=
        if Peer.public peer && Peer.active now peer
        then result ++ [display_socket {| ip := ip (Peer.addr peer); port := LISTEN_PORT |}] else result in
      if bool_decide (10 <= length result)%nat then result else exchange_loop now peer_address ps result
  end.
Definition get_peers_for_exchange (now : Z) (ps : t) (peer_address : SocketAddr) : list rstr :=
  exchange_loop now peer_address (iter ps) [].

Definition get_peers_count (ps : t) : nat := size (peers ps).
Definition get_peers_active_count (now : Z) (ps : t) : nat :=
  length (List.filter (λ '(_, peer), Peer.active now peer) (iter ps)).
Definition get_peers_banned_count (ps : t) : nat := size (ignored ps).

Definition is_tween_connect (now : Z) (ps : t) (id : rstr) : bool :=
  existsb (λ '(_, peer), Peer.active now peer && bool_decide (Peer.id peer = id)) (iter ps).

Definition ignore_ip (now : Z) (addr : IpAddr) (ps : t) : t := set_ignored ps (<[addr := now]> (ignored ps)).

(** [ignore_peer]; the token is of a peer, [get_mut(token).unwrap()]. *)
Definition ignore_peer {E} (now token : Z) (ps : t) : outcome E t :=
  match peers ps !! token with
  | None => Panic
  | Some peer =>
      let peer := if State.is_loop (Peer.state peer) then peer else Peer.set_state State.Banned peer in
      let ps := set_peers ps (<[token := peer]> (peers ps)) in
      let ip := ip (Peer.addr peer) in
      let ps := close_peer now token ps in
      let ps := set_ignored ps (<[ip := now]> (ignored ps)) in
      match find (λ '(_, p), bool_decide (Net.ip (Peer.addr p) = ip)) (iter ps) with
      | None => Ok ps
      | Some (t, _) => Ok (close_peer now t ps)
      end
  end.

Definition skip_peer_connection (now : Z) (ps : t) (addr : SocketAddr) : bool :=
  existsb (λ '(_, peer), Peer.equals addr peer &&
    (negb (Peer.public peer) || Peer.active now peer || Peer.disabled now peer)) (iter ps).
End Iterate.

Definition update_behind_ping_time (now : Z) (ps : t) : t :=
  mk (peers ps) (new_peers ps) (ignored ps) (my_id ps) now.
Definition need_behind_ping (now : Z) (ps : t) : bool := behind_ping_sent_time ps + 5 <? now.
End Peers.
