(* ===== verification/PeersUpdate.v ===== *)
(** * Upkeep of the peers (src/p2p/peers.rs)

    The periodic [update] of the table, the requests for blocks and the new
    connections. The random choices of the [rand] library and the connections
    made by [TcpStream::connect] are parameters. *)

From stdpp Require Import fin_maps sorting.
From S2P Require Import Prelude Text Net Commons Buffer Protocol Cache Peers.
Open Scope Z_scope.

Definition PING_PERIOD : Z := 30.

(** [IteratorRandom] and [SliceRandom]: [choose] takes one element of a list
    that has one, [choose_multiple] at most the given number of them, each once. *)
Class Choice := {
  choose {A : Type} : list A → option A;
  choose_elem {A : Type} (l : list A) x : choose l = Some x → x ∈ l;
  choose_some {A : Type} (l : list A) : choose l = None → l = [];
  choose_multiple {A : Type} : nat → list A → list A;
  choose_multiple_sub {A : Type} n (l : list A) : choose_multiple n l ⊆+ l;
  choose_multiple_length {A : Type} n (l : list A) : (length (choose_multiple n l) <= n)%nat;
}.

(** [SocketAddr: Ord]: IPv4 first, then by address and port. *)
Definition socket_key (a : SocketAddr) : list Z :=
  match ip a with V4 x => 4 :: octets4 x | V6 x => 6 :: segments x end ++ [port a].
Definition socket_leb (a b : SocketAddr) : bool :=
  match lex Z.compare (socket_key a) (socket_key b) with Gt => false | _ => true end.

(** [Vec::dedup] *)
Fixpoint dedup (l : list SocketAddr) : list SocketAddr :=
  match l with
  | a :: (b :: _) as l => if bool_decide (a = b) then dedup l else a :: dedup l
  | l => l
  end.

(** [next]: the token, and the counter after it. *)
Definition next_token {BP : Build} {E} (token : Z) : outcome E (Z * Z) :=
  let! after := add_w 64 token 1 in Ok (token, after).

Module PeersUpdate.
Import Peers.
Section Update.
Context {BP : Build} {HI : HashIter} {CH : Choice} {W : Wire}.
(** [Instant::now()] and [Utc::now()]; one reading for a whole call. *)
Context (now utc_now : Z).
Abbreviation io A := (M t Empty_set A).

Definition put_peer (token : Z) (peer : Peer.t) : io unit := mput (add_peer token peer).

(** *** Pings *)

Definition is_connecting (s : State.t) : bool := match s with State.Connecting => true | _ => false end.
Definition is_message (s : State.t) : bool := match s with State.Message _ => true | _ => false end.

(** One turn of the first loop of [update]; [ask] is its random choice. *)
Definition ping_peer (nodes : nat) (random_time : Z) (ask : bool) (hash : bytes) (height : Z) (peer : Peer.t) : Peer.t :=
  match Peer.state peer with
  | State.Idle from =>
      if PING_PERIOD + random_time <=? elapsed_secs now from then
        let message := if (Z.of_nat nodes <? MAX_NODES) && ask then Message.GetPeers else Message.Ping height hash in
        Peer.set_stream Interest.BOTH (Peer.set_state (State.message message) peer)
      else peer
  | s =>
      if negb (is_connecting s) && (State.is_timed_out now s || negb (Peer.active now peer)) then peer
      else if is_message s then Peer.set_stream Interest.WRITABLE peer
      else peer
  end.

(** The peers that the same loop marks as stale. *)
Definition is_stale (peer : Peer.t) : bool :=
  match Peer.state peer with
  | State.Idle _ => false
  | s => negb (is_connecting s) && (State.is_timed_out now s || negb (Peer.active now peer))
  end.

Definition ping_peers (nodes : nat) (random_time : Z) (ask : Z → bool) (hash : bytes) (height : Z) : io unit :=
  let? stale := mget (λ ps, fst <$> List.filter (λ '(_, peer), is_stale peer) (iter ps)) in
  mput (λ ps, set_peers ps
    (map_imap (λ token peer, Some (ping_peer nodes random_time (ask token) hash height peer)) (peers ps))) ;?
  mput (λ ps, fold_left (λ ps token, close_peer now token ps) stale ps).

Definition purge_ignored : io unit :=
  mput (λ ps, set_ignored ps (filter (λ '(_, time), elapsed_secs now time < 600) (ignored ps))).

(** *** Requests for blocks *)

Definition ask_for (token index : Z) (peer : Peer.t) : io unit :=
  put_peer token (Peer.set_state (State.message (Message.GetBlock index)) (Peer.set_stream Interest.WRITABLE peer)).

Fixpoint ask_loop (have_blocks : list Z) (index max_height : Z) (chosen : list (Z * Peer.t)) : io unit :=
  match chosen with
  | [] => mret tt
  | (token, peer) :: chosen =>
      if bool_decide (index ∈ have_blocks) then
        let? index := mlift (add_w 64 index 1) in
        ask_loop have_blocks index max_height chosen
      else
        ask_for token index peer ;?
        let? index := mlift (add_w 64 index 1) in
        if max_height <? index then mret tt else ask_loop have_blocks index max_height chosen
  end.

Definition ask_blocks_from_peers (height max_height : Z) (have_blocks : list Z) : io unit :=
  let? higher := mget (λ ps, List.filter (λ '(_, peer), Peer.has_more_blocks height peer) (iter ps)) in
  let? count := mlift (sub_w 64 max_height height) in
  let? index := mlift (add_w 64 height 1) in
  ask_loop have_blocks index max_height (choose_multiple (Z.to_nat count) higher).

(** [ask_block_from_peer], which nothing calls. *)
Definition ask_block_from_peer (height : Z) : io unit :=
  let? higher := mget (λ ps, List.filter (λ '(_, peer), Peer.has_more_blocks height peer) (iter ps)) in
  match choose higher with
  | None => mret tt
  | Some (token, peer) =>
      let? index := mlift (add_w 64 height 1) in
      put_peer token (Peer.set_state (State.message (Message.GetBlock index)) (Peer.set_stream Interest.BOTH peer))
  end.

(** The part of [update] that syncs. *)
Definition sync_blocks (nodes : nat) (ask : bool) (height max_height : Z) (have_blocks : list Z) : io unit :=
  if (MIN_CONNECTED_NODES_START_SYNC <=? Z.of_nat nodes) && (height <? max_height) then
    if bool_decide (10 <= nodes)%nat || ask then
      let? behind := mlift (sub_w 64 max_height height) in
      let? upto := mlift (add_w 64 height (Z.min behind (Z.of_nat nodes))) in
      ask_blocks_from_peers height upto have_blocks
    else mret tt
  else mret tt.

(** *** Pings to peers that are behind *)

Definition wants_behind_ping (height : Z) (peer : Peer.t) : bool :=
  Peer.is_lower height peer && State.is_idle (Peer.state peer) && negb (Peer.active_recently now peer) &&
  (Peer.sent_height peer <? height).

Definition ping_behind (height : Z) (hash : bytes) : io unit :=
  let? need := mget (need_behind_ping utc_now) in
  if (need : bool) then
    let? behind := mget (λ ps, List.filter (λ '(_, peer), wants_behind_ping height peer) (iter ps)) in
    match choose behind with
    | None => mret tt
    | Some (token, peer) =>
        put_peer token (Peer.set_sent_height height
          (Peer.set_state (State.message (Message.Ping height hash)) (Peer.set_stream Interest.WRITABLE peer))) ;?
        mput (update_behind_ping_time utc_now)
    end
  else mret tt.

(** *** Peers that are offline *)

Definition long_offline (peer : Peer.t) : bool :=
  State.need_reconnect now (Peer.state peer) && (MAX_RECONNECTS <=? Peer.reconnects peer).

Definition drop_offline : io unit :=
  let? offline := mget (λ ps, List.filter (λ '(_, peer), long_offline peer) (iter ps)) in
  mput (λ ps, set_peers ps (filter (λ '(_, peer), long_offline peer = false) (peers ps))) ;?
  mput (λ ps, fold_left (λ ps '(_, peer), ignore_ip now (ip (Peer.addr peer)) ps) offline ps).

(** Only the first peer that needs it is tried. [connect] tells which
    connections can be made. *)
Definition reconnect (connect : SocketAddr → bool) : io unit :=
  let? lost := mget (λ ps, find (λ '(_, peer), State.need_reconnect now (Peer.state peer)) (iter ps)) in
  match lost with
  | None => mret tt
  | Some (token, peer) =>
      if connect (Peer.addr peer) then
        let? peer := mlift (Peer.inc_reconnects (Peer.set_state State.Connecting peer)) in
        put_peer token (Peer.set_stream Interest.WRITABLE peer)
      else mret tt
  end.

(** [update]: [random_time] is below [PING_PERIOD]; [ask] are the random
    choices, one for each peer and one for the requests. *)
Definition update (random_time : Z) (ask : Z → bool) (ask_blocks : bool) (connect : SocketAddr → bool)
    (hash : bytes) (height max_height : Z) (have_blocks : list Z) : io unit :=
  let? nodes := mget (get_peers_active_count now) in
  ping_peers nodes random_time ask hash height ;?
  purge_ignored ;?
  sync_blocks nodes ask_blocks height max_height have_blocks ;?
  ping_behind height hash ;?
  drop_offline ;?
  reconnect connect.

(** *** New connections *)

(** [connect_peer]; the state also has the counter of tokens. [false] is an
    error. *)
Definition connect_peer (ruvchain_only : bool) (connect : SocketAddr → bool) (addr : SocketAddr) :
    M (t * Z) Empty_set bool := λ '(ps, unique),
  if bool_decide (is_Some (ignored ps !! ip addr)) then Ok (false, (ps, unique)) else
  if ruvchain_only && negb (is_ruvchain (ip addr)) then Ok (false, (ps, unique)) else
  if connect addr then
    let! (token, unique) := next_token unique in
    let peer := Peer.set_public true (Peer.new now addr Interest.WRITABLE State.Connecting false) in
    Ok (true, (add_peer token peer ps, unique))
  else Ok (false, (ps, unique)).

Definition connect_new_peers (ruvchain_only : bool) (connect : SocketAddr → bool) : M (t * Z) Empty_set unit :=
  let? addrs := mget (λ '(ps, _), dedup (merge_sort (λ a b, socket_leb a b) (new_peers ps))) in
  match addrs with
  | [] => mret tt
  | addr :: rest =>
      mput (λ '(ps, unique),
        (mk (peers ps) rest (ignored ps) (my_id ps) (behind_ping_sent_time ps), unique)) ;?
      let? _ := connect_peer ruvchain_only connect addr in
      mret tt
  end.

(** The inner loop of [connect_peers]; [set] are the addresses connected to. *)
Fixpoint connect_addresses (ruvchain_only : bool) (connect : SocketAddr → bool) (set : list SocketAddr)
    (addresses : list SocketAddr) : M (t * Z) Empty_set (list SocketAddr) :=
  match addresses with
  | [] => mret set
  | addr :: addresses =>
      if bool_decide (addr ∈ set) then connect_addresses ruvchain_only connect set addresses
      else
        let? ok := connect_peer ruvchain_only connect addr in
        connect_addresses ruvchain_only connect (if (ok : bool) then addr :: set else set) addresses
  end.

(** [connect_peers]; [resolve] is the resolver of the system. *)
Fixpoint connect_peers (ruvchain_only : bool) (connect : SocketAddr → bool) (resolve : rstr → list SocketAddr)
    (set : list SocketAddr) (peers_addrs : list rstr) : M (t * Z) Empty_set unit :=
  match peers_addrs with
  | [] => mret tt
  | peer :: peers_addrs =>
      if bool_decide (10 <= length set)%nat then mret tt else
      let? set := connect_addresses ruvchain_only connect set (resolve peer) in
      connect_peers ruvchain_only connect resolve set peers_addrs
  end.
End Update.
End PeersUpdate.
