(* ===== verification/Network.v ===== *)
(** * The network node (src/p2p/network.rs)

    What the node does with a message: the answer, the changes of the peer
    table, of the chain and of the blocks kept for later, and the events posted
    on the bus; then the steps of the event loop: readiness of a socket, a new
    connection, the periodic upkeep. Frames and handshakes are functions of
    bytes. A socket is the bytes that can be read from it and whether writes
    succeed; reads that wait for more bytes are not modelled. *)

From stdpp Require Import fin_maps.
From S2P Require Import Prelude Text Net Commons Buffer Protocol Hash Keystore Block Store Chain Cache Peers PeersUpdate.
Open Scope Z_scope.

Module Event.
Inductive t :=
  | BlockchainChanged (index : Z)
  | NetworkStatus (blocks domains keys : Z) (nodes : nat)
  | Syncing (have height : Z)
  | SyncFinished.
End Event.

(** The settings the node reads. *)
Record config := {
  cfg_app_version : rstr;
  cfg_origin : rstr;
  cfg_public : bool;
  cfg_peers : list rstr;
  cfg_ruvchain_only : bool;
}.

(** *** Frames *)

(** [send_message]: the length, masked, before the data. *)
Definition frame (data : bytes) : bytes :=
  let data_len := wrap 16 (Z.of_nat (length data)) in
  let masked := Z.lxor data_len 43690 in
  [wrap 8 (Z.shiftr masked 8); wrap 8 masked] ++ data.

(** [read_message] when [stream] can be read and no more comes: the data and
    what is left. *)
Definition read_message (stream : bytes) : option (bytes * bytes) :=
  match stream with
  | hi :: lo :: stream =>
      let data_size := Z.to_nat (Z.lxor (Z.lor (Z.shiftl hi 8) lo) 43690) in
      if bool_decide (data_size = 0)%nat then None else
      if bool_decide (data_size <= length stream)%nat then Some (take data_size stream, drop data_size stream) else None
  | _ => None
  end.

(** *** Handshakes: [garbage] is the random filling of the packet *)

Definition client_handshake (garbage public_key : bytes) : bytes :=
  wrap 8 (Z.lxor (wrap 8 (Z.of_nat (length garbage))) 10) :: garbage ++ public_key.
Definition server_handshake (garbage public_key nonce : bytes) : bytes :=
  wrap 8 (Z.lxor (wrap 8 (Z.of_nat (length garbage))) 10) :: garbage ++ public_key ++ nonce.

Definition read_exact (n : nat) (stream : bytes) : option (bytes * bytes) :=
  if bool_decide (n <= length stream)%nat then Some (take n stream, drop n stream) else None.

Definition read_garbage_header (stream : bytes) : option bytes :=
  match stream with
  | size :: stream => snd <$> read_exact (Z.to_nat (Z.lxor size 10)) stream
  | [] => None
  end.
Definition read_client_handshake (stream : bytes) : option (bytes * bytes) :=
  read_garbage_header stream ≫= read_exact 32.
Definition read_server_handshake (stream : bytes) : option (bytes * bytes) :=
  read_garbage_header stream ≫= read_exact (32 + 12).

(** *** Encryption of a connection *)

Definition encode_bytes {W : Wire} (data : bytes) (cipher : option Chacha.t) : option bytes :=
  match cipher with None => Some data | Some chacha => Chacha.encrypt chacha data end.
Definition encode_message {W : Wire} (message : Message.t) (cipher : option Chacha.t) : option bytes :=
  encode_bytes (cbor_of_message message) cipher.
Definition decode_message {W : Wire} (data : bytes) (cipher : option Chacha.t) : option bytes :=
  match cipher with None => Some data | Some chacha => Chacha.decrypt chacha data end.

(** [Ipv6Addr::to_ipv4], for an address of an accepted connection. *)
Definition to_ipv4 (a : Ipv6Addr) : option Ipv4Addr :=
  match a with
  | Ipv6 0 0 0 0 0 f g h =>
      if (f =? 0) || (f =? 65535) then Some (Ipv4 (g / 256) (g mod 256) (h / 256) (h mod 256)) else None
  | _ => None
  end.

(** An event of [mio] for a socket. *)
Record readiness := {
  ev_token : Z;
  ev_readable : bool;
  ev_writable : bool;
  ev_error : bool;
  ev_read_closed : bool;
  ev_write_closed : bool;
}.

(** The last figures posted, [old_blocks] and so on. *)
Record figures := {
  old_blocks : Z;
  old_domains : Z;
  old_keys : Z;
  old_nodes : nat;
  old_banned : nat;
}.

Module Network.
Record t := mk {
  secret_key : bytes;
  public_key : bytes;
  token : Z;
  peers : Peers.t;
  future_blocks : gmap Z Block.t;
  seen_blocks : list bytes;
  chain : Chain.t;
  old : figures;
  (** [post(event)], in order *)
  events : list Event.t;
}.

Definition set_token (n : t) (k : Z) : t :=
  mk (secret_key n) (public_key n) k (peers n) (future_blocks n) (seen_blocks n) (chain n) (old n) (events n).
Definition set_peers (n : t) (p : Peers.t) : t :=
  mk (secret_key n) (public_key n) (token n) p (future_blocks n) (seen_blocks n) (chain n) (old n) (events n).
Definition set_future (n : t) (f : gmap Z Block.t) : t :=
  mk (secret_key n) (public_key n) (token n) (peers n) f (seen_blocks n) (chain n) (old n) (events n).
Definition set_seen (n : t) (s : list bytes) : t :=
  mk (secret_key n) (public_key n) (token n) (peers n) (future_blocks n) s (chain n) (old n) (events n).
Definition set_chain (n : t) (c : Chain.t) : t :=
  mk (secret_key n) (public_key n) (token n) (peers n) (future_blocks n) (seen_blocks n) c (old n) (events n).
Definition set_old (n : t) (o : figures) : t :=
  mk (secret_key n) (public_key n) (token n) (peers n) (future_blocks n) (seen_blocks n) (chain n) o (events n).
Definition post (n : t) (e : Event.t) : t :=
  mk (secret_key n) (public_key n) (token n) (peers n) (future_blocks n) (seen_blocks n) (chain n) (old n) (events n ++ [e]).
Definition see (n : t) (hash : bytes) : t := set_seen n (hash :: seen_blocks n).

(** [Network::new], with the keys and the id that it draws at random. *)
Definition new (secret public : bytes) (my_id : rstr) (c : Chain.t) : t :=
  mk secret public 1 (Peers.new my_id) ∅ [] c
     {| old_blocks := 0; old_domains := 0; old_keys := 0; old_nodes := 0; old_banned := 0 |} [].

(** [get_mut_peer(token).unwrap()] and a change of the peer. *)
Definition with_peer {E} (token : Z) (f : Peer.t → Peer.t) : M t E Peer.t := λ n,
  match Peers.get_peer (peers n) token with
  | Some p => Ok (f p, set_peers n (Peers.add_peer token (f p) (peers n)))
  | None => Panic
  end.

(** An operation of the chain on the chain of the context. An error cannot
    happen or meets an [expect]. *)
Definition on_chain {A} (m : M Chain.t DbError A) : M t Empty_set A := λ n,
  match m (chain n) with
  | Ok (a, c) => Ok (a, set_chain n c)
  | Err _ => Panic
  | Panic => Panic
  | OutOfFuel => OutOfFuel
  end.

(** An operation of the peers, and one that also draws tokens. *)
Definition on_peers {A} (m : M Peers.t Empty_set A) : M t Empty_set A := λ n,
  let! (a, ps) := m (peers n) in Ok (a, set_peers n ps).
Definition on_tokens {A} (m : M (Peers.t * Z) Empty_set A) : M t Empty_set A := λ n,
  let! (a, (ps, k)) := m (peers n, token n) in Ok (a, set_token (set_peers n ps) k).

Section Handlers.
Context {BP : Build} {U : Unicode} {CR : Crypto} {SD : Serde} {HI : HashIter} {CH : Choice} {W : Wire}.
Abbreviation io A := (M t Empty_set A).

(** [Utc::now()] for the chain, in seconds; [Instant::now()] for the peers, in
    nanoseconds; [random] the random choices of the handler. *)
Context (cfg : config) (pkg_version : rstr) (utc_now instant_now : Z) (random_bool : bool) (random_u8 : Z).
(** The fuel of the search for signers in [check_new_block]. *)
Context (fuel : nat).

(** [version_compatible]; [pkg_version] is the version of the package. *)
Definition version_compatible (version : rstr) : bool :=
  match split 46 pkg_version with
  | p0 :: p1 :: _ => starts_with version (p0 ++ str "." ++ p1)
  | _ => false
  end.

Definition emit (e : Event.t) : io unit := mput (λ n, post n e).
Definition update_max_height (h : Z) : io unit := mput (λ n, set_chain n (Chain.update_max_height (chain n) h)).
Definition idle : State.t := State.idle instant_now.

(** The loop over the future blocks that follow a good block: each turn takes
    one block out of the table, so there are at most as many turns as blocks. *)
Fixpoint add_future (turns : nat) (next_index : Z) : io unit := λ n,
  match future_blocks n !! next_index with
  | None => Ok (tt, n)
  | Some block =>
      match turns with
      | O => OutOfFuel
      | S turns =>
          (mput (λ n, set_future n (delete next_index (future_blocks n))) ;?
           let? (quality, block) := on_chain (Chain.check_new_block utc_now fuel block) in
           if bool_decide (quality = Good) then
             on_chain (Chain.add_block block) ;?
             let? next_index := mlift (add_w 64 next_index 1) in
             add_future turns next_index
           else mret tt) n
      end
  end.

(** The branch for a good block. *)
Definition add_good_block (block : Block.t) (peers_count : nat) (max_height : Z) : io unit :=
  let? next_index := mlift (add_w 64 (Block.index block) 1) in
  on_chain (Chain.add_block block) ;?
  let? turns := mget (λ n, size (future_blocks n)) in
  add_future turns next_index ;?
  let? my_height := mget (λ n, Chain.get_height (chain n)) in
  emit (Event.BlockchainChanged my_height) ;?
  (if my_height =? max_height then
     emit Event.SyncFinished ;? mput (λ n, set_future n ∅)
   else emit (Event.Syncing my_height (Z.max max_height my_height))) ;?
  let? c := mget chain in
  emit (Event.NetworkStatus my_height (Chain.get_domains_count c) (Chain.get_users_count c) peers_count).

(** The branch for a forked block; [is_better_than] is computed first. *)
Definition take_fork (block : Block.t) (max_height : Z) : io State.t :=
  let? c := mget chain in
  let? lagged := mlift (if Block.index block =? Chain.get_height c
                        then let! i := add_w 64 (Block.index block) LIMITED_CONFIDENCE_DEPTH in Ok (i <=? max_height)
                        else Ok false) in
  match Chain.get_block c (Block.index block) with
  | None => mpanic
  | Some our_block =>
      let? better := mlift (is_better_than block our_block) in
      if (better : bool) || (lagged : bool) then
        on_chain (Chain.replace_block block) ;?
        let? index := mget (λ n, Chain.get_height (chain n)) in
        emit (Event.BlockchainChanged index) ;?
        mret idle
      else mret (State.message (Message.Block (Block.index our_block) (cbor_of_block our_block)))
  end.

Definition handle_block (token : Z) (block : Block.t) : io State.t :=
  mput (λ n, see n (Block.hash block)) ;?
  let? peers_count := mget (λ n, Peers.get_peers_active_count instant_now (peers n)) in
  let? _ := with_peer token (Peer.set_received_block (Block.index block)) in
  let? max_height := mget (λ n, Chain.get_max_height (chain n)) in
  let? (quality, block) := on_chain (Chain.check_new_block utc_now fuel block) in
  match quality with
  | Good => add_good_block block peers_count max_height ;? mret idle
  | Twin => mret idle
  | Future => mput (λ n, set_future n (<[Block.index block := block]> (future_blocks n))) ;? mret idle
  | Bad =>
      let? height := mget (λ n, Chain.get_height (chain n)) in
      let? next := mlift (add_w 64 height 1) in
      (if next =? Block.index block then update_max_height height ;? emit Event.SyncFinished else mret tt) ;?
      mret State.Banned
  | Rewind =>
      let? prev := mlift (sub_w 64 (Block.index block) 1) in
      mret (State.message (Message.GetBlock prev))
  | Fork => take_fork block max_height
  end.

(** What a peer's height and last hash ask for; [otherwise] when nothing. *)
Definition compare_heights (my_height : Z) (my_hash : bytes) (height : Z) (hash : bytes) (otherwise : State.t) : io State.t :=
  if my_height <? height then
    update_max_height height ;?
    let? next := mlift (add_w 64 my_height 1) in
    mret (State.message (Message.GetBlock next))
  else if (my_height =? height) && negb (bool_decide (hash = my_hash)) then
    mret (State.message (Message.GetBlock my_height))
  else mret otherwise.

Definition handle_message (message : Message.t) (token : Z) : io State.t :=
  let? c := mget chain in
  let my_height := Chain.get_height c in
  let my_hash := Chain.get_last_hash c in
  let my_origin := cfg_origin cfg in
  let my_version := CHAIN_VERSION in
  let? my_id := mget (λ n, Peers.my_id (peers n)) in
  match message with
  | Message.Hand app_version origin version public rand_id =>
      if negb (version_compatible app_version) then let? _ := with_peer token (λ p, p) in mret State.Banned else
      if bool_decide (my_id = rand_id) then mret State.SendLoop else
      if bool_decide (origin = my_origin) then
        let? _ := with_peer token (λ peer,
          if version =? my_version then Peer.set_active instant_now true (Peer.set_public public peer) else peer) in
        mret (State.message (Message.Shake (cfg_app_version cfg) origin my_version (cfg_public cfg) my_id my_height))
      else mret State.Banned
  | Message.Shake app_version origin version public rand_id height =>
      if negb (bool_decide (origin = my_origin)) then mret State.Banned else
      if my_version <? version then mret State.Banned else
      if negb (version =? my_version) then mret State.Banned else
      let? twin := mget (λ n, Peers.is_tween_connect instant_now (peers n) rand_id) in
      if (twin : bool) then mret State.Twin else
      if negb (version_compatible app_version) then let? _ := with_peer token (λ p, p) in mret State.Banned else
      let? nodes := mget (λ n, Peers.get_peers_active_count instant_now (peers n)) in
      let? _ := with_peer token (λ peer,
        Peer.reset_reconnects (Peer.set_public public (Peer.set_active instant_now true (Peer.set_height height peer)))) in
      (if my_height <? height
       then update_max_height height ;? emit (Event.Syncing my_height (Z.max height my_height))
       else mret tt) ;?
      mret (if (Z.of_nat nodes <? MAX_NODES) && random_bool then State.message Message.GetPeers else idle)
  | Message.Error => mret State.Error
  | Message.Ping height hash =>
      let? _ := with_peer token (λ peer, Peer.set_active instant_now true (Peer.set_height height peer)) in
      let? seen := mget seen_blocks in
      let pong := State.message (Message.Pong my_height my_hash) in
      if bool_decide (hash ∈ seen) then mret pong else
      compare_heights my_height my_hash height hash pong
  | Message.Pong height hash =>
      let? active_count := mget (λ n, Peers.get_peers_active_count instant_now (peers n)) in
      let? _ := with_peer token (λ peer, Peer.set_active instant_now true (Peer.set_height height peer)) in
      let? seen := mget seen_blocks in
      if bool_decide (hash ∈ seen) then mret idle else
      compare_heights my_height my_hash height hash
        (if (Z.of_nat active_count <? MAX_NODES) && (random_u8 <? 50) then State.message Message.GetPeers else idle)
  | Message.GetPeers =>
      let? peer := with_peer token (Peer.set_active instant_now true) in
      let? names := mget (λ n, Peers.get_peers_for_exchange instant_now (peers n) (Peer.addr peer)) in
      mret (State.message (Message.Peers names))
  | Message.Peers new_peers =>
      let? _ := with_peer token (Peer.set_active instant_now true) in
      mput (λ n, set_peers n (Peers.add_peers_from_exchange new_peers (peers n))) ;?
      mret idle
  | Message.GetBlock index =>
      let? _ := with_peer token (Peer.set_active instant_now true) in
      match Chain.get_block c index with
      | Some block => mret (State.message (Message.Block (Block.index block) (cbor_of_block block)))
      | None => mret State.Error
      end
  | Message.Block index data =>
      let? _ := with_peer token (Peer.set_active instant_now true) in
      match cbor_block data with
      | None => mret State.Banned
      | Some block =>
          if negb (index =? Block.index block) then mret State.Banned else
          let? seen := mget seen_blocks in
          if bool_decide (Block.hash block ∈ seen) then mret idle else handle_block token block
      end
  | Message.Twin => mret State.Twin
  | Message.Loop => mret State.Loop
  end.

(** The end of [process_readable]: what the answer does to the peer. [false]
    closes the connection. *)
Definition apply_state (token : Z) (new_state : State.t) : io bool :=
  let? _ := with_peer token (λ p, p) in
  match new_state with
  | State.Message data =>
      let? _ := with_peer token (λ p, Peer.set_state (State.Message data) (Peer.set_stream Interest.WRITABLE p)) in
      mret true
  | State.Idle _ => let? _ := with_peer token (Peer.set_state idle) in mret true
  | State.Banned => on_peers (λ ps, let! ps := Peers.ignore_peer instant_now token ps in Ok (tt, ps)) ;? mret true
  | State.Offline _ => let? _ := with_peer token (Peer.set_state (State.offline instant_now)) in mret true
  | State.Loop =>
      let? _ := with_peer token (Peer.set_state State.Loop) in
      on_peers (λ ps, let! ps := Peers.ignore_peer instant_now token ps in Ok (tt, ps)) ;? mret true
  | State.SendLoop =>
      let? _ := with_peer token (λ p, Peer.set_state State.SendLoop (Peer.set_stream Interest.BOTH p)) in mret true
  | State.Twin => let? _ := with_peer token (Peer.set_state State.Twin) in mret false
  | _ => mret true
  end.

(** The message in the bytes of a frame. *)
Definition received (token : Z) (data : bytes) (n : t) : option Message.t :=
  cbor_message match Peers.get_peer (peers n) token with
               | Some peer => default [] (decode_message data (Peer.cipher peer))
               | None => []
               end.

Definition process_message (token : Z) (data : bytes) : io bool :=
  let? message := mget (received token data) in
  match message with
  | Some message => let? new_state := handle_message message token in apply_state token new_state
  | None => let? _ := with_peer token (λ p, p) in mret false
  end.

(** [process_readable]; [input] are the bytes that can be read, [nonce] the
    random nonce of the connection. *)
Definition process_readable (token : Z) (read_closed : bool) (input nonce : bytes) : io bool :=
  let? peer := mget (λ n, Peers.get_peer (peers n) token) in
  match peer with
  | None => mret false
  | Some peer =>
      if read_closed then mret false else
      match Peer.state peer with
      | State.Connected _ =>
          match read_client_handshake input with
          | Some (key, _) =>
              let? secret := mget secret_key in
              let chacha := Chacha.new (diffie_hellman secret key) nonce in
              let? _ := with_peer token (λ p, Peer.set_state (State.ServerHandshake instant_now)
                          (Peer.set_cipher chacha (Peer.set_stream Interest.WRITABLE p))) in
              mret true
          | None => mret false
          end
      | State.ServerHandshake _ =>
          match read_server_handshake input with
          | Some (data, _) =>
              if negb (bool_decide (length data = 32 + 12)%nat) then mret false else
              let? secret := mget secret_key in
              let chacha := Chacha.new (diffie_hellman secret (take 32 data)) (drop 32 data) in
              let? _ := with_peer token (λ p, Peer.set_state State.HandshakeFinished
                          (Peer.set_cipher chacha (Peer.set_stream Interest.WRITABLE p))) in
              mret true
          | None => mret false
          end
      | _ =>
          match read_message input with
          | Some (data, _) => process_message token data
          | None => mret false
          end
      end
  end.

(** A message that must be encrypted, [encode_message(..).unwrap()]. *)
Definition encoded (message : Message.t) (peer : Peer.t) : io bytes :=
  match encode_message message (Peer.cipher peer) with Some data => mret data | None => mpanic end.

(** The [match] of [process_writable]: [None] is its early return, else the
    peer as it leaves it; and the bytes written. *)
Definition write_state (garbage : bytes) (write_ok : bool) (peer : Peer.t) : io (option Peer.t * bytes) :=
  let? n := mget (λ n, n) in
  let active := Peer.set_active instant_now true in
  match Peer.state peer with
  | State.Connecting =>
      if write_ok then
        mret (Some (active (Peer.set_state (State.ServerHandshake instant_now) peer)),
              client_handshake garbage (public_key n))
      else mret (None, [])
  | State.ServerHandshake _ =>
      if write_ok then
        mret (Some (active (Peer.set_state State.HandshakeFinished peer)),
              server_handshake garbage (public_key n) (Peer.get_nonce peer))
      else mret (None, [])
  | State.HandshakeFinished =>
      let? data := encoded (Message.Hand (cfg_app_version cfg) (cfg_origin cfg) CHAIN_VERSION (cfg_public cfg)
                              (Peers.my_id (peers n))) peer in
      mret (Some (active (Peer.set_state idle peer)), if write_ok then frame data else [])
  | State.Message data =>
      mret (Some (Peer.set_state idle peer),
            match encode_bytes data (Peer.cipher peer) with
            | Some data => if write_ok then frame data else []
            | None => []
            end)
  | State.Idle from =>
      if 120 <=? elapsed_secs instant_now from then
        let? data := encoded (Message.Ping (Chain.get_height (chain n)) (Chain.get_last_hash (chain n))) peer in
        mret (Some peer, if write_ok then frame data else [])
      else mret (Some peer, [])
  | State.SendLoop =>
      let? data := encoded Message.Loop peer in
      mret (Some (Peer.set_state idle peer), if write_ok then frame data else [])
  | State.Twin =>
      let? data := encoded Message.Twin peer in
      mret (Some (Peer.set_state idle peer), if write_ok then frame data else [])
  | _ => mret (Some peer, [])
  end.

(** [process_writable]: [false] closes the connection; and the bytes written. *)
Definition process_writable (token : Z) (garbage : bytes) (write_ok : bool) : io (bool * bytes) :=
  let? peer := mget (λ n, Peers.get_peer (peers n) token) in
  match peer with
  | None => mret (true, [])
  | Some peer =>
      let? (peer, sent) := write_state garbage write_ok peer in
      match peer with
      | None => mret (false, sent)
      | Some peer =>
          mput (λ n, set_peers n (Peers.add_peer token (Peer.set_stream Interest.READABLE peer) (peers n))) ;?
          mret (true, sent)
      end
  end.

Definition handle_connection_event (ev : readiness) (input nonce garbage : bytes) (write_ok : bool) : io (bool * bytes) :=
  if ev_error ev || (ev_read_closed ev && ev_write_closed ev) then mret (false, []) else
  let? go_on := (if ev_readable ev then process_readable (ev_token ev) (ev_read_closed ev) input nonce else mret true) in
  if negb go_on then mret (false, []) else
  if ev_writable ev then process_writable (ev_token ev) garbage write_ok else mret (true, []).

(** ** The event loop *)

Definition network_status (nodes : nat) (n : t) : Event.t :=
  Event.NetworkStatus (Chain.get_height (chain n)) (Chain.get_domains_count (chain n))
    (Chain.get_users_count (chain n)) nodes.

(** An event of a connection; the bytes written. *)
Definition on_event (ev : readiness) (input nonce garbage : bytes) (write_ok : bool) : io bytes :=
  let? (go_on, sent) := handle_connection_event ev input nonce garbage write_ok in
  if (go_on : bool) then mret sent else
  mput (λ n, set_peers n (Peers.close_peer instant_now (ev_token ev) (peers n))) ;?
  mput (λ n, post n (network_status (Peers.get_peers_active_count instant_now (peers n)) n)) ;?
  mret sent.

(** A connection is accepted. *)
Definition on_accept (address : SocketAddr) : io unit :=
  let address :=
    match ip address with
    | V6 ipv6 => match to_ipv4 ipv6 with
                 | Some ipv4 => {| ip := V4 ipv4; port := port address |}
                 | None => address
                 end
    | V4 _ => address
    end in
  let? banned := mget (λ n, Peers.is_ignored (peers n) (ip address)) in
  if (banned : bool) then mret tt else
  if cfg_ruvchain_only cfg && negb (is_ruvchain (ip address)) then mret tt else
  let? current := mget token in
  let? (token, after) := mlift (next_token current) in
  let peer := Peer.new instant_now address Interest.READABLE (State.Connected instant_now) true in
  mput (λ n, set_peers (set_token n after) (Peers.add_peer token peer (peers n))).

(** The connections to the configured peers, at the start and when no peer is
    left. *)
Definition start_swarm (connect : SocketAddr → bool) (resolve : rstr → list SocketAddr) : io unit :=
  on_tokens (PeersUpdate.connect_peers instant_now (cfg_ruvchain_only cfg) connect resolve [] (cfg_peers cfg)).

(** Nothing came for [MAX_IDLE_SECONDS]. *)
Definition close_swarm : io unit :=
  mput (λ n, set_peers n (Peers.close_all_peers instant_now (peers n))).

(** The new figures are posted when they have changed. *)
Definition post_figures : io unit := mput (λ n,
  let c := chain n in
  let nodes := Peers.get_peers_active_count instant_now (peers n) in
  let now := {| old_blocks := Chain.get_height c; old_domains := Chain.get_domains_count c;
                old_keys := Chain.get_users_count c; old_nodes := nodes;
                old_banned := Peers.get_peers_banned_count (peers n) |} in
  if negb (old_nodes (old n) =? nodes)%nat || negb (old_blocks (old n) =? old_blocks now) ||
     negb (old_banned (old n) =? old_banned now)%nat || negb (old_domains (old n) =? old_domains now) ||
     negb (old_keys (old n) =? old_keys now)
  then set_old (post n (network_status nodes n)) now else n).

(** The periodic upkeep. [log_due] and [connect_due] are the two timers. *)
Definition on_timer (log_due connect_due : bool) (random_time : Z) (ask : Z → bool) (ask_blocks : bool)
    (connect : SocketAddr → bool) : io unit :=
  let? height := mget (λ n, Chain.get_height (chain n)) in
  let? max_height := mget (λ n, Chain.get_max_height (chain n)) in
  let? nodes := mget (λ n, Peers.get_peers_active_count instant_now (peers n)) in
  post_figures ;?
  (if log_due then mput (λ n, set_seen n []) else mret tt) ;?
  (if (Z.of_nat nodes <? MAX_NODES) && connect_due
   then on_tokens (PeersUpdate.connect_new_peers instant_now (cfg_ruvchain_only cfg) connect)
   else mret tt) ;?
  let? hash := mget (λ n, Chain.get_last_hash (chain n)) in
  let? have_blocks := mget (λ n, Block.index <$> (map_to_list (future_blocks n)).*2) in
  on_peers (PeersUpdate.update instant_now utc_now random_time ask ask_blocks connect hash height max_height have_blocks).
End Handlers.
End Network.
