(* ===== verification/NetworkProps.v ===== *)
(** * What peers can do to a node (src/p2p/network.rs)

    Every message a peer can send changes the chain of the node only by the
    steps of [ChainProps.chain_step]: the handlers refine that relation. The
    other theorems are about the frames and about what the handlers take on
    trust. *)

From stdpp Require Import fin_maps.
From S2P Require Import Prelude Text Net Commons Buffer Protocol Hash Keystore Block Store Chain Cache Peers PeersUpdate Network.
From S2P Require Import ChainFacts ChainProps.
Open Scope Z_scope.
Import Network.

Section Handlers.
Context {BP : Build} {U : Unicode} {CR : Crypto} {SD : Serde} {HI : HashIter} {CH : Choice} {W : Wire}.
Context (cfg : config) (pkg_version : rstr) (utc_now instant_now : Z) (random_bool : bool) (random_u8 : Z).
Context (fuel : nat).

(** ** Steps of the node *)

(** The blocks kept for later have the integer types the chain relies on. *)
Definition future_typed (n : t) : Prop := map_Forall (λ _ b, typed b) (future_blocks n).

(** What a peer is, apart from its figures. *)
Definition conn (p : Peer.t) : SocketAddr * rstr * State.t * Interest.t * option Chacha.t :=
  (Peer.addr p, Peer.id p, Peer.state p, Peer.stream p, Peer.cipher p).
Definition conns (n : t) : bytes * gmap Z _ := (public_key n, conn <$> Peers.peers (peers n)).

(** From [n] to [n']: the chain made some of its steps, and the connections are
    as they were. *)
Definition moves (n n' : t) : Prop :=
  future_typed n → future_typed n' ∧ rtc chain_step (chain n) (chain n') ∧ conns n' = conns n.

#[local] Instance moves_preorder : PreOrder moves.
Proof.
  split; [by intros n Hn|]. intros n1 n2 n3 H1 H2 Hn. destruct (H1 Hn) as (Hn2 & ? & ?).
  destruct (H2 Hn2) as (? & ? & ?). split; [done|]. split; [by etransitivity|congruence].
Qed.
Abbreviation Moves := (Steps moves).

Lemma moves_emit e : Moves (emit e).
Proof. by apply steps_put. Qed.

Lemma moves_height h : Moves (update_max_height h).
Proof. apply steps_put. intros n Hn. split; [done|]. split; [|done]. apply rtc_once. constructor. Qed.

(** Only the figures of a peer change. *)
Lemma moves_with_peer {E} token f : (∀ p, conn (f p) = conn p) → Moves (with_peer (E := E) token f).
Proof.
  intros Hf n p n' Hr Hn. unfold with_peer in Hr.
  destruct (Peers.get_peer (peers n) token) as [p0|] eqn:Hp0; [|done]. injection Hr as _ <-.
  split; [done|]. split; [done|]. unfold conns. cbn. f_equal. rewrite fmap_insert, Hf. apply insert_id.
  rewrite lookup_fmap. unfold Peers.get_peer in Hp0. by rewrite Hp0.
Qed.

(** ** Blocks *)

(** A verdict keeps the contents of a block. *)
Lemma check_block_typed now b c q b' c' :
  Chain.check_new_block now fuel b c = Ok ((q, b'), c') → typed b → typed b'.
Proof.
  intros [->|[g Hg]]%check_block_same Hty; [done|by eapply typed_hash_check].
Qed.

Lemma on_chain_inv {A} (m : M Chain.t Chain.DbError A) n a n' :
  on_chain m n = Ok (a, n') → ∃ c', m (chain n) = Ok (a, c') ∧ n' = set_chain n c'.
Proof. unfold on_chain. destruct (m (chain n)) as [[a' c']| | |]; try done. intros [= <- <-]. eauto. Qed.

Lemma moves_check now b n r n' : on_chain (Chain.check_new_block now fuel b) n = Ok (r, n') → moves n n'.
Proof.
  intros (c' & Hc & ->)%on_chain_inv Hn. destruct r as [q b']. split; [done|]. split; [|done].
  apply rtc_once. by eapply step_check.
Qed.

(** The check and the addition of a block are one step of the chain. *)
Lemma moves_add now b b' n n1 n2 : typed b →
  on_chain (Chain.check_new_block now fuel b) n = Ok ((Good, b'), n1) →
  on_chain (Chain.add_block b') n1 = Ok (tt, n2) → moves n n2.
Proof.
  intros Hty (c1 & Hc & ->)%on_chain_inv (c2 & Ha & ->)%on_chain_inv Hn. split; [done|]. split; [|done].
  apply rtc_once. by eapply step_add.
Qed.
Lemma moves_replace now b b' n n1 n2 : typed b →
  on_chain (Chain.check_new_block now fuel b) n = Ok ((Fork, b'), n1) →
  on_chain (Chain.replace_block b') n1 = Ok (tt, n2) → moves n n2.
Proof.
  intros Hty (c1 & Hc & ->)%on_chain_inv (c2 & Ha & ->)%on_chain_inv Hn. split; [done|]. split; [|done].
  apply rtc_once. by eapply step_replace.
Qed.

Lemma check_typed now b n q b' n' :
  on_chain (Chain.check_new_block now fuel b) n = Ok ((q, b'), n') → typed b → typed b'.
Proof. intros (c' & Hc & ->)%on_chain_inv. by eapply check_block_typed. Qed.

Lemma moves_set_future {E} (f : gmap Z Block.t → gmap Z Block.t) :
  (∀ m, map_Forall (λ _ b, typed b) m → map_Forall (λ _ b, typed b) (f m)) →
  Moves (mput (E := E) (λ n, set_future n (f (future_blocks n)))).
Proof. intros Hf. apply steps_put. intros n Hn. split; [by apply Hf|done]. Qed.

Lemma moves_set_empty {E} : Moves (mput (E := E) (λ n, set_future n ∅)).
Proof. apply (moves_set_future (λ _, ∅)). intros. apply map_Forall_empty. Qed.

Lemma moves_future turns : ∀ i, Moves (add_future utc_now fuel turns i).
Proof.
  induction turns as [|turns IH]; intros i n a n' Hr; simpl in Hr;
    destruct (future_blocks n !! i) as [b|] eqn:Hb; try (injection Hr as <- <-; reflexivity); [done|].
  intros Hn. pose proof (Hn i b Hb) as Hty. revert Hn. change (moves n n').
  apply mbind_inv in Hr as ([] & n1 & [= <-] & Hr). apply mbind_inv in Hr as ([q b'] & n2 & Hc & Hr).
  etransitivity.
  { refine (moves_set_future (E := Empty_set) (delete i) _ n tt _ eq_refl). intros m Hm. by apply map_Forall_delete. }
  case_bool_decide as Hq; [subst q|injection Hr as <- <-; by eapply moves_check].
  apply mbind_inv in Hr as ([] & n3 & Ha & Hr). etransitivity; [exact (moves_add _ _ _ _ _ _ Hty Hc Ha)|].
  apply mbind_inv in Hr as (j & n4 & Hj & Hr). etransitivity; [by eapply (steps_lift moves)|]. by eapply IH.
Qed.

#[local] Hint Resolve moves_emit moves_height moves_future moves_set_empty : steps.
#[local] Hint Extern 1 (Steps moves (with_peer _ _)) => apply moves_with_peer; intros ?; first [reflexivity | by case_match] : steps.
#[local] Hint Extern 1 (Steps moves (mput (λ n, set_future n _))) => apply moves_set_future; intros ? ?;
  first [done | by apply map_Forall_empty | by apply map_Forall_insert_2] : steps.

Lemma moves_good_block b b' count height n n1 a n2 : typed b →
  on_chain (Chain.check_new_block utc_now fuel b) n = Ok ((Good, b'), n1) →
  add_good_block utc_now fuel b' count height n1 = Ok (a, n2) → moves n n2.
Proof.
  intros Hty Hc Hr. apply mbind_inv in Hr as (i & n3 & [_ ->]%mlift_inv & Hr).
  apply mbind_inv in Hr as ([] & n4 & Ha & Hr). etransitivity; [by eapply moves_add|].
  run_steps Hr. steps.
Qed.

Lemma moves_fork b b' height n n1 a n2 : typed b →
  on_chain (Chain.check_new_block utc_now fuel b) n = Ok ((Fork, b'), n1) →
  take_fork instant_now b' height n1 = Ok (a, n2) → moves n n2.
Proof.
  intros Hty Hc Hr. apply mbind_inv in Hr as (c & n3 & [= <- <-] & Hr).
  apply mbind_inv in Hr as (lagged & n3 & [_ ->]%mlift_inv & Hr).
  destruct (Chain.get_block _ _) as [mine|]; [|done].
  apply mbind_inv in Hr as (better & n3 & [_ ->]%mlift_inv & Hr).
  destruct (better || lagged); [|injection Hr as <- <-; by eapply moves_check].
  apply mbind_inv in Hr as ([] & n4 & Ha & Hr). etransitivity; [by eapply moves_replace|].
  run_steps Hr. steps.
Qed.

Lemma moves_handle_block token b : typed b → Moves (handle_block utc_now instant_now fuel token b).
Proof.
  intros Hty n s n' Hr. unfold handle_block in Hr.
  apply mbind_inv in Hr as ([] & n1 & [= <-] & Hr). apply mbind_inv in Hr as (count & n1 & [= <- <-] & Hr).
  apply mbind_inv in Hr as (p & n1 & Hp & Hr). etransitivity; [|clear Hp].
  { assert (Moves (with_peer (E := Empty_set) token (Peer.set_received_block (Block.index b)))) as Hm by steps.
    exact (Hm _ _ _ Hp). }
  apply mbind_inv in Hr as (height & n2 & [= <- <-] & Hr).
  apply mbind_inv in Hr as ([q b'] & n2 & Hc & Hr).
  pose proof (check_typed _ _ _ _ _ _ Hc Hty) as Hty'.
  destruct q; try solve [etransitivity; [by eapply moves_check|]; run_steps Hr; steps].
  - apply mbind_inv in Hr as ([] & n3 & Hg & Hr). injection Hr as _ <-. exact (moves_good_block _ _ _ _ _ _ _ _ Hty Hc Hg).
  - exact (moves_fork _ _ _ _ _ _ _ Hty Hc Hr).
Qed.

(** ** Messages *)

(** The block of a message has the integer types the chain relies on. *)
Definition msg_typed (m : Message.t) : Prop :=
  match m with Message.Block _ data => ∀ b, cbor_block data = Some b → typed b | _ => True end.

Lemma moves_compare h hash h' hash' s : Moves (compare_heights h hash h' hash' s).
Proof. unfold compare_heights. steps. Qed.

Lemma exchange_peers names ps : Peers.peers (Peers.add_peers_from_exchange names ps) = Peers.peers ps.
Proof.
  unfold Peers.add_peers_from_exchange. generalize (hash_iter (remove_dups names)) as l. intros l. revert ps.
  induction l as [|x l IH]; intros ps; [done|]. simpl. rewrite IH. unfold Peers.add_exchanged. by repeat case_match.
Qed.

Lemma moves_exchange names : Moves (mput (E := Empty_set) (λ n, set_peers n (Peers.add_peers_from_exchange names (peers n)))).
Proof.
  apply steps_put. intros n Hn. split; [done|]. split; [done|]. unfold conns. cbn. by rewrite exchange_peers.
Qed.

Lemma moves_message m token : msg_typed m →
  Moves (handle_message cfg pkg_version utc_now instant_now random_bool random_u8 fuel m token).
Proof.
  intros Hm. unfold handle_message. apply steps_bind; [apply _|apply steps_get; apply _|intros c].
  apply steps_bind; [apply _|apply steps_get; apply _|intros my_id].
  destruct m; try (steps; first [apply moves_compare | apply moves_exchange | by case_match; steps]).
  apply steps_bind; [apply _|steps|intros p]. destruct (cbor_block block) as [b|] eqn:Hb; [|apply steps_ret; apply _].
  apply steps_if; [apply steps_ret; apply _|]. apply steps_bind; [apply _|apply steps_get; apply _|intros seen].
  apply steps_if; [apply steps_ret; apply _|]. by apply moves_handle_block, Hm.
Qed.

(** ** Answers *)

Lemma with_peer_run {E} token (f : Peer.t → Peer.t) n p : Peers.peers (peers n) !! token = Some p →
  with_peer (E := E) token f n = Ok (f p, set_peers n (Peers.add_peer token (f p) (peers n))).
Proof. intros Hp. unfold with_peer, Peers.get_peer. by rewrite Hp. Qed.

Lemma height_next {E} c : wf c → add_w (E := E) 64 (Chain.get_height c) 1 = Ok (Chain.get_height c + 1).
Proof. intros Hwf%height_bound. apply arith_fits. unfold is_u, MAX in *. lia. Qed.

(** Only the height of the others changes in the chain. *)
Definition same_chain (c c' : Chain.t) : Prop := c' = c ∨ ∃ h, Chain.get_height c < h ∧ c' = Chain.update_max_height c h.

(** [m] gives an answer and leaves the chain [c], but for the noted height. *)
Definition Answers {A} (c : Chain.t) (m : M t Empty_set A) (n : t) : Prop :=
  ∃ a n', m n = Ok (a, n') ∧ same_chain c (chain n').

Lemma answers_ret {A} c (a : A) n : same_chain c (chain n) → Answers c (mret a) n.
Proof. intros Hc. by exists a, n. Qed.
Lemma answers_bind {A B} c (m : M t Empty_set A) (k : A → M t Empty_set B) n a n1 :
  m n = Ok (a, n1) → Answers c (k a) n1 → Answers c (mbind_ m k) n.
Proof. intros Hm (b & n' & Hk & Hc). exists b, n'. by rewrite (mbind_run _ _ _ _ _ Hm). Qed.
Lemma answers_if {A} c (b : bool) (m1 m2 : M t Empty_set A) n :
  Answers c m1 n → Answers c m2 n → Answers c (if b then m1 else m2) n.
Proof. by destruct b. Qed.

Lemma answers_compare c n h hash h' hash' s : wf c → h = Chain.get_height c → chain n = c →
  Answers c (compare_heights h hash h' hash' s) n.
Proof.
  intros Hwf -> Hc. unfold compare_heights. destruct (Z.ltb_spec (Chain.get_height c) h').
  - eapply answers_bind; [reflexivity|]. eapply answers_bind; [unfold mlift; by rewrite height_next|].
    apply answers_ret. right. exists h'. cbn. by rewrite Hc.
  - apply answers_if; apply answers_ret; by left.
Qed.

(** One step of an answer for a peer of the table. *)
Ltac answers Hp :=
  repeat first
    [ apply answers_ret; by left | by apply answers_compare | apply answers_if
    | eapply answers_bind; [first [by apply with_peer_run, Hp | reflexivity]|] ].

(** C28: a peer cannot make the node panic by a message that carries no block,
    nor change its chain: whatever the other messages say, the handler gives an
    answer, and of the chain only the noted height of the others may change. *)
Theorem answers_total m token p n :
  wf (chain n) → Peers.peers (peers n) !! token = Some p → (∀ index data, m ≠ Message.Block index data) →
  ∃ s n', handle_message cfg pkg_version utc_now instant_now random_bool random_u8 fuel m token n = Ok (s, n') ∧
    same_chain (chain n) (chain n').
Proof.
  intros Hwf Hp Hm. change (Answers (chain n)
    (handle_message cfg pkg_version utc_now instant_now random_bool random_u8 fuel m token) n).
  unfold handle_message. do 2 (eapply answers_bind; [reflexivity|]).
  destruct m as [| | |height hash|height hash| | | | |index|]; try (answers Hp; fail).
  all: try by destruct (Hm _ _ eq_refl).
  - answers Hp. destruct (Z.ltb_spec (Chain.get_height (chain n)) height).
    + eapply answers_bind; [reflexivity|]. apply answers_ret. right. by exists height.
    + answers Hp.
  - answers Hp. destruct (Chain.get_block _ _); answers Hp.
Qed.

(** ** What a block does *)

Lemma on_chain_run {A} (m : M Chain.t Chain.DbError A) n a c :
  m (chain n) = Ok (a, c) → on_chain m n = Ok (a, set_chain n c).
Proof. intros Hm. unfold on_chain. by rewrite Hm. Qed.

(** The node after the first lines of [handle_block]. *)
Definition noted (token : Z) (b : Block.t) (p : Peer.t) (n : t) : t :=
  set_peers (see n (Block.hash b)) (Peers.add_peer token (Peer.set_received_block (Block.index b) p) (peers n)).

(** The run of [handle_block] up to the verdict. *)
Lemma handle_block_run token b p n q b' c1 :
  Peers.peers (peers n) !! token = Some p → Chain.check_new_block utc_now fuel b (chain n) = Ok ((q, b'), c1) →
  handle_block utc_now instant_now fuel token b n =
  match q with
  | Good => add_good_block utc_now fuel b' (Peers.get_peers_active_count instant_now (peers n))
              (Chain.get_max_height (chain n)) ;? mret (idle instant_now)
  | Twin => mret (idle instant_now)
  | Future => mput (λ n, set_future n (<[Block.index b' := b']> (future_blocks n))) ;? mret (idle instant_now)
  | Bad =>
      let? height := mget (λ n, Chain.get_height (chain n)) in
      let? next := mlift (add_w 64 height 1) in
      (if next =? Block.index b' then update_max_height height ;? emit Event.SyncFinished else mret tt) ;?
      mret State.Banned
  | Rewind =>
      let? prev := mlift (sub_w 64 (Block.index b') 1) in
      mret (State.message (Message.GetBlock prev))
  | Fork => take_fork instant_now b' (Chain.get_max_height (chain n))
  end (set_chain (noted token b p n) c1).
Proof.
  intros Hp Hc. unfold handle_block. rewrite (mbind_run _ _ _ _ _ eq_refl), (mbind_run _ _ _ _ _ eq_refl).
  erewrite mbind_run; [|by apply with_peer_run]. rewrite (mbind_run _ _ _ _ _ eq_refl).
  erewrite mbind_run; [|by apply on_chain_run]. reflexivity.
Qed.

(** The choice between forks. A forked block replaces our block with the
    same number exactly when [is_better_than] says so, or when our block is the
    last one and some peer has claimed a height at least four blocks above it;
    that height is what a message said, not what was seen. Otherwise the block of
    the peer is dropped and ours is sent in answer. *)
Theorem fork_decision token b p n b' c1 mine better :
  wf (chain n) → typed b → Peers.peers (peers n) !! token = Some p →
  Chain.check_new_block utc_now fuel b (chain n) = Ok ((Fork, b'), c1) →
  Chain.get_block (chain n) (Block.index b) = Some mine → is_better_than (E := Empty_set) b' mine = Ok better →
  ∃ s n', handle_block utc_now instant_now fuel token b n = Ok (s, n') ∧ wf (chain n') ∧
  (seen_blocks n' = Block.hash b :: seen_blocks n ∧ peers n' = peers (noted token b p n) ∧ future_blocks n' = future_blocks n) ∧
  if better || ((Block.index b =? Chain.get_height (chain n)) &&
                (Block.index b + LIMITED_CONFIDENCE_DEPTH <=? Chain.get_max_height (chain n)))
  then s = idle instant_now ∧ Chain.get_height (chain n') = Block.index b ∧ Chain.last_block (chain n') = Some b' ∧
       events n' = events n ++ [Event.BlockchainChanged (Block.index b)] ∧
       Chain.replace_block b' c1 = Ok (tt, chain n')
  else s = State.message (Message.Block (Block.index mine) (cbor_of_block mine)) ∧
       Chain.db (chain n') = Chain.db (chain n) ∧ Chain.last_block (chain n') = Chain.last_block (chain n) ∧
       events n' = events n.
Proof.
  intros Hwf Hty Hp Hc Hmine Hbetter. rewrite (handle_block_run _ _ _ _ _ _ _ Hp Hc).
  destruct (fork_added _ _ _ _ _ _ Hwf Hty Hc) as (c2 & Hrep & Ha & Hwf2).
  destruct (fork_replaces _ _ _ _ _ _ Hwf Hty Hc) as (Hi & _). pose proof (height_bound _ Hwf).
  destruct (check_block_inv _ _ _ _ _ _ _ _ _ Hc Fork_kept) as (-> & _).
  pose proof (check_cache _ _ _ _ _ _ _ _ _ Hc) as Hcache.
  destruct (same_cache_reads _ _ Hcache) as (Hdb & Hl & _ & _ & _ & Hmh).
  unfold take_fork. rewrite (mbind_run _ _ _ _ _ eq_refl). cbn [chain set_chain Block.index set_hash_good].
  assert (Chain.get_height c1 = Chain.get_height (chain n)) as Hh by (unfold Chain.get_height; by rewrite Hl).
  assert (Chain.get_block c1 (Block.index b) = Some mine) as Hm1 by (unfold Chain.get_block in *; by rewrite Hdb).
  rewrite Hh, Hm1.
  set (lagged := (Block.index b =? Chain.get_height (chain n)) && (Block.index b + LIMITED_CONFIDENCE_DEPTH <=? Chain.get_max_height (chain n))).
  erewrite mbind_run; [|instantiate (2 := lagged); unfold mlift, lagged; destruct (_ =? _); [|reflexivity];
    unfold add_w; rewrite arith_fits by (unfold is_u, MAX, LIMITED_CONFIDENCE_DEPTH in *; lia); reflexivity].
  erewrite mbind_run; [|unfold mlift; rewrite Hbetter; reflexivity].
  destruct (better || lagged).
  - erewrite mbind_run; [|by apply on_chain_run]. eexists _, _. split; [reflexivity|]. split; [done|]. split; [done|].
    cbn. destruct Ha as [_ Hlast _ _ _]. unfold Chain.get_height. by rewrite Hlast.
  - eexists _, _. split; [reflexivity|]. split; [by apply (wf_same_cache _ _ Hcache)|]. by split.
Qed.

Lemma add_future_stop turns i n : future_blocks n !! i = None → add_future utc_now fuel turns i n = Ok (tt, n).
Proof. intros Hi. destruct turns; simpl; by rewrite Hi. Qed.

(** The events after a good block. *)
Definition announced (n : t) (max_height : Z) (count : nat) : t :=
  let h := Chain.get_height (chain n) in
  let n1 := post n (Event.BlockchainChanged h) in
  let n2 := if h =? max_height then set_future (post n1 Event.SyncFinished) ∅
            else post n1 (Event.Syncing h (Z.max max_height h)) in
  post n2 (Event.NetworkStatus h (Chain.get_domains_count (chain n)) (Chain.get_users_count (chain n)) count).

Lemma add_good_runs b count max_height n c n1 : is_u64 (Block.index b + 1) →
  Chain.add_block b (chain n) = Ok (tt, c) →
  add_future utc_now fuel (size (future_blocks n)) (Block.index b + 1) (set_chain n c) = Ok (tt, n1) →
  add_good_block utc_now fuel b count max_height n = Ok (tt, announced n1 max_height count).
Proof.
  intros Hfit Hadd Hnext. unfold add_good_block, announced. unfold add_w.
  erewrite mbind_run; [|unfold mlift; rewrite arith_fits by done; reflexivity].
  erewrite mbind_run; [|by apply on_chain_run]. rewrite (mbind_run _ _ _ _ _ eq_refl).
  rewrite (mbind_run _ _ _ _ _ Hnext), !(mbind_run _ _ _ _ _ eq_refl). by destruct (_ =? max_height).
Qed.

Lemma add_good_run b count max_height n c : is_u64 (Block.index b + 1) →
  Chain.add_block b (chain n) = Ok (tt, c) → future_blocks n !! (Block.index b + 1) = None →
  add_good_block utc_now fuel b count max_height n = Ok (tt, announced (set_chain n c) max_height count).
Proof. intros. by apply (add_good_runs b count max_height n c), add_future_stop. Qed.

(** A good block. It is added, the height grows by one, and when no block
    kept for later follows it the events say so: the new height, the end of the
    sync (which forgets the blocks kept for later) or its progress, and the
    figures of the node. *)
Theorem good_block_taken token b p n b' c1 :
  wf (chain n) → typed b → numbered b → Peers.peers (peers n) !! token = Some p →
  Chain.check_new_block utc_now fuel b (chain n) = Ok ((Good, b'), c1) →
  future_blocks n !! (Block.index b + 1) = None →
  let h := Chain.get_height (chain n) + 1 in
  let max_height := Chain.get_max_height (chain n) in
  ∃ n', handle_block utc_now instant_now fuel token b n = Ok (idle instant_now, n') ∧ wf (chain n') ∧
    Chain.get_height (chain n') = h ∧ Chain.last_block (chain n') = Some b' ∧
    future_blocks n' = (if h =? max_height then ∅ else future_blocks n) ∧
    events n' = events n ++ [Event.BlockchainChanged h;
      if h =? max_height then Event.SyncFinished else Event.Syncing h (Z.max max_height h);
      Event.NetworkStatus h (Chain.get_domains_count (chain n')) (Chain.get_users_count (chain n'))
        (Peers.get_peers_active_count instant_now (peers n))].
Proof.
  intros Hwf Hty Hnum Hp Hc Hnext h max_height. rewrite (handle_block_run _ _ _ _ _ _ _ Hp Hc).
  destruct (good_added _ _ _ _ _ _ Hwf Hty Hnum Hc) as (c2 & Hadd & Ha & Hwf2).
  destruct (good_extends _ _ _ _ _ _ Hwf (numbered_pos _ Hnum) Hc) as (Hi & _). pose proof (height_bound _ Hwf).
  destruct (check_block_inv _ _ _ _ _ _ _ _ _ Hc Good_kept) as (-> & _).
  assert (Chain.get_height c2 = h) as Hh by (unfold Chain.get_height; rewrite (ad_last _ _ _ Ha); simpl; lia).
  erewrite mbind_run; [|apply add_good_run; [unfold is_u, MAX in *; simpl; lia|done|done]].
  eexists. split; [reflexivity|]. unfold announced. cbn [chain set_chain]. rewrite Hh. fold max_height.
  destruct (h =? max_height); cbn; by rewrite (ad_last _ _ _ Ha), <- !app_assoc.
Qed.

Lemma on_chain_future {A} (m : M Chain.t Chain.DbError A) n a n' :
  on_chain m n = Ok (a, n') → future_blocks n' = future_blocks n.
Proof. by intros (c & _ & ->)%on_chain_inv. Qed.

(** The loop over the blocks kept for later ends. Each of its turns takes
    one block out of the table, so as many turns as there are blocks - what
    [handle_block] allows - give the result of any larger number of turns. *)
Theorem future_blocks_end turns i n :
  (size (future_blocks n) <= turns)%nat →
  add_future utc_now fuel turns i n = add_future utc_now fuel (size (future_blocks n)) i n.
Proof.
  enough (∀ k n i turns, (size (future_blocks n) <= k)%nat → (size (future_blocks n) <= turns)%nat →
    add_future utc_now fuel turns i n = add_future utc_now fuel k i n) as Hall by (intros; by apply Hall).
  clear. intros k. induction k as [|k IH]; intros n i turns Hk Hturns.
  - assert (future_blocks n = ∅) as He by (apply map_size_empty_inv; lia).
    rewrite !add_future_stop; [done|..]; by rewrite He.
  - destruct (future_blocks n !! i) as [b|] eqn:Hb; [|by rewrite !add_future_stop].
    assert (size (delete i (future_blocks n)) = pred (size (future_blocks n))) as Hsize by (apply map_size_delete_Some; eauto).
    assert (size (future_blocks n) ≠ 0)%nat as Hne by (intros He%map_size_empty_inv; by rewrite He in Hb).
    destruct turns as [|turns]; [lia|]. simpl. rewrite Hb, !(mbind_run _ _ _ _ _ eq_refl).
    apply mbind_ext. intros [q b'] n1 Hc%on_chain_future. case_bool_decide; [|done].
    apply mbind_ext. intros [] n2 Ha%on_chain_future. apply mbind_ext. intros j n3 [_ ->]%mlift_inv.
    apply IH; rewrite Ha, Hc; cbn; lia.
Qed.
End Handlers.
