(* ===== verification/NodeProps.v ===== *)
(** * The node as a state machine (src/p2p/network.rs, peers.rs)

    The steps of the event loop in any order, with any random choices, times and
    bytes from the network: what holds of the connections and of the chain in
    every state they reach. *)

From stdpp Require Import fin_maps sorting.
From S2P Require Import Prelude Text Net Commons Buffer Protocol Hash Keystore Block Store Chain Cache Peers PeersUpdate Network.
From S2P Require Import ChainFacts ChainProps NetworkProps.
Open Scope Z_scope.
Import Network.

(** ** Connections *)

(** What the state of a connection says of its socket and of its cipher: only
    the handshakes are in clear, and the socket waits for one thing at a time
    until they are over. [Error], [Banned] and [Offline] are no states of a peer
    in the table. *)
Definition conn_ok (p : Peer.t) : Prop :=
  match Peer.state p with
  | State.Connecting => Peer.stream p = Interest.WRITABLE
  | State.Connected _ => Peer.stream p = Interest.READABLE
  | State.ServerHandshake _ =>
      Peer.stream p = Interest.READABLE ∨ Peer.stream p = Interest.WRITABLE ∧ is_Some (Peer.cipher p)
  | State.HandshakeFinished | State.Idle _ | State.Message _ | State.SendLoop | State.Loop | State.Twin =>
      is_Some (Peer.cipher p)
  | State.Error | State.Banned | State.Offline _ => False
  end.

(** An invariant of the peers of the table; the id of a peer is never set. *)
Definition peer_ok (p : Peer.t) : Prop := Peer.id p = [] ∧ conn_ok p.
Definition table_ok (m : gmap Z Peer.t) : Prop := map_Forall (λ _ p, peer_ok p) m.
Definition peers_ok (ps : Peers.t) : Prop := table_ok (Peers.peers ps).

Lemma table_ok_insert m token p : table_ok m → peer_ok p → table_ok (<[token := p]> m).
Proof. intros Hm Hp. by apply map_Forall_insert_2. Qed.
Lemma table_ok_delete m token : table_ok m → table_ok (delete token m).
Proof. apply map_Forall_delete. Qed.

Section Upkeep.
Context {BP : Build} {HI : HashIter} {CH : Choice} {W : Wire}.
Context (now utc_now : Z).
Import PeersUpdate.
Abbreviation Keeps := (Steps (preserved peers_ok)).

Lemma elem_iter ps token p : (token, p) ∈ Peers.iter ps ↔ Peers.peers ps !! token = Some p.
Proof. unfold Peers.iter. rewrite hash_iter_perm. apply elem_of_map_to_list. Qed.

(** The peers that a filter finds in the table. *)
Lemma elem_found (f : Peer.t → bool) ps token p :
  (token, p) ∈ List.filter (λ '(_, peer), f peer) (Peers.iter ps) ↔ Peers.peers ps !! token = Some p ∧ f p = true.
Proof. rewrite list_elem_of_In, filter_In, <- list_elem_of_In, elem_iter. done. Qed.

Lemma close_peers token ps : Peers.peers (Peers.close_peer now token ps) = delete token (Peers.peers ps).
Proof.
  unfold Peers.close_peer. destruct (Peers.peers ps !! token) as [p|] eqn:Hp.
  - by destruct (Peer.state p).
  - by rewrite delete_id.
Qed.

Lemma keep_close token ps : peers_ok ps → peers_ok (Peers.close_peer now token ps).
Proof. unfold peers_ok. rewrite close_peers. apply table_ok_delete. Qed.

Lemma keep_put token p : peer_ok p → Keeps (put_peer token p).
Proof. intros Hp. apply steps_put. intros ps Hps. by apply table_ok_insert. Qed.

Lemma keep_ping nodes random_time ask hash height : Keeps (ping_peers now nodes random_time ask hash height).
Proof.
  unfold ping_peers. apply steps_bind; [apply _|apply steps_get; apply _|intros stale].
  apply steps_bind; [apply _|apply steps_put; intros ps Hps|intros _; apply steps_put; intros ps Hps].
  - intros token p. cbn. rewrite map_lookup_imap. destruct (Peers.peers ps !! token) as [p0|] eqn:Hp; [|done].
    intros [= <-]. destruct (Hps _ _ Hp) as [Hid Hok]. unfold ping_peer, peer_ok, conn_ok in *.
    destruct (Peer.state p0) eqn:Hs; simpl; repeat case_match; simpl in *; rewrite ?Hs; first [done | congruence].
  - revert ps Hps. induction stale as [|token stale IH]; intros ps Hps; [done|]. by apply IH, keep_close.
Qed.

(** Only idle peers are asked. *)
Lemma idle_message p s (f : Peer.t → Peer.t) :
  peer_ok p → State.is_idle (Peer.state p) = true → (∀ p, Peer.id (f p) = Peer.id p ∧ Peer.state (f p) = Peer.state p ∧ Peer.cipher (f p) = Peer.cipher p) →
  peer_ok (Peer.set_state (State.Message s) (f p)).
Proof.
  intros [Hid Hok] Hidle Hf. destruct (Hf p) as (H1 & _ & H3). split; [by rewrite <- Hid, <- H1|].
  unfold conn_ok in *. cbn. rewrite H3. by destruct (Peer.state p).
Qed.

Lemma keep_ask have index max_height chosen :
  (∀ token p, (token, p) ∈ chosen → peer_ok p ∧ State.is_idle (Peer.state p) = true) →
  Keeps (ask_loop have index max_height chosen).
Proof.
  revert index. induction chosen as [|[token p] chosen IH]; intros index Hc; [steps|]. cbn [ask_loop].
  destruct (Hc token p) as [Hok Hidle]; [by left|].
  assert (∀ index, Keeps (ask_loop have index max_height chosen)) as Hrest.
  { intros i. apply IH. intros token' p' Hin. apply (Hc token'). by right. }
  apply steps_if; [by steps|]. apply steps_bind; [apply _| |intros _; by steps].
  apply keep_put. by apply (idle_message _ _ (Peer.set_stream _)).
Qed.

Lemma more_blocks_idle height p : Peer.has_more_blocks height p = true → State.is_idle (Peer.state p) = true.
Proof. unfold Peer.has_more_blocks. repeat case_match; try done. by destruct (State.is_idle _). Qed.

Lemma keep_ask_blocks height max_height have : Keeps (ask_blocks_from_peers height max_height have).
Proof.
  intros ps a ps' Hr Hps. unfold ask_blocks_from_peers in Hr.
  apply mbind_inv in Hr as (higher & ps1 & [= <- <-] & Hr).
  apply mbind_inv in Hr as (count & ps1 & [_ ->]%mlift_inv & Hr).
  apply mbind_inv in Hr as (index & ps1 & [_ ->]%mlift_inv & Hr).
  refine (keep_ask _ _ _ _ _ _ _ _ Hr Hps). intros token p Hin.
  pose proof (elem_of_submseteq _ _ _ Hin (choose_multiple_sub _ _)) as Hin'.
  apply elem_found in Hin' as [Hp Hmore]. split; [by eapply Hps|by eapply more_blocks_idle].
Qed.

#[local] Hint Resolve keep_ask_blocks : steps.

Lemma keep_sync nodes ask height max_height have : Keeps (sync_blocks nodes ask height max_height have).
Proof. unfold sync_blocks. steps. Qed.

Lemma keep_behind height hash : Keeps (ping_behind now utc_now height hash).
Proof.
  intros ps a ps' Hr Hps. unfold ping_behind in Hr. apply mbind_inv in Hr as (need & ps1 & [= <- <-] & Hr).
  destruct (Peers.need_behind_ping _ _); [|by injection Hr as _ <-].
  apply mbind_inv in Hr as (behind & ps1 & [= <- <-] & Hr).
  destruct (choose _) as [[token p]|] eqn:Hc; [|by injection Hr as _ <-].
  apply choose_elem, elem_found in Hc as [Hp Hw]. unfold wants_behind_ping in Hw.
  rewrite !andb_true_iff in Hw. destruct Hw as [[[_ Hidle] _] _]. pose proof (Hps _ _ Hp) as Hok.
  refine ((_ : Keeps _) _ _ _ Hr Hps). apply steps_bind; [apply _| |intros _; apply steps_put; by intros ps1 Hps1].
  apply keep_put.
  exact (idle_message p _ (Peer.set_stream Interest.WRITABLE) Hok Hidle (λ _, conj eq_refl (conj eq_refl eq_refl))).
Qed.

Lemma keep_purge : Keeps (purge_ignored now).
Proof. apply steps_put. by intros ps Hps. Qed.

Lemma keep_offline : Keeps (drop_offline now).
Proof.
  unfold drop_offline. apply steps_bind; [apply _|apply steps_get; apply _|intros offline].
  apply steps_bind; [apply _|apply steps_put; intros ps Hps|intros _; apply steps_put; intros ps Hps].
  - intros token p [Hp _]%map_lookup_filter_Some. by eapply Hps.
  - revert ps Hps. induction offline as [|[token p] offline IH]; intros ps Hps; [done|]. by apply IH.
Qed.

(** No peer is offline, so none is connected again. *)
Lemma reconnect_never connect ps : peers_ok ps → reconnect now connect ps = Ok (tt, ps).
Proof.
  intros Hps. unfold reconnect. rewrite (mbind_run _ _ _ _ _ eq_refl).
  destruct (find _ _) as [[token p]|] eqn:Hf; [|done]. apply find_some in Hf as [Hin Hneed].
  rewrite <- list_elem_of_In, elem_iter in Hin. destruct (Hps _ _ Hin) as [_ Hok].
  unfold conn_ok in Hok. by destruct (Peer.state p).
Qed.

Lemma keep_reconnect connect : Keeps (reconnect now connect).
Proof. intros ps a ps' Hr Hps. rewrite reconnect_never in Hr by done. by injection Hr as _ <-. Qed.

#[local] Hint Resolve keep_ping keep_purge keep_sync keep_behind keep_offline keep_reconnect : steps.

Lemma keep_update random_time ask ask_blocks connect hash height max_height have :
  Keeps (update now utc_now random_time ask ask_blocks connect hash height max_height have).
Proof. unfold update. steps. Qed.

(** *** New connections *)
Abbreviation KeepsT := (Steps (preserved (λ '(ps, _), peers_ok ps))).

Lemma keep_connect only connect addr : KeepsT (connect_peer now only connect addr).
Proof.
  intros [ps k] ok [ps' k'] Hr Hps. unfold connect_peer in Hr.
  destruct (bool_decide _); [by injection Hr as _ <- _|]. destruct (_ && _); [by injection Hr as _ <- _|].
  destruct (connect addr); [|by injection Hr as _ <- _].
  apply obind_inv in Hr as ([token k1] & _ & Hr). injection Hr as _ <- _. by apply table_ok_insert.
Qed.
#[local] Hint Resolve keep_connect : steps.

Lemma keep_connect_new only connect : KeepsT (connect_new_peers now only connect).
Proof.
  unfold connect_new_peers. apply steps_bind; [apply _|apply steps_get; apply _|intros [|addr rest]]; [by steps|].
  apply steps_bind; [apply _|apply steps_put; by intros [ps k] Hps|intros _; by steps].
Qed.

Lemma keep_addresses only connect addresses : ∀ set, KeepsT (connect_addresses now only connect set addresses).
Proof. induction addresses as [|addr addresses IH]; intros set; cbn; steps. Qed.
#[local] Hint Resolve keep_addresses : steps.

Lemma keep_connect_peers only connect resolve addrs : ∀ set, KeepsT (connect_peers now only connect resolve set addrs).
Proof. induction addrs as [|addr addrs IH]; intros set; cbn; steps. Qed.
End Upkeep.

(** ** The steps of the event loop *)

Section Node.
Context {BP : Build} {U : Unicode} {CR : Crypto} {SD : Serde} {HI : HashIter} {CH : Choice} {W : Wire}.
Context (cfg : config) (pkg_version : rstr).

(** [mio] delivers readiness only for what a socket is registered for. *)
Definition delivered (n : t) (ev : readiness) : Prop :=
  ∀ p, Peers.peers (peers n) !! ev_token ev = Some p →
    (ev_readable ev = true → Interest.readable (Peer.stream p) = true) ∧
    (ev_writable ev = true → Interest.writable (Peer.stream p) = true).

(** The block in the bytes a peer sent, if they hold one, has the integer types
    of the Rust struct: a decoder returns nothing else. *)
Definition well_typed (n : t) (token : Z) (input : bytes) : Prop :=
  ∀ data rest m, read_message input = Some (data, rest) → received token data n = Some m → msg_typed m.

Inductive node_step : t → t → Prop :=
  | step_event utc_now now random_bool random_u8 fuel ev input nonce garbage write_ok sent n n' :
      delivered n ev → well_typed n (ev_token ev) input →
      on_event cfg pkg_version utc_now now random_bool random_u8 fuel ev input nonce garbage write_ok n = Ok (sent, n') →
      node_step n n'
  | step_accept now address n n' :
      on_accept cfg now address n = Ok (tt, n') → node_step n n'
  | step_start now connect resolve n n' :
      start_swarm cfg now connect resolve n = Ok (tt, n') → node_step n n'
  | step_close now n n' :
      close_swarm now n = Ok (tt, n') → node_step n n'
  | step_timer utc_now now log_due connect_due random_time ask ask_blocks connect n n' :
      on_timer cfg utc_now now log_due connect_due random_time ask ask_blocks connect n = Ok (tt, n') → node_step n n'.

(** What holds of a node, and what a step does to its chain. *)
Definition node_ok (n : t) : Prop := future_typed n ∧ peers_ok (peers n).
Definition good_step (n n' : t) : Prop := node_ok n → node_ok n' ∧ rtc chain_step (chain n) (chain n').
Abbreviation Good := (Steps good_step).

#[local] Instance good_step_preorder : PreOrder good_step.
Proof.
  split; [by intros n Hn|]. intros n1 n2 n3 H1 H2 Hn. destruct (H1 Hn) as (Hn2 & ?).
  destruct (H2 Hn2) as (? & ?). split; [done|]. by etransitivity.
Qed.

(** Only the peers change. *)
Lemma good_peers {A} (m : M Peers.t Empty_set A) : Steps (preserved peers_ok) m → Good (on_peers m).
Proof.
  intros Hm n a n' Hr [Hf Hp]. unfold on_peers in Hr. apply obind_inv in Hr as ([a' ps] & Ha & Hr).
  injection Hr as _ <-. split; [|done]. split; [done|]. by apply (Hm _ _ _ Ha).
Qed.
Lemma good_tokens {A} (m : M (Peers.t * Z) Empty_set A) :
  Steps (preserved (λ '(ps, _), peers_ok ps)) m → Good (on_tokens m).
Proof.
  intros Hm n a n' Hr [Hf Hp]. unfold on_tokens in Hr. apply obind_inv in Hr as ([a' [ps k]] & Ha & Hr).
  injection Hr as _ <-. split; [|done]. split; [done|]. by apply (Hm _ _ _ Ha).
Qed.

(** The same connections are as good. *)
Lemma same_conns n n' : conns n' = conns n → public_key n' = public_key n ∧
  ∀ token p', Peers.peers (peers n') !! token = Some p' →
    ∃ p, Peers.peers (peers n) !! token = Some p ∧ conn p' = conn p.
Proof.
  intros [= Hk Hc]. split; [done|]. intros token p' Hp.
  assert ((conn <$> Peers.peers (peers n)) !! token = Some (conn p')) as Hs.
  { unfold conn in Hc |- *. by rewrite <- Hc, lookup_fmap, Hp. }
  rewrite lookup_fmap in Hs. apply fmap_Some in Hs as (p & Hp' & ->). by exists p.
Qed.

Lemma conn_ok_same p p' : conn p' = conn p → peer_ok p → peer_ok p'.
Proof. destruct p, p'. intros [= -> -> -> -> ->]. done. Qed.

Lemma moves_good n n' : moves n n' → good_step n n'.
Proof.
  intros Hm [Hf Hp]. destruct (Hm Hf) as (Hf' & Hr & Hc). split; [|done]. split; [done|].
  intros token p' Hp'. destruct (same_conns _ _ Hc) as [_ Hsame].
  destruct (Hsame _ _ Hp') as (p & Hin & Heq). eapply conn_ok_same; [done|]. by eapply Hp.
Qed.

(** One peer changes. *)
Lemma good_put n token p : peer_ok p → good_step n (set_peers n (Peers.add_peer token p (peers n))).
Proof. intros Hp [Hf Hps]. split; [|done]. split; [done|]. by apply table_ok_insert. Qed.

Lemma with_peer_inv token f n p n' : with_peer (E := Empty_set) token f n = Ok (p, n') →
  ∃ p0, Peers.peers (peers n) !! token = Some p0 ∧ p = f p0 ∧ n' = set_peers n (Peers.add_peer token p (peers n)).
Proof.
  unfold with_peer, Peers.get_peer. destruct (_ !! token) as [p0|] eqn:Hp; [|done]. intros [= <- <-]. by exists p0.
Qed.

(** *** Reading *)

(** The peer of [token] has a cipher, and it is [c]. *)
Definition ciphered (token : Z) (c : Chacha.t) (n : t) : Prop :=
  ∀ p, Peers.peers (peers n) !! token = Some p → Peer.cipher p = Some c.

Lemma ignore_peers now token ps ps' : Peers.ignore_peer (E := Empty_set) now token ps = Ok ps' →
  Peers.peers ps' ⊆ delete token (Peers.peers ps).
Proof.
  unfold Peers.ignore_peer. intros Hi. destruct (Peers.peers ps !! token) as [p|]; [|done].
  destruct (find _ _) as [[t0 ?]|]; injection Hi as <-; cbn; rewrite ?close_peers; cbn; rewrite ?close_peers; cbn;
    rewrite delete_insert_eq; [apply delete_subseteq|done].
Qed.

Lemma good_ignore now token : Good (on_peers (λ ps,
  let! ps := Peers.ignore_peer now token ps in Ok (tt, ps))).
Proof.
  apply good_peers. intros ps [] ps' Hr Hps. apply obind_inv in Hr as (ps1 & Hi & Hr). injection Hr as <-.
  apply ignore_peers in Hi. intros t p Hp. eapply Hps. eapply lookup_weaken; [|apply delete_subseteq].
  by eapply lookup_weaken.
Qed.

(** After the handshakes: the peer of [token] keeps its cipher. *)
Definition talks (token : Z) (c : Chacha.t) (n n' : t) : Prop :=
  node_ok n → ciphered token c n →
  node_ok n' ∧ ciphered token c n' ∧ chain n' = chain n ∧ public_key n' = public_key n.
#[local] Instance talks_preorder token c : PreOrder (talks token c).
Proof.
  split; [by intros n Hn|]. intros n1 n2 n3 H1 H2 Hn Hc. destruct (H1 Hn Hc) as (Hn2 & Hc2 & ? & ?).
  destruct (H2 Hn2 Hc2) as (? & ? & ? & ?). repeat (split; [done || congruence|]). congruence.
Qed.

Lemma talks_with_peer token c f :
  (∀ p, Peer.cipher (f p) = Peer.cipher p ∧ (peer_ok p → is_Some (Peer.cipher p) → peer_ok (f p))) →
  Steps (talks token c) (with_peer (E := Empty_set) token f).
Proof.
  intros Hf n p n' (p0 & Hp & -> & ->)%with_peer_inv [Hft Hps] Hc. destruct (Hf p0) as [H1 H2].
  specialize (Hc _ Hp). split; [split; [done|]|split; [|done]].
  - apply table_ok_insert; [done|]. apply H2; [by eapply Hps|by rewrite Hc].
  - intros p. cbn. rewrite lookup_insert_eq. intros [= <-]. by rewrite H1.
Qed.

Lemma talks_ignore now token c : Steps (talks token c) (on_peers (λ ps,
  let! ps := Peers.ignore_peer now token ps in Ok (tt, ps))).
Proof.
  intros n a n' Hr Hn Hc. split; [by apply (good_ignore _ _ _ _ _ Hr)|].
  unfold on_peers in Hr. apply obind_inv in Hr as ([a' ps] & Hi & Hr). injection Hr as _ <-.
  apply obind_inv in Hi as (ps1 & Hi & Hr). injection Hr as _ <-. apply ignore_peers in Hi. split; [|done].
  intros p Hp. cbn in Hp. eapply lookup_weaken in Hp; [|done]. by rewrite lookup_delete_eq in Hp.
Qed.

#[local] Hint Resolve talks_ignore : steps.
#[local] Hint Extern 1 (Steps (talks _ _) (with_peer _ _)) =>
  apply talks_with_peer; intros p; (split; [done|]); unfold peer_ok, conn_ok; cbn; tauto : steps.

Definition not_offline (s : State.t) : Prop := match s with State.Offline _ => False | _ => True end.

Lemma talks_apply now token c s : not_offline s → Steps (talks token c) (apply_state now token s).
Proof. intros Hs. unfold apply_state. apply steps_bind; [apply _|steps|intros _]. by destruct s; steps. Qed.

(** What a computation returns. *)
Definition Returns {A} (P : A → Prop) (m : M t Empty_set A) : Prop := ∀ n a n', m n = Ok (a, n') → P a.
Lemma returns_bind {A B} (P : B → Prop) (m : M t Empty_set A) k : (∀ a, Returns P (k a)) → Returns P (mbind_ m k).
Proof. intros Hk n b n' (a & n1 & _ & Hr)%mbind_inv. by eapply Hk. Qed.
Lemma returns_ret {A} (P : A → Prop) (a : A) : P a → Returns P (mret a).
Proof. intros Ha n b n' Hr. by injection Hr as <- _. Qed.
Lemma returns_panic {A} (P : A → Prop) : Returns P mpanic.
Proof. by intros n a n'. Qed.
Ltac returns := repeat first [apply returns_bind; intros ? | apply returns_ret; done | apply returns_panic | case_match].

Lemma answer_not_offline utc_now now random_bool random_u8 fuel m token :
  Returns not_offline (handle_message cfg pkg_version utc_now now random_bool random_u8 fuel m token).
Proof.
  unfold handle_message, handle_block, take_fork, compare_heights, State.message. do 2 (apply returns_bind; intros ?).
  destruct m; returns.
Qed.

Lemma talks_moves token c n n' : moves n n' → node_ok n → ciphered token c n →
  node_ok n' ∧ ciphered token c n' ∧ rtc chain_step (chain n) (chain n') ∧ public_key n' = public_key n.
Proof.
  intros Hm Hn Hc. destruct (moves_good _ _ Hm Hn) as [Hn' Hr]. destruct (Hm (proj1 Hn)) as (_ & _ & Hs).
  destruct (same_conns _ _ Hs) as [Hk Hsame]. split; [done|]. split; [|done].
  intros p' Hp'. destruct (Hsame _ _ Hp') as (p & Hp & Heq). rewrite <- (Hc _ Hp). destruct p, p'. by injection Heq.
Qed.

(** A frame from a peer that has a cipher. *)
Lemma message_talks utc_now now random_bool random_u8 fuel token c data n b n' :
  process_message cfg pkg_version utc_now now random_bool random_u8 fuel token data n = Ok (b, n') →
  (∀ m, received token data n = Some m → msg_typed m) → node_ok n → ciphered token c n →
  node_ok n' ∧ ciphered token c n' ∧ rtc chain_step (chain n) (chain n') ∧ public_key n' = public_key n.
Proof.
  intros Hr Hty Hn Hc. unfold process_message in Hr. apply mbind_inv in Hr as (m & n1 & [= <- <-] & Hr).
  destruct (received token data n) as [m|].
  - apply mbind_inv in Hr as (s & n1 & Hm & Hr).
    destruct (talks_moves token c n n1) as (Hn1 & Hc1 & H1 & Hk1); [|done..|].
    { eapply moves_message; [by apply Hty|done]. }
    destruct (talks_apply _ _ c _ (answer_not_offline _ _ _ _ _ _ _ _ _ _ Hm) _ _ _ Hr Hn1 Hc1) as (? & ? & Hch & Hk). rewrite Hch, Hk. done.
  - assert (Steps (talks token c) (let? _ := with_peer (E := Empty_set) token (λ p, p) in mret (E := Empty_set) false)) as Hs by steps.
    destruct (Hs _ _ _ Hr Hn Hc) as (? & ? & -> & ->). done.
Qed.

(** A handshake that was read sets the cipher. *)
Lemma handshake_good now token c s n b n' :
  (let? _ := with_peer (E := Empty_set) token (λ p, Peer.set_state s (Peer.set_cipher c (Peer.set_stream Interest.WRITABLE p))) in
   mret (E := Empty_set) true) n = Ok (b, n') →
  s = State.ServerHandshake now ∨ s = State.HandshakeFinished → node_ok n →
  node_ok n' ∧ chain n' = chain n ∧ public_key n' = public_key n.
Proof.
  intros Hr Hs Hn. apply mbind_inv in Hr as (p & n1 & (p0 & Hp & -> & ->)%with_peer_inv & Hr). injection Hr as _ <-.
  split; [|done]. apply good_put; [|done]. destruct (proj2 Hn _ _ Hp) as [Hid _]. split; [done|].
  destruct Hs as [-> | ->]; cbn; [by right; split|done].
Qed.

(** What [process_readable] leaves: when it goes on and the socket also waited
    to write, the connection was past the handshakes. *)
Record read_ok (token : Z) (n n' : t) (go_on : bool) : Prop := {
  rd_ok : node_ok n';
  rd_chain : rtc chain_step (chain n) (chain n');
  rd_key : public_key n' = public_key n;
  rd_cipher : go_on = true → ∀ p, Peers.peers (peers n) !! token = Some p →
    Interest.writable (Peer.stream p) = true → ∃ c, Peer.cipher p = Some c ∧ ciphered token c n';
}.

Lemma read_message_good utc_now now random_bool random_u8 fuel token input n b n' p :
  match read_message input with
  | Some (data, _) => process_message cfg pkg_version utc_now now random_bool random_u8 fuel token data
  | None => mret false
  end n = Ok (b, n') →
  well_typed n token input → node_ok n → Peers.peers (peers n) !! token = Some p → is_Some (Peer.cipher p) →
  read_ok token n n' b.
Proof.
  intros Hr Hty Hn Hp [c Hc]. destruct (read_message input) as [[data rest]|] eqn:Hread.
  - assert (ciphered token c n) as Hcn by (intros p0 Hp0; congruence).
    destruct (message_talks _ _ _ _ _ _ c _ _ _ _ Hr) as (H1 & H2 & H3 & H4); [|done..|].
    { intros m Hm. by eapply Hty. }
    split; [done..|]. intros _ p0 Hp0 _. exists c. split; [congruence|done].
  - injection Hr as <- <-. by split.
Qed.

Lemma readable_good utc_now now random_bool random_u8 fuel token closed input nonce n b n' :
  process_readable cfg pkg_version utc_now now random_bool random_u8 fuel token closed input nonce n = Ok (b, n') →
  well_typed n token input → node_ok n →
  (∀ p, Peers.peers (peers n) !! token = Some p → Interest.readable (Peer.stream p) = true) →
  read_ok token n n' b.
Proof.
  intros Hr Hty Hn Hread. assert (∀ n' b, Ok (b, n') = Ok (E := Empty_set) (false, n) → read_ok token n n' b) as Hfalse.
  { intros n1 b1 [= -> ->]. by split. }
  unfold process_readable in Hr. apply mbind_inv in Hr as (peer & n1 & [= <- <-] & Hr). unfold Peers.get_peer in Hr.
  destruct (Peers.peers (peers n) !! token) as [p|] eqn:Hp; [|by apply Hfalse].
  destruct closed; [by apply Hfalse|]. destruct (proj2 Hn _ _ Hp) as [_ Hok]. specialize (Hread _ eq_refl).
  unfold conn_ok in Hok. destruct (Peer.state p) eqn:Hs; try done.
  all: try (rewrite Hok in Hread; discriminate).
  all: try solve [by eapply read_message_good; [exact Hr|..]].
  - destruct (read_client_handshake input) as [[key rest]|]; [|by apply Hfalse].
    apply mbind_inv in Hr as (secret & n1 & [= <- <-] & Hr).
    destruct (handshake_good now _ _ _ _ _ _ Hr) as (H1 & H2 & H3); [by left|done|].
    split; [done|by rewrite H2|done|]. intros _ p0 Hp0. rewrite Hp in Hp0. injection Hp0 as <-. by rewrite Hok.
  - destruct (read_server_handshake input) as [[data rest]|]; [|by apply Hfalse].
    destruct (negb _); [by apply Hfalse|]. apply mbind_inv in Hr as (secret & n1 & [= <- <-] & Hr).
    destruct (handshake_good now _ _ _ _ _ _ Hr) as (H1 & H2 & H3); [by right|done|].
    split; [done|by rewrite H2|done|]. intros _ p0 Hp0. rewrite Hp in Hp0. injection Hp0 as <-.
    by destruct Hok as [Hw|[Hw _]]; rewrite Hw in *.
Qed.

(** *** Writing *)

(** What may be written: a handshake, or a frame that the cipher [cipher]
    made. *)
Definition sent_ok (key : bytes) (garbage : bytes) (cipher : option Chacha.t) (sent : bytes) : Prop :=
  sent = [] ∨ sent = client_handshake garbage key ∨
  (∃ nonce, sent = server_handshake garbage key nonce) ∨
  ∃ c data ct, cipher = Some c ∧ Chacha.encrypt c data = Some ct ∧ sent = frame ct.

Lemma sent_frame key garbage cipher c data (ok : bool) ct :
  cipher = Some c → encode_bytes data cipher = Some ct → sent_ok key garbage cipher (if ok then frame ct else []).
Proof. intros -> He. destruct ok; [|by left]. do 3 right. by exists c, data, ct. Qed.

Lemma encoded_inv m p n data n' : encoded m p n = Ok (data, n') →
  n' = n ∧ encode_bytes (cbor_of_message m) (Peer.cipher p) = Some data.
Proof. unfold encoded, encode_message. destruct (encode_bytes _ _); [|done]. intros Hr. by injection Hr as -> ->. Qed.

Ltac written Hs :=
  split; [done|]; split;
  [ first [ by left | by eapply sent_frame | by right; left | do 2 right; left; by eexists ]
  | intros p1 Hp1; first [ discriminate Hp1 | injection Hp1 as <- ]; (split; [done|]);
    unfold conn_ok; cbn; first [ done | by left | by eexists | by rewrite Hs ] ].

(** [write_state] on a good peer whose handshakes, when it waits to answer one,
    have set a cipher. *)
Lemma write_state_good now garbage ok p n p' sent n' :
  write_state cfg now garbage ok p n = Ok ((p', sent), n') → peer_ok p →
  (is_Some (Peer.cipher p) ∨ ∀ from, Peer.state p ≠ State.ServerHandshake from) →
  n' = n ∧ sent_ok (public_key n) garbage (Peer.cipher p) sent ∧
  ∀ p1, p' = Some p1 → peer_ok (Peer.set_stream Interest.READABLE p1).
Proof.
  intros Hr [Hid Hok] Hc. unfold write_state in Hr. apply mbind_inv in Hr as (n0 & n1 & [= <- <-] & Hr).
  assert (∀ m (k : bytes → t → outcome Empty_set (option Peer.t * bytes * t)),
    mbind_ (encoded m p) k n = Ok ((p', sent), n') → is_Some (Peer.cipher p) →
    ∃ c data ct, Peer.cipher p = Some c ∧ encode_bytes data (Peer.cipher p) = Some ct ∧ k ct n = Ok ((p', sent), n')) as Henc.
  { intros m k Hk [c Hcip]. apply mbind_inv in Hk as (ct & n1 & [-> He]%encoded_inv & Hk). eauto 6. }
  unfold conn_ok in Hok. destruct (Peer.state p) eqn:Hs; try done.
  - destruct ok; injection Hr as <- <- <-; written Hs.
  - injection Hr as <- <- <-; written Hs.
  - destruct Hc as [Hc|Hc]; [|by destruct (Hc from)]. destruct ok; injection Hr as <- <- <-; written Hs.
  - apply Henc in Hr as (c & data & ct & Hcip & He & Hr); [|done]. injection Hr as <- <- <-; written Hs.
  - destruct (120 <=? _); [|injection Hr as <- <- <-; written Hs].
    apply Henc in Hr as (c & data & ct & Hcip & He & Hr); [|done]. injection Hr as <- <- <-; written Hs.
  - destruct Hok as [c Hcip], (encode_bytes _ _) as [ct|] eqn:He; injection Hr as <- <- <-; written Hs.
  - apply Henc in Hr as (c & data & ct & Hcip & He & Hr); [|done]. injection Hr as <- <- <-; written Hs.
  - injection Hr as <- <- <-; written Hs.
  - apply Henc in Hr as (c & data & ct & Hcip & He & Hr); [|done]. injection Hr as <- <- <-; written Hs.
Qed.

Definition cipher_of (n : t) (token : Z) : option Chacha.t := Peers.peers (peers n) !! token ≫= Peer.cipher.

Lemma writable_good now token garbage ok n go_on sent n' :
  process_writable cfg now token garbage ok n = Ok ((go_on, sent), n') → node_ok n →
  (∀ p, Peers.peers (peers n) !! token = Some p →
     is_Some (Peer.cipher p) ∨ ∀ from, Peer.state p ≠ State.ServerHandshake from) →
  node_ok n' ∧ chain n' = chain n ∧ sent_ok (public_key n) garbage (cipher_of n token) sent.
Proof.
  intros Hr Hn Hc. unfold process_writable in Hr. apply mbind_inv in Hr as (peer & n1 & [= <- <-] & Hr).
  unfold Peers.get_peer in Hr. destruct (Peers.peers (peers n) !! token) as [p|] eqn:Hp.
  - apply mbind_inv in Hr as ([p' sent'] & n1 & Hw & Hr).
    destruct (write_state_good _ _ _ _ _ _ _ _ Hw (proj2 Hn _ _ Hp) (Hc _ eq_refl)) as (-> & Hs & Hp').
    unfold cipher_of. rewrite Hp. destruct p' as [p1|]; [|by injection Hr as _ <- <-].
    apply mbind_inv in Hr as ([] & n1 & [= <-] & Hr). injection Hr as _ <- <-. split; [|done].
    by apply good_put; [apply Hp'|].
  - injection Hr as _ <- <-. split; [done|]. split; [done|by left].
Qed.

Lemma event_good utc_now now random_bool random_u8 fuel ev input nonce garbage ok n go_on sent n' :
  handle_connection_event cfg pkg_version utc_now now random_bool random_u8 fuel ev input nonce garbage ok n = Ok ((go_on, sent), n') →
  delivered n ev → well_typed n (ev_token ev) input → node_ok n →
  node_ok n' ∧ rtc chain_step (chain n) (chain n') ∧ sent_ok (public_key n) garbage (cipher_of n (ev_token ev)) sent.
Proof.
  intros Hr Hd Hty Hn. unfold handle_connection_event in Hr.
  destruct (_ || _); [injection Hr as _ <- <-; split; [done|]; by split; [|left]|].
  apply mbind_inv in Hr as (go & n1 & Hread & Hr). destruct (ev_readable ev) eqn:Hrd.
  - destruct (readable_good _ _ _ _ _ _ _ _ _ _ _ _ Hread Hty Hn) as [Hn1 Hch Hk Hc]; [intros p Hp; by apply (Hd p)|].
    destruct go; [|injection Hr as _ <- <-; split; [done|]; by split; [|left]]. specialize (Hc eq_refl). cbn [negb] in Hr.
    destruct (ev_writable ev) eqn:Hwr; [|injection Hr as _ <- <-; split; [done|]; by split; [|left]].
    destruct (Peers.peers (peers n) !! ev_token ev) as [p|] eqn:Hp.
    + destruct (Hc p eq_refl (proj2 (Hd p Hp) Hwr)) as (c & Hpc & Hcn).
      destruct (writable_good _ _ _ _ _ _ _ _ Hr Hn1) as (H1 & H2 & Hs).
      { intros p1 Hp1. left. exists c. by apply Hcn. }
      split; [done|]. split; [by rewrite H2|]. rewrite Hk in Hs. unfold cipher_of in *. rewrite Hp. simpl. rewrite Hpc.
      destruct (Peers.peers (peers n1) !! _) as [p1|] eqn:Hp1; [simpl in Hs; by rewrite (Hcn p1) in Hs|].
      destruct Hs as [?|[?|[?|(c' & ? & ? & [=] & _)]]]; [by left|by right; left|by do 2 right; left].
    + exfalso. unfold process_readable in Hread. rewrite (mbind_run _ _ _ _ _ eq_refl) in Hread.
      unfold Peers.get_peer in Hread. rewrite Hp in Hread. by injection Hread.
  - injection Hread as <- <-. cbn [negb] in Hr.
    destruct (ev_writable ev) eqn:Hwr; [|injection Hr as _ <- <-; split; [done|]; by split; [|left]].
    destruct (writable_good _ _ _ _ _ _ _ _ Hr Hn) as (H1 & -> & Hs); [|done].
    intros p Hp. destruct (proj2 Hn _ _ Hp) as [_ Hok]. specialize (proj2 (Hd p Hp) Hwr) as Hwp.
    unfold conn_ok in Hok. destruct (Peer.state p); try (by left); try (by right).
    destruct Hok as [Hs|[_ Hs]]; [by rewrite Hs in Hwp|by left].
Qed.

(** *** The other steps *)

Lemma good_put_peers {E} f : (∀ ps, peers_ok ps → peers_ok (f ps)) → Good (mput (E := E) (λ n, set_peers n (f (peers n)))).
Proof. intros Hf. apply steps_put. intros n [Hft Hp]. split; [|done]. split; [done|]. by apply Hf. Qed.

Lemma good_accept now address : Good (on_accept cfg now address).
Proof.
  unfold on_accept. apply steps_bind; [apply _|apply steps_get; apply _|intros banned]. do 2 (apply steps_if; [by steps|]).
  apply steps_bind; [apply _|apply steps_get; apply _|intros current].
  apply steps_bind; [apply _|apply steps_lift; apply _|intros [token after]].
  apply steps_put. intros n [Hf Hp]. split; [|done]. split; [done|]. by apply table_ok_insert.
Qed.

Lemma close_peers_all now ps : Peers.peers (Peers.close_all_peers now ps) = ∅.
Proof. done. Qed.

Lemma good_timer utc_now now log_due connect_due random_time ask ask_blocks connect :
  Good (on_timer cfg utc_now now log_due connect_due random_time ask ask_blocks connect).
Proof.
  unfold on_timer. do 3 (apply steps_bind; [apply _|apply steps_get; apply _|intros ?]).
  apply steps_bind; [apply _| |intros _].
  { apply steps_put. intros n [Hf Hp]. cbv zeta. by destruct (_ || _). }
  apply steps_bind; [apply _| |intros _].
  { apply steps_if; [|by steps]. by apply steps_put. }
  apply steps_bind; [apply _| |intros _].
  { apply steps_if; [|by steps]. apply good_tokens, keep_connect_new. }
  do 2 (apply steps_bind; [apply _|apply steps_get; apply _|intros ?]).
  apply good_peers, keep_update.
Qed.

Lemma on_event_good utc_now now random_bool random_u8 fuel ev input nonce garbage ok n sent n' :
  on_event cfg pkg_version utc_now now random_bool random_u8 fuel ev input nonce garbage ok n = Ok (sent, n') →
  delivered n ev → well_typed n (ev_token ev) input → node_ok n →
  node_ok n' ∧ rtc chain_step (chain n) (chain n') ∧ sent_ok (public_key n) garbage (cipher_of n (ev_token ev)) sent.
Proof.
  intros Hr Hd Hty Hn. unfold on_event in Hr. apply mbind_inv in Hr as ([go sent'] & n1 & He & Hr).
  destruct (event_good _ _ _ _ _ _ _ _ _ _ _ _ _ _ He Hd Hty Hn) as (Hn1 & Hch & Hs).
  destruct go; [by injection Hr as <- <-|].
  apply mbind_inv in Hr as ([] & n2 & [= <-] & Hr). apply mbind_inv in Hr as ([] & n2 & [= <-] & Hr).
  injection Hr as <- <-. split; [|done]. split; [apply Hn1|]. apply keep_close, Hn1.
Qed.

Lemma node_step_good n n' : node_step n n' → good_step n n'.
Proof.
  destruct 1 as [? ? ? ? ? ? ? ? ? ? ? ? ? Hd Hty Hr|? ? ? ? Hr|? ? ? ? ? Hr|? ? ? Hr|? ? ? ? ? ? ? ? ? ? Hr].
  - intros Hn. destruct (on_event_good _ _ _ _ _ _ _ _ _ _ _ _ _ Hr Hd Hty Hn) as (H1 & H2 & _). done.
  - by eapply good_accept.
  - eapply good_tokens, Hr. apply keep_connect_peers.
  - refine (good_put_peers _ _ _ _ _ Hr). intros ps _. by intros t p.
  - by eapply good_timer.
Qed.

Lemma new_ok secret public my_id c : node_ok (Network.new secret public my_id c).
Proof. split; apply map_Forall_empty. Qed.

Lemma reachable_good secret public my_id c n :
  rtc node_step (Network.new secret public my_id c) n → node_ok n ∧ rtc chain_step c (chain n).
Proof.
  assert (∀ n0, rtc node_step n0 n → good_step n0 n) as Hall.
  { intros n0. induction 1 as [n0|n0 n1 n2 Hs _ IH]; [reflexivity|]. etransitivity; [by apply node_step_good|done]. }
  intros Hr. apply (Hall _ Hr), new_ok.
Qed.

(** ** Properties *)

(** C3: the network code refines the abstract chain. Whatever bytes peers send,
    and in whatever order connections are accepted, become ready and are closed
    and the timers fire, every step of the event loop is, for the chain, a
    sequence of the four steps of [chain_step] - check a block, add a good one,
    replace the end by a fork, note a height. So a chain that satisfies the chain
    invariant does so until a block is called good and added that has the number 0,
    in a build without overflow checks, or 2^63-1 ([ChainProps.broken]). *)
Theorem node_refines_chain secret public my_id c n :
  rtc node_step (Network.new secret public my_id c) n →
  rtc chain_step c (chain n) ∧ (wf c → wf (chain n) ∨ broken c (chain n)).
Proof. intros [_ Hr]%reachable_good. split; [done|]. by apply chain_steps_wf. Qed.

(** C24: the states of a connection. In every reachable state of the node, a
    peer in the table waits to write when it is being connected to and to read
    when it was just accepted; while the handshake runs it either waits to read,
    or waits to write and has its cipher; after that it has a cipher. No peer is
    in the states Error, Banned or Offline, and so [update] never reconnects one. *)
Theorem connection_states secret public my_id c n token p :
  rtc node_step (Network.new secret public my_id c) n → Peers.peers (peers n) !! token = Some p →
  match Peer.state p with
  | State.Connecting => Peer.stream p = Interest.WRITABLE
  | State.Connected _ => Peer.stream p = Interest.READABLE
  | State.ServerHandshake _ =>
      Peer.stream p = Interest.READABLE ∨ Peer.stream p = Interest.WRITABLE ∧ is_Some (Peer.cipher p)
  | State.Error | State.Banned | State.Offline _ => False
  | _ => is_Some (Peer.cipher p)
  end ∧
  (∀ now connect, PeersUpdate.reconnect now connect (peers n) = Ok (tt, peers n)).
Proof.
  intros [[_ Hps] _]%reachable_good Hp. split; [|intros now connect; by apply reconnect_never].
  destruct (Hps _ _ Hp) as [_ Hok]. unfold conn_ok in Hok. by destruct (Peer.state p).
Qed.

(** C23: nothing but handshakes is sent in clear. In every reachable state,
    what an event makes the node write is nothing, the client handshake, the
    server handshake, or one frame that holds a text encrypted with the cipher of
    that connection. *)
Theorem only_handshakes_in_clear secret public my_id c n utc_now now random_bool random_u8 fuel ev input nonce garbage ok sent n' :
  rtc node_step (Network.new secret public my_id c) n → delivered n ev → well_typed n (ev_token ev) input →
  on_event cfg pkg_version utc_now now random_bool random_u8 fuel ev input nonce garbage ok n = Ok (sent, n') →
  sent = [] ∨ sent = client_handshake garbage (public_key n) ∨
  (∃ nonce', sent = server_handshake garbage (public_key n) nonce') ∨
  ∃ p chacha data text, Peers.peers (peers n) !! ev_token ev = Some p ∧ Peer.cipher p = Some chacha ∧
    Chacha.encrypt chacha data = Some text ∧ sent = frame text.
Proof.
  intros [Hn _]%reachable_good Hd Hty Hr.
  destruct (on_event_good _ _ _ _ _ _ _ _ _ _ _ _ _ Hr Hd Hty Hn) as (_ & _ & [?|[?|[?|(ch & data & text & Hc & ? & ?)]]]);
    [by left|by right; left|by do 2 right; left|].
  do 3 right. unfold cipher_of in Hc. destruct (_ !! _) as [p|]; [|done]. by exists p, ch, data, text.
Qed.

(** The detection of twins detects nothing. The id of a peer is set
    nowhere, so in every reachable state no second connection to a node is found,
    whatever id it sends (but the empty one, which every active peer matches). *)
Theorem twins_not_detected secret public my_id c n now id :
  rtc node_step (Network.new secret public my_id c) n → id ≠ [] →
  Peers.is_tween_connect now (peers n) id = false.
Proof.
  intros [[_ Hps] _]%reachable_good Hid. apply not_true_iff_false. unfold Peers.is_tween_connect. intros H.
  apply existsb_exists in H as ([token p] & Hin & Hm). rewrite <- list_elem_of_In, elem_iter in Hin.
  rewrite andb_true_iff, bool_decide_eq_true in Hm. destruct Hm as [_ <-]. by destruct (Hps _ _ Hin) as [? _].
Qed.
End Node.
