(* ===== verification/PeersProps.v ===== *)
(** * Properties of the peer table and of the wire format
    (src/p2p/peers.rs, src/p2p/network.rs)

    The exchange of addresses, bans, the requests for blocks, and the round trips
    of frames and handshakes. *)

From stdpp Require Import fin_maps sorting.
From S2P Require Import Prelude Text Net Commons Buffer Protocol Hash Keystore Block Store Chain Cache Peers PeersUpdate Network.
From S2P Require Import ChainFacts ChainProps NetworkProps NodeProps.
Open Scope Z_scope.

(** ** Frames and handshakes *)

Lemma read_exact_app n data rest : length data = n → read_exact n (data ++ rest) = Some (data, rest).
Proof.
  intros <-. unfold read_exact. rewrite bool_decide_true by (rewrite length_app; lia).
  by rewrite take_app_length, drop_app_length.
Qed.

Lemma testbit_above w z n : 0 <= w → is_u w z → w <= n → Z.testbit z n = false.
Proof. intros Hw Hz Hn. rewrite <- (Z.mod_small z (2 ^ w)) by done. apply Z.mod_pow2_bits_high. lia. Qed.

Lemma lxor_is_u w a b : 0 <= w → is_u w a → is_u w b → is_u w (Z.lxor a b).
Proof.
  intros Hw Ha Hb. assert (Z.lxor a b mod 2 ^ w = Z.lxor a b) as <-; [|by apply (wrap_is_u w)].
  apply Z.bits_inj'. intros n Hn. destruct (Z.lt_ge_cases n w) as [Hlt|Hge].
  - by rewrite Z.mod_pow2_bits_low.
  - rewrite Z.mod_pow2_bits_high by lia. by rewrite Z.lxor_spec, !(testbit_above w) by done.
Qed.

Lemma lxor_twice a b : Z.lxor (Z.lxor a b) b = a.
Proof. by rewrite Z.lxor_assoc, Z.lxor_nilpotent, Z.lxor_0_r. Qed.

Lemma bytes_of_u16 m : is_u16 m → Z.lor (Z.shiftl (wrap 8 (Z.shiftr m 8)) 8) (wrap 8 m) = m.
Proof.
  intros Hm. rewrite lor_shiftl_add by (done || by apply wrap_is_u). unfold is_u, wrap in *. rewrite Z.shiftr_div_pow2 by done.
  Z.to_euclidean_division_equations. lia.
Qed.

Lemma frame_read data rest : 0 < Z.of_nat (length data) < 65536 → read_message (frame data ++ rest) = Some (data, rest).
Proof.
  intros Hd. unfold frame, read_message. cbn [app]. rewrite !(wrap_small 16) by (unfold is_u; lia).
  rewrite bytes_of_u16 by (apply lxor_is_u; unfold is_u; lia). rewrite lxor_twice, Nat2Z.id.
  rewrite bool_decide_false by lia. rewrite bool_decide_true by (rewrite length_app; lia).
  by rewrite take_app_length, drop_app_length.
Qed.

(** C29: frames and handshakes come back as they were sent. A message of 1 to
    65535 bytes is read back from its frame, and what follows it is left; a public
    key is read back from the client handshake, and a public key and a nonce from
    the server handshake, whatever garbage of up to 255 bytes hides them. *)
Theorem wire_roundtrip data garbage key nonce rest :
  0 < Z.of_nat (length data) < 65536 → Z.of_nat (length garbage) < 256 → length key = 32%nat → length nonce = 12%nat →
  read_message (frame data ++ rest) = Some (data, rest) ∧
  read_client_handshake (client_handshake garbage key ++ rest) = Some (key, rest) ∧
  read_server_handshake (server_handshake garbage key nonce ++ rest) = Some (key ++ nonce, rest).
Proof.
  intros Hd Hg Hk Hn. split; [|split].
  - by apply frame_read.
  - unfold client_handshake, read_client_handshake, read_garbage_header. cbn [app].
    rewrite (wrap_small 8 (Z.of_nat _)) by (unfold is_u; lia).
    rewrite (wrap_small 8) by (apply lxor_is_u; unfold is_u; lia). rewrite lxor_twice, Nat2Z.id, <- app_assoc.
    rewrite read_exact_app by done. simpl. by apply read_exact_app.
  - unfold server_handshake, read_server_handshake, read_garbage_header. cbn [app].
    rewrite (wrap_small 8 (Z.of_nat _)) by (unfold is_u; lia).
    rewrite (wrap_small 8) by (apply lxor_is_u; unfold is_u; lia). rewrite lxor_twice, Nat2Z.id, <- app_assoc.
    rewrite read_exact_app by done. simpl. apply read_exact_app. rewrite length_app. lia.
Qed.

(** The length of a frame is cut to 16 bits: nothing is read from the frame of a
    message of 65536 bytes. *)
Lemma frame_too_long data rest : length data = Z.to_nat 65536 → read_message (frame data ++ rest) = None.
Proof. intros Hd. unfold frame. rewrite Hd. reflexivity. Qed.

Section Peers.
Context {BP : Build} {HI : HashIter} {CH : Choice} {W : Wire}.
Import Peers.

(** ** The exchange of addresses *)

(** Whether an address from an exchange may be noted. *)
Definition acceptable (ps : t) (a : SocketAddr) : Prop :=
  (∀ token p, peers ps !! token = Some p → ip (Peer.addr p) ≠ ip a) ∧ ignored ps !! ip a = None ∧
  skip_private_addr a = false.

Lemma add_exchanged_spec ps name :
  add_exchanged ps name = ps ∨
  ∃ a, parse_socket name = Some a ∧ acceptable ps a ∧ (ip a ∉ ip <$> new_peers ps) ∧
    add_exchanged ps name = mk (peers ps) (new_peers ps ++ [a]) (ignored ps) (my_id ps) (behind_ping_sent_time ps).
Proof.
  unfold add_exchanged. destruct (parse_socket name) as [a|]; [|by left].
  destruct (existsb _ (iter ps)) eqn:Hpeers; [by left|]. destruct (existsb _ (new_peers ps)) eqn:Hnew; [by left|].
  case_bool_decide as Hig; [by left|]. destruct (skip_private_addr a) eqn:Hpriv; [by left|].
  right. exists a. split; [done|]. split; [split; [|split; [|done]]|split; [|done]].
  - intros token p Hp Heq. apply not_true_iff_false in Hpeers. destruct Hpeers. apply existsb_exists.
    exists (token, p). rewrite <- list_elem_of_In, elem_iter. split; [done|]. by apply bool_decide_eq_true.
  - by apply eq_None_not_Some.
  - intros (a' & Heq & Hin)%list_elem_of_fmap. apply not_true_iff_false in Hnew. destruct Hnew. apply existsb_exists.
    exists a'. rewrite <- list_elem_of_In. split; [done|]. by apply bool_decide_eq_true.
Qed.

Lemma exchange_fold names ps : ∃ extra, fold_left add_exchanged names ps =
    mk (peers ps) (new_peers ps ++ extra) (ignored ps) (my_id ps) (behind_ping_sent_time ps) ∧
  NoDup (ip <$> extra) ∧ Forall (λ a, acceptable ps a ∧ (ip a ∉ ip <$> new_peers ps) ∧
    ∃ name, name ∈ names ∧ parse_socket name = Some a) extra.
Proof.
  revert ps. induction names as [|name names IH]; intros ps; simpl.
  { exists []. rewrite app_nil_r. split; [by destruct ps|]. split; constructor. }
  destruct (add_exchanged_spec ps name) as [->|(a & Hpa & Ha & Hnew & ->)].
  - destruct (IH ps) as (extra & -> & Hnd & Hall). exists extra. split; [done|]. split; [done|].
    eapply Forall_impl; [exact Hall|]. intros a (H1 & H2 & name' & Hin & Hp). split; [done|]. split; [done|].
    exists name'. split; [by right|done].
  - destruct (IH (mk (peers ps) (new_peers ps ++ [a]) (ignored ps) (my_id ps) (behind_ping_sent_time ps)))
      as (extra & -> & Hnd & Hall). exists (a :: extra). simpl in *. split; [by rewrite <- app_assoc|]. split.
    + constructor; [|done]. intros (a' & Heq & Hin)%list_elem_of_fmap. rewrite Forall_forall in Hall.
      destruct (Hall a' Hin) as (_ & Hni & _). apply Hni. rewrite <- Heq. apply list_elem_of_fmap_2.
      apply elem_of_app. right. by apply list_elem_of_singleton.
    + constructor; [split; [done|]; split; [done|]; exists name; split; [by left|done]|].
      eapply Forall_impl; [exact Hall|]. intros a' (H1 & H2 & name' & Hin & Hp). split; [done|]. split.
      * intros Hin'. apply H2. rewrite fmap_app. apply elem_of_app. by left.
      * exists name'. split; [by right|done].
Qed.

(** What a node takes from an exchange of addresses. However many names a
    peer sends, the addresses noted for later connections are ones it named, one
    for each IP, none with the IP of a connected peer, of an address noted before
    or of a banned one, and none that is a loopback or private IPv4 address;
    nothing else in the table changes. *)
Theorem exchange_accepted names ps :
  ∃ extra, add_peers_from_exchange names ps =
    mk (peers ps) (new_peers ps ++ extra) (ignored ps) (my_id ps) (behind_ping_sent_time ps) ∧
  NoDup (ip <$> extra) ∧ Forall (λ a, acceptable ps a ∧ (ip a ∉ ip <$> new_peers ps) ∧
    ∃ name, name ∈ names ∧ parse_socket name = Some a) extra.
Proof.
  unfold add_peers_from_exchange. destruct (exchange_fold (hash_iter (remove_dups names)) ps) as (extra & -> & Hnd & Hall).
  exists extra. split; [done|]. split; [done|]. eapply Forall_impl; [exact Hall|].
  intros a (H1 & H2 & name & Hin & Hp). split; [done|]. split; [done|]. exists name. split; [|done].
  rewrite hash_iter_perm in Hin. by apply elem_of_remove_dups.
Qed.

(** A name that may be given to another peer. *)
Definition offered (now : Z) (asker : SocketAddr) (l : list (Z * Peer.t)) (name : rstr) : Prop :=
  ∃ token p, (token, p) ∈ l ∧ Peer.public p = true ∧ Peer.active now p = true ∧ Peer.disabled now p = false ∧
    Peer.equals asker p = false ∧ name = display_socket {| ip := ip (Peer.addr p); port := LISTEN_PORT |}.

Lemma exchange_loop_spec now asker l : ∀ result, (length result < 10)%nat →
  ∃ extra, exchange_loop now asker l result = result ++ extra ∧ (length (result ++ extra) <= 10)%nat ∧
    Forall (offered now asker l) extra.
Proof.
  induction l as [|[token p] l IH]; intros result Hlen; simpl.
  { exists []. rewrite app_nil_r. split; [done|]. split; [lia|constructor]. }
  assert (∀ name, offered now asker l name → offered now asker ((token, p) :: l) name) as Hmore.
  { intros name (tk & q & Hin & Hq). exists tk, q. split; [by right|done]. }
  assert (∀ result, (length result < 10)%nat → ∃ extra, exchange_loop now asker l result = result ++ extra ∧
    (length (result ++ extra) <= 10)%nat ∧ Forall (offered now asker ((token, p) :: l)) extra) as IH'.
  { intros r Hr. destruct (IH r Hr) as (extra & H1 & H2 & H3). exists extra. split; [done|]. split; [done|].
    by eapply Forall_impl. }
  destruct (Peer.disabled now p) eqn:Hd; [by apply IH'|]. destruct (Peer.equals asker p) eqn:He; [by apply IH'|].
  destruct (Peer.public p && Peer.active now p) eqn:Hpub; [|rewrite bool_decide_false by lia; by apply IH'].
  apply andb_true_iff in Hpub as [Hpub Hact]. set (name := display_socket _).
  assert (offered now asker ((token, p) :: l) name) as Hname by (exists token, p; split; [by left|done]).
  case_bool_decide as Hten; rewrite length_app in Hten; simpl in Hten.
  - exists [name]. rewrite length_app. simpl. split; [done|]. split; [lia|by constructor].
  - destruct (IH' (result ++ [name])) as (extra & -> & H2 & H3); [rewrite length_app; simpl; lia|].
    exists (name :: extra). rewrite <- app_assoc in *. split; [done|]. split; [done|by constructor].
Qed.

(** What a node gives in an exchange of addresses: at most ten names, each
    of a public, active peer of the table that is not disabled and not the one
    that asks, with the port that public nodes listen on. *)
Theorem exchange_offered now asker ps :
  (length (get_peers_for_exchange now ps asker) <= 10)%nat ∧
  Forall (λ name, ∃ token p, peers ps !! token = Some p ∧ Peer.public p = true ∧ Peer.active now p = true ∧
    Peer.disabled now p = false ∧ Peer.equals asker p = false ∧
    name = display_socket {| ip := ip (Peer.addr p); port := LISTEN_PORT |})
    (get_peers_for_exchange now ps asker).
Proof.
  unfold get_peers_for_exchange. destruct (exchange_loop_spec now asker (iter ps) []) as (extra & -> & Hl & Hall); [simpl; lia|].
  split; [done|]. eapply Forall_impl; [exact Hall|]. intros name (token & p & Hin & Hp). exists token, p.
  by rewrite elem_iter in Hin.
Qed.
End Peers.

Section Bans.
Context {BP : Build} {HI : HashIter} {CH : Choice} {W : Wire}.
Import Peers.

(** ** Bans *)

Lemma close_ignored now token ps a : is_Some (ignored ps !! a) → is_Some (ignored (close_peer now token ps) !! a).
Proof.
  unfold close_peer. destruct (peers ps !! token) as [p|]; [|done]. intros Ha.
  destruct (Peer.state p); try done. cbn. apply lookup_insert_is_Some. destruct (decide (ip (Peer.addr p) = a)); auto.
Qed.

(** A banned peer stays out. When the answer to a message bans a peer, its
    connection leaves the table and its IP is ignored; as long as it is ignored,
    a new connection from that IP is refused, the node does not connect to it, and
    it is not taken from an exchange. *)
Theorem banned_stays_out cfg now token p ps ps' :
  ignore_peer (E := Empty_set) now token ps = Ok ps' → peers ps !! token = Some p →
  peers ps' !! token = None ∧
  (∀ n a, Network.peers n = ps' → ip a = ip (Peer.addr p) →
    match ip a with V6 x => to_ipv4 x = None | V4 _ => True end → Network.on_accept cfg now a n = Ok (tt, n)) ∧
  (∀ only connect a unique, ip a = ip (Peer.addr p) →
    PeersUpdate.connect_peer now only connect a (ps', unique) = Ok (false, (ps', unique))) ∧
  (∀ names a, ip a = ip (Peer.addr p) →
    a ∈ new_peers (add_peers_from_exchange names ps') → a ∈ new_peers ps').
Proof.
  intros Hi Hp. pose proof (ignore_peers _ _ _ _ Hi) as Hsub.
  assert (is_Some (ignored ps' !! ip (Peer.addr p))) as Hig.
  { unfold ignore_peer in Hi. rewrite Hp in Hi.
    assert (ip (Peer.addr (if State.is_loop (Peer.state p) then p else Peer.set_state State.Banned p)) = ip (Peer.addr p))
      as Hip by by destruct (State.is_loop _). rewrite Hip in Hi.
    destruct (find _ _) as [[t0 ?]|]; injection Hi as <-; [apply close_ignored|]; cbn; apply lookup_insert_is_Some; by left. }
  split; [|split; [|split]].
  - apply eq_None_not_Some. intros [q Hq]. eapply lookup_weaken in Hq; [|done]. by rewrite lookup_delete_eq in Hq.
  - intros n a <- Hip Hv. unfold Network.on_accept.
    assert (match ip a with V6 ipv6 => match to_ipv4 ipv6 with Some ipv4 => {| ip := V4 ipv4; port := port a |} | None => a end
            | V4 _ => a end = a) as -> by by destruct (ip a); [|rewrite Hv].
    rewrite (mbind_run _ _ _ _ _ eq_refl). unfold is_ignored. by rewrite Hip, (bool_decide_true _ Hig).
  - intros only connect a unique Hip. unfold PeersUpdate.connect_peer. by rewrite Hip, (bool_decide_true _ Hig).
  - intros names a Hip Hin. destruct (exchange_fold (hash_iter (remove_dups names)) ps') as (extra & Heq & _ & Hall).
    unfold add_peers_from_exchange in Hin. rewrite Heq in Hin. apply elem_of_app in Hin as [Hin|Hin]; [done|].
    rewrite Forall_forall in Hall. destruct (Hall _ Hin) as ((_ & Hno & _) & _). rewrite Hip in Hno.
    destruct Hig as [? Hig]. congruence.
Qed.

(** ** Requests for blocks *)

Definition asked_peer (index : Z) (p : Peer.t) : Peer.t :=
  Peer.set_state (State.message (Message.GetBlock index)) (Peer.set_stream Interest.WRITABLE p).

(** [asked] pairs tokens with the numbers of the blocks that were requested. *)
Record requested (have : list Z) (lo hi : Z) (chosen : list (Z * Peer.t)) (asked : list (Z * Z)) (ps ps' : t) : Prop := {
  rq_tokens : NoDup asked.*1;
  rq_indexes : NoDup asked.*2;
  rq_asked : ∀ token i, (token, i) ∈ asked → lo <= i <= hi ∧ (i ∉ have) ∧
    ∃ p, (token, p) ∈ chosen ∧ peers ps' !! token = Some (asked_peer i p);
  rq_others : ∀ token, token ∉ asked.*1 → peers ps' !! token = peers ps !! token;
}.

Lemma requested_none have lo hi chosen ps : requested have lo hi chosen [] ps ps.
Proof. split; [constructor..| |done]. intros token i Hin. by apply not_elem_of_nil in Hin. Qed.

Lemma ask_loop_spec have max chosen : ∀ index ps ps', max < MAX → 0 <= index →
  NoDup chosen.*1 → index + Z.of_nat (length chosen) <= max + 1 →
  PeersUpdate.ask_loop have index max chosen ps = Ok (tt, ps') →
  ∃ asked, requested have index max chosen asked ps ps'.
Proof.
  induction chosen as [|[token p] chosen IH]; intros index ps ps' Hmax Hi Hnd Hlen Hr.
  { injection Hr as <-. exists []. apply requested_none. }
  simpl in Hlen. apply NoDup_cons in Hnd as [Hfresh Hnd].
  assert (add_w (E := Empty_set) 64 index 1 = Ok (index + 1)) as Hnext.
  { apply arith_fits. unfold is_u, MAX in *. lia. }
  cbn [PeersUpdate.ask_loop] in Hr. case_bool_decide as Hhave.
  - apply mbind_inv in Hr as (i & ps1 & [Hni ->]%mlift_inv & Hr). rewrite Hnext in Hni. injection Hni as <-.
    destruct (IH (index + 1) ps ps') as (asked & [H1 H2 H3 H4]); [lia..|done|lia|done|].
    exists asked. split; [done..| |done]. intros tk j Hin. destruct (H3 tk j Hin) as (? & ? & q & Hq & ?).
    split; [lia|]. split; [done|]. exists q. split; [by right|done].
  - apply mbind_inv in Hr as ([] & ps1 & [= <-] & Hr).
    apply mbind_inv in Hr as (i & ps2 & [Hni ->]%mlift_inv & Hr). rewrite Hnext in Hni. injection Hni as <-.
    assert (∃ asked, requested have (index + 1) max chosen asked (add_peer token (asked_peer index p) ps) ps') as (asked & [H1 H2 H3 H4]).
    { destruct (max <? index + 1); [injection Hr as <-; exists []; apply requested_none|].
      apply (IH (index + 1)); [lia..|done|lia|done]. }
    assert (token ∉ asked.*1) as Hnew.
    { intros ([tk j] & Heq & Hin)%list_elem_of_fmap. simpl in Heq. subst tk. destruct (H3 _ _ Hin) as (_ & _ & q & Hq & _).
      apply Hfresh. apply list_elem_of_fmap. by exists (token, q). }
    exists ((token, index) :: asked). split.
    + by constructor.
    + constructor; [|done]. intros ([tk j] & Heq & Hin)%list_elem_of_fmap. simpl in Heq. subst j. destruct (H3 _ _ Hin). lia.
    + intros tk j [[= -> ->]|Hin]%elem_of_cons.
      * split; [lia|]. split; [done|]. exists p. split; [by left|]. rewrite H4 by done. apply lookup_insert_eq.
      * destruct (H3 tk j Hin) as (? & ? & q & Hq & ?). split; [lia|]. split; [done|]. exists q. split; [by right|done].
    + intros tk [Hne Hin]%not_elem_of_cons. simpl in Hne. rewrite H4 by done. apply lookup_insert_ne. congruence.
Qed.

Lemma chosen_NoDup (f : Peer.t → bool) ps chosen :
  chosen ⊆+ List.filter (λ '(_, peer), f peer) (iter ps) → NoDup chosen.*1.
Proof.
  intros Hsub. destruct (submseteq_Permutation _ _ Hsub) as [k Hk].
  assert (NoDup (chosen ++ k)) as Hnd.
  { rewrite <- Hk. apply NoDup_ListNoDup, List.NoDup_filter, NoDup_ListNoDup. unfold iter. rewrite hash_iter_perm.
    apply NoDup_map_to_list. }
  apply NoDup_app in Hnd as [Hnd _]. apply NoDup_fmap_fst; [|done]. intros token p q Hp Hq.
  destruct (proj1 (elem_found _ _ _ _) (elem_of_submseteq _ _ _ Hp Hsub)) as [Hp' _].
  destruct (proj1 (elem_found _ _ _ _) (elem_of_submseteq _ _ _ Hq Hsub)) as [Hq' _]. congruence.
Qed.

(** The requests of a sync. Each request goes to another idle peer that
    claims more blocks, for another block; the blocks are above the height of the
    chain, at most the given maximum, and none is already kept for later; no other
    peer changes. *)
Theorem sync_requests height max_height have ps ps' :
  0 <= height <= max_height → max_height < MAX →
  PeersUpdate.ask_blocks_from_peers height max_height have ps = Ok (tt, ps') →
  ∃ asked : list (Z * Z), NoDup asked.*1 ∧ NoDup asked.*2 ∧
    (∀ token i, (token, i) ∈ asked → height < i <= max_height ∧ (i ∉ have) ∧
       ∃ p, peers ps !! token = Some p ∧ Peer.has_more_blocks height p = true ∧ State.is_idle (Peer.state p) = true ∧
         peers ps' !! token = Some (asked_peer i p)) ∧
    (∀ token, token ∉ asked.*1 → peers ps' !! token = peers ps !! token).
Proof.
  intros Hh Hmax Hr. unfold PeersUpdate.ask_blocks_from_peers in Hr.
  apply mbind_inv in Hr as (higher & ps1 & [= <- <-] & Hr).
  apply mbind_inv in Hr as (count & ps1 & [Hc ->]%mlift_inv & Hr).
  apply mbind_inv in Hr as (index & ps1 & [Hi ->]%mlift_inv & Hr).
  unfold sub_w, add_w in Hc, Hi. rewrite arith_fits in Hc, Hi by (unfold is_u, MAX in *; lia).
  injection Hc as <-. injection Hi as <-. set (l := List.filter _ (iter ps)) in Hr.
  pose proof (choose_multiple_sub (Z.to_nat (max_height - height)) l) as Hsub.
  pose proof (choose_multiple_length (Z.to_nat (max_height - height)) l) as Hlen.
  set (chosen := choose_multiple _ l) in *. assert (NoDup chosen.*1) as Hnd by by eapply chosen_NoDup.
  assert (∀ token p, (token, p) ∈ chosen → peers ps !! token = Some p ∧ Peer.has_more_blocks height p = true) as Hin.
  { intros token p Hin. by apply (elem_found (Peer.has_more_blocks height)), (elem_of_submseteq _ _ _ Hin Hsub). }
  destruct (ask_loop_spec have max_height chosen (height + 1) ps ps') as (asked & [H1 H2 H3 H4]); [lia..|done|lia|done|].
  exists asked. split; [done|]. split; [done|]. split; [|done]. intros token i Hti.
  destruct (H3 _ _ Hti) as (? & ? & p & Hp & ?). destruct (Hin _ _ Hp) as [Hlook Hmore].
  split; [lia|]. split; [done|]. exists p. split; [done|]. split; [done|]. split; [by eapply more_blocks_idle|done].
Qed.
End Bans.
