(* ===== verification/Sockets.v ===== *)
(** * Sockets (src/p2p/network.rs, the loops on a stream)

    The rest of the development takes a message that arrives as the bytes of its
    frame ([Network.read_message]) and a message that is sent as a frame and a
    result. This file is about the loops in between. The sockets do not block:
    what the system gives to successive reads is a list of [incoming], what it
    makes of successive writes a list of [wrote] with the clock after each. Times
    are in nanoseconds, as in [Peers]. *)

From S2P Require Import Prelude Text Net Commons Buffer Protocol Hash Keystore Block Store Chain Peers PeersUpdate Network PeersProps.
Open Scope Z_scope.

(** [io::ErrorKind], as far as the program tells them apart. *)
Inductive ErrorKind := WouldBlock | Interrupted | InvalidInput | UnexpectedEof | BrokenPipe | WriteZero | OtherError.
Definition would_block (e : ErrorKind) : bool := match e with WouldBlock => true | _ => false end.
Definition interrupted (e : ErrorKind) : bool := match e with Interrupted => true | _ => false end.

Definition millis (n : Z) : Z := n * 1000000.

Module Sockets.
(** ** Reading *)

(** Bytes that have come, none of them when the other side has closed; or an
    error and the time since the read began. After the list the other side has
    closed. *)
Inductive incoming := Data (bs : bytes) | Fails (e : ErrorKind) (elapsed : Z).
Definition stream := list incoming.
Abbreviation result A := (outcome ErrorKind A).

(** What stays for the next read. *)
Definition push (bs : bytes) (s : stream) : stream := if bool_decide (bs = []) then s else Data bs :: s.

(** [Read::read_exact] of the standard library, which [read_u8] and [read_u16]
    of byteorder call. *)
Fixpoint read_exact (n : nat) (s : stream) : result (bytes * stream) :=
  if bool_decide (n = 0)%nat then Ok ([], s) else
  match s with
  | [] => Err UnexpectedEof
  | Data bs :: s =>
      if bool_decide (bs = []) then Err UnexpectedEof else
      if bool_decide (n <= length bs)%nat then Ok (take n bs, push (drop n bs) s)
      else let! (rest, s) := read_exact (n - length bs) s in Ok (bs ++ rest, s)
  | Fails e _ :: s => if interrupted e then read_exact n s else Err e
  end.

Definition MAX_READ_BLOCK_TIME : Z := 100.

(** The end of [read_message]. *)
Definition finish (data_size : nat) (buf : bytes) (s : stream) : result (bytes * stream) :=
  if bool_decide (length buf = data_size) then Ok (buf, s) else Err BrokenPipe.

(** The loop of [read_message]; [buf] is what has been read of the message. *)
Fixpoint read_loop (data_size : nat) (buf : bytes) (s : stream) : result (bytes * stream) :=
  match s with
  | [] => finish data_size buf []
  | Data bytes :: s =>
      let want := (data_size - length buf)%nat in
      let buf := buf ++ take want bytes in
      if bool_decide (length buf = data_size) || bool_decide (bytes = []) then finish data_size buf (push (drop want bytes) s)
      else read_loop data_size buf s
  | Fails err elapsed :: s =>
      if would_block err then
        if elapsed / 1000000 <? MAX_READ_BLOCK_TIME then read_loop data_size buf s else Err WouldBlock
      else if interrupted err then read_loop data_size buf s
      else Err err
  end.

(** [read_message] *)
Definition read_message (s : stream) : result (bytes * stream) :=
  let! (header, s) := read_exact 2 s in
  match header with
  | [hi; lo] =>
      let data_size := Z.to_nat (Z.lxor (Z.lor (Z.shiftl hi 8) lo) 43690) in
      if bool_decide (data_size = 0)%nat then Err InvalidInput else read_loop data_size [] s
  | _ => Panic
  end.

(** [read_garbage_header], [read_client_handshake], [read_server_handshake] *)
Definition read_garbage_header (s : stream) : result stream :=
  let! (size, s) := read_exact 1 s in
  match size with
  | [size] => let! (_, s) := read_exact (Z.to_nat (Z.lxor size 10)) s in Ok s
  | _ => Panic
  end.
Definition read_client_handshake (s : stream) : result (bytes * stream) :=
  let! s := read_garbage_header s in read_exact 32 s.
Definition read_server_handshake (s : stream) : result (bytes * stream) :=
  let! s := read_garbage_header s in read_exact (32 + 12) s.

(** ** Writing *)

(** The number of bytes that [write] took, or its error. *)
Inductive wrote := Wrote (n : nat) | WriteFails (e : ErrorKind).

Definition WRITE_TIMEOUT : Z := millis 3000.

(** [write_all]: the bytes that were taken, and the result. [os] is what the
    writes do, each with the time since the start when it is over; when the list
    ends, no answer of the system is known. [named] is whether the socket still
    tells the address of its peer, which the warning of a timeout unwraps when
    warnings are logged. *)
Fixpoint write_all (named : bool) (os : list (wrote * Z)) (buf : bytes) : bytes * result unit :=
  match buf with
  | [] => ([], Ok tt)
  | _ =>
      match os with
      | [] => ([], OutOfFuel)
      | (did, elapsed) :: os =>
          let go (taken buf : bytes) :=
            if WRITE_TIMEOUT <? elapsed then (taken, if named then Err BrokenPipe else Panic)
            else let (sent, r) := write_all named os buf in (taken ++ sent, r) in
          match did with
          | Wrote 0 => ([], Err WriteZero)
          | Wrote n => if bool_decide (n <= length buf)%nat then go (take n buf) (drop n buf) else ([], Panic)
          | WriteFails e => if interrupted e then go [] buf else ([], Err e)
          end
      end
  end.

(** [send_message] *)
Definition send_message (named : bool) (os : list (wrote * Z)) (data : bytes) : bytes * result unit :=
  write_all named os (frame data).

(** ** Names *)

(** [Peers::resolve]: what [to_socket_addrs] gives, each with the time since the
    start when the loop comes to it. *)
Fixpoint resolve (os : list (Z * option (list SocketAddr))) : result (list SocketAddr) :=
  match os with
  | [] => OutOfFuel
  | (elapsed, found) :: os =>
      if elapsed <? millis 200 then
        match found with
        | Some addresses => if negb (bool_decide (addresses = [])) then Ok addresses else resolve os
        | None => resolve os
        end
      else Ok []
  end.

(** [wait_for_internet]: whether the name of the project could be resolved. *)
Fixpoint wait_for_internet (timeout : Z) (os : list (Z * bool)) : result bool :=
  match os with
  | [] => OutOfFuel
  | (elapsed, resolved) :: os =>
      if elapsed <? timeout then if (resolved : bool) then Ok true else wait_for_internet timeout os
      else Ok false
  end.

(** ** Facts *)

Section Facts.

(** The bytes that come. *)
Definition bytes_of (s : stream) : bytes := concat ((λ i, match i with Data bs => bs | Fails _ _ => [] end) <$> s).

(** Nothing breaks, and nobody waits too long. *)
Definition calm (s : stream) : Prop :=
  Forall (λ i, match i with
               | Data bs => bs ≠ []
               | Fails WouldBlock elapsed => elapsed / 1000000 < MAX_READ_BLOCK_TIME
               | Fails Interrupted _ => True
               | _ => False
               end) s.

(** The next [n] bytes are there, in whatever pieces. *)
Fixpoint ready (n : nat) (s : stream) : bool :=
  match s with
  | [] => bool_decide (n = 0)%nat
  | Data bs :: s => bool_decide (n <= length bs)%nat || ready (n - length bs) s
  | Fails e _ :: s => bool_decide (n = 0)%nat || (interrupted e && ready n s)
  end.

Lemma bytes_of_data bs s : bytes_of (Data bs :: s) = bs ++ bytes_of s.
Proof. done. Qed.
Lemma bytes_of_fails e t s : bytes_of (Fails e t :: s) = bytes_of s.
Proof. done. Qed.
Lemma bytes_of_push bs s : bytes_of (push bs s) = bs ++ bytes_of s.
Proof. unfold push. by case_bool_decide as Hb; [rewrite Hb|]. Qed.
Lemma calm_push bs s : calm s → calm (push bs s).
Proof. intros Hs. unfold push. case_bool_decide; [done|]. by constructor. Qed.

(** What a read of [n] bytes does to the rest. *)
Definition reads (n : nat) (s : stream) (r : result (bytes * stream)) (before : bytes) : Prop :=
  ∃ s', r = Ok (before ++ take n (bytes_of s), s') ∧ bytes_of s' = drop n (bytes_of s) ∧ calm s'.

Lemma reads_piece n bs s before : (n <= length bs)%nat → calm s →
  reads n (Data bs :: s) (Ok (before ++ take n bs, push (drop n bs) s)) before.
Proof.
  intros Hn Hs. exists (push (drop n bs) s). rewrite bytes_of_push, bytes_of_data, take_app_le, drop_app_le by done.
  split; [done|]. split; [done|]. by apply calm_push.
Qed.

Lemma read_exact_ready n : ∀ s, ready n s = true → calm s → (n <= length (bytes_of s))%nat ∧ reads n s (read_exact n s) [].
Proof.
  intros s. revert n. induction s as [|[bs|e t] s IH]; intros n Hr Hs; cbn [ready read_exact] in *.
  - rewrite Hr. apply bool_decide_eq_true in Hr as ->. split; [simpl; lia|]. by exists [].
  - apply Forall_cons in Hs as [Hbs Hs]. destruct (decide (n = 0)%nat) as [->|Hn].
    { rewrite bool_decide_true by done. split; [lia|]. exists (Data bs :: s). split; [done|]. split; [done|]. by constructor. }
    rewrite (bool_decide_false (n = 0)%nat), (bool_decide_false (bs = [])) by done. destruct (decide (n <= length bs)%nat) as [Hle|Hle].
    { rewrite bool_decide_true by done. split; [rewrite bytes_of_data, length_app; lia|]. by apply (reads_piece n bs s []). }
    rewrite !bool_decide_false in * by done. simpl in Hr. rewrite bytes_of_data, length_app.
    destruct (IH _ Hr Hs) as (Hlen & s' & Hrun & Hrest & Hc). split; [lia|]. exists s'. rewrite Hrun, obind_Ok.
    rewrite bytes_of_data, take_app_ge, drop_app_ge by lia. done.
  - apply Forall_cons in Hs as [He Hs]. rewrite bytes_of_fails. destruct (bool_decide (n = 0)%nat) eqn:Hn.
    { apply bool_decide_eq_true in Hn as ->. split; [lia|]. exists (Fails e t :: s). split; [done|]. split; [done|]. by constructor. }
    apply andb_true_iff in Hr as [-> Hr]. destruct (IH _ Hr Hs) as (Hlen & Hreads). done.
Qed.

Lemma ready_nothing s : ready 0 s = true.
Proof. by destruct s as [|[bs|e t] s]. Qed.

Lemma ready_push m n bs s : (n <= length bs)%nat → ready (n + m) (Data bs :: s) = true → ready m (push (drop n bs) s) = true.
Proof.
  intros Hn Hr. cbn [ready] in Hr. apply orb_true_iff in Hr. rewrite bool_decide_eq_true in Hr. unfold push.
  case_bool_decide as Hd.
  - apply (f_equal length) in Hd. rewrite length_drop in Hd. simpl in Hd. destruct Hr as [Hle|Hr].
    + replace m with 0%nat by lia. apply ready_nothing.
    + by replace m with (n + m - length bs)%nat by lia.
  - cbn [ready]. rewrite length_drop. apply orb_true_iff. rewrite bool_decide_eq_true. destruct Hr as [Hle|Hr]; [left; lia|].
    right. by replace (m - (length bs - n))%nat with (n + m - length bs)%nat by lia.
Qed.

Lemma ready_less k m s : ready (k + m) s = true → ready k s = true.
Proof.
  revert k. induction s as [|[bs|e t] s IH]; intros k H; cbn [ready] in *.
  - rewrite bool_decide_eq_true in *. lia.
  - rewrite orb_true_iff, bool_decide_eq_true in *. destruct H as [H|H]; [left; lia|].
    destruct (decide (k <= length bs)%nat); [by left|right]. apply IH. by replace (k - length bs + m)%nat with (k + m - length bs)%nat by lia.
  - rewrite !orb_true_iff, !andb_true_iff, !bool_decide_eq_true in *. destruct H as [H|[He H]]; [left; lia|right; eauto].
Qed.

(** What is there after [n] bytes is there when they have been read. *)
Lemma ready_after m s : ∀ n x s', read_exact n s = Ok (x, s') → ready (n + m) s = true → ready m s' = true.
Proof.
  induction s as [|[bs|e t] s IH]; intros n x s' H Hr; cbn [read_exact] in H.
  - case_bool_decide; [|done]. injection H as _ <-. by subst n.
  - case_bool_decide as Hn; [injection H as _ <-; by subst n|]. case_bool_decide; [done|]. case_bool_decide as Hle.
    + injection H as _ <-. by apply ready_push.
    + apply obind_inv in H as ([rest s1] & H & [= _ <-]). apply (IH _ _ _ H). cbn [ready] in Hr.
      rewrite bool_decide_false in Hr by lia. by replace (n - length bs + m)%nat with (n + m - length bs)%nat by lia.
  - case_bool_decide as Hn; [injection H as _ <-; by subst n|]. destruct (interrupted e) eqn:He; [|done].
    apply (IH _ _ _ H). cbn [ready] in Hr. rewrite bool_decide_false, He in Hr by lia. done.
Qed.

(** A handshake whose bytes are there is read, in whatever pieces. *)
Lemma handshake_pieces size garbage data n rest s :
  calm s → bytes_of s = size :: garbage ++ data ++ rest → Z.to_nat (Z.lxor size 10) = length garbage → n = length data →
  ready (1 + (length garbage + n)) s = true →
  ∃ s', (let! s := read_garbage_header s in read_exact n s) = Ok (data, s') ∧ bytes_of s' = rest ∧ calm s'.
Proof.
  intros Hs Hb Hg -> Hr.
  unfold read_garbage_header. pose proof Hr as Hr0.
  apply (ready_less 1%nat) in Hr. destruct (read_exact_ready 1 s Hr Hs) as (_ & s1 & Hrun & Hrest & Hs1).
  pose proof (ready_after _ _ _ _ _ Hrun Hr0) as Hr1. rewrite Hb in Hrun, Hrest. cbn [take drop app] in Hrun, Hrest.
  rewrite Hrun. cbn [obind]. rewrite take_0. cbn [obind]. rewrite Hg.
  pose proof (ready_less _ _ _ Hr1) as Hr2. destruct (read_exact_ready _ s1 Hr2 Hs1) as (_ & s2 & Hrun2 & Hrest2 & Hs2).
  pose proof (ready_after _ _ _ _ _ Hrun2 Hr1) as Hr3. rewrite Hrest, drop_0, drop_app_length in Hrest2. rewrite Hrun2. cbn [obind].
  destruct (read_exact_ready _ s2 Hr3 Hs2) as (_ & s3 & Hrun3 & Hrest3 & Hs3). exists s3.
  rewrite Hrun3, Hrest2, take_app_length. split; [done|]. split; [|done]. by rewrite Hrest3, Hrest2, drop_app_length.
Qed.

Lemma garbage_size n : Z.of_nat n < 256 → Z.to_nat (Z.lxor (wrap 8 (Z.lxor (wrap 8 (Z.of_nat n)) 10)) 10) = n.
Proof.
  intros Hn. rewrite (wrap_small 8 (Z.of_nat _)) by (unfold is_u; lia).
  rewrite (wrap_small 8) by (apply lxor_is_u; unfold is_u; lia). by rewrite lxor_twice, Nat2Z.id.
Qed.

(** Both handshakes cross the sockets, if none of their bytes is late. *)
Lemma handshakes_cross garbage key nonce s more :
  Z.of_nat (length garbage) < 256 → length key = 32%nat → length nonce = 12%nat → calm s →
  (bytes_of s = client_handshake garbage key ++ more → ready (length (client_handshake garbage key)) s = true →
    ∃ s', read_client_handshake s = Ok (key, s') ∧ bytes_of s' = more ∧ calm s') ∧
  (bytes_of s = server_handshake garbage key nonce ++ more → ready (length (server_handshake garbage key nonce)) s = true →
    ∃ s', read_server_handshake s = Ok (key ++ nonce, s') ∧ bytes_of s' = more ∧ calm s').
Proof.
  intros Hg Hk Hn Hs. split; intros Hb Hr.
  - unfold client_handshake in *. rewrite length_cons, length_app in Hr. cbn [app] in Hb. rewrite <- app_assoc in Hb.
    apply (handshake_pieces _ garbage key 32 more s Hs Hb (garbage_size _ Hg) (eq_sym Hk)). by rewrite <- Hk.
  - unfold server_handshake in *. rewrite length_cons, !length_app in Hr. cbn [app] in Hb.
    rewrite <- !app_assoc, (app_assoc key) in Hb.
    apply (handshake_pieces _ garbage (key ++ nonce) (32 + 12) more s Hs Hb (garbage_size _ Hg)).
    + by rewrite length_app, Hk, Hn.
    + by rewrite Hk, Hn in Hr.
Qed.

Lemma read_loop_pieces size s : ∀ buf, calm s → (length buf < size)%nat →
  if decide (size - length buf <= length (bytes_of s))%nat
  then reads (size - length buf) s (read_loop size buf s) buf
  else read_loop size buf s = Err BrokenPipe.
Proof.
  induction s as [|[bs|e t] s IH]; intros buf Hs Hlt; cbn [read_loop].
  - rewrite decide_False by (simpl; lia). unfold finish. by rewrite bool_decide_false by lia.
  - apply Forall_cons in Hs as [Hbs Hs]. rewrite (bool_decide_false (bs = [])), orb_false_r by done.
    rewrite bytes_of_data, length_app. destruct (decide (size - length buf <= length bs)%nat) as [Hle|Hgt].
    + rewrite decide_True by lia. unfold finish. rewrite bool_decide_true by (rewrite length_app, length_take; lia). by apply reads_piece.
    + rewrite (take_ge bs) by lia. rewrite bool_decide_false by (rewrite length_app; lia).
      specialize (IH (buf ++ bs) Hs ltac:(rewrite length_app; lia)). rewrite length_app in IH.
      destruct (decide (size - length buf <= length bs + length (bytes_of s))%nat).
      * rewrite decide_True in IH by lia. destruct IH as (s' & -> & Hrest & Hc). exists s'.
        rewrite bytes_of_data, take_app_ge, drop_app_ge by lia. rewrite Hrest, app_assoc, Nat.sub_add_distr. done.
      * rewrite decide_False in IH by lia. done.
  - apply Forall_cons in Hs as [He Hs]. rewrite bytes_of_fails. specialize (IH buf Hs Hlt).
    destruct e; try done. cbn [would_block]. by rewrite (proj2 (Z.ltb_lt _ _) He).
Qed.

(** The loop on a socket reads what [Network.read_message] reads in the bytes
    that come. *)
Lemma read_pieces s : calm s → ready 2 s = true →
  match Network.read_message (bytes_of s) with
  | Some (data, rest) => ∃ s', read_message s = Ok (data, s') ∧ bytes_of s' = rest ∧ calm s'
  | None => ∃ e, read_message s = Err e
  end.
Proof.
  intros Hs Hr. destruct (read_exact_ready 2 s Hr Hs) as (Hlen & s1 & Hrun & Hrest & Hs1).
  unfold read_message, Network.read_message. rewrite Hrun, obind_Ok.
  destruct (bytes_of s) as [|hi [|lo bs]]; [simpl in Hlen; lia..|]. cbn [take app drop] in *.
  set (size := Z.to_nat _). case_bool_decide as Hz; [by eexists|].
  pose proof (read_loop_pieces size s1 [] Hs1 ltac:(simpl; lia)) as Hloop. rewrite Hrest in Hloop. simpl in Hloop.
  rewrite Nat.sub_0_r in Hloop. destruct (decide _) as [Hle|Hgt].
  - rewrite bool_decide_true by done. destruct Hloop as (s2 & Hrun2 & Hrest2 & Hc). rewrite Hrest in Hrun2, Hrest2. by exists s2.
  - rewrite bool_decide_false by done. by exists BrokenPipe.
Qed.

(** What was handed over is a beginning of the buffer, all of it on success. *)
Lemma write_all_sent named os : ∀ buf sent r, write_all named os buf = (sent, r) → ∃ left, buf = sent ++ left ∧ (r = Ok tt → left = []).
Proof.
  induction os as [|[did elapsed] os IH]; intros [|b buf] sent r H; cbn [write_all] in H; try (injection H as <- <-; eauto; fail).
  { injection H as <- <-. by exists (b :: buf). }
  destruct did as [[|n]|e]; [by injection H as <- <-; exists (b :: buf)| |].
  - case_bool_decide; [|by injection H as <- <-; exists (b :: buf)].
    destruct (WRITE_TIMEOUT <? elapsed).
    { injection H as <- <-. exists (drop (S n) (b :: buf)). split; [symmetry; exact (take_drop (S n) (b :: buf))|by destruct named]. }
    destruct (write_all named os (drop (S n) (b :: buf))) as [sent' r'] eqn:Hw. injection H as <- <-.
    destruct (IH _ _ _ Hw) as (left & He & Hl). exists left. split; [|done].
    simpl in He. simpl. rewrite <- app_assoc, <- He. by rewrite take_drop.
  - destruct (interrupted e); [|by injection H as <- <-; exists (b :: buf)].
    destruct (WRITE_TIMEOUT <? elapsed); [by injection H as <- <-; exists (b :: buf); destruct named|].
    destruct (write_all named os (b :: buf)) as [sent' r'] eqn:Hw. injection H as <- <-. by apply (IH _ _ _ Hw).
Qed.

(** The clock of the writes, from [now] on: it does not go back, and every turn
    of the loop sleeps for two milliseconds. *)
Fixpoint paced (now : Z) (os : list (wrote * Z)) : Prop :=
  match os with
  | [] => True
  | (_, elapsed) :: os => now <= elapsed ∧ paced (elapsed + millis 2) os
  end.

Lemma write_all_ends named os : ∀ now buf, paced now os → WRITE_TIMEOUT < now + millis 2 * (Z.of_nat (length os) - 1) →
  (0 < length os)%nat → (write_all named os buf).2 ≠ OutOfFuel.
Proof.
  unfold millis. induction os as [|[did elapsed] os IH]; intros now [|b buf] Hp Ht Hl; cbn [write_all]; [done|simpl in Hl; lia|done|].
  destruct Hp as [Hge Hp]. rewrite length_cons in Ht.
  assert (∀ taken left, (if WRITE_TIMEOUT <? elapsed then (taken, if named then Err BrokenPipe else Panic)
    else let (sent, r) := write_all named os left in (taken ++ sent, r)).2 ≠ OutOfFuel) as Hgo.
  { intros taken left. destruct (Z.ltb_spec WRITE_TIMEOUT elapsed); [by destruct named|].
    destruct os as [|o os]; [simpl in Ht; lia|].
    specialize (IH (elapsed + 2 * 1000000) left Hp ltac:(lia) ltac:(simpl; lia)). by destruct (write_all named (o :: os) left). }
  destruct did as [[|n]|e]; [done| |]; [case_bool_decide; [apply Hgo|done]|destruct (interrupted e); [apply Hgo|done]].
Qed.

Lemma resolve_in_time os addresses : resolve os = Ok addresses → addresses ≠ [] →
  ∃ elapsed, (elapsed, Some addresses) ∈ os ∧ elapsed < millis 200.
Proof.
  induction os as [|[elapsed found] os IH]; cbn [resolve]; [done|]. intros H Hne. destruct (Z.ltb_spec elapsed (millis 200)); [|congruence].
  destruct found as [l|]; [|destruct (IH H Hne) as (t & ? & ?); exists t; set_solver].
  case_bool_decide; [destruct (IH H Hne) as (t & ? & ?); exists t; set_solver|]. injection H as ->. exists elapsed. set_solver.
Qed.
End Facts.
End Sockets.


(** C31: a write ends. [write_all] sleeps two milliseconds in every turn and gives
    up after three seconds, so 1502 answers of the system are enough for it; what
    it handed over then is a beginning of the frame, and all of it on success. *)
Theorem send_message_ends named os data :
  Sockets.paced 0 os → (1502 <= length os)%nat →
  ∃ sent r, Sockets.send_message named os data = (sent, r) ∧ r ≠ OutOfFuel ∧
    ∃ left, frame data = sent ++ left ∧ (r = Ok tt → left = []).
Proof.
  intros Hp Hl. pose proof (Sockets.write_all_ends named os 0 (frame data) Hp) as Hends.
  destruct (Sockets.send_message named os data) as [sent r] eqn:Hw. exists sent, r. split; [done|]. split.
  - unfold Sockets.send_message in Hw. rewrite Hw in Hends. apply Hends; [unfold Sockets.WRITE_TIMEOUT, millis; lia|lia].
  - by eapply Sockets.write_all_sent.
Qed.

(** ** Runs *)
Module SocketsExamples.
Import Sockets.
Definition sent_bytes : bytes := frame [1; 2; 3; 4].

(** Two writes with an interruption between; the bytes come in four pieces, after
    the length with a wait. *)
Definition writes : list (wrote * Z) :=
  [(Wrote 4, millis 1); (WriteFails Interrupted, millis 4); (Wrote 2, millis 7)].
Definition arrives : stream :=
  [Data (take 1 sent_bytes); Data (take 2 (drop 1 sent_bytes)); Fails WouldBlock (millis 60); Fails Interrupted 0;
   Data (drop 3 sent_bytes ++ [9])].


(** A system that never takes a byte. *)
Definition stuck : list (wrote * Z) := (λ i, (WriteFails Interrupted, millis 2 * i)) <$> seqZ 0 1502.

Lemma paced_from k : ∀ i, 0 <= i → paced (millis 2 * i) ((λ i, (WriteFails Interrupted, millis 2 * i)) <$> seqZ i (Z.of_nat k)).
Proof.
  induction k as [|k IH]; intros i Hi; [by rewrite seqZ_nil|]. rewrite seqZ_cons by lia. cbn [fmap list_fmap paced].
  split; [lia|]. replace (millis 2 * i + millis 2) with (millis 2 * Z.succ i) by lia.
  replace (Z.pred (Z.of_nat (S k))) with (Z.of_nat k) by lia. apply IH. lia.
Qed.

Lemma send_message_ends_witness : ∃ sent r, send_message true stuck [1; 2] = (sent, r) ∧ r ≠ OutOfFuel ∧
  ∃ left, frame [1; 2] = sent ++ left ∧ (r = Ok tt → left = []).
Proof.
  apply (send_message_ends true stuck [1; 2]).
  - exact (paced_from 1502 0 ltac:(lia)).
  - unfold stuck. rewrite length_fmap, length_seqZ. lia.
Defined.

(** The sockets do not block, but [write_all] takes [WouldBlock] for a failure.
    The node goes on as if the message had been sent, and the next frame follows
    in the middle of this one: the other side reads its length as contents. *)
Lemma full_buffer_breaks_frames :
  let (sent, r) := send_message true [(Wrote 3, 0); (WriteFails WouldBlock, 0)] [1; 2; 3] in
  r = Err WouldBlock ∧
  match read_message [Data (sent ++ frame [7; 7])] with
  | Ok (data, _) => data = 1 :: take 2 (frame [7; 7])
  | _ => False
  end.
Proof. vm_compute. done. Qed.

(** The clock is read after the last byte too: a message that was sent whole can
    be reported as failed. *)
Lemma late_success_is_failure : send_message true [(Wrote 4, millis 3001)] [1; 2] = (frame [1; 2], Err BrokenPipe).
Proof. vm_compute. done. Qed.

(** The same for a handshake: nothing of it may be late. *)
Lemma split_handshake_closes :
  let sent := client_handshake [7; 7] (replicate 32 1) in
  read_client_handshake [Data sent] = Ok (replicate 32 1, []) ∧
  read_client_handshake [Data (take 20 sent); Fails WouldBlock 0; Data (drop 20 sent)] = Err WouldBlock.
Proof. vm_compute. done. Qed.

(** Only the contents of a message may be late. When the two bytes of its length
    come apart the read fails, and the node closes the connection. *)
Lemma split_length_closes :
  read_message [Data (take 1 sent_bytes); Fails WouldBlock 0; Data (drop 1 sent_bytes)] = Err WouldBlock ∧
  ∃ s', read_message [Data (take 2 sent_bytes); Fails WouldBlock 0; Data (drop 2 sent_bytes)] = Ok ([1; 2; 3; 4], s').
Proof. vm_compute. eauto. Qed.
End SocketsExamples.
