(* ===== verification/NodeExamples.v ===== *)
(** * Concrete nodes

    A small instance of the wire format and a node that is run on it: a peer
    connects, shakes hands and sends blocks. Witnesses of the theorems on nodes
    and peers. *)

From stdpp Require Import fin_maps sorting.
From S2P Require Import Prelude Text Net Commons Buffer Protocol Hash Keystore Block Store Chain Cache Peers PeersUpdate Network.
From S2P Require Import ChainFacts ChainProps ChainSigners ChainExamples NetworkProps NodeProps PeersProps.
Import Toy.
Open Scope Z_scope.

Module ToyWire.
#[export] Instance toy_iter : HashIter := {| hash_iter := λ _ l, l; hash_iter_perm := λ _ l, reflexivity l |}.

#[export] Program Instance toy_choice : Choice := {|
  choose := λ _ l, head l;
  choose_multiple := λ _ n l, take n l;
|}.
Next Obligation. intros A [|y l] x; [done|]. intros [= <-]. by left. Qed.
Next Obligation. by intros A [|y l]. Qed.
Next Obligation. intros A n l. apply sublist_submseteq, sublist_take. Qed.
Next Obligation. intros A n l. rewrite length_take. lia. Qed.

Definition of_bool (b : bool) : Z := if b then 1 else 0.

#[export] Instance toy_wire : Wire := {|
  cbor_of_message := λ m,
    match m with
    | Message.Error => [0]
    | Message.Hand a o v p r => [1; v; of_bool p] ++ put a ++ put o ++ put r
    | Message.Shake a o v p r h => [2; v; of_bool p; h] ++ put a ++ put o ++ put r
    | Message.Ping h hash => [3; h] ++ put hash
    | Message.Pong h hash => [4; h] ++ put hash
    | Message.Twin => [5]
    | Message.Loop => [6]
    | Message.GetPeers => [7]
    | Message.Peers ps => 8 :: concat (put <$> ps)
    | Message.GetBlock i => [9; i]
    | Message.Block i b => [10; i] ++ b
    end;
  cbor_message := λ s,
    match s with
    | [0] => Some Message.Error
    | 1 :: v :: p :: s =>
        '(a, s) ← get_field s; '(o, s) ← get_field s; '(r, s) ← get_field s; Some (Message.Hand a o v (p =? 1) r)
    | 2 :: v :: p :: h :: s =>
        '(a, s) ← get_field s; '(o, s) ← get_field s; '(r, s) ← get_field s; Some (Message.Shake a o v (p =? 1) r h)
    | 3 :: h :: s => '(hash, _) ← get_field s; Some (Message.Ping h hash)
    | 4 :: h :: s => '(hash, _) ← get_field s; Some (Message.Pong h hash)
    | [5] => Some Message.Twin
    | [6] => Some Message.Loop
    | [7] => Some Message.GetPeers
    | [8] => Some (Message.Peers [])
    | [9; i] => Some (Message.GetBlock i)
    | 10 :: i :: b => Some (Message.Block i b)
    | _ => None
    end;
  (** The nonce before the text. *)
  aead_encrypt := λ _ nonce data, Some (nonce ++ data);
  aead_decrypt := λ _ nonce data, if bool_decide (take 12 data = nonce) then Some (drop 12 data) else None;
  diffie_hellman := λ secret public, take 16 secret ++ take 16 public;
|}.

Definition cfg : config :=
  {| cfg_app_version := str "0.8.0"; cfg_origin := str "origin"; cfg_public := true; cfg_peers := []; cfg_ruvchain_only := false |}.
Definition version : rstr := str "0.8.7".

(** The clock of the peers. *)
Definition tick : Z := 5000000000.
Definition garbage : bytes := replicate 31 170.
Definition nonce : bytes := replicate 12 9.
Definition remote : SocketAddr := {| ip := V4 (Ipv4 203 0 113 7); port := 40000 |}.
Definition remote_key : bytes := replicate 32 5.

Definition node0 : Network.t := Network.new (key 1) (key 1) (str "me") empty_chain.

(** The state after a run, the same node when the run fails. *)
Definition after {A} (m : M Network.t Empty_set A) (n : Network.t) : Network.t :=
  match m n with Ok (_, n') => n' | _ => n end.
Definition output {A} (m : M Network.t Empty_set A) (n : Network.t) : option A :=
  match m n with Ok (a, _) => Some a | _ => None end.
Lemma after_run {A} (m : M Network.t Empty_set A) n a : output m n = Some a → m n = Ok (a, after m n).
Proof. unfold output, after. destruct (m n) as [[a' n']| | |]; [|done..]. by intros [= ->]. Qed.

Definition readable : readiness :=
  {| ev_token := 1; ev_readable := true; ev_writable := false; ev_error := false; ev_read_closed := false; ev_write_closed := false |}.
Definition writable : readiness :=
  {| ev_token := 1; ev_readable := false; ev_writable := true; ev_error := false; ev_read_closed := false; ev_write_closed := false |}.

Definition event (ev : readiness) (input : bytes) : M Network.t Empty_set bytes :=
  Network.on_event cfg version now tick true 200 1000 ev input nonce garbage true.

(** The frame of a message of the peer. *)
Definition sealed (m : Message.t) : bytes := frame (nonce ++ cbor_of_message m).
Definition sends (m : Message.t) : M Network.t Empty_set bytes := event readable (sealed m).
Definition sends_block (b : Block.t) : M Network.t Empty_set bytes :=
  sends (Message.Block (Block.index b) (cbor_of_block b)).

Definition accepted : Network.t := Eval vm_compute in after (Network.on_accept cfg tick remote) node0.
Definition greeted : Network.t := Eval vm_compute in after (event readable (client_handshake garbage remote_key)) accepted.
Definition shaken : Network.t := Eval vm_compute in after (event writable []) greeted.
Definition one_block : Network.t := Eval vm_compute in after (sends_block genesis) shaken.
Definition answered : Network.t := Eval vm_compute in after (sends Message.GetPeers) one_block.

Example run_heights :
  Chain.get_height (Network.chain shaken) = 0 ∧ Chain.get_height (Network.chain one_block) = 1 ∧
  output (event writable []) greeted = Some (server_handshake garbage (key 1) nonce) ∧
  output (event writable []) answered = Some (frame (nonce ++ [8])).
Proof. vm_compute. done. Qed.
End ToyWire.
Import ToyWire.

(** ** The run is a run of the node *)

Definition deliveredb (n : Network.t) (ev : readiness) : bool :=
  match Peers.peers (Network.peers n) !! ev_token ev with
  | Some p => implb (ev_readable ev) (Interest.readable (Peer.stream p)) &&
              implb (ev_writable ev) (Interest.writable (Peer.stream p))
  | None => true
  end.
Lemma deliveredb_ok n ev : deliveredb n ev = true → delivered n ev.
Proof.
  unfold deliveredb. intros Hd p Hp. rewrite Hp in Hd. apply andb_true_iff in Hd as [H1 H2].
  split; intros He; rewrite He in *; done.
Qed.

Definition well_typedb (n : Network.t) (token : Z) (input : bytes) : bool :=
  match read_message input with
  | Some (data, _) =>
      match Network.received token data n with
      | Some (Message.Block _ d) => match cbor_block d with Some b => typedb b | None => true end
      | _ => true
      end
  | None => true
  end.
Lemma well_typedb_ok n token input : well_typedb n token input = true → well_typed n token input.
Proof.
  unfold well_typedb. intros Hb data rest m Hr Hm. rewrite Hr, Hm in Hb. destruct m; try done. intros b Hd.
  rewrite Hd in Hb. by apply typedb_ok.
Qed.

Lemma event_step ev input n sent n' :
  output (event ev input) n = Some sent → after (event ev input) n = n' →
  deliveredb n ev = true → well_typedb n (ev_token ev) input = true → node_step cfg version n n'.
Proof.
  intros Ho <- Hd Hw. eapply step_event; [by apply deliveredb_ok|by apply well_typedb_ok|]. by apply after_run in Ho.
Qed.

Lemma accepted_reached : rtc (node_step cfg version) node0 accepted.
Proof. apply rtc_once. apply (step_accept _ _ tick remote). vm_compute. reflexivity. Qed.
Lemma greeted_reached : rtc (node_step cfg version) node0 greeted.
Proof.
  eapply rtc_r; [exact accepted_reached|].
  eapply (event_step readable (client_handshake garbage remote_key)); vm_compute; reflexivity.
Qed.
Lemma shaken_reached : rtc (node_step cfg version) node0 shaken.
Proof. eapply rtc_r; [exact greeted_reached|]. eapply (event_step writable []); vm_compute; reflexivity. Qed.
Lemma one_block_reached : rtc (node_step cfg version) node0 one_block.
Proof.
  eapply rtc_r; [exact shaken_reached|].
  eapply (event_step readable (sealed (Message.Block 1 (cbor_of_block genesis)))); vm_compute; reflexivity.
Qed.
Lemma answered_reached : rtc (node_step cfg version) node0 answered.
Proof. eapply rtc_r; [exact one_block_reached|]. eapply (event_step readable (sealed Message.GetPeers)); vm_compute; reflexivity. Qed.

Lemma empty_chain_wf : wf empty_chain.
Proof. apply wf_new. Qed.

Lemma one_block_wf : wf (Network.chain one_block).
Proof.
  assert (Network.chain one_block = run [genesis]) as -> by (vm_compute; reflexivity). apply run_ok; vm_compute; reflexivity.
Qed.

Lemma node_refines_chain_witness : (wf (Network.chain one_block) ∨ broken empty_chain (Network.chain one_block)) ∧
  Chain.get_height (Network.chain one_block) = 1.
Proof.
  split; [|vm_compute; reflexivity].
  exact (proj2 (node_refines_chain cfg version _ _ _ _ _ one_block_reached) empty_chain_wf).
Defined.

(** The peer of a node. *)
Definition the_peer (n : Network.t) : Peer.t :=
  default (Peer.new 0 remote Interest.READABLE State.Error true) (Peers.peers (Network.peers n) !! 1).

Lemma connection_states_witness :
  Peer.state (the_peer shaken) = State.HandshakeFinished ∧ is_Some (Peer.cipher (the_peer shaken)).
Proof.
  split; [vm_compute; reflexivity|].
  exact (proj1 (connection_states cfg version _ _ _ _ _ 1 (the_peer shaken) shaken_reached ltac:(vm_compute; reflexivity))).
Defined.

Lemma only_handshakes_in_clear_witness : ∃ p chacha data text,
  Peers.peers (Network.peers answered) !! 1 = Some p ∧ Peer.cipher p = Some chacha ∧
  Chacha.encrypt chacha data = Some text ∧ frame (nonce ++ [8]) = frame text.
Proof.
  destruct (only_handshakes_in_clear cfg version _ _ _ _ _ now tick true 200 1000 writable [] nonce garbage true
    (frame (nonce ++ [8])) (after (event writable []) answered) answered_reached) as [H|[H|[[nonce' H]|H]]].
  - apply deliveredb_ok. vm_compute. reflexivity.
  - apply well_typedb_ok. vm_compute. reflexivity.
  - vm_compute. reflexivity.
  - exfalso. vm_compute in H. discriminate.
  - exfalso. vm_compute in H. discriminate.
  - exfalso. vm_compute in H. discriminate.
  - exact H.
Defined.

Lemma twins_not_detected_witness : Peers.is_tween_connect tick (Network.peers answered) (str "me") = false.
Proof. apply (twins_not_detected cfg version _ _ _ _ _ tick (str "me") answered_reached). discriminate. Defined.

(** A message without a block. *)
Lemma answers_total_witness : ∃ s n',
  Network.handle_message cfg version now tick true 200 1000 (Message.Ping 7 [1]) 1 one_block = Ok (s, n') ∧
  same_chain (Network.chain one_block) (Network.chain n').
Proof.
  apply (answers_total cfg version now tick true 200 1000 (Message.Ping 7 [1]) 1 (the_peer one_block) one_block).
  - exact one_block_wf.
  - vm_compute. reflexivity.
  - discriminate.
Defined.

(** ** Blocks *)

Lemma good_block_taken_witness : ∃ n',
  Network.handle_block now tick 1000 1 genesis shaken = Ok (State.Idle tick, n') ∧
  Chain.get_height (Network.chain n') = 1 ∧ Chain.last_block (Network.chain n') = Some (set_hash_good genesis true).
Proof.
  destruct (good_block_taken now tick 1000 1 genesis (the_peer shaken) shaken (set_hash_good genesis true)
    (after_check genesis (Network.chain shaken))) as (n' & Hr & _ & Hh & Hl & _).
  - assert (Network.chain shaken = empty_chain) as -> by (vm_compute; reflexivity). exact empty_chain_wf.
  - apply typedb_ok. vm_compute. reflexivity.
  - apply typedb_numbered. vm_compute. reflexivity.
  - vm_compute. reflexivity.
  - vm_compute. reflexivity.
  - vm_compute. reflexivity.
  - exists n'. split; [exact Hr|]. split; [exact Hh|exact Hl].
Defined.

(** A peer has claimed height 6; a forked signing block that is not better than
    ours replaces the registration in block 2. *)
Definition claimed : Network.t := Eval vm_compute in Network.set_chain one_block (Chain.update_max_height chain2 6).
Definition worse_fork : Block.t := mined 2 100000 9 3 (Block.hash genesis) None.
Lemma fork_decision_witness :
  is_better_than (E := Empty_set) worse_fork second = Ok false ∧
  ∃ s n', Network.handle_block now tick 1000 1 worse_fork claimed = Ok (s, n') ∧
    Chain.last_block (Network.chain n') = Some (set_hash_good worse_fork true).
Proof.
  split; [vm_compute; reflexivity|].
  destruct (fork_decision now tick 1000 1 worse_fork (the_peer claimed) claimed (set_hash_good worse_fork true)
    (after_check worse_fork (Network.chain claimed)) (Chain.block_of_row (Chain.row_of_block second)) false) as (s & n' & Hr & _ & _ & _ & _ & Hl & _).
  - exact chain2_wf.
  - apply typedb_ok. vm_compute. reflexivity.
  - vm_compute. reflexivity.
  - vm_compute. reflexivity.
  - vm_compute. reflexivity.
  - vm_compute. reflexivity.
  - exists s, n'. split; [exact Hr|exact Hl].
Defined.

Lemma future_blocks_end_witness :
  let n := Network.set_future one_block {[2 := second]} in
  Network.add_future now 1000 5 2 n = Network.add_future now 1000 (size (Network.future_blocks n)) 2 n ∧
  match Network.add_future now 1000 5 2 n with Ok (_, n') => Chain.get_height (Network.chain n') = 2 | _ => False end.
Proof.
  split; [|vm_compute; reflexivity].
  apply (future_blocks_end now 1000 5 2 (Network.set_future one_block {[2 := second]})). vm_compute. repeat constructor.
Defined.

(** ** Peers *)

Lemma wire_roundtrip_witness :
  read_message (frame [1; 2; 3] ++ [4]) = Some ([1; 2; 3], [4]) ∧
  read_server_handshake (server_handshake garbage remote_key nonce ++ [7]) = Some (remote_key ++ nonce, [7]).
Proof.
  destruct (wire_roundtrip [1; 2; 3] garbage remote_key nonce [4]) as (H1 & _ & _);
    [split; reflexivity|reflexivity|reflexivity|reflexivity|].
  destruct (wire_roundtrip [1] garbage remote_key nonce [7]) as (_ & _ & H3);
    [split; reflexivity|reflexivity|reflexivity|reflexivity|]. split; [exact H1|exact H3].
Defined.

Definition table1 : Peers.t := Eval vm_compute in Network.peers one_block.
Definition banned1 : Peers.t :=
  match Peers.ignore_peer (E := Empty_set) tick 1 table1 with Ok ps => ps | _ => table1 end.
Lemma banned_stays_out_witness :
  Peers.peers banned1 !! 1 = None ∧
  PeersUpdate.connect_peer tick false (λ _, true) {| ip := V4 (Ipv4 203 0 113 7); port := 6890 |} (banned1, 9) =
    Ok (false, (banned1, 9)).
Proof.
  destruct (banned_stays_out cfg tick 1 (the_peer one_block) table1 banned1) as (H1 & _ & H3 & _);
    [vm_compute; reflexivity|vm_compute; reflexivity|].
  split; [exact H1|]. apply (H3 false (λ _, true)). vm_compute. reflexivity.
Defined.

(** Two idle peers that claim ten blocks; we have block 3 already. *)
Definition ahead (k : Z) : Peer.t :=
  Peer.set_height 10 (Peer.new tick {| ip := V4 (Ipv4 203 0 113 k); port := 6890 |} Interest.READABLE (State.Idle tick) true).
Definition table2 : Peers.t := Peers.add_peer 1 (ahead 1) (Peers.add_peer 2 (ahead 2) (Peers.new (str "me"))).
Definition asked2 : Peers.t :=
  match PeersUpdate.ask_blocks_from_peers 2 4 [3] table2 with Ok (_, ps) => ps | _ => table2 end.
Lemma sync_requests_witness : ∃ asked : list (Z * Z), NoDup asked.*2 ∧
  (∀ token i, (token, i) ∈ asked → 2 < i <= 4 ∧ i ∉ [3]) ∧ asked2 ≠ table2.
Proof.
  destruct (sync_requests 2 4 [3] table2 asked2) as (asked & _ & H2 & H3 & _).
  - split; discriminate.
  - reflexivity.
  - vm_compute. reflexivity.
  - exists asked. split; [exact H2|]. split; [|vm_compute; discriminate].
    intros token i Hin. destruct (H3 token i Hin) as (H4 & H5 & _). split; [exact H4|exact H5].
Defined.
