(* ===== verification/Sync.v ===== *)
(** * Catching up

    Some nodes have a chain, another one starts with an empty one and asks them
    for the blocks ([p2p/network.rs: handle_message], [handle_block]). The theorem
    says that it ends with the database of the others, whichever of them it asks
    and in whatever order the blocks come after the first one: those that come
    early wait in [future_blocks]. *)

From stdpp Require Import fin_maps.
From S2P Require Import Prelude Text Net Commons Buffer Protocol Hash Keystore Block Store Chain Cache Peers PeersUpdate Network.
From S2P Require Import ChainFacts ChainProps Ledger Replay NetworkProps.
Open Scope Z_scope.
Import Network.

Section Sync.
Context {BP : Build} {U : Unicode} {CR : Crypto} {SD : Serde} {HI : HashIter} {CH : Choice} {W : Wire}.

(** The blocks [l] of a chain, each good after the ones before it. *)
Context (F : nat) (T : Z) (origin : bytes) (zones : list ZoneData) (l : list Block.t).
Definition book : Prop :=
  (∀ k b, l !! k = Some b → accepted F T (pile origin zones (take k l)) b) ∧
  ∀ k, (k <= length l)%nat → wf (pile origin zones (take k l)) ∧ Chain.get_height (pile origin zones (take k l)) = Z.of_nat k.
Context (Hbook : book) (Hdistinct : NoDup (Block.hash <$> l)).
(** The height that others have announced. *)
Context (top : Z) (Htop : Z.of_nat (length l) <= top).

Lemma nth1_S k : nth1 l (Z.of_nat k + 1) = l !! k.
Proof. unfold nth1. rewrite (proj2 (Z.leb_le _ _)) by lia. f_equal. lia. Qed.

Lemma book_index i b : nth1 l i = Some b → Block.index b = i ∧ 1 <= i < MAX.
Proof.
  intros Hn. pose proof (nth1_Some _ _ _ Hn). replace i with (Z.of_nat (Z.to_nat (i - 1)) + 1) in Hn |- * by lia.
  rewrite nth1_S in Hn. destruct (accepted_facts _ _ _ _ (proj1 Hbook _ _ Hn)) as (_ & _ & _ & Hi & Hr).
  apply lookup_lt_Some in Hn as Hlt. rewrite (proj2 (proj2 Hbook _ (Nat.lt_le_incl _ _ Hlt))) in Hi. lia.
Qed.

(** ** A node that catches up *)

(** Connections that are open. *)
Definition connected (tokens : gset Z) (ps : Peers.t) : Prop := ∀ token, token ∈ tokens → is_Some (Peers.peers ps !! token).
Lemma connected_add tokens ps token p : connected tokens ps → connected tokens (Peers.add_peer token p ps).
Proof.
  intros Hps t Ht. simpl. destruct (decide (t = token)) as [->|]; [rewrite lookup_insert_eq; eauto|].
  rewrite lookup_insert_ne by done. by apply Hps.
Qed.

(** The blocks [arrived] have come, the first [k] are on the chain, the rest of
    them waits. *)
Record catching (tokens : gset Z) (arrived : gset Z) (k : nat) (n : Network.t) : Prop := {
  ca_chain : alike (pile origin zones (take k l)) (chain n);
  ca_remembers : remembers F (chain n);
  ca_length : (k <= length l)%nat;
  ca_peer : connected tokens (peers n);
  ca_arrived : ∀ i, i ∈ arrived → is_Some (nth1 l i);
  ca_below : ∀ i, 1 <= i <= Z.of_nat k → i ∈ arrived;
  ca_future : ∀ i, future_blocks n !! i = if decide (i ∈ arrived ∧ Z.of_nat k < i) then stored <$> nth1 l i else None;
  ca_seen : ∀ h, h ∈ seen_blocks n → ∃ i b, i ∈ arrived ∧ nth1 l i = Some b ∧ Block.hash b = h;
  ca_max : Chain.get_max_height (chain n) = top;
}.
(** None of those that wait is the next one. *)
Definition caught (tokens : gset Z) (arrived : gset Z) (k : nat) (n : Network.t) : Prop :=
  catching tokens arrived k n ∧ Z.of_nat k + 1 ∉ arrived.

Lemma catching_height tokens arrived k n : catching tokens arrived k n →
  wf (chain n) ∧ Chain.get_height (chain n) = Z.of_nat k.
Proof.
  intros H. destruct (proj2 Hbook k (ca_length _ _ _ _ H)) as [Hw Hh]. pose proof (ca_chain _ _ _ _ H) as Ha.
  split; [by eapply alike_wf|]. rewrite <- Hh. unfold Chain.get_height. by destruct (alike_reads _ _ Ha) as (_ & -> & _).
Qed.

(** The next block is good and is added. *)
Lemma next_block now fuel k b d : alike (pile origin zones (take k l)) d → remembers F d → l !! k = Some b →
  clock now → T <= now → (F <= fuel)%nat →
  ∃ c1 c2, Chain.check_new_block now fuel (stored b) d = Ok ((Good, b), c1) ∧ Chain.add_block b c1 = Ok (tt, c2) ∧
    same_but_cache d c1 ∧ alike (pile origin zones (take (S k) l)) c2 ∧ remembers F c2 ∧ Chain.get_max_height c2 = Chain.get_max_height d.
Proof.
  intros Ha Hr Hk Hn HT HF.
  destruct (accepted_again F T _ b d now fuel (proj1 Hbook k b Hk) Ha Hr Hn HT HF) as (Hty & Hnum & c1 & Hc & Hcc & Hr1).
  assert (wf d) as Hwf by (eapply alike_wf; [exact Ha|]; apply (proj2 Hbook); apply lookup_lt_Some in Hk; lia).
  destruct (good_added _ _ _ _ _ _ Hwf Hty Hnum Hc) as (c2 & Hadd & Had & _).
  exists c1, c2. split; [done|]. split; [done|]. split; [done|]. split; [|split].
  - rewrite (take_S_r _ _ _ Hk). eapply pile_snoc; [|done]. rewrite Ha. by apply alike_cache.
  - by eapply good_remembers.
  - unfold Chain.get_max_height. apply Had.
Qed.

(** One more block on the chain. *)
Lemma catching_next tokens arrived k b n c2 : catching tokens arrived k n → l !! k = Some b → Z.of_nat k + 1 ∈ arrived →
  alike (pile origin zones (take (S k) l)) c2 → remembers F c2 → Chain.get_max_height c2 = Chain.get_max_height (chain n) →
  catching tokens arrived (S k) (set_chain (set_future n (delete (Z.of_nat k + 1) (future_blocks n))) c2).
Proof.
  intros [C1 C2 C3 C4 C5 C6 C7 C8 C9] Hk Hin Ha Hr Hm. apply lookup_lt_Some in Hk as Hlt. split; try done; cbn.
  - intros i Hi. destruct (decide (i = Z.of_nat k + 1)) as [->|]; [done|]. apply C6. lia.
  - intros i. destruct (decide (i = Z.of_nat k + 1)) as [->|Hne].
    + rewrite lookup_delete_eq, decide_False by lia. done.
    + rewrite lookup_delete_ne, C7 by done. repeat destruct (decide _); try done; exfalso; intuition lia.
  - by rewrite Hm.
Qed.

(** The loop over the blocks that waited. *)
Lemma future_taken now fuel tokens arrived turns : clock now → T <= now → (F <= fuel)%nat → ∀ k n,
  catching tokens arrived k n → (size (future_blocks n) <= turns)%nat →
  ∃ k' n', add_future now fuel turns (Z.of_nat k + 1) n = Ok (tt, n') ∧ caught tokens arrived k' n'.
Proof.
  intros Hn HT HF. induction turns as [|turns IH]; intros k n Hc Hsize;
    (destruct (decide (Z.of_nat k + 1 ∈ arrived)) as [Hin|Hout];
     [|exists k, n; split; [apply add_future_stop; rewrite (ca_future _ _ _ _ Hc), decide_False by tauto; done|done]]);
    destruct (ca_arrived _ _ _ _ Hc _ Hin) as [b Hb];
    assert (future_blocks n !! (Z.of_nat k + 1) = Some (stored b)) as Hfuture
      by (rewrite (ca_future _ _ _ _ Hc), decide_True by (split; [done|lia]); by rewrite Hb).
  - assert (future_blocks n = ∅) as He by (apply map_size_empty_inv; lia). by rewrite He in Hfuture.
  - rewrite nth1_S in Hb.
    destruct (next_block now fuel k b (chain n) (ca_chain _ _ _ _ Hc) (ca_remembers _ _ _ _ Hc) Hb Hn HT HF)
      as (c1 & c2 & Hcheck & Hadd & _ & Ha & Hr & Hm).
    destruct (IH (S k) _ (catching_next _ _ _ _ _ _ Hc Hb Hin Ha Hr Hm)) as (k' & n' & Hrun & Hend).
    { cbn. rewrite map_size_delete_Some by eauto. lia. }
    exists k', n'. split; [|done]. cbn [add_future]. rewrite Hfuture.
    rewrite (mbind_run _ _ _ _ _ eq_refl). erewrite mbind_run; [|by apply on_chain_run].
    cbv beta iota. rewrite bool_decide_true by done. erewrite mbind_run; [|by apply on_chain_run].
    pose proof (book_index (Z.of_nat k + 1) b ltac:(by rewrite nth1_S)) as [_ Hr'].
    unfold add_w. erewrite mbind_run; [|unfold mlift; rewrite arith_fits by (unfold is_u, MAX in *; lia); reflexivity].
    rewrite <- Hrun. f_equal. lia.
Qed.

Lemma fresh_hash tokens arrived k n i b : catching tokens arrived k n → i ∉ arrived → nth1 l i = Some b →
  Block.hash b ∉ seen_blocks n.
Proof.
  intros Hc Hi Hb (j & b' & Hj & Hb' & He)%(ca_seen _ _ _ _ Hc). assert (i = j) as ->; [|done].
  pose proof (nth1_Some _ _ _ Hb). pose proof (nth1_Some _ _ _ Hb'). unfold nth1 in *.
  rewrite (proj2 (Z.leb_le 1 i)) in Hb by lia. rewrite (proj2 (Z.leb_le 1 j)) in Hb' by lia. enough (Z.to_nat (i - 1) = Z.to_nat (j - 1)) by lia.
  eapply (NoDup_lookup _ _ _ (Block.hash b) Hdistinct); rewrite list_lookup_fmap; [by rewrite Hb|by rewrite Hb', <- He].
Qed.

(** What [handle_block] notes before the check. *)
Lemma seen_more tokens arrived k n i b : catching tokens arrived k n → nth1 l i = Some b → ∀ h, h ∈ Block.hash b :: seen_blocks n →
  ∃ j bj, j ∈ {[i]} ∪ arrived ∧ nth1 l j = Some bj ∧ Block.hash bj = h.
Proof.
  intros Hc Hb h [->|Hh]%elem_of_cons; [exists i, b; set_solver|].
  destruct (ca_seen _ _ _ _ Hc h Hh) as (j & bj & Hj & ?). exists j, bj. set_solver.
Qed.

(** The events and the end of the sync do not matter for what follows. *)
Lemma announced_caught tokens arrived k n count : caught tokens arrived k n → caught tokens arrived k (announced n top count).
Proof.
  intros [Hc Hout]. split; [|done]. destruct (catching_height _ _ _ _ Hc) as [_ Hh].
  destruct Hc as [C1 C2 C3 C4 C5 C6 C7 C8 C9]. unfold announced. rewrite Hh.
  destruct (Z.eqb_spec (Z.of_nat k) top) as [He|]; split; try done.
  intros i. cbn. rewrite lookup_empty. destruct (decide _) as [[Hi Hlt]|]; [|done].
  destruct (C5 i Hi) as [b Hb]. apply nth1_Some in Hb. lia.
Qed.

(** A block that comes is put on the chain, with those that waited for it, or
    waits itself. *)
Lemma block_taken now tick fuel token tokens arrived k n i b : token ∈ tokens → caught tokens arrived k n → i ∉ arrived → nth1 l i = Some b →
  i = 1 ∨ 1 ∈ arrived → clock now → T <= now → (F <= fuel)%nat →
  ∃ k' n', handle_block now tick fuel token (stored b) n = Ok (idle tick, n') ∧ caught tokens ({[i]} ∪ arrived) k' n'.
Proof.
  intros Htoken [Hc Hout] Hi Hb Hone Hn HT HF. destruct (ca_peer _ _ _ _ Hc token Htoken) as [p Hp]. destruct (book_index i b Hb) as [Hbi Hr].
  pose proof (nth1_Some _ _ _ Hb) as Hle. destruct (catching_height _ _ _ _ Hc) as [Hwf Hh].
  assert (Z.of_nat k < i) as Hki by (apply Z.nle_gt; intros ?; apply Hi, (ca_below _ _ _ _ Hc); lia).
  pose proof Hc as [C1 C2 C3 C4 C5 C6 C7 C8 C9]. destruct (decide (i = Z.of_nat k + 1)) as [->|Hne].
  - pose proof Hb as Hk. rewrite nth1_S in Hk.
    destruct (next_block now fuel k b (chain n) C1 C2 Hk Hn HT HF) as (c1 & c2 & Hcheck & Hadd & Hsame & Ha & Hrm & Hm).
    assert (catching tokens ({[Z.of_nat k + 1]} ∪ arrived) (S k) (set_chain (noted token (stored b) p n) c2)) as Hnext.
    { apply lookup_lt_Some in Hk as Hlt. split; try done; cbn.
      - by apply connected_add.
      - intros j [->%elem_of_singleton|Hj]%elem_of_union; [eauto|by apply C5].
      - intros j Hj. destruct (decide (j = Z.of_nat k + 1)) as [->|]; [set_solver|].
        apply elem_of_union_r, C6. lia.
      - intros j. rewrite C7. destruct (decide (j = Z.of_nat k + 1)) as [->|Hj].
        + rewrite !decide_False; [done|lia|]. by intros [? _].
        + apply decide_ext. set_unfold. intuition lia.
      - by eapply seen_more.
      - by rewrite Hm. }
    destruct (future_taken now fuel tokens _ (size (future_blocks n)) Hn HT HF (S k) _ Hnext) as (k' & n1 & Hrun & Hend); [done|].
    exists k', (announced n1 top (Peers.get_peers_active_count tick (peers n))). split; [|by apply announced_caught].
    rewrite (handle_block_run now tick fuel token (stored b) p n _ _ _ Hp Hcheck), C9.
    erewrite mbind_run; [reflexivity|]. eapply add_good_runs; [rewrite Hbi; unfold is_u, MAX in *; lia|exact Hadd|].
    rewrite Hbi. cbn [future_blocks set_chain noted set_peers see set_seen]. rewrite <- Hrun. f_equal. lia.
  - assert (1 <= Z.of_nat k) as Hk1 by (destruct Hone as [->|Ho]; [lia|]; destruct k; [done|lia]).
    destruct (Chain.last_block (chain n)) as [last|] eqn:Hlast; [|unfold Chain.get_height in Hh; rewrite Hlast in Hh; lia].
    assert (Block.index last = Z.of_nat k) as Hil by (unfold Chain.get_height in Hh; by rewrite Hlast in Hh).
    assert (accepted F T (pile origin zones (take (Z.to_nat (i - 1)) l)) b) as Hacc.
    { apply (proj1 Hbook). by rewrite <- nth1_S, Z2Nat.id, Z.sub_add by lia. }
    pose proof (check_early F T _ b (chain n) last now fuel Hacc Hn HT Hlast ltac:(lia) ltac:(lia)) as Hcheck.
    rewrite (handle_block_run now tick fuel token (stored b) p n _ _ _ Hp Hcheck).
    eexists k, _. split; [reflexivity|]. split; [|set_solver]. split; try done; cbn.
    + by apply connected_add.
    + intros j [->%elem_of_singleton|Hj]%elem_of_union; [eauto|by apply C5].
    + intros j Hj. by apply elem_of_union_r, C6.
    + intros j. change (Block.index (stored b)) with (Block.index b). rewrite Hbi. destruct (decide (j = i)) as [->|Hji].
      * rewrite lookup_insert_eq, decide_True by (split; [set_solver|done]). by rewrite Hb.
      * rewrite lookup_insert_ne, C7 by done. apply decide_ext. set_solver.
    + by eapply seen_more.
Qed.

Lemma catching_peer token tokens arrived k n p : catching tokens arrived k n →
  catching tokens arrived k (set_peers n (Peers.add_peer token p (peers n))).
Proof. intros []. split; try done. by apply connected_add. Qed.

(** The same for the message with the block. *)
Lemma message_taken cfg version now tick coin draw fuel token tokens arrived k n i b : token ∈ tokens →
  cbor_block (cbor_of_block (stored b)) = Some (stored b) →
  caught tokens arrived k n → i ∉ arrived → nth1 l i = Some b → i = 1 ∨ 1 ∈ arrived →
  clock now → T <= now → (F <= fuel)%nat →
  ∃ k' n', handle_message cfg version now tick coin draw fuel (Message.Block i (cbor_of_block (stored b))) token n =
      Ok (idle tick, n') ∧ caught tokens ({[i]} ∪ arrived) k' n'.
Proof.
  intros Htoken Hcbor [Hc Hout] Hi Hb Hone Hn HT HF. destruct (ca_peer _ _ _ _ Hc token Htoken) as [p Hp]. unfold handle_message.
  rewrite !(mbind_run _ _ _ _ _ eq_refl). erewrite mbind_run; [|by apply with_peer_run]. rewrite Hcbor.
  change (Block.index (stored b)) with (Block.index b). rewrite (proj1 (book_index i b Hb)), Z.eqb_refl. cbn [negb].
  rewrite (mbind_run _ _ _ _ _ eq_refl). rewrite bool_decide_false by exact (fresh_hash tokens arrived k n i b Hc Hi Hb).
  apply (block_taken now tick fuel token tokens arrived k); try done. split; [by apply catching_peer|done].
Qed.
End Sync.

(** ** One node and the others *)

Section Nodes.
Context {BP : Build} {U : Unicode} {CR : Crypto} {SD : Serde} {HI : HashIter} {CH : Choice} {W : Wire}.
(** The other nodes have numbers. [at_giver j] is the connection to this node at
    node [j], [at_taker j] the connection to node [j] at this one. *)
Context (version : rstr) (cfg_giver : nat → config) (cfg_taker : config) (at_giver at_taker : nat → Z).

(** Who is asked; the clocks, the random draws and the fuel of one exchange. *)
Record moment := {
  whom : nat;
  giver_now : Z; giver_tick : Z;
  taker_now : Z; taker_tick : Z;
  coin : bool; draw : Z;
  steps : nat;
}.

(** The block [i] is asked for and comes. *)
Definition transfer (m : moment) (i : Z) (givers : list Network.t) (taker : Network.t)
    : outcome Empty_set (option (list Network.t * Network.t)) :=
  match givers !! whom m with
  | None => Ok None
  | Some giver =>
      let! (answer, giver) := handle_message (cfg_giver (whom m)) version (giver_now m) (giver_tick m) (coin m) (draw m) (steps m)
                                (Message.GetBlock i) (at_giver (whom m)) giver in
      match answer with
      | State.Message data =>
          match cbor_message data with
          | Some message =>
              let! (answer, taker) := handle_message cfg_taker version (taker_now m) (taker_tick m) (coin m) (draw m) (steps m)
                                        message (at_taker (whom m)) taker in
              Ok (if State.is_idle answer then Some (<[whom m := giver]> givers, taker) else None)
          | None => Ok None
          end
      | _ => Ok None
      end
  end.

Fixpoint transfers (plan : list (moment * Z)) (givers : list Network.t) (taker : Network.t)
    : outcome Empty_set (option (list Network.t * Network.t)) :=
  match plan with
  | [] => Ok (Some (givers, taker))
  | (m, i) :: plan =>
      let! next := transfer m i givers taker in
      match next with
      | Some (givers, taker) => transfers plan givers taker
      | None => Ok None
      end
  end.

(** What the serializers guarantee: they read back what they wrote, when no byte
    field is left out for being zero. *)
Record reads_back : Prop := {
  rb_json : ∀ tx, whole_tx tx → json_transaction (json_of_transaction tx) = Some tx;
  rb_empty : json_transaction [] = None;
  rb_block : ∀ b, whole b → cbor_block (cbor_of_block (stored b)) = Some (stored b);
  rb_message : ∀ i data, cbor_message (cbor_of_message (Message.Block i data)) = Some (Message.Block i data);
}.
Context (Hserde : reads_back).

(** The node with the blocks answers. *)
Lemma block_given now tick c d fuel a l j i b :
  represents (chain a) l → Forall fields_ok l → nth1 l i = Some b → is_Some (Peers.peers (peers a) !! at_giver j) →
  ∃ a', handle_message (cfg_giver j) version now tick c d fuel (Message.GetBlock i) (at_giver j) a =
      Ok (State.message (Message.Block i (cbor_of_block (stored b))), a') ∧
    chain a' = chain a ∧ is_Some (Peers.peers (peers a') !! at_giver j).
Proof.
  intros Hr Hf Hb [p Hp]. pose proof (index_range _ _ _ _ Hr Hb) as Hi.
  pose proof (Ledger.ok_index _ (rp_ok _ _ Hr) _ _ Hb) as Hbi. unfold handle_message.
  rewrite !(mbind_run _ _ _ _ _ eq_refl). erewrite mbind_run; [|by apply with_peer_run].
  rewrite (represents_get_block _ _ _ Hr), Hb by lia. cbn [fmap option_fmap option_map].
  rewrite (reload (rb_json Hserde) (rb_empty Hserde)) by (done || by eapply nth1_Forall).
  change (Block.index (stored b)) with (Block.index b). rewrite Hbi. eexists. split; [reflexivity|].
  split; [done|]. cbn. rewrite lookup_insert_eq. eauto.
Qed.

(** The connections to [count] nodes. *)
Definition tokens (count : nat) : gset Z := list_to_set (at_taker <$> seq 0 count).
Lemma token_in count j : (j < count)%nat → at_taker j ∈ tokens count.
Proof. intros Hj. apply elem_of_list_to_set, list_elem_of_fmap. exists j. split; [done|]. apply elem_of_seq. lia. Qed.

(** A node that has joined: no blocks yet, its connections, and the height of the
    others. *)
Record joined (origin : bytes) (zones : list ZoneData) (top : Z) (count : nat) (n : Network.t) : Prop := {
  jo_chain : chain n = Chain.update_max_height (Chain.new origin zones None) top;
  jo_future : future_blocks n = ∅;
  jo_seen : seen_blocks n = [];
  jo_peer : connected (tokens count) (peers n);
}.

Lemma joined_caught F origin zones l top count n : Z.of_nat (length l) <= top → joined origin zones top count n →
  caught F origin zones l top (tokens count) ∅ 0 n.
Proof.
  intros Ht [Jc Jf Js Jp]. split; [|set_solver]. split; rewrite ?Jc, ?Jf, ?Js; try done; try lia.
  - set (c := Chain.new origin zones None). exists (Chain.cache_index c), (Chain.cache_signers c), top.
    unfold pile. simpl. fold c. by destruct c.
  - apply remembers_height, remembers_new.
  - set_solver.
Qed.

(** A time after all that the givers did, and enough fuel; one of them is asked. *)
Definition late (F : nat) (T : Z) (count : nat) (m : moment) : Prop :=
  (whom m < count)%nat ∧ clock (taker_now m) ∧ T <= taker_now m ∧ (F <= steps m)%nat.

(** The givers have the blocks [l] and know this node. *)
Definition give (l : list Block.t) (givers : list Network.t) : Prop :=
  ∀ j giver, givers !! j = Some giver → represents (chain giver) l ∧ is_Some (Peers.peers (peers giver) !! at_giver j).

Section Plan.
Context (F : nat) (T : Z) (origin : bytes) (zones : list ZoneData) (l : list Block.t) (top : Z) (count : nat).
Context (Hbook : book F T origin zones l) (Hdistinct : NoDup (Block.hash <$> l)) (Htop : Z.of_nat (length l) <= top).
Context (Hfields : Forall fields_ok l) (Hwhole : Forall whole l).
Abbreviation caught arrived k n := (caught F origin zones l top (tokens count) arrived k n).

Lemma transfer_caught m i arrived k givers taker : caught arrived k taker → give l givers → length givers = count →
  late F T count m → i ∉ arrived → is_Some (nth1 l i) → i = 1 ∨ 1 ∈ arrived →
  ∃ k' givers' taker', transfer m i givers taker = Ok (Some (givers', taker')) ∧ chain <$> givers' = chain <$> givers ∧
    give l givers' ∧ caught ({[i]} ∪ arrived) k' taker'.
Proof.
  intros Hc Hg Hlen (Hwhom & Hn & HT & HF) Hi [b Hb] Hone.
  destruct (lookup_lt_is_Some_2 givers (whom m)) as [giver Hgiver]; [lia|]. destruct (Hg _ _ Hgiver) as [Hr Hp].
  destruct (block_given (giver_now m) (giver_tick m) (coin m) (draw m) (steps m) giver l (whom m) i b Hr Hfields Hb Hp)
    as (giver' & Hrun & Hchain & Hp').
  destruct (message_taken F T origin zones l Hbook Hdistinct top Htop cfg_taker version (taker_now m) (taker_tick m) (coin m)
    (draw m) (steps m) (at_taker (whom m)) (tokens count) arrived k taker i b (token_in _ _ Hwhom) (rb_block Hserde b (nth1_Forall _ _ _ _ Hwhole Hb)) Hc Hi Hb Hone Hn HT HF)
    as (k' & taker' & Ht & Hc').
  exists k', (<[whom m := giver']> givers), taker'. split; [|split; [|split; [|done]]].
  - unfold transfer. rewrite Hgiver, Hrun, obind_Ok. unfold State.message. by rewrite (rb_message Hserde), Ht, obind_Ok.
  - rewrite list_fmap_insert, Hchain. apply list_insert_id. by rewrite list_lookup_fmap, Hgiver.
  - intros j g Hj. destruct (decide (j = whom m)) as [->|Hne].
    + rewrite list_lookup_insert_eq in Hj by (apply lookup_lt_Some in Hgiver; lia). injection Hj as <-. by rewrite Hchain.
    + rewrite list_lookup_insert_ne in Hj by done. by apply Hg.
Qed.

Lemma transfers_caught plan : ∀ arrived k givers taker, caught arrived k taker → give l givers → length givers = count →
  Forall (late F T count) plan.*1 → NoDup plan.*2 →
  (∀ i, i ∈ plan.*2 → i ∉ arrived ∧ is_Some (nth1 l i)) → (∀ i, head plan.*2 = Some i → i = 1 ∨ 1 ∈ arrived) →
  ∃ k' givers' taker', transfers plan givers taker = Ok (Some (givers', taker')) ∧ chain <$> givers' = chain <$> givers ∧
    caught (list_to_set plan.*2 ∪ arrived) k' taker'.
Proof.
  induction plan as [|[m i] plan IH]; intros arrived k givers taker Hc Hg Hlen Hlate Hnd Hin Hone.
  { exists k, givers, taker. split; [done|]. split; [done|]. by replace (list_to_set _ ∪ arrived) with arrived by set_solver. }
  apply Forall_cons in Hlate as [Hm Hlate]. apply NoDup_cons in Hnd as [Hi Hnd]. destruct (Hin i) as [Hnew Hb]; [set_solver|].
  destruct (transfer_caught m i arrived k givers taker Hc Hg Hlen Hm Hnew Hb (Hone i eq_refl)) as (k1 & g1 & t1 & Hrun & Hg1 & Hgive & Hc1).
  destruct (IH ({[i]} ∪ arrived) k1 g1 t1 Hc1 Hgive) as (k2 & g2 & t2 & Hrun2 & Hg2 & Hc2); try done.
  - apply (f_equal length) in Hg1. rewrite !length_fmap in Hg1. by rewrite Hg1.
  - intros j Hj. destruct (Hin j) as [Hj1 Hj2]; [set_solver|]. split; [set_solver|done].
  - intros j _. right. destruct (Hone i eq_refl) as [->|]; set_solver.
  - exists k2, g2, t2. cbn [transfers]. rewrite Hrun, obind_Ok. split; [done|]. split; [by rewrite Hg2|].
    by replace (list_to_set ((m, i) :: plan).*2 ∪ arrived) with (list_to_set plan.*2 ∪ ({[i]} ∪ arrived)) by set_solver.
Qed.
End Plan.

(** C4: a new node ends with the chain of the nodes that it asks. The chains of
    these others, any number of them, come of the same good blocks [l], numbered
    from 1 and taken without a fork, no two with one hash. No byte field of these
    blocks is all zeros: serde drops such a field, and the new node would store an
    empty one ([ChainExamples.zero_field_lost]). The new node has joined and knows
    of a height not below theirs. Every block is asked for once, of any of them, the
    first one first and the others in any order, each exchange at any time after the
    last one of the others, with any more fuel than they needed. Then every block is
    answered and taken - those that come early wait - and the node has the tables of
    the others, their last block and their last full block; nothing waits any more. *)
Theorem node_catches_up F T origin zones l top givers taker plan :
  givers ≠ [] →
  (∀ j giver, givers !! j = Some giver → heard F T origin zones (chain giver) l ∧ is_Some (Peers.peers (peers giver) !! at_giver j)) →
  Forall fields_ok l → Forall whole l → NoDup (Block.hash <$> l) →
  joined origin zones top (length givers) taker → Z.of_nat (length l) <= top →
  Forall (late F T (length givers)) plan.*1 → plan.*2 ≡ₚ seqZ 1 (Z.of_nat (length l)) → (∀ i, head plan.*2 = Some i → i = 1) →
  ∃ givers' taker', transfers plan givers taker = Ok (Some (givers', taker')) ∧ chain <$> givers' = chain <$> givers ∧
    future_blocks taker' = ∅ ∧ ∀ giver, giver ∈ givers →
      Chain.db (chain taker') = Chain.db (chain giver) ∧
      Chain.last_block (chain taker') = Chain.last_block (chain giver) ∧
      Chain.last_full_block (chain taker') = Chain.last_full_block (chain giver).
Proof.
  intros Hne Hgivers Hf Hw Hd Hj Htop Hlate Hplan Hhead.
  assert (∀ giver, giver ∈ givers → alike (pile origin zones l) (chain giver) ∧ book F T origin zones l ∧ represents (chain giver) l) as Hall.
  { intros giver [j Hg]%list_elem_of_lookup. destruct (Hgivers _ _ Hg) as [[_ _ _ Hpile Hacc Hpre Hrep _ _]%heard_history _]. done. }
  destruct givers as [|first others]; [done|]. destruct (Hall first) as (_ & Hbook & _); [by left|].
  assert (give l (first :: others)) as Hgive.
  { intros j giver Hg. destruct (Hgivers _ _ Hg) as [_ Hp]. split; [|done]. apply Hall. by eapply list_elem_of_lookup_2. }
  destruct (transfers_caught F T origin zones l top (length (first :: others)) Hbook Hd Htop Hf Hw plan ∅ 0
    (first :: others) taker)
    as (k & givers' & taker' & Hrun & Hg & [Hc Hout]); try done.
  - by apply joined_caught.
  - rewrite Hplan. apply NoDup_seqZ.
  - intros i. rewrite Hplan, elem_of_seqZ, nth1_range. split; [set_solver|lia].
  - intros i Hi. left. by apply Hhead.
  - exists givers', taker'. split; [done|]. split; [done|].
    assert (∀ i, i ∈ list_to_set plan.*2 ∪ (∅ : gset Z) ↔ 1 <= i <= Z.of_nat (length l)) as Hrange.
    { intros i. rewrite elem_of_union, elem_of_list_to_set, Hplan, elem_of_seqZ. set_solver by lia. }
    rewrite Hrange in Hout. destruct Hc as [C1 _ C3 _ _ _ C7 _ _]. assert (k = length l) as -> by lia.
    rewrite take_ge in C1 by done. split.
    + apply map_eq. intros i. rewrite C7, lookup_empty, decide_False; [done|]. rewrite Hrange. lia.
    + intros giver Hin. destruct (Hall giver Hin) as (Hpile & _). rewrite Hpile in C1. by destruct (alike_reads _ _ C1) as (-> & -> & -> & _).
Qed.
End Nodes.
