(* ===== verification/Forks.v ===== *)
(** * Blocks on a chain that has another end

    A block that was good on the blocks [l] is checked by a node whose chain is [l]
    with another last block: it is a fork; and the block after it makes that node
    rewind. The checks read the blocks below the one that is checked, so that they
    find what they found on [l]. *)

From S2P Require Import Prelude Text Commons Hash Keystore Net Buffer Protocol Block Store Chain ChainFacts ChainProps Ledger ChainSigners Replay.
Import Store Chain.
Open Scope Z_scope.

Section Forks.
Context {CR : Crypto} {SD : Serde} {EC : Ecies} {U : Unicode} {BP : Build}.
(** What serde guarantees. *)
Context (Hjson : ∀ tx, whole_tx tx → json_transaction (json_of_transaction tx) = Some tx) (Hempty : json_transaction [] = None).

(** ** What the checks read *)

Lemma last_filter_refine {A} (P Q : A → bool) (l : list A) g :
  last (List.filter P l) = Some g → Q g = true → last (List.filter (λ a, P a && Q a) l) = Some g.
Proof.
  induction l as [|a l IH] using rev_ind; [done|]. rewrite !List.filter_app. cbn [List.filter].
  destruct (P a); cbn [andb].
  - rewrite !last_snoc. intros [= ->] HQ. rewrite HQ. by rewrite last_snoc.
  - rewrite !app_nil_r. exact IH.
Qed.

(** The last full block of a key below a number. *)
Definition full_of_key (l : Ledger.t) (before : Z) (key : bytes) : option Block.t :=
  last (List.filter (λ b, is_some (Block.transaction b) && ((Block.index b <? before) && bool_decide (Block.pub_key b = key))) l).

Lemma last_full_time c l before key : represents c l → last_full_block c = last_full l → Forall fields_ok l → 0 <= before < MAX →
  Block.timestamp <$> get_last_full_block c before (Some key) = Block.timestamp <$> full_of_key l before key.
Proof.
  intros Hr Hfull Hf Hb.
  assert (Block.timestamp <$> (block_of_row <$> sql_get_last_full_block_for_key (as_i64 before) key (db c)) =
    Block.timestamp <$> full_of_key l before key) as Hdb.
  { unfold sql_get_last_full_block_for_key, full_of_key. rewrite (last_row_list (λ b, Some (row_of_block b)) _ l).
    2: { intros i. rewrite (tb_blocks _ _ (rp_tables _ _ Hr)). by destruct (nth1 l i). }
    rewrite omap_Some, List_filter_fmap, !fmap_last, <- !option_fmap_compose.
    rewrite (List.filter_ext_in _ (λ b, is_some (Block.transaction b) && ((Block.index b <? before) && bool_decide (Block.pub_key b = key)))).
    2: { intros b Hb'%list_elem_of_In%elem_of_nth1. destruct Hb' as [i Hn]. pose proof (index_range _ _ _ _ Hr Hn) as Hi.
         rewrite (full_row Hjson Hempty) by (exact (proj2 (nth1_Forall _ _ _ _ Hf Hn))). simpl.
         rewrite !as_i64_id by (unfold MAX in *; lia). by destruct (_ <? _), (is_some _), (bool_decide _). }
    by destruct (last _). }
  unfold get_last_full_block. rewrite Hfull. destruct (last_full l) as [g|] eqn:Hg; [|exact Hdb].
  destruct (Block.index g <? before) eqn:Hlt; [|exact Hdb]. case_bool_decide as Hk; [|exact Hdb].
  unfold full_of_key, last_full in *. rewrite (last_filter_refine _ _ _ _ Hg); [done|]. by rewrite Hlt, bool_decide_true.
Qed.

(** Blocks from [before] on are not read. *)
Lemma full_of_key_end l x before key : before <= Block.index x → full_of_key (l ++ [x]) before key = full_of_key l before key.
Proof.
  intros Hx. unfold full_of_key. rewrite List.filter_app. cbn [List.filter].
  rewrite (proj2 (Z.ltb_ge _ _) Hx), andb_false_r. by rewrite app_nil_r.
Qed.
Lemma registration_end l x identity before : before <= Block.index x →
  Ledger.registration (l ++ [x]) identity before = Ledger.registration l identity before.
Proof.
  intros Hx. unfold Ledger.registration. rewrite omap_app, List.filter_app. simpl.
  destruct (Ledger.registers x) as [r|] eqn:Hr; simpl; [|by rewrite app_nil_r].
  apply registers_id in Hr. rewrite Hr, (proj2 (Z.ltb_ge _ _) Hx), andb_false_r. by rewrite app_nil_r.
Qed.
(** Nor is a registration of another name. *)
Definition names (b : Block.t) (identity : bytes) : Prop := ∃ r, Ledger.registers b = Some r ∧ d_identity r = identity.
Lemma registration_other l x identity before : ¬ names x identity →
  Ledger.registration (l ++ [x]) identity before = Ledger.registration l identity before.
Proof.
  intros Hx. unfold Ledger.registration. rewrite omap_app, List.filter_app. simpl.
  destruct (Ledger.registers x) as [r|] eqn:Hr; simpl; [|by rewrite app_nil_r].
  rewrite (bool_decide_false (d_identity r = identity)); [by rewrite app_nil_r|]. intros He. apply Hx. by exists r.
Qed.

(** Two chains read the same of a block: the registrations of its name below it and
    the last full block of its key. *)
Record reads_same (c d : t) (b : Block.t) : Prop := {
  rs_names : ∀ tx before, Block.transaction b = Some tx → 0 <= before <= Block.index b →
    sql_get_domain (Transaction.identity tx) (as_i64 before) (db d) = sql_get_domain (Transaction.identity tx) (as_i64 before) (db c);
  rs_height : (get_height d <? BLOCKS_WITHOUT_DISCOUNT) = (get_height c <? BLOCKS_WITHOUT_DISCOUNT);
}.

Lemma same_needed {E} c d b : reads_same c d b → 0 <= Block.index b → needed_difficulty (E := E) d b = needed_difficulty c b.
Proof.
  intros [Hn Hh] Hi. unfold needed_difficulty. destruct (Block.transaction b) as [tx|] eqn:Htx; [|done].
  unfold get_difficulty_for_transaction, get_identity_discount, get_domain_update_time.
  rewrite (Hn tx) by (done || lia). by rewrite Hh.
Qed.

Lemma same_bad now c d b : reads_same c d b → numbered b → zones d = zones c →
  (∀ key, Block.timestamp <$> get_last_full_block d (Block.index b) (Some key) = Block.timestamp <$> get_last_full_block c (Block.index b) (Some key)) →
  bad_transaction (E := DbError) now d b = bad_transaction now c b.
Proof.
  intros [Hn _] Hi Hz Hkey. unfold bad_transaction. destruct (Block.transaction b) as [tx|] eqn:Htx; [|done]. unfold numbered in Hi.
  destruct (Keystore.check_public_key_strength _ _) as [[]| | |]; try done. rewrite !obind_Ok. cbn [negb].
  unfold sub_w. rewrite arith_fits by (unfold is_u, MAX in *; lia). rewrite !obind_Ok.
  assert (is_id_available (E := DbError) d (Block.index b - 1) now (Transaction.identity tx) (Block.pub_key b) =
    is_id_available c (Block.index b - 1) now (Transaction.identity tx) (Block.pub_key b)) as ->.
  { unfold is_id_available, get_identity_transaction_and_state. by rewrite (Hn tx) by (done || lia). }
  destruct (is_id_available _ _ _ _ _) as [[]| | |]; try done. rewrite !obind_Ok. cbn [negb].
  assert (can_mine_identity (E := DbError) d (Transaction.identity tx) (Block.index b) (Block.timestamp b) (Block.pub_key b) =
    can_mine_identity c (Transaction.identity tx) (Block.index b) (Block.timestamp b) (Block.pub_key b)) as ->.
  { unfold can_mine_identity, is_domain_in_blockchain. rewrite (Hn tx) by (done || lia). specialize (Hkey (Block.pub_key b)).
    destruct (get_last_full_block d _ _) as [g|], (get_last_full_block c _ _) as [g'|]; try done. by injection Hkey as ->. }
  destruct (can_mine_identity _ _ _ _ _) as [m| | |]; try done. rewrite !obind_Ok. destruct (negb _); [done|].
  unfold bad_domain_data, bad_zone_records. by rewrite Hz.
Qed.

Lemma add_block_rest b c c' : add_block b c = Ok (tt, c') →
  Chain.origin c' = Chain.origin c ∧ Chain.zones c' = Chain.zones c ∧ options (db c') = options (db c).
Proof.
  intros Hadd. unfold add_block, add_block_to_table in Hadd. destruct (sql_add_block _ _) as [d1|] eqn:Hd1; simpl in Hadd; [|by injection Hadd as <-].
  assert (options d1 = options (db c)) as Ho by (unfold sql_add_block in Hd1; destruct (_ !! _); [done|by injection Hd1 as <-]).
  destruct (Block.transaction b); simpl in Hadd; [|by injection Hadd as <-].
  unfold add_transaction_to_table in Hadd.
  repeat (case_bool_decide || (destruct (sql_add_domain _ _) as [d2|] eqn:Hd2)); simpl in Hadd; try done; injection Hadd as <-;
    (split; [done|]; split; [done|]); try done; unfold sql_add_domain in Hd2; simpl in Hd2; destruct (_ !! _); try done; by injection Hd2 as <-.
Qed.

Lemma pile_rest origin zones l : Chain.origin (pile origin zones l) = Chain.origin (Chain.new origin zones None) ∧
  Chain.zones (pile origin zones l) = Chain.zones (Chain.new origin zones None) ∧
  options (db (pile origin zones l)) = options (db (Chain.new origin zones None)).
Proof.
  induction l as [|b l IH] using rev_ind; [done|]. unfold pile in *. rewrite fold_left_app. simpl. set (c := fold_left _ _ _) in *.
  destruct (add_block b c) as [[[] c']| | |] eqn:Hadd; try done. destruct (add_block_rest _ _ _ Hadd) as (-> & -> & ->). exact IH.
Qed.

(** Replacing forgets the signers. *)
Lemma replaced_cache b c c' : replace_block b c = Ok (tt, c') → cache_index c' = 0 ∧ cache_signers c' = [].
Proof.
  unfold replace_block. intros H. apply mbind_inv in H as ([] & c1 & [= <-] & H). apply mbind_inv in H as ([] & c2 & [= <-] & H).
  apply mbind_inv in H as ([] & c3 & Hadd & [= <-]).
  destruct (alike_add _ _ _ _ (reflexivity _) Hadd) as (c4 & Hc4 & _ & Hci & Hcs). rewrite Hadd in Hc4. injection Hc4 as <-.
  by rewrite Hci, Hcs.
Qed.

Lemma alike_intro c d : db d = db c → last_block d = last_block c → last_full_block d = last_full_block c →
  Chain.origin d = Chain.origin c → Chain.zones d = Chain.zones c → alike c d.
Proof.
  intros H1 H2 H3 H4 H5. exists (cache_index d), (cache_signers d), (max_height d). destruct c, d. simpl in *. by subst.
Qed.

(** ** A rival of the last block *)

Lemma not_signed_yet_run {E} c block ids :
  (∀ i, i ∈ ids → ∃ b, get_block c i = Some b ∧ Block.pub_key b ≠ Block.pub_key block) → not_signed_yet (E := E) c block ids = Ok true.
Proof.
  induction ids as [|i ids IH]; intros H; [done|]. cbn [not_signed_yet]. destruct (H i) as (b & -> & Hne); [set_solver|].
  rewrite same_hash_eq, bool_decide_false by done. apply IH. set_solver.
Qed.

Lemma accepted_added F T origin zones l b : accepted F T (pile origin zones l) b →
  ∃ c0 c2, alike (pile origin zones l) c0 ∧ wf c0 ∧ added c0 b c2 ∧ alike (pile origin zones (l ++ [b])) c2.
Proof.
  intros (now & fuel & b0 & c0 & c1 & Ha & Hwf & _ & _ & _ & _ & _ & Hty & Hnum & H).
  destruct (good_added _ _ _ _ _ _ Hwf Hty Hnum H) as (c2 & Hadd & Had & _). exists c0, c2.
  split; [done|]. split; [done|]. split; [done|]. eapply pile_snoc; [|exact Hadd]. rewrite Ha. apply alike_cache. by eapply check_cache.
Qed.

Lemma set_hash_good_twice b : set_hash_good (set_hash_good b false) true = set_hash_good b true.
Proof. done. Qed.

Section Ends.
Context (F : nat) (T : Z) (origin : bytes) (zones : list ZoneData) (l : list Block.t).
(** What a chain with the blocks [l] is; [l] may have any block after it. *)
Context (Hpile : represents (pile origin zones l) l) (Hfull : last_full_block (pile origin zones l) = last_full l).
Abbreviation height := (Ledger.height l).

Lemma accepted_index b : accepted F T (pile origin zones l) b → Block.index b = height + 1 ∧ numbered b.
Proof.
  intros (_ & _ & _ & Hi & Hn)%accepted_facts. split; [|exact Hn]. by rewrite Hi, (represents_height _ _ Hpile).
Qed.

(** The signers of the last full block are the same below [x]. *)
Lemma signers_below c x full : alike (pile origin zones (l ++ [x])) c → accepted F T (pile origin zones l) x →
  1 < Block.index full <= height → the_signers F c full = the_signers F (pile origin zones l) full.
Proof.
  intros Hc Hx Hi. destruct (accepted_added _ _ _ _ _ _ Hx) as (c0 & c2 & Ha0 & Hwf0 & Hadded & Ha2).
  destruct (accepted_index x Hx) as [Hix Hnx].
  pose proof (represents_height _ _ (represents_alike _ _ _ Ha0 Hpile)) as Hh.
  rewrite (signers_alike F _ c full (transitivity (symmetry Ha2) Hc)), <- (signers_alike F _ c0 full Ha0).
  apply (signers_kept F c0 x); try done; lia.
Qed.

(** A signing block that may follow [l] may come in place of a signing block. *)
Lemma sign_again fuel0 fuel c0 c x y full c1 :
  (fuel0 <= F <= fuel)%nat → alike (pile origin zones l) c0 → remembers F c0 → wf c0 →
  represents c (l ++ [x]) → alike (pile origin zones (l ++ [x])) c → remembers F c → accepted F T (pile origin zones l) x →
  last_full_block c0 = full → last_full_block c = full → Block.index y = height + 1 →
  is_good_sign_block fuel0 y full c0 = Ok (true, c1) → ∃ d, is_good_sign_block fuel y full c = Ok (true, d).
Proof.
  intros [Hf0 Hf] Ha0 Hr0 Hwf0 Hrep Ha Hr Hx Hl0 Hl Hiy H. unfold is_good_sign_block in *.
  destruct (is_some (Block.transaction y)) eqn:Htx; [by eexists|]. destruct full as [full|]; [|by eexists].
  pose proof (represents_alike _ _ _ Ha0 Hpile) as Hrep0. pose proof (represents_height _ _ Hrep0) as Hh0.
  pose proof (represents_height _ _ Hrep) as Hh. destruct (rm_full _ _ Hr0 full Hl0) as [Hfi Hfm].
  pose proof (rp_bound _ _ Hrep) as Hb. unfold Ledger.height in Hb, Hh. rewrite length_app in Hb, Hh. simpl in Hb, Hh.
  rewrite run_get in H |- *. apply mbind_inv in H as (n & c2 & Hn & H). apply mlift_inv in Hn as [Hn ->].
  unfold sub_w in Hn. rewrite arith_fits in Hn by (unfold is_u, MAX, Ledger.height in *; lia). injection Hn as <-.
  unfold sub_w. rewrite (run_lift _ _ _ (get_height c - Block.index full)) by (apply arith_fits; unfold is_u, MAX, Ledger.height in *; lia).
  rewrite andb_false_r in *. cbn [negb] in *. rewrite andb_true_r in *.
  destruct (decide (get_height c - Block.index full < BLOCK_SIGNERS_ALL)) as [Hlt|Hge].
  2: { rewrite (proj2 (Z.ltb_ge _ BLOCK_SIGNERS_MIN)), (proj2 (Z.ltb_ge _ _)) by (unfold BLOCK_SIGNERS_MIN, BLOCK_SIGNERS_ALL in *; lia).
       by eexists. }
  assert (∃ c3, is_good_signer_for_block fuel0 y full c0 = Ok (true, c3)) as [c3 Hgood].
  { rewrite (proj2 (Z.ltb_lt (get_height c0 - _) BLOCK_SIGNERS_ALL)) in H by (unfold Ledger.height in *; lia).
    destruct (_ <? BLOCK_SIGNERS_MIN); apply mbind_inv in H as (g & c3 & Hg & H); injection H as -> ->; eauto. }
  enough (∃ d, is_good_signer_for_block fuel y full c = Ok (true, d)) as [d Hd].
  { rewrite (proj2 (Z.ltb_lt (get_height c - _) BLOCK_SIGNERS_ALL)) by done.
    exists d. destruct (get_height c - Block.index full <? BLOCK_SIGNERS_MIN); cbv iota; by rewrite (mbind_run _ _ _ true d). }
  destruct (good_signer_spec _ _ _ _ _ Hgood) as (keys & c4 & Hkeys & Hin & Hothers); [unfold is_u, MAX in *; lia|].
  assert (BLOCK_SIGNERS_START <= Block.index full) as Hstart.
  { apply Z.nlt_ge. intros Hs. unfold get_block_signers in Hkeys. rewrite (proj2 (Z.ltb_lt _ _) Hs) in Hkeys. simpl in Hkeys.
    injection Hkeys as <- _. by apply not_elem_of_nil in Hin. }
  destruct (signers_run F fuel0 full c0 keys c4) as (Hftx & Hs & _ & _); try done.
  assert (the_signers F c full = Ok keys) as Hsc.
  { rewrite (signers_below c x full Ha Hx) by (unfold BLOCK_SIGNERS_START in Hstart; lia).
    by rewrite <- (signers_alike F _ c0 full Ha0). }
  destruct (signers_found F fuel full c keys Hf Hl Hr Hstart Hftx Hsc) as (d & Hd & _ & (i & s & ->)).
  eexists. unfold is_good_signer_for_block. rewrite (mbind_run _ _ _ _ _ Hd). rewrite bool_decide_true by done. cbn [negb].
  unfold add_w. rewrite (run_lift _ _ _ (Block.index full + 1)) by (apply arith_fits; unfold is_u, MAX in *; lia).
  rewrite not_signed_yet_run; [reflexivity|]. intros j Hj%elem_of_seqZ.
  destruct (Hothers j) as (b & Hbj & Hne); [lia|]. exists b. split; [|done].
  rewrite (represents_get_block _ _ _ Hrep0) in Hbj by (unfold MAX, Ledger.height in *; lia).
  change (get_block (with_cache c i s) j) with (get_block c j). rewrite (represents_get_block _ _ _ Hrep) by (unfold MAX, Ledger.height in *; lia).
  rewrite nth1_snoc, decide_False by (unfold Ledger.height in *; lia). exact Hbj.
Qed.

(** *** The verdict on a rival *)

(** [b] reads on a chain with one more block what it read on [l]. *)
Lemma reads_end c0 c x b : alike (pile origin zones l) c0 → represents c (l ++ [x]) → Block.index x = height + 1 →
  Block.index b = height + 1 → height + 1 ≠ BLOCKS_WITHOUT_DISCOUNT → reads_same c0 c b.
Proof.
  intros Ha Hr Hix Hib Hne. pose proof (represents_alike _ _ _ Ha Hpile) as Hr0. pose proof (rp_bound _ _ Hr) as Hb. split.
  - intros tx before _ Hbefore. unfold Ledger.height in *. rewrite length_app in Hb. simpl in Hb.
    rewrite (represents_registration _ _ _ _ Hr), (represents_registration _ _ _ _ Hr0) by lia. apply registration_end. lia.
  - rewrite (represents_height _ _ Hr), (represents_height _ _ Hr0). unfold Ledger.height in *. rewrite length_app. simpl.
    apply eq_true_iff_eq. rewrite !Z.ltb_lt. lia.
Qed.

Lemma rival_checked now c0 c x b : alike (pile origin zones l) c0 → alike (pile origin zones (l ++ [x])) c →
  represents c (l ++ [x]) → last_full_block c = last_full (l ++ [x]) → Forall fields_ok (l ++ [x]) →
  Block.index x = height + 1 → Block.index b = height + 1 → numbered b → height + 1 ≠ BLOCKS_WITHOUT_DISCOUNT →
  checked now c0 b → checked now c b.
Proof.
  intros Ha Hc Hr Hlf Hf Hix Hib Hnb Hne [Cv Cl Ct (need & d & Hneed & Hwork) Cs (prev & Hprev & Clink) Cx].
  pose proof (represents_alike _ _ _ Ha Hpile) as Hr0. pose proof (reads_end c0 c x b Ha Hr Hix Hib Hne) as Hsame.
  unfold numbered in Hnb. assert (0 <= Block.index b) as Hpos by lia. split; [done|done|done| |done| |].
  - exists need, d. rewrite (same_needed _ _ _ Hsame Hpos). by split.
  - exists prev. split; [done|]. unfold sub_w in Hprev. rewrite arith_fits in Hprev by (unfold is_u, MAX in *; lia). injection Hprev as <-.
    intros p Hp. apply Clink. rewrite (represents_get_block _ _ _ Hr), nth1_snoc, decide_False in Hp by (unfold Ledger.height in *; lia).
    by rewrite (represents_get_block _ _ _ Hr0) by lia.
  - rewrite (same_bad _ c0); [done|done|done| |].
    + destruct (alike_reads _ _ Ha) as (_ & _ & _ & _ & ->), (alike_reads _ _ Hc) as (_ & _ & _ & _ & ->).
      by rewrite !(proj1 (proj2 (pile_rest origin zones _))).
    + intros key. destruct (alike_reads _ _ Ha) as (_ & _ & Hlf0 & _). rewrite Hfull in Hlf0. apply Forall_app in Hf as Hf0.
      rewrite (last_full_time c _ _ _ Hr Hlf Hf), (last_full_time c0 l _ _ Hr0 Hlf0) by (lia || apply Hf0).
      by rewrite full_of_key_end by lia.
Qed.

(** A chain of the blocks [l] and [x], after whatever it has met. *)
Record ends_with (x : Block.t) (c : t) : Prop := {
  ew_alike : alike (pile origin zones (l ++ [x])) c;
  ew_represents : represents c (l ++ [x]);
  ew_full : last_full_block c = last_full (l ++ [x]);
  ew_remembers : remembers F c;
  ew_fields : Forall fields_ok (l ++ [x]);
  ew_accepted : accepted F T (pile origin zones l) x;
}.

(** A rival of the last block is a fork. *)
Lemma rival_forked now fuel c x y : ends_with x c → accepted F T (pile origin zones l) y →
  is_some (Block.transaction x) = is_some (Block.transaction y) → Block.hash x ≠ Block.hash y →
  height + 1 ≠ BLOCKS_WITHOUT_DISCOUNT → clock now → T <= now → (F <= fuel)%nat →
  typed (stored y) ∧ ∃ c1, check_new_block now fuel (stored y) c = Ok ((Fork, y), c1).
Proof.
  intros [Ec Er El Em Ef Ex] Hy Hkind Hhash Hdisc Hnow HT HF.
  destruct (accepted_index x Ex) as [Hix Hnx]. destruct (accepted_index y Hy) as [Hiy Hny].
  destruct Hy as (now0 & fuel0 & b0 & c0 & c1 & Ha0 & Hwf0 & Hrm0 & Ht0 & Hf0 & Hn0 & HnT & Hty & _ & H).
  destruct (good_checked _ _ _ _ _ _ H) as (-> & Hok & Hch). pose proof (hash_ok_real b0 Hty Hok) as Hreal.
  assert (stored (set_hash_good b0 true) = set_hash_good b0 false) as Hst by done. rewrite Hst.
  split; [by apply typed_fresh; [apply Hty|apply Hty|]|].
  pose proof (represents_alike _ _ _ Ha0 Hpile) as Hr0. pose proof (represents_height _ _ Hr0) as Hh0.
  assert (last_block c = Some x) as Hlast by (by rewrite (rp_last _ _ Er), last_snoc).
  assert (checked now c (set_hash_good b0 true)) as Hch'.
  { eapply (rival_checked now c0 c x); try done. eapply (checked_later now0 now c0 c0); try done. lia. }
  unfold check_new_block in H. destruct (check_block_inv _ _ _ _ _ _ _ _ _ H Good_kept) as (_ & _ & _ & Hpos).
  destruct (alike_reads _ _ Ha0) as (_ & _ & Hlf0 & _). rewrite Hfull in Hlf0.
  simpl in Hiy, Hny, Hkind, Hhash. unfold numbered in Hny, Hnx.
  assert (BLOCK_SIGNERS_START < Block.index b0 → ∃ d, is_good_sign_block fuel (set_hash_good b0 true) (last_full_block c) c = Ok (true, d)) as Hsign.
  { intros Hs. destruct (last_block c0) as [last0|] eqn:Hl0.
    2: { unfold get_height in Hh0. rewrite Hl0 in Hh0. unfold BLOCK_SIGNERS_START in Hs. lia. }
    assert (is_u64 (Block.index last0 + 1)) as Hfit by (unfold get_height in Hh0; rewrite Hl0 in Hh0; unfold is_u, MAX in *; lia).
    destruct (position_inv _ _ _ _ _ _ _ Hpos Good_placed Hfit) as (Hsig & _). destruct (Hsig Hs) as [c2 Hc2].
    destruct (is_some (Block.transaction b0)) eqn:Htx.
    - exists c. unfold is_good_sign_block. change (Block.transaction (set_hash_good b0 true)) with (Block.transaction b0). by rewrite Htx.
    - assert (last_full_block c = last_full_block c0) as Heq by (by rewrite El, last_full_snoc, Hkind, Hlf0).
      rewrite Heq. exact (sign_again fuel0 fuel c0 c x (set_hash_good b0 true) _ c2 (conj Hf0 HF) Ha0 Hrm0 Hwf0 Er Ec Em Ex eq_refl Heq Hiy Hc2). }
  assert (∃ d, check_position fuel (set_hash_good b0 true) (last_block c) (last_full_block c) c = Ok (Fork, d)) as [d Hd].
  { rewrite Hlast. unfold check_position. rewrite run_get. cbn [Block.index Block.timestamp Block.hash set_hash_good].
    rewrite Hix, Hiy, Z.ltb_irrefl, andb_false_r. unfold add_w.
    rewrite (run_lift _ _ _ (height + 1 + 1)) by (apply arith_fits; unfold is_u, MAX in *; lia).
    rewrite (proj2 (Z.ltb_ge (height + 1 + 1) _)) by lia.
    assert (∃ d, (if BLOCK_SIGNERS_START <? height + 1 then is_good_sign_block fuel (set_hash_good b0 true) (last_full_block c) else mret true) c = Ok (true, d)) as [d Hd].
    { rewrite Hiy in Hsign. destruct (Z.ltb_spec BLOCK_SIGNERS_START (height + 1)); [by apply Hsign|by exists c]. }
    exists d. rewrite (mbind_run _ _ _ _ _ Hd). cbn [negb]. rewrite Z.leb_refl, Z.eqb_refl. cbn [andb].
    rewrite same_hash_eq, bool_decide_false by done.
    rewrite (represents_get_block _ _ _ Er), nth1_snoc, decide_True by (done || lia). cbn [fmap option_fmap option_map].
    change (Block.hash (block_of_row (row_of_block x))) with (Block.hash x).
    rewrite same_hash_eq, bool_decide_false by done. done. }
  exists d. unfold check_new_block. rewrite <- (set_hash_good_twice b0). apply check_block_run; [by right|done| |done].
  intros l' Hl'. rewrite Hlast in Hl'. injection Hl' as <-. simpl. unfold is_u, MAX in *. lia.
Qed.

(** *** The chain with the rival *)

(** Where two chains hold the same list, they are alike. *)
Lemma same_list_alike m c d : represents c m → represents d m → last_full_block d = last_full_block c →
  Chain.origin d = Chain.origin c → Chain.zones d = Chain.zones c → options (db d) = options (db c) → alike c d.
Proof.
  intros [[Cb Cd] Cl _ _] [[Db Dd] Dl _ _] Hf Ho Hz Hopt. apply alike_intro; [|by rewrite Cl, Dl|done..].
  destruct (db c), (db d). simpl in *. f_equal; [|..|done]; apply map_eq; intros i; [by rewrite Cb, Db|by rewrite Cd, Dd].
Qed.

(** A chain in which a rival has taken the place of the last block is one that
    ends with the rival. *)
Lemma rival_taken now fuel c x y c1 c2 : ends_with x c → accepted F T (pile origin zones l) y →
  is_some (Block.transaction x) = is_some (Block.transaction y) → fields_ok y → typed (stored y) →
  represents (pile origin zones (l ++ [y])) (l ++ [y]) → last_full_block (pile origin zones (l ++ [y])) = last_full (l ++ [y]) →
  check_new_block now fuel (stored y) c = Ok ((Fork, y), c1) → replace_block y c1 = Ok (tt, c2) → ends_with y c2.
Proof.
  intros [Ec Er El Em Ef Ex] Hy Hkind Hfy Hty Hpy Hpf Hc Hrep.
  destruct (accepted_index x Ex) as [Hix Hnx]. destruct (accepted_index y Hy) as [Hiy Hny].
  pose proof (represents_wf _ _ Er) as Hwf.
  destruct (replace_refines _ _ _ _ _ _ _ _ Er Hty Hc Hrep) as [_ Hr2].
  assert (represents c2 (l ++ [y])) as Hr.
  { change (Block.index (stored y)) with (Block.index y) in Hr2. rewrite Hiy in Hr2.
    replace (Z.to_nat (height + 1 - 1)) with (length l) in Hr2 by (unfold Ledger.height; lia). by rewrite take_app_length in Hr2. }
  destruct (fork_added _ _ _ _ _ _ Hwf Hty Hc) as (c3 & Hrep3 & Hadd & _). rewrite Hrep in Hrep3. injection Hrep3 as <-.
  assert (last_full_block c2 = last_full (l ++ [y])) as Hfull2.
  { rewrite (ad_full _ _ _ Hadd). change (last_full_block (truncated c _)) with (last_full_block c).
    rewrite El, !last_full_snoc, Hkind. by destruct (is_some (Block.transaction y)). }
  assert (alike (pile origin zones (l ++ [y])) c2) as Ha2.
  { destruct Ec as (i & s & h & ->). destruct (ad_rest _ _ _ Hadd) as (Ro & Rz & _ & Rp). simpl in Ro, Rz, Rp.
    destruct (pile_rest origin zones (l ++ [x])) as (P1 & P2 & P3), (pile_rest origin zones (l ++ [y])) as (Q1 & Q2 & Q3).
    apply (same_list_alike (l ++ [y])); [done|done|by rewrite Hfull2, Hpf|by rewrite Ro, P1, Q1|by rewrite Rz, P2, Q2|by rewrite Rp, P3, Q3]. }
  apply Forall_app in Ef as [Efl _].
  split; try done; [|by apply Forall_app; split; [|by constructor]]. split.
  - intros full Hf. rewrite Hfull2, last_full_snoc in Hf. rewrite (represents_height _ _ Hr). unfold Ledger.height. rewrite length_app. simpl.
    unfold numbered in Hny. destruct (is_some (Block.transaction y)).
    + injection Hf as <-. unfold Ledger.height in *. lia.
    + pose proof (rm_full _ _ Em full) as Hm. rewrite El, last_full_snoc, Hkind in Hm.
      rewrite (represents_height _ _ Er) in Hm. unfold Ledger.height in Hm. rewrite length_app in Hm. simpl in Hm. by apply Hm.
  - rewrite (proj1 (replaced_cache _ _ _ Hrep)). apply height_bound. by eapply represents_wf.
  - intros full _ _ Hs. unfold has_signers_for in Hs.
    by rewrite (proj2 (replaced_cache _ _ _ Hrep)), bool_decide_true, andb_false_r in Hs.
Qed.

(** *** The block after the rival *)

(** It does not fit: the node has another block below it. *)
Lemma next_rewinds now fuel c x y z : ends_with x c → accepted F T (pile origin zones l) y →
  accepted F T (pile origin zones (l ++ [y])) z → represents (pile origin zones (l ++ [y])) (l ++ [y]) →
  Block.hash x ≠ Block.hash y → LIMITED_CONFIDENCE_DEPTH <= height + 1 →
  (∀ tx, Block.transaction z = Some tx → ¬ names x (Transaction.identity tx) ∧ ¬ names y (Transaction.identity tx)) →
  clock now → T <= now →
  typed (stored z) ∧ Block.index z = height + 2 ∧ check_new_block now fuel (stored z) c = Ok ((Rewind, z), c).
Proof.
  intros [Ec Er El Em Ef Ex] Hy Hz Hpy Hhash Hdepth Hother Hnow HT.
  destruct (accepted_index x Ex) as [Hix Hnx]. destruct (accepted_index y Hy) as [Hiy Hny].
  destruct (accepted_facts _ _ _ _ Hz) as (_ & _ & Hzt & Hiz & Hnz). rewrite (represents_height _ _ Hpy) in Hiz.
  destruct Hz as (now0 & fuel0 & b0 & c0 & c1 & Ha0 & Hwf0 & Hrm0 & Ht0 & Hf0 & Hn0 & HnT & Hty & _ & H).
  destruct (good_checked _ _ _ _ _ _ H) as (-> & Hok & Hch). pose proof (hash_ok_real b0 Hty Hok) as Hreal.
  pose proof (represents_alike _ _ _ Ha0 Hpy) as Hr0. pose proof (represents_height _ _ Hr0) as Hh0.
  change (Block.index (set_hash_good b0 true)) with (Block.index b0) in *. change (Block.timestamp (set_hash_good b0 true)) with (Block.timestamp b0) in *.
  change (Block.transaction (set_hash_good b0 true)) with (Block.transaction b0) in *.
  unfold Ledger.height in *. rewrite length_app in *. simpl (length [y]) in *.
  assert (stored (set_hash_good b0 true) = set_hash_good b0 false) as Hst by done. rewrite Hst.
  split; [by apply typed_fresh; [apply Hty|apply Hty|]|]. split; [lia|].
  assert (0 < Block.index b0) as Hpos by lia. destruct (good_extends _ _ _ _ _ _ Hwf0 Hpos H) as (_ & Hprev & _).
  assert (Block.prev_block_hash b0 = Block.hash y) as Hlink.
  { apply (Hprev (row_of_block y)). rewrite Hh0, (tb_blocks _ _ (rp_tables _ _ Hr0)), nth1_snoc, decide_True by lia. done. }
  assert (last_block c = Some x) as Hlast by (by rewrite (rp_last _ _ Er), last_snoc).
  pose proof (represents_height _ _ Er) as Hh. unfold Ledger.height in Hh. rewrite length_app in Hh. simpl in Hh.
  destruct Hch as [Cv Cl _ (need & d & Hneed & W1 & Hd & W2) Cs _ _].
  assert (needed_difficulty (E := DbError) c (set_hash_good b0 false) = Ok need) as Hneed'.
  { change (needed_difficulty (E := DbError) c (set_hash_good b0 true) = Ok need).
    rewrite <- Hneed. apply same_needed; [|simpl; lia]. split.
    - intros tx before Htx Hbefore. simpl in Htx, Hbefore. destruct (Hother tx Htx) as [Hox Hoy].
      rewrite (represents_registration _ _ _ _ Er), (represents_registration _ _ _ _ Hr0) by lia.
      by rewrite !registration_other.
    - by rewrite Hh, Hh0. }
  assert (check_block_hash (set_hash_good b0 false) = (true, set_hash_good b0 true)) as Hcheck.
  { unfold check_block_hash. cbn [Block.hash_good set_hash_good]. unfold real_hash in Hreal.
    change (Block.hash (set_hash_good b0 false)) with (Block.hash b0). rewrite Hreal, same_hash_eq, bool_decide_true by done. done. }
  unfold check_new_block, check_block. rewrite Hlast, run_get. unfold numbered in *.
  rewrite (proj2 (Z.ltb_ge CHAIN_VERSION (Block.version (set_hash_good b0 false))) Cv).
  rewrite (bool_decide_false (Block.hash (set_hash_good b0 false) ∈ WRONG_HASHES) Cl).
  rewrite (run_lift _ _ _ (now + 60)) by (apply clock_add; done || lia).
  rewrite (proj2 (Z.ltb_ge (now + 60) _)) by (simpl; lia). unfold add_w.
  rewrite arith_fits by (unfold is_u, MAX in *; lia). rewrite obind_Ok, (run_lift _ _ _ false).
  2: { f_equal. apply Z.ltb_ge. simpl. lia. }
  rewrite (run_lift _ _ _ _ Hneed'), (proj2 (Z.ltb_ge (Block.difficulty (set_hash_good b0 false)) need) W1).
  rewrite (run_lift _ _ _ d Hd), (proj2 (Z.ltb_ge d (Block.difficulty (set_hash_good b0 false))) W2), Hcheck. cbn [negb].
  rewrite (run_lift _ _ _ true Cs). cbn [negb]. unfold sub_w.
  rewrite (run_lift _ _ _ (Block.index b0 - 1)) by (apply arith_fits; simpl; unfold is_u, MAX in *; lia).
  rewrite (represents_get_block _ _ _ Er), nth1_snoc, decide_True by lia. cbn [fmap option_fmap option_map].
  change (Block.hash (block_of_row (row_of_block x))) with (Block.hash x).
  change (Block.prev_block_hash (set_hash_good b0 true)) with (Block.prev_block_hash b0).
  rewrite Hlink, same_hash_eq, bool_decide_false by congruence. cbn [negb].
  rewrite (run_lift _ _ _ (get_height c - LIMITED_CONFIDENCE_DEPTH)).
  2: { apply arith_fits. unfold is_u, MAX, LIMITED_CONFIDENCE_DEPTH in *. lia. }
  rewrite (proj2 (Z.ltb_ge _ _)); [done|]. simpl. unfold LIMITED_CONFIDENCE_DEPTH in *. lia.
Qed.
End Ends.
End Forks.
