(* ===== verification/Main.v ===== *)
(** * The program as a whole: main.rs, win_service.rs and commons/eventbus.rs

    [EventBus] is the one bus of the process, behind its lock. [Main.main] goes
    through the options of the command line to one of the ways the program runs:
    it prints something and ends, it mines one key ([Main.Keys]), it becomes a
    Windows service ([WinService]), or it starts the services of a node. What is
    not the program's (the parser of options, the console, the directories, the
    service manager) is a parameter. *)

From S2P Require Import Prelude Text Net Commons Hash Keystore Buffer Protocol Block Store Chain Miner Context Domains Ui KeyGen.
Open Scope Z_scope.

(** ** The event bus of the process (src/commons/eventbus.rs)

    A listener that panics does so with the bus locked. *)
Module EventBus.
Section EventBus.
Context {T F : Type} (call : F → Z → T → outcome Empty_set (F * bool)).

Record t := mk { bus : Bus.t (F := F); poisoned : bool }.
Definition new : t := mk Bus.new false.

(** What the listeners that do not panic become. *)
Definition answered (f : F) (uuid : Z) (event : T) : F * bool :=
  match call f uuid event with Ok r => r | _ => (f, true) end.
Definition panics (event : T) (b : t) : bool :=
  existsb (λ '(uuid, f), match call f uuid event with Ok _ => false | _ => true end) (map_to_list (bus b)).

(** The state after a call and whether the caller goes on: [lock().unwrap()] of a
    poisoned bus panics. *)
Definition register (uuid : Z) (closure : F) (b : t) : t * bool :=
  if poisoned b then (b, false) else (mk (Bus.register uuid closure (bus b)) false, true).
Definition unregister (uuid : Z) (b : t) : t * bool :=
  if poisoned b then (b, false) else (mk (Bus.unregister uuid (bus b)) false, true).
Definition post (event : T) (b : t) : t * bool :=
  if poisoned b then (b, false) else
  if panics event b then (mk (bus b) true, false)
  else (mk (Bus.post answered event (bus b)) false, true).

Inductive action := Register (uuid : Z) (closure : F) | Unregister (uuid : Z) | Post (event : T).
Definition exec (a : action) (b : t) : t * bool :=
  match a with
  | Register uuid closure => register uuid closure b
  | Unregister uuid => unregister uuid b
  | Post event => post event b
  end.
End EventBus.
End EventBus.

(** ** The Windows service (src/win_service.rs) *)
Module WinService.
Definition SERVICE_NAME : rstr := str "RUVNAME".
Definition SERVICE_DESCRIPTION : rstr :=
  str "A decentralized DNS and mesh network protocol, DNS on a smallest blockchain.".

Record ServiceInfo := {
  name : rstr; display_name : rstr; auto_start : bool; executable_path : rstr; launch_arguments : list rstr;
}.
Definition service_error : rstr := str "Error creating service. Try to start with admin rights".

(** [install_service]: [manager] and [created] say whether the service manager
    complies, [started] how the start ends. *)
Definition install_service {E} (manager created : bool) (started : option rstr) (service_name bin_path : rstr)
    : outcome E (ServiceInfo * list rstr * rstr) :=
  if negb manager then Panic else
  let my_service_info := {|
    name := service_name; display_name := service_name; auto_start := true; executable_path := bin_path;
    launch_arguments := [str "--service"; str "-l"; str "ruvname_log.txt"] |} in
  if negb created then Panic else
  Ok (my_service_info, [str "--service"],
      match started with
      | None => str "Service successfully installed and started"
      | Some e => str "Error starting service: " ++ e
      end).

Inductive removal := StopIt | DeleteIt.
(** [uninstall_service]: what is asked of the service, and what is printed. *)
Definition uninstall_service {E} (manager : bool) (opened : option rstr) : outcome E (list removal * list rstr) :=
  if negb manager then Panic else
  Ok match opened with
     | None => ([StopIt; DeleteIt], [])
     | Some e => ([], [str "Error opening service. Try running with admin rights: " ++ e])
     end.

(** [SETTINGS]: the parameters handed over through a static variable. *)
Definition params : Type := option Settings.t * option Context.t.
Definition start_service (settings : Settings.t) (context : Context.t) (poisoned : bool) (p : params) : params :=
  if poisoned then p else (Some settings, Some context).
(** [take().unwrap()] of both. *)
Definition take_params {E} (poisoned : bool) (p : params) : outcome E (Settings.t * Context.t * params) :=
  if poisoned then Panic else
  match p with
  | (Some settings, Some context) => Ok (settings, context, (None, None))
  | _ => Panic
  end.

Inductive ServiceControl := Stop | Interrogate | OtherControl.
Inductive HandlerResult := NoError | NotImplemented.
Inductive ServiceState := Running | Stopped.
#[global] Instance state_eq_dec : EqDecision ServiceState.
Proof. solve_decision. Defined.
(** The statuses reported, with the exit code and whether a stop is accepted. *)
Definition status (s : ServiceState) : ServiceState * bool * Z := (s, bool_decide (s = Running), 0).

Record t := mk {
  reported : list (ServiceState * bool * Z);
  (** Messages in the channel; the receiver lives as long as [run_service_logic]. *)
  shutdown : nat;
  polling : bool;
}.

Inductive action := Control (e : ServiceControl) | Poll (reports : bool).

(** The handler of control events: the send to a receiver that is gone panics. *)
Definition event_handler (e : ServiceControl) (s : t) : outcome Empty_set (HandlerResult * t) :=
  match e with
  | Stop =>
      if polling s then Ok (NoError, mk (reported s) (S (shutdown s)) true) else Panic
  | Interrogate => Ok (NoError, s)
  | OtherControl => Ok (NotImplemented, s)
  end.

(** One turn of the loop; [reports] is whether the last status can be set, which
    [run_service_logic] returns as an error. *)
Definition poll (reports : bool) (s : t) : t :=
  match shutdown s with
  | O => s
  | S n => mk (if reports then reported s ++ [status Stopped] else reported s) n false
  end.

(** [run_service_logic] up to its loop: registering the handler and the first
    status can fail, the parameters must be there, and the services start. *)
Definition run_service_logic {A} (registered reports poisoned : bool) (p : params)
    (start_services : Settings.t → Context.t → outcome unit A) : outcome unit (t * params * A) :=
  if negb registered then Err tt else
  if negb reports then Err tt else
  let! (settings, context, p) := take_params (E := unit) poisoned p in
  let! r := start_services settings context in
  Ok (mk [status Running] 0 true, p, r).

Definition exec (a : action) (s : t) : outcome Empty_set (option t) :=
  match a with
  | Control e => let! (_, s) := event_handler e s in Ok (Some s)
  | Poll reports => Ok (if polling s then Some (poll reports s) else None)
  end.
Definition step (s s' : t) : Prop := ∃ a, exec a s = Ok (Some s').
End WinService.

(** ** The key of the option [-k]

    [create_key] runs, a listener waits for the first [KeyCreated], a thread of its
    own saves the active key, and the main thread looks at a flag. *)
Module Keys.
Record t := mk {
  gen : KeyGen.t;
  (** The listener is registered. *)
  registered : bool;
  (** The thread that saves has been started and not yet locked the context. *)
  saving : bool;
  (** What it wrote: [Some None] when the file could not be created. *)
  saved : option (option bytes);
  mining : bool;
  (** The thread panicked with the context locked: no other gets it any more. *)
  poisoned : bool;
  exited : bool;
}.
Inductive action := Gen (a : KeyGen.action) | Save (created written : bool) | Wait.

Section Ops.
Context {CR : Crypto} {SD : Serde} {EC : Ecies} {BP : Build} {U : Unicode} {TM : Toml}.

Definition start (cpus : nat) (c : Context.t) : t := mk (KeyGen.create_key cpus c) true false None true false false.

(** What the generator's context is, after [keystore] was given a new path. *)
Definition put_active (k : Keystore.t) (c : Context.t) : Context.t :=
  Context.with_keys c (<[Context.active_key c := k]> (Context.keystores c)) (Context.active_key c).

(** Whether an action of the generator posts [KeyCreated] on its way; it locks the
    context before. *)
Definition is_created (a : KeyGen.action) : bool := match a with KeyGen.Enter _ => true | _ => false end.
Definition exec (filename : rstr) (a : action) (s : t) : outcome DbError (option t) :=
  if exited s then Ok None else
  match a with
  | Gen a =>
      if is_created a && poisoned s then Ok None else
      let! r := KeyGen.exec a (gen s) in
      Ok (match r with
          | Some g =>
              let heard := is_created a && registered s in
              Some (mk g (registered s && negb heard) (saving s || heard) (saved s) (mining s) (poisoned s) false)
          | None => None
          end)
  | Save created written =>
      if negb (saving s) then Ok None else
      match Context.get_keystore (KeyGen.context (gen s)) with
      | None => Ok (Some (mk (gen s) (registered s) false (saved s) (mining s) (poisoned s) false))
      | Some keystore =>
          match Context.save (E := DbError) filename created written keystore with
          | Ok (file, keystore) =>
              Ok (Some (mk (KeyGen.set_context (gen s) (put_active keystore (KeyGen.context (gen s))))
                          (registered s) false (Some file) false (poisoned s) false))
          | _ => Ok (Some (mk (gen s) (registered s) false (saved s) (mining s) true false))
          end
      end
  | Wait => Ok (if mining s then Some s else Some (mk (gen s) (registered s) (saving s) (saved s) false (poisoned s) true))
  end.
Definition step (filename : rstr) (s s' : t) : Prop := ∃ a, exec filename a s = Ok (Some s').
End Ops.
End Keys.

(** ** main.rs *)
Module Main.

(** *** The command line *)

Definition SETTINGS_FILENAME : rstr := str "ruvname.toml".
Definition RUVNAME_DEBUG : rstr := str "RUVNAME_DEBUG".
Definition RUVNAME_TRACE : rstr := str "RUVNAME_TRACE".

(** What getopts finds among the arguments. *)
Record Matches := {
  help : bool; nogui : bool; version : bool; debug : bool; trace : bool; blocks : bool; generate : bool;
  install : bool; uninstall : bool; service : bool;
  gen_key : option rstr; log : option rstr; status : option rstr; config : option rstr; work_dir : option rstr;
  upgrade : option rstr;
}.

(** The system the program was built for and runs on. *)
Class System := {
  windows : bool;
  webgui : bool;
  console_attached : bool;
  (** [env::var] *)
  variable : rstr → option rstr;
  create_dir : rstr → bool;
  change_dir : option rstr → rstr → bool;
  (** Whether a file can be created, and written, in the working directory. *)
  creates : option rstr → rstr → bool;
  writes : option rstr → rstr → bool;
  (** The log file: whether it opens and, if so, whether one can go to its end. *)
  opens_log : option rstr → rstr → option bool;
  (** Whether the logger of simplelog can be set. *)
  sets_logger : bool;
  (** The contents of a file as the working directory is. *)
  reads : option rstr → rstr → option bytes;
  (** The database of the working directory. *)
  database : option rstr → option Store.t;
  (** The service manager, for [install] and [uninstall]. *)
  manager : bool;
  service_created : bool;
  service_started : option rstr;
  service_opened : option rstr;
  (** Whether the service dispatcher takes the program over. *)
  dispatches : bool;
}.

(** [Options::usage] and [Settings] as TOML. *)
Class Texts := {
  usage : rstr → rstr;
  CONFIG : rstr;
  CARGO_PKG_VERSION : rstr;
  toml_of_settings : Settings.t → rstr;
  (** The errors of the logger and of the log file, as text. *)
  logger_error : rstr;
  log_file_error : rstr → rstr;
}.

Inductive LevelFilter := Info | Debug | Trace.
Record Logger := mkLogger { level : LevelFilter; terminal : bool; file : option rstr }.

(** What the program did to its surroundings. *)
Record process := mkProcess {
  cwd : option rstr;
  printed : list rstr;
  files : list (option rstr * rstr * bytes);
  logger : option Logger;
  status_file : option rstr;
  logged : list Block.t;
  services : list (WinService.ServiceInfo + list WinService.removal);
}.
Definition fresh : process := mkProcess None [] [] None None [] [].

(** [exit(code)], and the return from [main]: they keep what was done. *)
Inductive ended := Exit (code : Z) | Return.
Definition P (A : Type) : Type := M process Empty_set (ended + A).
Definition pret {A} (a : A) : P A := mret (inr a).
Definition pend {A} (e : ended) : P A := mret (inl e).
Definition pbind {A B} (m : P A) (k : A → P B) : P B :=
  let? r := m in match r with inr a => k a | inl e => mret (inl e) end.
Notation "'let+' x ':=' m 'in' k" := (pbind m (λ x, k))
  (at level 10, x pattern, m at level 100, k at level 200) : rust_scope.
Notation "m ';+' k" := (pbind m (λ _, k))
  (at level 199, k at level 200, right associativity) : rust_scope.
Fixpoint pfor {A} (l : list A) (f : A → P unit) : P unit :=
  match l with [] => pret tt | x :: l => f x ;+ pfor l f end.

Section Main.
Context {CR : Crypto} {SD : Serde} {JD : JsonData} {EC : Ecies} {BP : Build} {U : Unicode} {TM : Toml} {SY : System} {TX : Texts}.

Definition get_cwd : P (option rstr) := λ p, Ok (inr (cwd p), p).
Definition println (text : rstr) : P unit := λ p, Ok (inr tt,
  mkProcess (cwd p) (printed p ++ [text]) (files p) (logger p) (status_file p) (logged p) (services p)).
Definition set_current_dir (dir : rstr) : P unit := λ p,
  if change_dir (cwd p) dir
  then Ok (inr tt, mkProcess (Some dir) (printed p) (files p) (logger p) (status_file p) (logged p) (services p)) else Panic.
Definition add_file (name : rstr) (data : bytes) : P unit := λ p, Ok (inr tt,
  mkProcess (cwd p) (printed p) (files p ++ [(cwd p, name, data)]) (logger p) (status_file p) (logged p) (services p)).
Definition set_logger (l : Logger) : P unit := λ p, Ok (inr tt,
  mkProcess (cwd p) (printed p) (files p) (Some l) (status_file p) (logged p) (services p)).
Definition listen_status (name : rstr) : P unit := λ p, Ok (inr tt,
  mkProcess (cwd p) (printed p) (files p) (logger p) (Some name) (logged p) (services p)).
Definition log_blocks (l : list Block.t) : P unit := λ p, Ok (inr tt,
  mkProcess (cwd p) (printed p) (files p) (logger p) (status_file p) (logged p ++ l) (services p)).
Definition add_service (x : WinService.ServiceInfo + list WinService.removal) : P unit := λ p, Ok (inr tt,
  mkProcess (cwd p) (printed p) (files p) (logger p) (status_file p) (logged p) (services p ++ [x])).
(** An [outcome] of a part in which nothing is an error. *)
Definition lifted {E A} (o : outcome E A) : P A := λ p,
  match o with Ok a => Ok (inr a, p) | OutOfFuel => OutOfFuel | _ => Panic end.
Definition exit (code : Z) {A} : P A := pend (Exit code).
Definition check (b : bool) : P unit := if b then pret tt else mpanic.
Definition check_exit (b : bool) (code : Z) : P unit := if b then pret tt else exit code.

(** The directory of a service, which becomes the working directory. *)
Definition enter_progdata : P unit :=
  match variable (str "PROGRAMDATA") with
  | None => mpanic
  | Some progdata =>
      let new_directory := progdata ++ str "\RUVNAME" in
      check (create_dir new_directory) ;+
      set_current_dir new_directory
  end.

(** The branch of [--install]. *)
Definition install_self (program : rstr) : P unit :=
  enter_progdata ;+
  let+ dir := get_cwd in
  check (creates dir SETTINGS_FILENAME) ;+
  check (writes dir SETTINGS_FILENAME) ;+
  add_file SETTINGS_FILENAME CONFIG ;+
  let+ (info, _, message) :=
    lifted (WinService.install_service (E := Empty_set) manager service_created service_started WinService.SERVICE_NAME program) in
  add_service (inl info) ;+
  println message.

(** The branch of [--uninstall]. *)
Definition uninstall_self : P unit :=
  let+ (removal, messages) := lifted (WinService.uninstall_service (E := Empty_set) manager service_opened) in
  add_service (inr removal) ;+
  pfor messages println.

(** The branch of [-u]. *)
Definition upgrade_config (path : rstr) : P unit :=
  let+ dir := get_cwd in
  let+ settings := lifted (load_settings (E := Empty_set) (reads dir path)) in
  match settings with
  | Some settings => println (toml_of_settings settings)
  | None => println (str "Error loading config for upgrade!")
  end.

Definition LF : Z := 10.
Definition no_logger : rstr := str "Unable to initialize logger!" ++ [LF] ++ logger_error.
Definition setup_logger (opts : Matches) : P unit :=
  let level := if debug opts || is_some (variable RUVNAME_DEBUG) then Debug else Info in
  let level := if trace opts || is_some (variable RUVNAME_TRACE) then Trace else level in
  match log opts with
  | None =>
      if console_attached then
        if sets_logger then set_logger (mkLogger level true None) else println no_logger
      else pret tt
  | Some path =>
      let+ dir := get_cwd in
      match opens_log dir path with
      | None =>
          println (str "Could not open log file '" ++ path ++ str "' for writing!" ++ [LF] ++ log_file_error path) ;+ exit 1
      | Some seeks =>
          check seeks ;+
          if console_attached then check sets_logger ;+ set_logger (mkLogger level true (Some path))
          else if sets_logger then set_logger (mkLogger level false (Some path))
          else println no_logger
      end
  end.

(** The listener of [-s]: the file that it writes for an event; a failed write
    panics, in the middle of [post]. *)
Definition status_text (blocks domains keys nodes : Z) : rstr :=
  let quoted name := [34] ++ str name ++ [34] in
  str "{ " ++ quoted "blocks"%string ++ str ":" ++ dec blocks ++ str ", " ++ quoted "domains"%string ++ str ":" ++ dec_signed domains ++
  str ", " ++ quoted "keys"%string ++ str ":" ++ dec_signed keys ++ str ", " ++ quoted "nodes"%string ++ str ":" ++ dec nodes ++ str " }".
Definition status_listener (dir : option rstr) (path : rstr) (event : Ui.Event) : outcome Empty_set (option bytes) :=
  match event with
  | Ui.NetworkStatus blocks domains keys nodes =>
      if negb (creates dir path) then Ok None else
      if negb (writes dir path) then Panic else Ok (Some (status_text blocks domains keys nodes))
  | _ => Ok None
  end.

(** [create_context] with its first branch: the blocks from 1 to the height. *)
Definition create_context (only_print_blocks : bool) (settings : Settings.t) : P Context.t :=
  let+ dir := get_cwd in
  let+ origin := lifted (Settings.get_origin (E := Empty_set) settings) in
  let+ chain := lifted (Chain.open (E := Empty_set) origin (load_zones ZONES_TXT) (database dir)) in
  if only_print_blocks then
    let+ last := lifted (add_w (E := Empty_set) 64 (Chain.get_height chain) 1) in
    log_blocks (omap (Chain.get_block chain) (seqZ 1 (last - 1))) ;+
    pend Return
  else lifted (Context.create_context (E := Empty_set) CARGO_PKG_VERSION settings (database dir) (reads dir)).

(** [print_my_domains]: for the log only. *)
Definition print_my_domains (now : Z) (c : Context.t) : P unit :=
  let+ _ := lifted (Chain.get_my_domains (E := Empty_set) now (Context.chain c) (Context.get_keystore c)) in
  pret tt.

(** How the program runs on. *)
Inductive running :=
  | AsService (params : WinService.params)
  | GeneratingKey (filename : rstr) (c : Context.t)
  | Serving (dns_server_ok : bool) (c : Context.t) (job : option (Block.t * Keystore.t)) (gui : bool).

(** With the settings loaded: the context, and one of the ways to run on. *)
Definition start_node (now : Z) (fuel : nat) (dns_server : Settings.t → outcome Empty_set bool) (opts : Matches)
    (settings : Settings.t) (no_gui : bool) : P running :=
  let+ context := create_context (blocks opts) settings in
  if windows && service opts then
    check_exit dispatches 1 ;+
    pret (AsService (WinService.start_service settings context false (None, None)))
  else
  match gen_key opts with
  | Some filename => pret (GeneratingKey filename context)
  | None =>
      let+ (dns_server_ok, context) := lifted (start_services (E := Empty_set) now fuel (dns_server settings) context) in
      let+ job := lifted (create_genesis_if_needed (E := Empty_set) context) in
      if no_gui then print_my_domains now context ;+ pret (Serving dns_server_ok context job false)
      else pret (Serving dns_server_ok context job true)
  end.

(** [parsed]: the options, [None] when getopts refuses the arguments;
    [dns_server] what [start_dns_server] gives for the settings. *)
Definition main (now : Z) (fuel : nat) (dns_server : Settings.t → outcome Empty_set bool) (program : rstr)
    (parsed : option Matches) : P running :=
  match parsed with
  | None => mpanic
  | Some opts =>
      if help opts then println (usage (str "Usage: " ++ program ++ str " [options]")) ;+ exit 0 else
      if version opts then println (str "RUVNAME v" ++ CARGO_PKG_VERSION) ;+ exit 0 else
      if generate opts then println CONFIG ;+ exit 0 else
      if windows && install opts then install_self program ;+ exit 0 else
      if windows && uninstall opts then uninstall_self ;+ exit 0 else
      match upgrade opts with
      | Some path => upgrade_config path ;+ pend Return
      | None =>
          let no_gui := nogui opts || negb webgui in
          (if windows && service opts then enter_progdata else pret tt) ;+
          let no_gui := no_gui || (windows && service opts) in
          match work_dir opts with Some path => set_current_dir path | None => pret tt end ;+
          let config_name := default SETTINGS_FILENAME (config opts) in
          setup_logger opts ;+
          match status opts with Some path => listen_status path | None => pret tt end ;+
          let+ dir := get_cwd in
          let+ settings := lifted (load_settings (E := Empty_set) (reads dir config_name)) in
          match settings with
          | None => mpanic
          | Some settings => start_node now fuel dns_server opts settings no_gui
          end
      end
  end.
End Main.
End Main.
