(* ===== verification/MainProps.v ===== *)
(** * Theorems on the program as a whole

    The bus of events and the listener that can stop it, the Windows service, the
    key that the option [-k] mines, and the start of a node on the database that
    it left. *)

From stdpp Require Import fin_maps.
From S2P Require Import Prelude Text Net Commons Hash Keystore Buffer Protocol Block Store Chain ChainFacts ChainProps Ledger.
From S2P Require Import BlockProps Miner MinerExamples Context ContextProps Domains Ui KeyGen Main.
From S2P Require ChainExamples DomainsExamples UiProps.
Open Scope Z_scope.

(** ** The bus *)
Section Bus.
Context {T F : Type} (call : F → Z → T → outcome Empty_set (F * bool)).
Import EventBus.

(** The calls in order: the bus after them, and whether each caller went on. *)
Fixpoint calls (acts : list (action (T := T) (F := F))) (b : t) : t * list bool :=
  match acts with
  | [] => (b, [])
  | a :: acts => let (b, ok) := exec call a b in let (b, oks) := calls acts b in (b, ok :: oks)
  end.

(** One listener that panics takes the bus away from the whole program: the
    thread that posted the event panics, and so does every thread that registers,
    unregisters or posts later. As long as none panics every call returns. *)
Theorem bus_ends_with_a_panic b event :
  poisoned b = false →
  if panics call event b
  then ∃ b', post call event b = (b', false) ∧
         ∀ acts, calls acts b' = (b', replicate (length acts) false)
  else ∃ b', post call event b = (b', true) ∧ poisoned b' = false ∧
         ∀ uuid f, bus b' !! uuid = Some f ↔ ∃ f0, bus b !! uuid = Some f0 ∧ call f0 uuid event = Ok (f, true).
Proof.
  intros Hb. unfold post. rewrite Hb. destruct (panics call event b) eqn:Hp.
  - eexists. split; [done|]. intros acts. induction acts as [|a acts IH]; [done|]. cbn [calls].
    destruct a; cbn; unfold register, unregister, post; cbn; by rewrite IH.
  - eexists. split; [done|]. split; [done|]. intros uuid f. cbn.
    assert (Bus.post (answered call) event (bus b) !! uuid =
      bus b !! uuid ≫= λ f, let (f, stays) := answered call f uuid event in if stays then Some f else None) as ->
      by apply (map_lookup_imap (M := gmap Z)).
    destruct (bus b !! uuid) as [f0|] eqn:Hf; simpl; [|split; [done|intros (? & ? & _); done]].
    assert (∃ r, call f0 uuid event = Ok r) as [[f1 stays] Hr].
    { unfold panics in Hp. rewrite <- not_true_iff_false, existsb_exists in Hp. destruct (call f0 uuid event) eqn:Hc; [eauto|..].
      all: destruct Hp; exists (uuid, f0); split; [exact (proj1 (list_elem_of_In _ _) (proj2 (elem_of_map_to_list (M := gmap Z) (bus b) uuid f0) Hf))|by rewrite Hc]. }
    unfold answered. rewrite Hr. split.
    + intros Hs. exists f0. split; [done|]. rewrite Hr. destruct stays; [by injection Hs as ->|done].
    + intros (f2 & [= <-] & He). rewrite Hr in He. injection He as -> ->. done.
Qed.
End Bus.

(** ** The service *)
Section Service.
Import WinService.

(** A service at work: running as long as it polls; when it has ended, stopped
    unless the report failed. *)
Record service_ok (s : t) : Prop := {
  so_first : ∃ rest, reported s = status Running :: rest ∧ (rest = [] ∨ rest = [status Stopped]);
  so_polling : polling s = true → reported s = [status Running];
}.

Lemma service_step s s' : service_ok s → step s s' → service_ok s'.
Proof.
  intros [H1 H2] [[e|reports] Hs]; simpl in Hs.
  - destruct e; simpl in Hs; [|by injection Hs as <-..]. destruct (polling s) eqn:Hp; [|done]. injection Hs as <-. by split; simpl; auto.
  - destruct (polling s) eqn:Hp; [|done]. injection Hs as <-. unfold poll. destruct (shutdown s) as [|n]; [split; [exact H1|exact (λ _, H2 eq_refl)]|].
    specialize (H2 eq_refl). split; [|done]. destruct reports; simpl; rewrite H2; eauto.
Qed.

(** The service runs until it is asked to stop, and then stops. It reports
    Running first; it reports Stopped, once, only after a Stop control has
    arrived and while it still polls for it, one turn of the loop is enough after a
    Stop; and a Stop that arrives after the loop panics the handler. *)
Theorem service_stops_on_request {A} registered reports poisoned p start s p' (r : A) :
  run_service_logic registered reports poisoned p start = Ok (s, p', r) →
  (p' = (None, None) ∧ ∃ settings context, p = (Some settings, Some context) ∧ start settings context = Ok r) ∧
  (∀ s', rtc step s s' → service_ok s') ∧
  (∀ s', rtc step s s' → polling s' = true →
     ∃ s1, exec (Control Stop) s' = Ok (Some s1) ∧
       exec (Poll true) s1 = Ok (Some (mk [status Running; status Stopped] (shutdown s') false))) ∧
  (∀ s', rtc step s s' → polling s' = false → exec (Control Stop) s' = Panic) ∧
  (∀ acts s', Forall (λ a, a ≠ Control Stop) acts →
     fold_left (λ o a, let! s := o in match s with Some s => exec a s | None => Ok None end) acts (Ok (Some s)) = Ok (Some s') → s' = s).
Proof.
  intros H. unfold run_service_logic in H. destruct registered; [|done]. destruct reports; [|done]. simpl in H.
  apply obind_inv in H as ([[settings context] p1] & Ht & H). apply obind_inv in H as (r' & Hr & [= <- <- <-]).
  split.
  { unfold take_params in Ht. destruct poisoned; [done|]. destruct p as [[x|] [y|]]; try done. injection Ht as <- <- <-. eauto. }
  assert (∀ s', rtc step (mk [status Running] 0 true) s' → service_ok s') as Hok.
  { intros s' Hs. assert (service_ok (mk [status Running] 0 true)) as H0 by (split; simpl; eauto).
    revert H0. induction Hs as [|x y z Hs _ IH]; [done|]. intros H0. by eapply IH, service_step. }
  split; [done|]. split.
  { intros s' Hs Hp. destruct (Hok s' Hs) as [_ H2]. eexists. split; [simpl; by rewrite Hp|]. simpl. by rewrite (H2 Hp). }
  split.
  { intros s' Hs Hp. simpl. by rewrite Hp. }
  intros acts s' Ha. revert s'. induction acts as [|a acts IH] using rev_ind; intros s' Hs; [by injection Hs as <-|].
  apply Forall_app in Ha as [Ha Hlast]. apply Forall_cons in Hlast as [Hlast _]. rewrite fold_left_app in Hs. simpl in Hs.
  apply obind_inv in Hs as ([s1|] & H1 & Hs); [|done]. specialize (IH Ha s1 H1) as ->.
  destruct a as [[| |]|reports]; try done; by injection Hs as <-.
Qed.
End Service.

(** ** The key of [-k] *)
Section Keys.
Context {CR : Crypto} {SD : Serde} {EC : Ecies} {BP : Build} {U : Unicode} {TM : Toml}.
Import Main.Keys.
Context (filename : rstr) (old : list Keystore.t).

(** A key whose parts the libraries accept and a file can hold. *)
Definition file_ok (k : Keystore.t) : Prop :=
  key_ok k ∧ writable (Keystore.keypair k) ∧ writable (CryptoBox.secret (Keystore.crypto_box k)) ∧
  writable (CryptoBox.public (Keystore.crypto_box k)).

(** The random generator gives bytes, and the encryption library valid keys. *)
Definition sound_draw (a : KeyGen.action) : Prop :=
  match a with
  | KeyGen.Draw _ buf box => bytes_ok buf ∧
      ecies_secret_valid (CryptoBox.secret box) = true ∧ ecies_public_valid (CryptoBox.public box) = true ∧
      writable (CryptoBox.secret box) ∧ writable (CryptoBox.public box)
  | _ => True
  end.
Definition sound (a : action) : Prop := match a with Gen a => sound_draw a | _ => True end.
Definition sound_step (s s' : t) : Prop := ∃ a, sound a ∧ exec filename a s = Ok (Some s').

(** The keys that were not there before. *)
Definition fresh_keys (g : KeyGen.t) : list Keystore.t := drop (length old) (Context.keystores (KeyGen.context g)).

Record gen_ok (g : KeyGen.t) : Prop := {
  go_old : (length old <= length (Context.keystores (KeyGen.context g)))%nat;
  go_fresh : Forall file_ok (fresh_keys g);
  go_active : fresh_keys g ≠ [] →
    Context.active_key (KeyGen.context g) = (length (Context.keystores (KeyGen.context g)) - 1)%nat;
  go_found : ∀ i k, KeyGen.threads g !! i = Some (KeyGen.Found k) → file_ok k;
}.

Lemma mined_file_ok k buf box d : bytes_ok buf → ecies_secret_valid (CryptoBox.secret box) = true →
  ecies_public_valid (CryptoBox.public box) = true → writable (CryptoBox.secret box) → writable (CryptoBox.public box) →
  key_hash_difficulty (E := DbError) (blakeout (ed_public buf)) = Ok d → (KEYSTORE_DIFFICULTY <=? d) = true →
  Keystore.from_bytes (E := DbError) buf box = Ok k → file_ok k.
Proof.
  intros Hb Hs Hp Ws Wp Hd Hle Hk. pose proof (KeyGen.draw_strong _ _ _ _ Hd Hle Hk) as [Hlen Hst].
  unfold Keystore.from_bytes in Hk. case_bool_decide as Hl; [|done]. injection Hk as <-.
  split; [by split|]. split; [|done]. simpl in *. split; [done|]. split; [intros ->; done|]. rewrite Hl. done.
Qed.

(** [get_hash] fills a cell that no file holds. *)
Lemma hashed_file_ok k : file_ok k → file_ok (Keystore.get_hash k).2.
Proof. intros Hk. unfold Keystore.get_hash. case_bool_decide; [|done]. destruct Hk as [[? ? ? ?] Hw]. split; [by split|exact Hw]. Qed.

Lemma thread_set (l : list KeyGen.status) (i : nat) st st' (Q : Keystore.t → Prop) :
  (∀ (j : nat) k, l !! j = Some (KeyGen.Found k) → Q k) → l !! i = Some st → (∀ k, st' = KeyGen.Found k → Q k) →
  ∀ (j : nat) k, <[i := st']> l !! j = Some (KeyGen.Found k) → Q k.
Proof. intros Hq Hi Hst j k [(-> & Hj & _)|[_ Hj]]%list_lookup_insert_Some; [by apply Hst|by eapply Hq]. Qed.

(** A step of the generator adds keys at the end and only when it enters one. *)
Lemma gen_step a g g' : sound_draw a → gen_ok g → KeyGen.exec a g = Ok (Some g') → gen_ok g' ∧
  if is_created a then ∃ k, Context.keystores (KeyGen.context g') = Context.keystores (KeyGen.context g) ++ [k]
  else Context.keystores (KeyGen.context g') = Context.keystores (KeyGen.context g).
Proof.
  intros Ha [Ho Hf Hac Hfo] H.
  assert (∀ m c th po li, (∀ (i : nat) k, th !! i = Some (KeyGen.Found k) → file_ok k) → gen_ok (KeyGen.mk (KeyGen.context g) m c th po li)) as Hsame.
  { intros m c th po li Hth. by split. }
  destruct a as [i|i buf box|i|i|]; simpl in H; [destruct (KeyGen.threads g !! i) as [[]|] eqn:Hi; try done..|].
  - injection H as <-. split; [|done]. apply Hsame. by eapply thread_set.
  - apply obind_inv in H as (d & Hd & H). destruct Ha as (Hb & Hs & Hp & Ws & Wp). destruct (_ <=? _) eqn:Hle.
    + apply obind_inv in H as (k & Hk & [= <-]). split; [|done]. apply Hsame. eapply thread_set; [done|done|].
      intros k' [= <-]. by eapply (mined_file_ok k buf box d).
    + destruct (KeyGen.mining g); injection H as <-; (split; [|done]); [by split|]. apply Hsame. by eapply thread_set.
  - destruct (Keystore.get_hash keystore) as [hash k] eqn:Hh. injection H as <-. split; [|by exists k].
    assert (file_ok k) as Hk by (change k with (hash, k).2; rewrite <- Hh; by apply hashed_file_ok, (Hfo i)).
    split; simpl.
    + rewrite length_app. lia.
    + unfold fresh_keys. simpl. rewrite drop_app_le by done. apply Forall_app. split; [done|]. by constructor.
    + done.
    + by eapply thread_set.
  - injection H as <-. split; [|by destruct (_ =? 0)]. destruct (_ =? 0); apply Hsame; by eapply thread_set.
  - destruct (KeyGen.listening g); [|done]. injection H as <-. split; [by apply Hsame|done].
Qed.

(** The saved key keeps its place and its parts. *)
Lemma put_active_ok g k : gen_ok g → fresh_keys g ≠ [] → Context.get_keystore (KeyGen.context g) = Some k →
  file_ok k ∧ Keystore.keypair k ∈ Keystore.keypair <$> fresh_keys g ∧
  ∀ k', Keystore.keypair k' = Keystore.keypair k → Keystore.crypto_box k' = Keystore.crypto_box k →
    let g' := KeyGen.set_context g (put_active k' (KeyGen.context g)) in
    gen_ok g' ∧ (Keystore.keypair <$> fresh_keys g') = Keystore.keypair <$> fresh_keys g.
Proof.
  intros [Ho Hf Hac Hfo] Hne Hk. specialize (Hac Hne). unfold Context.get_keystore in Hk.
  set (ks := Context.keystores (KeyGen.context g)) in *. set (i := Context.active_key (KeyGen.context g)) in *.
  assert (length old <= i)%nat as Hi.
  { unfold fresh_keys in Hne. fold ks in Hne. destruct (decide (length old <= i)%nat); [done|].
    destruct Hne. apply drop_ge. fold ks. lia. }
  assert (fresh_keys g !! (i - length old)%nat = Some k) as Hin.
  { unfold fresh_keys. rewrite lookup_drop. by replace (length old + (i - length old))%nat with i by lia. }
  assert (file_ok k) as Hok by by eapply Forall_lookup_1.
  split; [done|]. split; [apply list_elem_of_fmap; eauto using list_elem_of_lookup_2|].
  intros k' Hkp Hbox g'.
  assert (fresh_keys g' = <[(i - length old)%nat := k']> (fresh_keys g)) as Hfresh.
  { unfold fresh_keys. simpl. fold ks i. rewrite drop_insert_ge by done. done. }
  split; [|rewrite Hfresh, list_fmap_insert; apply list_insert_id; by rewrite list_lookup_fmap, Hin, Hkp].
  split.
  - simpl. rewrite length_insert. exact Ho.
  - rewrite Hfresh. apply Forall_insert; [done|]. destruct Hok as [[K1 K2 K3 K4] Hw]. unfold file_ok, Keystore.get_public in *.
    rewrite Hbox, Hkp. split; [|done]. split; rewrite ?Hbox, ?Hkp; try done. unfold Keystore.get_public in *. by rewrite Hkp.
  - intros _. simpl. rewrite length_insert. exact Hac.
  - exact Hfo.
Qed.

(** TOML reads back what it writes for a key. *)
Context (Htoml : ∀ k, file_ok k → let text := trim (toml_of_keys (get_keys k)) in
  from_utf8_ok text = true ∧ toml_keys text = Some (get_keys k)).

(** A file that holds one of the new keys. *)
Definition holds_key (g : KeyGen.t) (file : bytes) : Prop :=
  ∃ k, from_file (E := DbError) filename (Some file) = Ok (Some k) ∧ Keystore.path k = filename ∧
    Keystore.keypair k ∈ Keystore.keypair <$> fresh_keys g.

Record keys_ok (s : t) : Prop := {
  ko_gen : gen_ok (gen s);
  ko_new : registered s = false → fresh_keys (gen s) ≠ [];
  ko_saving : saving s = true → registered s = false;
  ko_saved : ∀ file, saved s = Some (Some file) → holds_key (gen s) file;
  ko_mining : mining s = false → is_Some (saved s);
  ko_exited : exited s = true → mining s = false;
}.

Lemma holds_more g g' file : (∀ x, x ∈ Keystore.keypair <$> fresh_keys g → x ∈ Keystore.keypair <$> fresh_keys g') →
  holds_key g file → holds_key g' file.
Proof. intros Hm (k & H1 & H2 & H3). exists k. auto. Qed.

Lemma keys_gen_step a g' s : sound_draw a → keys_ok s → KeyGen.exec a (gen s) = Ok (Some g') →
  let heard := is_created a && registered s in
  keys_ok (mk g' (registered s && negb heard) (saving s || heard) (saved s) (mining s) (poisoned s) (exited s)).
Proof.
  intros Ha [Hg Hn Hs Hsv Hm He] Hx heard. destruct (gen_step _ _ _ Ha Hg Hx) as [Hg' Hks].
  assert (∃ more, fresh_keys g' = fresh_keys (gen s) ++ more ∧ (is_created a = true → more ≠ [])) as (more & Hmore & Hcr).
  { unfold fresh_keys. destruct (is_created a).
    - destruct Hks as [k ->]. exists [k]. rewrite drop_app_le by apply Hg. done.
    - rewrite Hks. exists []. by rewrite app_nil_r. }
  split; simpl; [done|..].
  - rewrite Hmore. unfold heard. destruct (registered s); simpl; [|intros _ [Hnil _]%app_nil; by apply Hn].
    rewrite andb_true_r. destruct (is_created a); [|done]. intros _ [_ Hnil]%app_nil. by apply Hcr.
  - unfold heard. destruct (registered s); simpl; [|done]. rewrite andb_true_r. destruct (is_created a); [done|].
    rewrite orb_false_r. intros Hx'. by apply Hs in Hx'.
  - intros file Hfile. eapply holds_more; [|by apply Hsv]. intros x Hx'. rewrite Hmore, fmap_app. apply elem_of_app. by left.
  - done.
  - done.
Qed.

Lemma keys_step s s' : sound_step s s' → keys_ok s → keys_ok s'.
Proof.
  intros [a [Ha Hx]] Hok. unfold exec in Hx. destruct (exited s) eqn:Hex; [done|]. destruct a as [a|created written|].
  - destruct (_ && _); [done|]. apply obind_inv in Hx as ([g'|] & Hg & [= <-]). rewrite <- Hex. by apply keys_gen_step.
  - destruct (saving s) eqn:Hsav; [|done]. cbn [negb] in Hx. destruct Hok as [Hg Hn Hs Hsv Hm He].
    pose proof (Hn (Hs Hsav)) as Hne. destruct (Context.get_keystore _) as [k|] eqn:Hk; [|by injection Hx as <-; split].
    destruct (put_active_ok _ _ Hg Hne Hk) as (Hfile & Hin & Hput). unfold Context.save in Hx.
    destruct created; simpl in Hx; [destruct written; simpl in Hx|]; injection Hx as <-; [| by split |].
    + destruct (Hput (Keystore.mk (Keystore.keypair k) (Keystore.hash k) filename (Keystore.crypto_box k) (Keystore.old k)) eq_refl eq_refl)
        as [Hg' Hfr]. split; simpl; try done.
      * intros _ Hnil. apply Hne. rewrite Hnil in Hfr. simpl in Hfr. by destruct (fresh_keys (gen s)).
      * intros file [= <-]. destruct Hfile as (Hkey & W1 & W2 & W3).
        destruct (save_read_back (E := DbError) filename k Hkey W1 W2 W3) as (f & Hf & Hread).
        { by apply Htoml. }
        unfold Context.save in Hf. simpl in Hf. injection Hf as <-. eexists. split; [exact Hread|]. split; [done|].
        simpl. by rewrite Hfr.
    + destruct (Hput k eq_refl eq_refl) as [Hg' Hfr]. split; simpl; try done.
      intros _ Hnil. apply Hne. rewrite Hnil in Hfr. simpl in Hfr. by destruct (fresh_keys (gen s)).
  - destruct (mining s) eqn:Hmin; injection Hx as <-; [done|]. destruct Hok as [Hg Hn Hs Hsv Hm He]. split; simpl; auto.
Qed.
End Keys.

(** [ruvname -k FILE]. However the threads of the generator, the thread that
    saves and the main thread interleave: when the program exits, its listener has
    heard of a key and the file has been dealt with; and if the file could be
    created, reading it back gives a keystore with one of the keys mined in this
    run, strong enough for the chain. *)
Theorem key_option_saves_a_key {CR : Crypto} {SD : Serde} {EC : Ecies} {BP : Build} {U : Unicode} {TM : Toml} filename cpus c s :
  (∀ k, file_ok k → let text := trim (toml_of_keys (get_keys k)) in
     from_utf8_ok text = true ∧ toml_keys text = Some (get_keys k)) →
  rtc (sound_step filename) (Main.Keys.start cpus c) s → Main.Keys.exited s = true →
  ∃ out, Main.Keys.saved s = Some out ∧ ∀ file, out = Some file →
    ∃ k, from_file (E := DbError) filename (Some file) = Ok (Some k) ∧ Keystore.path k = filename ∧ key_ok k ∧
      Keystore.keypair k ∈ Keystore.keypair <$> drop (length (Context.keystores c))
        (Context.keystores (KeyGen.context (Main.Keys.gen s))).
Proof.
  intros Htoml Hr Hex. assert (keys_ok filename (Context.keystores c) s) as [_ _ _ Hsv Hm He].
  { assert (keys_ok filename (Context.keystores c) (Main.Keys.start cpus c)) as H0.
    { split; simpl; try done. split; simpl; [done|unfold fresh_keys; simpl; by rewrite drop_ge|..].
      - unfold fresh_keys. simpl. by rewrite drop_ge.
      - by intros i k [Hst _]%lookup_replicate. }
    revert H0. induction Hr as [|x y z Hs _ IH]; [done|]. intros H0. eapply IH; [done|]. by eapply keys_step. }
  destruct (Hm (He Hex)) as [out Hout]. exists out. split; [done|]. intros file ->.
  destruct (Hsv file Hout) as (k & H1 & H2 & H3). exists k. split; [done|]. split; [done|]. split; [|done].
  by apply from_file_ok in H1 as [? _].
Qed.

(** ** The start of a node *)
Section Start.
Context {CR : Crypto} {SD : Serde} {JD : JsonData} {EC : Ecies} {BP : Build} {U : Unicode} {TM : Toml}.
Context {SY : Main.System} {TX : Main.Texts}.
Import Main.

Lemma pbind_inv {A B} (m : P A) (k : A → P B) p b p' :
  pbind m k p = Ok (inr b, p') → ∃ a p1, m p = Ok (inr a, p1) ∧ k a p1 = Ok (inr b, p').
Proof. unfold pbind. intros ([e|a] & p1 & Hm & Hk)%mbind_inv; [done|]. eauto. Qed.

Lemma lifted_inv {E A} (o : outcome E A) p a p' : lifted o p = Ok (inr a, p') → o = Ok a ∧ p' = p.
Proof. unfold lifted. destruct o; try done. by intros [= -> ->]. Qed.

(** The options that print something leave the system as it was. *)
Definition quiet (opts : Matches) : bool := help opts || version opts || generate opts.

(** [-h], [-v] and [-g] print one text and exit with 0: no file, no directory,
    no log, no database and no service is touched, and no key is mined, whatever the
    other options say. *)
Theorem quiet_options now fuel dns_server program opts p :
  quiet opts = true → ∃ text,
    main now fuel dns_server program (Some opts) p =
      Ok (inl (Exit 0), mkProcess (cwd p) (printed p ++ [text]) (files p) (logger p) (status_file p) (logged p) (services p)).
Proof.
  unfold quiet. intros Hq. unfold main. destruct (help opts); [by eexists|]. destruct (version opts); [by eexists|].
  destruct (generate opts); [by eexists|done].
Qed.

(** A node that serves has gone through the start of the program. *)
Lemma serving_start now fuel dns_server program parsed p p' ok c job gui :
  main now fuel dns_server program parsed p = Ok (inr (Serving ok c job gui), p') →
  ∃ settings c0, Context.create_context (E := Empty_set) CARGO_PKG_VERSION settings (database (cwd p')) (reads (cwd p')) = Ok c0 ∧
    start_services (E := Empty_set) now fuel (dns_server settings) c0 = Ok (ok, c) ∧
    create_genesis_if_needed (E := Empty_set) c = Ok job ∧ gui = gui && webgui.
Proof.
  unfold main, start_node. destruct parsed as [opts|]; [|done]. intros H.
  repeat (match type of H with (if ?b then _ else _) _ = _ => destruct b; [by apply pbind_inv in H as (? & ? & _ & H)|] end).
  destruct (upgrade opts) as [path|]; [by apply pbind_inv in H as (? & ? & _ & H)|].
  apply pbind_inv in H as ([] & p1 & _ & H). apply pbind_inv in H as ([] & p2 & _ & H).
  apply pbind_inv in H as ([] & p3 & _ & H). apply pbind_inv in H as ([] & p4 & _ & H).
  apply pbind_inv in H as (dir & p5 & [= <- <-] & H). apply pbind_inv in H as ([settings|] & p6 & Hs & H); [|done].
  apply lifted_inv in Hs as [_ ->]. apply pbind_inv in H as (c0 & p7 & Hc & H).
  assert (Context.create_context (E := Empty_set) CARGO_PKG_VERSION settings (database (cwd p4)) (reads (cwd p4)) = Ok c0 ∧ p7 = p4) as [Hc0 ->].
  { unfold create_context in Hc. apply pbind_inv in Hc as (dir & p8 & [= <- <-] & Hc). apply pbind_inv in Hc as (origin & p9 & Ho & Hc).
    apply lifted_inv in Ho as [_ ->]. apply pbind_inv in Hc as (chain & p10 & Ho & Hc). apply lifted_inv in Ho as [_ ->].
    destruct (blocks opts).
    - apply pbind_inv in Hc as (? & ? & _ & Hc). by apply pbind_inv in Hc as (? & ? & _ & Hc).
    - by apply lifted_inv in Hc. }
  destruct (windows && service opts); [by apply pbind_inv in H as (? & ? & _ & H)|]. destruct (gen_key opts); [done|].
  apply pbind_inv in H as ([ok' c'] & p8 & Hst & H). apply lifted_inv in Hst as [Hst ->].
  apply pbind_inv in H as (job' & p9 & Hj & H). apply lifted_inv in Hj as [Hj ->].
  assert (Serving ok' c' job' (negb ((nogui opts || negb webgui) || false)) = Serving ok c job gui ∧ p' = p4) as [He ->].
  { rewrite orb_false_r in *. destruct (nogui opts || negb webgui).
    - apply pbind_inv in H as (? & p10 & Hp & H). unfold print_my_domains in Hp. apply pbind_inv in Hp as (? & ? & Hd & Hp).
      apply lifted_inv in Hd as [_ ->]. injection Hp as _ <-. by injection H as <- <- <- <- <-.
    - by injection H as <- <- <- <- <-. }
  injection He as -> -> -> He. exists settings, c0. split; [done|]. split; [done|]. split; [done|].
  rewrite <- He. rewrite orb_false_r. by destruct (nogui opts), webgui.
Qed.

(** The database that a node finds: none, or that of a chain with the ledger [l]. *)
Definition left_with (disk : option Store.t) (l : Ledger.t) : Prop :=
  match disk with
  | None => l = []
  | Some d => ∃ c0, d = Chain.db c0 ∧ represents c0 l ∧ Forall fields_ok l ∧ Store.options d = []
  end.

(** The laws of the serializers. *)
Definition faithful : Prop :=
  (∀ tx, whole_tx tx → json_transaction (json_of_transaction tx) = Some tx) ∧ json_transaction [] = None ∧
  (∀ b good, bincode_block (set_hash_good b good) = bincode_block b).

Lemma opened_represents origin zones disk l : faithful → left_with disk l →
  represents (Chain.new origin zones disk) (stored <$> l) ∧ Forall fields_ok (stored <$> l).
Proof.
  intros (Hjson & Hempty & Hcell) Hl. destruct disk as [d|]; simpl in Hl; [|subst l].
  - destruct Hl as (c0 & -> & Hr & Hf & Ho). split; [|apply Forall_fmap; exact Hf].
    by destruct (restart_reopens Hjson Hempty Hcell origin zones c0 l Hr Hf Ho).
  - split; [apply represents_new|constructor].
Qed.

Lemma serving_represents now fuel dns_server program parsed p p' ok c job gui l : faithful →
  main now fuel dns_server program parsed p = Ok (inr (Serving ok c job gui), p') → left_with (database (cwd p')) l →
  create_genesis_if_needed (E := Empty_set) c = Ok job ∧ ∃ k, represents (Context.chain c) (stored <$> take k l).
Proof.
  intros Hlaws Hm Hl. destruct (serving_start _ _ _ _ _ _ _ _ _ _ _ Hm) as (settings & c1 & Hc & Hst & Hg & _). split; [done|].
  unfold Context.create_context in Hc. apply obind_inv in Hc as (origin & _ & Hc).
  apply obind_inv in Hc as (chain0 & ->%Chain.open_inv & Hc). apply obind_inv in Hc as (keys & _ & [= <-]).
  unfold start_services in Hst. apply obind_inv in Hst as (c2 & Hch & Hst). apply obind_inv in Hst as (dns & _ & [= _ <-]).
  unfold check_stored in Hch. destruct (Chain.check_chain _ _ _ _) as [[[] chain]| | |] eqn:Hcheck in Hch; try done.
  injection Hch as <-. cbn [Context.chain Context.new] in *.
  destruct (opened_represents origin (load_zones ZONES_TXT) _ l Hlaws Hl) as [Hopen Hf]. destruct Hlaws as (Hjson & Hempty & Hcell).
  destruct (check_chain_prefix Hjson Hempty Hcell _ _ _ _ _ _ Hopen Hf Hcheck) as [k Hk]. exists k.
  rewrite <- fmap_take, <- list_fmap_compose in Hk. exact Hk.
Qed.

(** A node comes up with a beginning of the ledger it went down with. When the
    database of the working directory is that of a chain with the ledger [l], and
    the program gets as far as serving, its chain represents the blocks of [l] up
    to some block, with their checks forgotten: what [check_chain] does not cut off
    is neither changed nor lost, and the domains are those that these blocks
    register. *)
Theorem start_keeps_ledger now fuel dns_server program parsed p p' ok c job gui c0 l :
  (∀ tx, whole_tx tx → json_transaction (json_of_transaction tx) = Some tx) → json_transaction [] = None →
  (∀ b good, bincode_block (set_hash_good b good) = bincode_block b) →
  main now fuel dns_server program parsed p = Ok (inr (Serving ok c job gui), p') →
  database (cwd p') = Some (Chain.db c0) → represents c0 l → Forall fields_ok l → Store.options (Chain.db c0) = [] →
  ∃ k, represents (Context.chain c) (stored <$> take k l).
Proof.
  intros Hjson Hempty Hcell Hm Hdb Hr Hf Ho. eapply (serving_represents _ _ _ _ _ _ _ _ _ _ _ l); [by split_and!|exact Hm|].
  rewrite Hdb. simpl. eauto.
Qed.
End Start.

(** ** Runs *)
Module MainExamples.
#[local] Existing Instances MinerExamples.toy_crypto ChainExamples.Toy.toy_serde ascii_tables MinerExamples.release toy_toml.
(** An encryption library whose keys have 32 bytes. *)
#[local] Instance strict_ecies : Ecies := {|
  ecies_public := λ s, s; ecies_secret_valid := λ s, bool_decide (length s = 32%nat);
  ecies_public_valid := λ s, bool_decide (length s = 32%nat);
  ecies_encrypt := λ _ m _, Some m; ecies_decrypt := λ _ m, Some m;
|}.
(** A system whose disk is full. *)
#[local] Instance full_disk : Main.System := {|
  Main.windows := false; Main.webgui := false; Main.console_attached := true; Main.variable := λ _, None;
  Main.create_dir := λ _, true; Main.change_dir := λ _ _, true; Main.creates := λ _ _, true; Main.writes := λ _ _, false;
  Main.opens_log := λ _ _, None; Main.sets_logger := true; Main.reads := λ _ _, None; Main.database := λ _, None;
  Main.manager := false; Main.service_created := false; Main.service_started := None; Main.service_opened := None; Main.dispatches := true;
|}.

(** The listener of [-s] as it is on the bus: it has no state and stays. *)
Definition on_event (path : rstr) (_ : Z) (event : Ui.Event) : outcome Empty_set (rstr * bool) :=
  let! _ := Main.status_listener None path event in Ok (path, true).
Definition one_listener : EventBus.t (F := rstr) := EventBus.mk {[7 := str "status.json"]} false.
Definition figures : Ui.Event := Ui.NetworkStatus 2 1 2 5.

(** The status file cannot be written: nobody can quit any more. *)
Lemma bus_ends_with_a_panic_witness : ∃ b,
  EventBus.post on_event figures one_listener = (b, false) ∧
  calls on_event [EventBus.Post Ui.ActionQuit; EventBus.Unregister 7] b = (b, [false; false]) ∧
  snd (EventBus.post on_event Ui.ActionQuit one_listener) = true.
Proof.
  destruct (bus_ends_with_a_panic on_event one_listener figures eq_refl) as (b & Hp & Hc).
  exists b. split; [exact Hp|]. split; [exact (Hc [EventBus.Post Ui.ActionQuit; EventBus.Unregister 7])|]. vm_compute. reflexivity.
Defined.

Definition some_context : Context.t := Context.new [] Settings.default_settings [] (Chain.new [] [] None).
Definition a_service : WinService.t := WinService.mk [WinService.status WinService.Running] 0 true.

Lemma service_stops_on_request_witness : ∃ s,
  WinService.exec (WinService.Control WinService.Stop) a_service = Ok (Some s) ∧
  WinService.exec (WinService.Poll true) s =
    Ok (Some (WinService.mk [WinService.status WinService.Running; WinService.status WinService.Stopped] 0 false)) ∧
  WinService.exec (WinService.Control WinService.Stop) (WinService.mk [WinService.status WinService.Running; WinService.status WinService.Stopped] 0 false) = Panic.
Proof.
  destruct (service_stops_on_request true true false (Some Settings.default_settings, Some some_context) (λ _ _, Ok tt)
    a_service (None, None) tt eq_refl) as (_ & _ & H1 & H2 & _).
  destruct (H1 a_service (rtc_refl _ _) eq_refl) as (s & Hs & Hp). exists s. split; [exact Hs|]. split; [exact Hp|].
  apply H2; [|reflexivity]. eapply rtc_l; [by exists (WinService.Control WinService.Stop)|].
  eapply rtc_once. by exists (WinService.Poll true).
Defined.

(** Everything that the options could do is asked for, and nothing is done. *)
#[local] Instance texts : Main.Texts := {|
  Main.usage := λ brief, brief; Main.CONFIG := str "origin"; Main.CARGO_PKG_VERSION := str "0.8.5";
  Main.toml_of_settings := λ _, []; Main.logger_error := []; Main.log_file_error := λ _, [] |}.
Definition all_options : Main.Matches := {|
  Main.help := false; Main.nogui := true; Main.version := true; Main.debug := true; Main.trace := true; Main.blocks := true;
  Main.generate := true; Main.install := true; Main.uninstall := true; Main.service := true;
  Main.gen_key := Some (str "key.toml"); Main.log := Some (str "log"); Main.status := Some (str "status");
  Main.config := None; Main.work_dir := Some (str "/"); Main.upgrade := Some (str "old.toml") |}.
Lemma quiet_options_witness : ∃ text,
  Main.main 0 0 (λ _, Ok true) (str "ruvname") (Some all_options) Main.fresh =
    Ok (inl (Main.Exit 0), Main.mkProcess None [text] [] None None [] []).
Proof. exact (quiet_options 0 0 (λ _, Ok true) (str "ruvname") all_options Main.fresh eq_refl). Defined.

(** A key is mined and saved. *)
Definition box : CryptoBox.t := CryptoBox.mk (replicate 32 6) (replicate 32 7).
Definition mining_run : list Main.Keys.action :=
  [Main.Keys.Gen (KeyGen.Start 0); Main.Keys.Wait; Main.Keys.Gen (KeyGen.Draw 0 (replicate 32 1) box);
   Main.Keys.Gen (KeyGen.Enter 0); Main.Keys.Save true true; Main.Keys.Wait].
Fixpoint run (acts : list Main.Keys.action) (s : Main.Keys.t) : outcome DbError (option Main.Keys.t) :=
  match acts with
  | [] => Ok (Some s)
  | a :: acts =>
      let! r := Main.Keys.exec (str "key1.toml") a s in
      match r with Some s => run acts s | None => Ok None end
  end.
Definition key_saved : Main.Keys.t := Eval vm_compute in
  match run mining_run (Main.Keys.start 1 some_context) with Ok (Some s) => s | _ => Main.Keys.start 1 some_context end.

Lemma window_sound acts s s' : Forall sound acts → run acts s = Ok (Some s') → rtc (sound_step (str "key1.toml")) s s'.
Proof.
  revert s. induction acts as [|a acts IH]; intros s Ha H; simpl in H; [by injection H as <-|].
  apply Forall_cons in Ha as [Ha Has]. apply obind_inv in H as ([s1|] & H1 & H); [|done]. eapply rtc_l; [by exists a|]. by apply IH.
Qed.

(** The key files of [toy_toml] are read back for keys of this library. *)
Lemma four_fields a b c d : bytes_ok (a ++ b ++ c ++ d) → length a = 32%nat → length b = 32%nat → length c = 32%nat → length d = 32%nat →
  let text := trim (to_hex a ++ to_hex b ++ to_hex c ++ to_hex d) in
  from_utf8_ok text = true ∧ toml_keys text = Some (KeyFile.mkKeys false (KeyFile.mkPack (to_hex a) (to_hex b)) (KeyFile.mkPack (to_hex c) (to_hex d))).
Proof.
  intros Hok Ha Hb Hc Hd. assert (∀ x y, to_hex (x ++ y) = to_hex x ++ to_hex y) as Happ.
  { intros x y. unfold to_hex. by rewrite fmap_app, join_app. }
  rewrite <- !Happ, trim_hex by done. split.
  - unfold from_utf8_ok. apply orb_true_iff. left. apply forallb_forall. intros x Hx%list_elem_of_In.
    pose proof (to_hex_chars _ Hok) as Hch. rewrite Forall_forall in Hch. destruct (Hch x Hx) as [H1 _].
    apply andb_true_iff. split; [apply Z.leb_le|apply Z.ltb_lt]; lia.
  - rewrite !Happ. cbn [toml_keys toy_toml]. rewrite !length_app, !length_to_hex, Ha, Hb, Hc, Hd.
    rewrite bool_decide_true by done. change (2 * 32)%nat with 64%nat in *.
    assert (∀ x, length x = 32%nat → length (to_hex x) = 64%nat) as H64 by (intros x Hx; by rewrite length_to_hex, Hx).
    pose proof (H64 a Ha) as La. pose proof (H64 b Hb) as Lb. pose proof (H64 c Hc) as Lc. pose proof (H64 d Hd) as Ld.
    revert La Lb Lc Ld. generalize (to_hex a), (to_hex b), (to_hex c), (to_hex d). intros x y z w Lx Ly Lz Lw.
    assert (drop 64 (x ++ y ++ z ++ w) = y ++ z ++ w) as D1 by by apply drop_app_length'.
    assert (drop 128 (x ++ y ++ z ++ w) = z ++ w) as D2.
    { change 128%nat with (64 + 64)%nat. rewrite <- drop_drop, D1. by apply drop_app_length'. }
    assert (drop 192 (x ++ y ++ z ++ w) = w) as D3.
    { change 192%nat with (128 + 64)%nat. rewrite <- drop_drop, D2. by apply drop_app_length'. }
    change (64 * 0)%nat with 0%nat. change (64 * 1)%nat with 64%nat. change (64 * 2)%nat with 128%nat. change (64 * 3)%nat with 192%nat.
    rewrite drop_0, D1, D2, D3, !take_app_length' by done. by rewrite take_ge by lia.
Qed.

Lemma toy_law k : file_ok k → let text := trim (toml_of_keys (get_keys k)) in
  from_utf8_ok text = true ∧ toml_keys text = Some (get_keys k).
Proof.
  intros [[K1 K2 K3 K4] (W1 & W2 & W3)]. apply bool_decide_eq_true in K2, K3.
  assert (Keystore.get_public k = Keystore.keypair k) as Hpub by by apply take_app_length'.
  unfold get_keys. rewrite Hpub. apply four_fields; [|exact K1|exact K1|exact K3|exact K2].
  apply Forall_app. split; [apply W1|]. apply Forall_app. split; [apply W1|].
  apply Forall_app. split; [apply W3|apply W2].
Qed.

Lemma key_option_saves_a_key_witness : ∃ out,
  Main.Keys.saved key_saved = Some (Some out) ∧
  ∃ k, from_file (E := DbError) (str "key1.toml") (Some out) = Ok (Some k) ∧ key_ok k ∧ Keystore.keypair k = replicate 32 1.
Proof.
  destruct (key_option_saves_a_key (str "key1.toml") 1 some_context key_saved toy_law) as (out & Hs & Hout).
  - apply (window_sound mining_run); [|vm_compute; reflexivity].
    do 2 (constructor; [exact I|]). constructor; [|repeat (constructor; [exact I|]); constructor].
    split; [by apply Forall_replicate|]. split; [reflexivity|]. split; [reflexivity|].
    split; by apply my_key_writable.
  - reflexivity.
  - destruct out as [file|]; [|discriminate Hs]. exists file. split; [exact Hs|].
    destruct (Hout file eq_refl) as (k & H1 & _ & H2 & H3). exists k. split; [exact H1|]. split; [exact H2|].
    apply list_elem_of_singleton in H3. exact H3.
Defined.
End MainExamples.

(** ** A node comes up on the chain of two blocks *)
Module StartExamples.
Import ChainExamples ChainExamples.Toy.
#[local] Existing Instances ascii_tables.
Definition settings : Settings.t :=
  Settings.mk (to_hex (Block.hash genesis)) [] 8 Settings.default_net Settings.default_dns Settings.default_mining.
#[local] Instance one_file : Toml := {|
  toml_of_keys := λ _, []; toml_keys := λ _, None; toml_settings := λ text, if bool_decide (text = str "settings") then Some settings else None |}.
#[local] Instance machine : Main.System := {|
  Main.windows := false; Main.webgui := false; Main.console_attached := true; Main.variable := λ _, None;
  Main.create_dir := λ _, true; Main.change_dir := λ _ _, true; Main.creates := λ _ _, true; Main.writes := λ _ _, true;
  Main.opens_log := λ _ _, None; Main.sets_logger := true;
  Main.reads := λ _ name, if bool_decide (name = str "ruvname.toml") then Some (str "settings") else None;
  Main.database := λ dir, if bool_decide (dir = Some (str "data")) then Some (Chain.db chain2) else None;
  Main.manager := false; Main.service_created := false; Main.service_started := None; Main.service_opened := None; Main.dispatches := true;
|}.
#[local] Existing Instance MainExamples.texts.
Definition opts : Main.Matches := {|
  Main.help := false; Main.nogui := false; Main.version := false; Main.debug := true; Main.trace := false; Main.blocks := false;
  Main.generate := false; Main.install := false; Main.uninstall := false; Main.service := true;
  Main.gen_key := None; Main.log := None; Main.status := Some (str "status"); Main.config := None;
  Main.work_dir := Some (str "data"); Main.upgrade := None |}.
Definition start_up := Main.main now 1000 (λ _, Ok true) (str "ruvname") (Some opts) Main.fresh.
(** The context of the node. *)
Definition served : Context.t :=
  match start_up with
  | Ok (inr (Main.Serving _ c _ _), _) => c
  | _ => Context.new [] settings [] empty_chain
  end.

Lemma start_keeps_ledger_witness : ∃ k, represents (Context.chain served) (stored <$> take k ledger2) ∧
  Chain.get_height (Context.chain served) = 2.
Proof.
  destruct (start_keeps_ledger now 1000 (λ _, Ok true) (str "ruvname") (Some opts) Main.fresh
    (Main.mkProcess (Some (str "data")) [] [] (Some (Main.mkLogger Main.Debug true None)) (Some (str "status")) [] [])
    true served None false chain2 ledger2) as [k Hk].
  - exact toy_json_law.
  - reflexivity.
  - reflexivity.
  - vm_compute. reflexivity.
  - reflexivity.
  - exact chain2_ledger.
  - repeat (constructor; [ChainExamples.fields_hold|]). constructor.
  - vm_compute. reflexivity.
  - exists k. split; [exact Hk|vm_compute; reflexivity].
Defined.
End StartExamples.
