(* ===== verification/Window.v ===== *)
(** * The window of the page (src/web_ui.rs)

    [run_interface] puts the page together, shows it in a window and turns the
    loop of the web view; the listener of the page starts a thread for every event,
    which locks the status and the context. The web view itself is not the
    program's: what [step] answers is a list, and whether the window could be
    built is an argument. *)

From S2P Require Import Prelude Text Commons Hash Keystore Net Buffer Protocol Block Store Chain ChainProps.
From S2P Require Import Miner MinerExamples Context Domains DomainsExamples Ui UiProps Main.
From S2P Require ChainExamples ContextProps.
Open Scope Z_scope.

Module Window.

(** ** The page *)

(** [str::replace]; [n] is the number of places to look at. *)
Fixpoint replace_from (n : nat) (pat to s : rstr) : rstr :=
  match n, s with
  | O, _ | _, [] => s
  | S n, x :: s' =>
      if starts_with s pat then to ++ replace_from n pat to (drop (length pat) s) else x :: replace_from n pat to s'
  end.
Definition replace (pat to s : rstr) : rstr := replace_from (length s) pat to s.

(** The files of src/webview that are built in. *)
Record webview := {
  index_html : rstr; bulma_css : rstr; styles_css : rstr; busy_indicator_css : rstr; scripts_js : rstr;
}.

(** Strings without quotes in them are put together around the quotes. *)
Definition tagged (tag type : string) (s : rstr) : rstr :=
  str "<" ++ str tag ++ str " type=" ++ [Ui.DOUBLE_QUOTE] ++ str type ++ [Ui.DOUBLE_QUOTE] ++ str ">" ++ s ++
  str "</" ++ str tag ++ str ">".
Definition inline_style : rstr → rstr := tagged "style" "text/css".
Definition inline_script : rstr → rstr := tagged "script" "text/javascript".

Definition html (v : webview) : rstr :=
  let styles := inline_style (bulma_css v) ++ inline_style (styles_css v) ++ inline_style (busy_indicator_css v) in
  let scripts := inline_script (scripts_js v) in
  replace (str "{scripts}") scripts (replace (str "{styles}") styles (index_html v)).

(** What the builder is given. *)
Record window := {
  title : rstr; content : rstr; size : Z * Z; min_size : Z * Z; resizable : bool; debug : bool;
}.
Definition new_window (version : rstr) (v : webview) : window :=
  {| title := str "RUVNAME " ++ version; content := html v; size := (1023, 720); min_size := (773, 350);
     resizable := true; debug := false |}.

(** ** Scripts for the page *)

(** [show_success], and the events of the log of the page. A handle hands the
    script over to the thread of the window, which may be gone; the result is
    ignored. *)
Definition show_success (text : rstr) : rstr :=
  str "showSuccess('" ++ Ui.replace_char Ui.QUOTE [Ui.BACKSLASH; Ui.QUOTE] text ++ str "');".
Definition event_info (time message : rstr) : rstr := Ui.format_event "info" time message.
Definition event_warn (time message : rstr) : rstr := Ui.format_event "warn" time message.
Definition event_fail (time message : rstr) : rstr := Ui.format_event "fail" time message.
Definition event_handle (kind : string) (taken : bool) (time message : rstr) : list rstr :=
  if taken then [Ui.format_event kind time message] else [].
Definition event_handle_info := event_handle "info".
Definition event_handle_warn := event_handle "warn".
Definition event_handle_fail := event_handle "fail".
Definition event_handle_luck := event_handle "luck".

(** ** The loop *)

(** The answers of [step]: the window was closed, it goes on, it is broken. *)
Inductive stepped := Closed | Going | Broken.

(** [run_interface_loop]: the events posted at the end, and the number of pauses
    of 25 milliseconds. Each answer comes with the milliseconds since the last
    pause; when the list ends, the loop goes on. *)
Fixpoint run_interface_loop {E} (answers : list (stepped * Z)) : outcome E (list Ui.Event * nat) :=
  match answers with
  | [] => OutOfFuel
  | (Closed, _) :: _ => Ok ([Ui.ActionQuit], 0%nat)
  | (Broken, _) :: _ => Ok ([], 0%nat)
  | (Going, elapsed) :: answers =>
      let! (posted, pauses) := run_interface_loop answers in
      Ok (posted, if 1 <? elapsed then S pauses else pauses)
  end.

(** [run_interface]: the window, and how its loop ends. *)
Definition run_interface {E} (version : rstr) (v : webview) (built : bool) (answers : list (stepped * Z))
    : outcome E (window * list Ui.Event) :=
  if negb built then Panic else
  let! (posted, _) := run_interface_loop answers in Ok (new_window version v, posted).

(** ** The threads of the events *)

Section Threads.
Context {CR : Crypto} {SD : Serde} {JD : JsonData} {EC : Ecies} {U : Unicode} {BP : Build} {TM : Toml}.

(** A loaded page: [broken] when a thread panicked with the status and the context
    locked. Then [lock().unwrap()] panics in every thread. *)
Record t := mk { page : Ui.t; status : Ui.UiStatus; threads : nat; broken : bool }.

(** The thread of an event, and whether it came to its end. *)
Definition handle (w : Ui.env) (e : Ui.Event) (s : t) : outcome DbError (t * bool) :=
  if broken s then Ok (s, false) else
  match Ui.on_event (E := DbError) w (threads s) (Ui.context (page s)) (status s) e with
  | Ok (st, scripts) =>
      let p := page s in
      Ok (mk (Ui.mk (Ui.context p) (Ui.posted p) (Ui.scripts p ++ scripts) (Ui.jobs p) (Ui.files p)) st (threads s) false, true)
  | Err e => Err e
  | Panic => Ok (mk (page s) (status s) (threads s) true, false)
  | OutOfFuel => OutOfFuel
  end.

(** Whether a command comes to lock the context. *)
Definition locks (w : Ui.env) (cmd : Ui.Cmd) : bool :=
  match cmd with
  | Ui.CheckRecord _ | Ui.TransferDomain _ _ | Ui.StopMining | Ui.Open_ _ => false
  | Ui.LoadKey =>
      match Ui.dialog w with
      | None => false
      | Some name => match from_file (E := DbError) name (Ui.read w name) with Ok None => false | _ => true end
      end
  | _ => true
  end.

(** A command, which runs in the thread of the window: the program ends with it. *)
Definition command (w : Ui.env) (cmd : Ui.Cmd) (s : t) : outcome DbError t :=
  if broken s && locks w cmd then Panic else
  let! (_, p) := Ui.invoke w cmd (page s) in Ok (mk p (status s) (threads s) (broken s)).
End Threads.
End Window.
Import Window.

(** ** What the page is told *)

(** Text that no literal changes the meaning of. *)
Definition sayable (text : rstr) : Prop := Forall (λ x, x ≠ Ui.BACKSLASH ∧ x ≠ 10 ∧ x ≠ 13) text.

Lemma sayable_json text : sayable text → json_text text.
Proof. induction 1 as [|x text (? & ? & ?) _ IH]; [constructor|by apply json_char]. Qed.
Lemma sayable_value text : sayable text → value (Ui.replace_char Ui.QUOTE [Ui.BACKSLASH; Ui.QUOTE] text) = Some text.
Proof.
  induction 1 as [|x text (Hb & _ & _) _ IH]; [done|]. cbn [Ui.replace_char]. destruct (Z.eqb_spec x Ui.QUOTE) as [->|Hq].
  - cbn. by rewrite IH.
  - cbn [app value]. by rewrite (proj2 (Z.eqb_neq _ _) Hb), IH.
Qed.

(** The page shows such text as it is, whatever quotes are in it. *)
Lemma notice_reads text : sayable text → ∃ raw,
  Ui.warning text = str "showWarning('" ++ raw ++ [Ui.QUOTE] ++ str ");" ∧
  Ui.warning text = str "showWarning('" ++ raw ++ [Ui.QUOTE] ++ str ");" ∧
  literal (raw ++ [Ui.QUOTE] ++ str ");") = Some (raw, str ");") ∧ value raw = Some text.
Proof.
  intros Ht. exists (Ui.replace_char Ui.QUOTE [Ui.BACKSLASH; Ui.QUOTE] text). split; [done|]. split; [done|].
  split; [by apply literal_closed, quotes_closed, sayable_json|by apply sayable_value].
Qed.

(** ** The loop *)

(** The loop ends with the first answer that says so; the program is told to stop
    only when the window was closed. It pauses once for every turn that took longer
    than a millisecond. *)
Lemma loop_ends {E} before last elapsed rest :
  Forall (λ a, a.1 = Going) before → last ≠ Going →
  run_interface_loop (E := E) (before ++ (last, elapsed) :: rest) =
    Ok (match last with Closed => [Ui.ActionQuit] | _ => [] end, length (List.filter (λ a, 1 <? a.2) before)).
Proof.
  intros Hb Hl. induction Hb as [|[a t] before Ha _ IH]; [by destruct last|]. simpl in Ha. subst a. cbn [app run_interface_loop].
  rewrite IH. cbn. by destruct (1 <? t).
Qed.

(** ** Names that cannot be read *)

(** A computation in which nothing is an error. *)
Definition sure {E A} (o : outcome E A) : Prop := match o with Ok _ | Panic => True | _ => False end.
Lemma sure_bind {E A B} (m : outcome E A) (k : A → outcome E B) : sure m → (∀ a, sure (k a)) → sure (obind m k).
Proof. destruct m; simpl; auto. Qed.

Section Unreadable.
Context {CR : Crypto} {SD : Serde} {JD : JsonData} {EC : Ecies} {U : Unicode} {BP : Build} {TM : Toml}.

Lemma add_sure {E} a b : sure (add_s (E := E) 64 a b).
Proof. unfold add_s, sarith. destruct (fits_s _ _); [done|]. by destruct overflow_checks. Qed.
Lemma identity_sure {E} c id height time : sure (Chain.get_identity_transaction_and_state (E := E) c id height time).
Proof.
  unfold Chain.get_identity_transaction_and_state. destruct (Store.sql_get_domain _ _ _); [|done].
  apply sure_bind; [|done]. apply sure_bind; [apply add_sure|]. intros u. destruct (_ <=? _); [done|].
  apply sure_bind; [apply add_sure|]. intros u'. by destruct (_ <=? _).
Qed.
Lemma renewal_sure {E} c time id : sure (Chain.get_domain_renewal_time (E := E) c time id).
Proof.
  unfold Chain.get_domain_renewal_time. destruct (Store.sql_get_domain_update_time _ _); [|done]. apply sure_bind; [|done].
  apply sure_bind; [|done]. unfold sub_s, sarith. destruct (fits_s _ _); [done|]. by destruct overflow_checks.
Qed.
Lemma my_domains_sure {E} now c k rows : ∀ acc, sure (Chain.my_domains (E := E) now c k rows acc).
Proof.
  induction rows as [|r rows IH]; intros acc; [done|]. cbn [Chain.my_domains]. apply sure_bind; [apply identity_sure|].
  intros [tx st]. cbv zeta. match goal with |- context [if ?b then _ else _] => destruct b; [apply IH|] end.
  destruct (json_domain_data _); [|apply IH]. destruct (negb _); [done|]. apply sure_bind; [apply renewal_sure|]. intros; apply IH.
Qed.

(** A row of the table of domains that is still its owner's, with a name that the
    key decrypts to no text. *)
Record unreadable (c : Chain.t) (k : Keystore.t) (r : Store.drow) : Prop := {
  un_row : r ∈ Store.sql_get_domains_by_key (Keystore.get_public k) (Chain.db c);
  un_owned : ∀ r', Store.sql_get_domain (Store.d_identity r) (as_i64 (Chain.get_height c)) (Chain.db c) = Some r' →
    Store.d_signing r' = Store.d_signing r;
  un_data : ∃ data, json_domain_data (Store.d_data r) = Some data ∧
    from_utf8_ok (Keystore.decrypt k (encrypted data)) = false;
}.

Lemma my_domains_unreadable {E} now c k r rows : unreadable c k r → r ∈ rows →
  ∀ acc, Chain.my_domains (E := E) now c k rows acc = Panic.
Proof.
  intros [_ Hown (data & Hdata & Hutf)]. induction rows as [|r' rows IH]; intros Hin acc; [by apply not_elem_of_nil in Hin|].
  assert (∀ x, Chain.my_domains (E := E) now c k (r' :: rows) acc ≠ Ok x) as Hno.
  { intros x Hx. cbn [Chain.my_domains] in Hx. apply obind_inv in Hx as ([tx st] & Ht & Hx). cbv zeta in Hx.
    apply elem_of_cons in Hin as [<-|Hin].
    - assert (match tx with Some tx => negb (same_hash (Transaction.signing tx) (Store.d_signing r)) | None => false end = false) as Hskip.
      { unfold Chain.get_identity_transaction_and_state in Ht. destruct (Store.sql_get_domain _ _ _) as [r'|] eqn:Hr; [|by injection Ht as <- _].
        apply obind_inv in Ht as (st' & _ & [= <- _]). cbn. rewrite same_hash_eq, (Hown _ eq_refl). by rewrite bool_decide_true. }
      rewrite Hskip, Hdata, Hutf in Hx. done.
    - specialize (IH Hin). destruct (match tx with Some _ => _ | None => _ end) in Hx; [by rewrite IH in Hx|].
      destruct (json_domain_data _) in Hx; [|by rewrite IH in Hx]. destruct (negb _) in Hx; [done|].
      apply obind_inv in Hx as (t & _ & Hx). by rewrite IH in Hx. }
  pose proof (my_domains_sure (E := E) now c k (r' :: rows) acc) as Hs.
  destruct (Chain.my_domains (E := E) now c k (r' :: rows) acc); try done. by destruct (Hno a).
Qed.

(** The events after which the page lists the domains. *)
Definition lists_domains (e : Ui.Event) : bool :=
  match e with
  | Ui.KeyCreated _ _ _ | Ui.KeyLoaded _ _ _ | Ui.KeySaved _ _ _ | Ui.MinerStopped true true | Ui.SyncFinished => true
  | _ => false
  end.

(** One domain with such a name, which anybody can register for the key of somebody
    else, stops the owner. The list of the domains panics; without a window that is
    the main thread, on every start. With one, the thread of the next event that
    lists them panics with the status and the context locked: the page hears of
    nothing more, and every command that needs the context ends the program. *)
Theorem unreadable_name_stops_owner ctx k r :
  Context.get_keystore ctx = Some k → unreadable (Context.chain ctx) k r →
  (∀ E now, Chain.get_my_domains (E := E) now (Context.chain ctx) (Some k) = Panic) ∧
  (∀ now p `{!Main.System} `{!Main.Texts}, Main.print_my_domains now ctx p = Panic) ∧
  ∀ w e s, lists_domains e = true → broken s = false → Ui.context (page s) = ctx →
    ∃ s', handle w e s = Ok (s', false) ∧ page s' = page s ∧
      (∀ w e, handle w e s' = Ok (s', false)) ∧ ∀ w cmd, locks w cmd = true → command w cmd s' = Panic.
Proof.
  intros Hk Hr.
  assert (∀ E now, Chain.get_my_domains (E := E) now (Context.chain ctx) (Some k) = Panic) as Hp
    by (intros E now; eapply my_domains_unreadable; [exact Hr|apply Hr]).
  split; [done|]. split.
  { intros now p SY TX. unfold Main.print_my_domains, Main.pbind, mbind_, Main.lifted. by rewrite Hk, Hp. }
  intros w e s He Hb Hc. exists (mk (page s) (status s) (threads s) true). split; [|split; [done|split; [done|]]].
  - assert (∀ now, Ui.load_domains (E := DbError) now ctx = Panic) as Hl by (intros now; unfold Ui.load_domains; by rewrite Hk, Hp).
    unfold handle. rewrite Hb, Hc. unfold Ui.on_event. assert (Ui.react (E := DbError) w (threads s) ctx (status s) e = Panic) as ->; [|done].
    destruct e as [|[] []| | | | | | | | | | | | | |]; try done; cbn [Ui.react]; by rewrite Hl.
  - intros w' cmd Hcmd. unfold command. by rewrite Hcmd.
Qed.
End Unreadable.

(** ** Runs *)
Module WindowExamples.
#[local] Existing Instances MinerExamples.toy_crypto ChainExamples.Toy.toy_ecies ascii_tables MinerExamples.release.
#[local] Existing Instances DomainsExamples.toy_serde DomainsExamples.toy_json ContextProps.toy_toml.

Definition files : webview := {|
  index_html := str "<head>{scripts}{styles}</head>"; bulma_css := str "a{}"; styles_css := str "b{}";
  busy_indicator_css := []; scripts_js := str "f();" |}.
Example page_put_together :
  run_interface (E := Empty_set) (str "1.0") files true [(Going, 0); (Going, 7); (Closed, 0)] =
    Ok (new_window (str "1.0") files, [Ui.ActionQuit]) ∧
  html files = str "<head>" ++ inline_script (str "f();") ++ inline_style (str "a{}") ++ inline_style (str "b{}") ++
    inline_style [] ++ str "</head>".
Proof. vm_compute. done. Qed.

(** Only the quotes of a notice are escaped: after a backslash the literal ends
    with the quote. The messages of the log of the page are not escaped at all,
    and one of them has the name of a file in it. *)
Example notice_broken :
  let text := [Ui.BACKSLASH; Ui.QUOTE] in
  Ui.warning text = str "showWarning('" ++ [Ui.BACKSLASH; Ui.BACKSLASH; Ui.QUOTE] ++ str "');" ∧
  literal ([Ui.BACKSLASH; Ui.BACKSLASH; Ui.QUOTE] ++ str "');") = Some ([Ui.BACKSLASH; Ui.BACKSLASH], str "');").
Proof. vm_compute. done. Qed.
Example file_name_in_script :
  event_fail (str "now") (str "Error loading key from \'" ++ str "'); steal(); ('.toml" ++ str "\'!") =
    str "addEvent('fail', 'now', 'Error loading key from \''); steal(); ('.toml\'!');".
Proof. vm_compute. reflexivity. Qed.

(** The block of a stranger for the key of somebody else, with a name of one byte
    that is no text. *)
Definition gift : Block.t :=
  from_all_params 2 90000 1 24 0 0 (Block.hash genesis) (blakeout [2; 0]) (replicate 32 9) (replicate 64 0)
    (Some (transaction_from_str name CLASS_DOMAIN [255] (Keystore.get_public me) [])).
Definition gifted : Chain.t := Eval vm_compute in after gift chain1.
Definition owner : Context.t := Context.new [] Settings.default_settings [me] gifted.
Definition world : Ui.env :=
  {| Ui.now := 100000; Ui.time := str "01.01.25 00:00:00"; Ui.rnd := []; Ui.dialog := None; Ui.read := λ _, None;
     Ui.created := true; Ui.written := true; Ui.opens := true; Ui.cpus := 2; Ui.evaluates := λ _, true; Ui.dispatched := true |}.
Definition loaded : t := mk (Ui.mk owner [] [] [] []) (Ui.status_new 2) 2 false.

Lemma unreadable_name_stops_owner_witness :
  Chain.check_new_block 100000 0 gift chain1 = Ok ((Good, set_hash_good gift true), chain1) ∧
  Chain.get_my_domains (E := DbError) 100000 gifted (Some me) = Panic ∧
  ∃ s', handle world Ui.SyncFinished loaded = Ok (s', false) ∧ command world (Ui.CheckDomain name) s' = Panic.
Proof.
  split; [vm_compute; reflexivity|].
  destruct (unreadable_name_stops_owner owner me
    (default (Store.Drow 0 0 [] [] [] [] []) (head (Store.sql_get_domains_by_key (Keystore.get_public me) (Chain.db gifted)))))
    as (Hp & _ & Hs).
  - vm_compute. reflexivity.
  - split.
    + apply list_elem_of_In. vm_compute. left. reflexivity.
    + intros r' Hr. vm_compute in Hr. discriminate.
    + eexists. split; vm_compute; reflexivity.
  - split; [exact (Hp DbError 100000)|]. destruct (Hs world Ui.SyncFinished loaded eq_refl eq_refl eq_refl) as (s' & H1 & _ & _ & H2).
    exists s'. split; [exact H1|]. apply H2. reflexivity.
Defined.
End WindowExamples.
