(* ===== verification/Locks.v ===== *)
(** * The locks that the threads share

    The context, the queue of the miner, the miner, the status of the page and the
    bus are each behind a mutex, and a thread takes one while it holds another. An
    operation of a thread is the order in which it takes and gives back these locks
    ([script]), on each of its paths; what it does in between is in the other
    files. A lock that is taken and given back at once is written out like any
    other; waiting for a condition variable gives the lock back and takes it again.

    A thread may panic or run into a loop without an end at any point of an
    operation. A panic gives back what the thread holds and poisons it: who takes
    a poisoned lock with [unwrap] panics as well. A thread in a loop keeps what it
    holds. *)

From stdpp Require Import list.
From S2P Require Import Prelude.

Module Locks.

Inductive lock := MinerLock | JobsLock | StatusLock | ContextLock | BusLock.
#[global] Instance lock_eq_dec : EqDecision lock.
Proof. solve_decision. Defined.

(** [Take]: [l.lock().unwrap()]; [IfOk]: [if let Ok(..) = l.lock()], or [try_lock]
    on the path where it succeeds. *)
Inductive op := Take (l : lock) | IfOk (l : lock) | Drop (l : lock).
Definition script : Type := list op.

(** What is done under a guard that lives to the end of its block. *)
Definition guarded (l : lock) (body : script) : script := Take l :: body ++ [Drop l].
(** [context.lock().unwrap()] in an expression. *)
Definition glance : script := guarded ContextLock [].
(** [if let Ok(context) = context.lock()]; nothing is locked in its block. *)
Definition look : script := [IfOk ContextLock; Drop ContextLock].

(** ** commons/eventbus.rs: the listeners take no lock. *)
Definition post : script := guarded BusLock [].
Definition register : script := guarded BusLock [].

(** ** miner.rs *)
Definition add_block : script := guarded JobsLock [].
(** [cond_var.wait_timeout(jobs, delay)] *)
Definition wait_timeout : script := [Drop JobsLock; Take JobsLock].

(** [mine_internal]: a block to sign with a weak key or too late, and a start. *)
Definition started : script := post ++ glance.
Definition mine_internal : list script :=
  [post; glance ++ post; glance ++ started; glance ++ glance ++ started].

(** A turn of the main loop, which has the queue locked while it starts a job or
    asks the chain for one. *)
Definition turn : list script :=
  [] :: guarded JobsLock (look ++ wait_timeout) :: guarded JobsLock wait_timeout ::
  (guarded JobsLock <$> mine_internal) ++ ((λ s, guarded JobsLock (s ++ wait_timeout)) <$> mine_internal).

(** A mining thread: the look at the chain, the statistics, [try_lock] when it
    succeeds, a cancelled search, and a block found. *)
Definition work : list script := [glance; post; look; look ++ post; guarded ContextLock post].

(** ** keystore.rs: [create_key] and its threads *)
Definition create_key : script := post ++ glance ++ glance ++ register.
Definition generate : list script := [guarded ContextLock post; post].

(** ** web_ui.rs *)
Definition action_loaded : list script :=
  (λ body, glance ++ guarded ContextLock (register ++ body)) <$> [[]; post; post ++ post].
Definition action_load_key : list script := [[]; post ++ glance; post ++ glance ++ glance].
Definition action_save_key : list script := [glance; glance ++ glance; glance ++ guarded ContextLock post].
Definition action_select_key : list script := [glance; glance ++ glance ++ post].
Definition action_check_domain : script := glance.
(** The guard is dropped before [create_domain]. *)
Definition create_domain : script := glance ++ glance ++ guarded MinerLock add_block.
Definition action_create_domain : list script := [glance; glance ++ create_domain].
Definition commands : list script :=
  action_loaded ++ action_load_key ++ [create_key] ++ action_save_key ++ action_select_key ++
  [action_check_domain] ++ action_create_domain ++ [post].
(** The thread that the listener of the page starts for an event. *)
Definition on_event : script := guarded StatusLock (guarded ContextLock []).

(** ** p2p/network.rs *)
Definition handle_message : list script :=
  [glance; glance ++ glance; glance ++ guarded ContextLock post].
(** [handle_block], called by [handle_message]: no event, one, or three of them. *)
Definition handle_block : list script :=
  (λ body, glance ++ guarded ContextLock body) <$> [[]; post; post ++ post ++ post].
Definition close_connection : script := glance ++ glance ++ glance ++ post.
Definition timer : list script := [glance; guarded ContextLock post].
Definition events : list script := [glance; register] ++ handle_message ++ handle_block ++ [close_connection] ++ timer.

(** ** blockchain/filter.rs *)
Definition lookup : script := glance.

(** ** main.rs *)
(** [create_genesis_if_needed] with a block to mine: the context stays locked. *)
Definition create_genesis : script := guarded ContextLock (guarded MinerLock add_block).
(** The rest of the main thread: no genesis block is needed, or nothing is to be
    printed; an event for the page. *)
Definition rest_of_main : list script := [register; glance; post].
(** The thread that saves the key of [-k]. *)
Definition save_key : script := glance.

(** ** Threads *)

Inductive role :=
  | MainLoop | MiningThread | KeyThread | Page | PageEvent | NetworkLoop | DnsThread | MainThread | KeySaver
  (** The main thread on the first start of a new chain. *)
  | Founder.
Definition operations (r : role) : list script :=
  match r with
  | MainLoop => turn
  | MiningThread => work
  | KeyThread => generate
  | Page => commands
  | PageEvent => [on_event]
  | NetworkLoop => events
  | DnsThread => [lookup]
  | MainThread => rest_of_main
  | KeySaver => [save_key]
  | Founder => create_genesis :: rest_of_main
  end.

(** A thread that panicked has poisoned what it held. *)
Inductive life := Working | Panicked (broke : list lock) | Looping.

(** What a thread holds, the last lock first, and what is left of its operation. *)
Record thread := mk { kind : role; held : list lock; rest : script; fate : life }.
Abbreviation t := (list thread).
Definition start (roles : list role) : t := (λ r, mk r [] [] Working) <$> roles.

Definition free (s : t) (l : lock) : bool := forallb (λ t, negb (bool_decide (l ∈ held t))) s.
Definition give_back (l : lock) (held : list lock) : list lock := List.filter (λ h, negb (bool_decide (h = l))) held.
Definition poisoned (s : t) (l : lock) : bool :=
  existsb (λ t, match fate t with Panicked broke => bool_decide (l ∈ broke) | _ => false end) s.
Definition crashed (t : thread) : thread := mk (kind t) [] [] (Panicked (held t)).

(** A thread between two operations begins one of its own. *)
Definition advance (s : t) (choice : nat) (t : thread) : option thread :=
  match fate t with
  | Working =>
      match rest t with
      | [] => (λ sc, mk (kind t) (held t) sc Working) <$> operations (kind t) !! choice
      | Take l :: r =>
          if free s l then Some (if poisoned s l then crashed t else mk (kind t) (l :: held t) r Working) else None
      | IfOk l :: r =>
          if free s l then
            Some (if poisoned s l then mk (kind t) (held t) (drop 1 r) Working else mk (kind t) (l :: held t) r Working)
          else None
      | Drop l :: r => Some (mk (kind t) (give_back l (held t)) r Working)
      end
  | _ => None
  end.
Definition exec (i choice : nat) (s : t) : option t :=
  t ← s !! i; t' ← advance s choice t; Some (<[i := t']> s).

(** A thread that does not wait for a lock panics, or runs into a loop. *)
Definition waits (s : t) (t : thread) : bool :=
  match rest t with Take l :: _ | IfOk l :: _ => negb (free s l) | _ => false end.
Definition fails (looping : bool) (i : nat) (s : t) : option t :=
  t ← s !! i;
  match fate t with
  | Working =>
      if waits s t then None
      else Some (<[i := if looping then mk (kind t) (held t) (rest t) Looping else crashed t]> s)
  | _ => None
  end.

Definition step (s s' : t) : Prop :=
  (∃ i choice, exec i choice s = Some s') ∨ ∃ looping i, fails looping i s = Some s'.
(** A step within an operation. *)
Definition busy_step (s s' : t) : Prop := ∃ i t, s !! i = Some t ∧ rest t ≠ [] ∧ exec i 0 s = Some s'.

(** ** The order of the locks *)

Definition rank (l : lock) : nat :=
  match l with MinerLock => 0 | JobsLock => 1 | StatusLock => 2 | ContextLock => 3 | BusLock => 4 end.

Definition above (held : list lock) (l : lock) : bool := forallb (λ h, rank h <? rank l)%nat held.
Fixpoint ordered (held : list lock) (s : script) : bool :=
  match s with
  | [] => bool_decide (held = [])
  | Take l :: s => above held l && ordered (l :: held) s
  | IfOk l :: s => above held l && ordered (l :: held) s && match s with _ :: s => ordered held s | [] => false end
  | Drop l :: s => bool_decide (l ∈ held) && ordered (give_back l held) s
  end.
Definition keeps_order (s : t) : Prop := Forall (λ t, ordered (held t) (rest t) = true) s.
(** Nothing is under way but in threads that loop. *)
Definition idle (s : t) : Prop := Forall (λ t, fate t ≠ Looping → rest t = [] ∧ held t = []) s.
(** No thread loops with a lock. *)
Definition loops_free (s : t) : Prop := Forall (λ t, fate t = Looping → held t = []) s.

(** Every path of every thread but the founder's takes them in this order. *)
Lemma operations_ordered r s : r ≠ Founder → s ∈ operations r → ordered [] s = true.
Proof.
  intros Hr. assert (forallb (ordered []) (operations r) = true) as Hall by (destruct r; try done; vm_compute; done).
  rewrite forallb_forall in Hall. intros Hs%list_elem_of_In. by apply Hall.
Qed.

Lemma exec_inv i choice s s' : exec i choice s = Some s' →
  ∃ t t', s !! i = Some t ∧ advance s choice t = Some t' ∧ s' = <[i := t']> s.
Proof. unfold exec. intros (t & Ht & (t' & Ht' & [= <-])%bind_Some)%bind_Some. eauto. Qed.

Lemma fails_inv looping i s s' : fails looping i s = Some s' →
  ∃ t, s !! i = Some t ∧ fate t = Working ∧ waits s t = false ∧
    s' = <[i := if looping then mk (kind t) (held t) (rest t) Looping else crashed t]> s.
Proof.
  unfold fails. intros (t & Ht & H)%bind_Some. destruct (fate t) eqn:Hf; try done.
  destruct (waits s t) eqn:Hw; [done|]. injection H as <-. eauto.
Qed.

(** What a thread does, by what is next. *)
Lemma advance_inv s choice t t' : advance s choice t = Some t' →
  fate t = Working ∧ kind t' = kind t ∧
  match rest t with
  | [] => held t' = held t ∧ fate t' = Working ∧ rest t' ∈ operations (kind t)
  | Take l :: r => free s l = true ∧
      (held t' = l :: held t ∧ rest t' = r ∧ fate t' = Working ∨ poisoned s l = true ∧ t' = crashed t)
  | IfOk l :: r => free s l = true ∧ fate t' = Working ∧
      (held t' = l :: held t ∧ rest t' = r ∨ held t' = held t ∧ rest t' = drop 1 r)
  | Drop l :: r => held t' = give_back l (held t) ∧ rest t' = r ∧ fate t' = Working
  end.
Proof.
  unfold advance. destruct (fate t); try done. destruct (rest t) as [|[l|l|l] r].
  - intros (sc & Hsc & ->)%fmap_Some. simpl. split_and!; try done. by eapply list_elem_of_lookup_2.
  - destruct (free s l); [|done]. intros [= <-]. destruct (poisoned s l); simpl; split_and!; auto.
  - destruct (free s l); [|done]. intros [= <-]. destruct (poisoned s l); simpl; split_and!; auto.
  - intros [= <-]. done.
Qed.

(** A panic leaves nothing. *)
Definition gone (t : thread) : Prop := match fate t with Panicked _ => rest t = [] ∧ held t = [] | _ => True end.

(** The invariant of a run without a founder. *)
Definition sound (s : t) : Prop := keeps_order s ∧ Forall (λ t, kind t ≠ Founder) s ∧ Forall gone s.

Lemma start_sound roles : Founder ∉ roles → sound (start roles).
Proof.
  intros Hr. split; [|split]; apply Forall_fmap, Forall_forall; intros r Hin; [done| |done]. intros He. cbn in He. by subst.
Qed.

Lemma advance_ordered s choice t t' : advance s choice t = Some t' → kind t ≠ Founder →
  ordered (held t) (rest t) = true → ordered (held t') (rest t') = true.
Proof.
  intros (_ & _ & Ha)%advance_inv Hk Ho. destruct (rest t) as [|[l|l|l] r]; cbn [ordered] in Ho.
  - destruct Ha as (-> & _ & Hin). apply bool_decide_eq_true in Ho as ->. by eapply operations_ordered.
  - apply andb_true_iff in Ho as [_ Ho]. destruct Ha as [_ [(-> & -> & _)|[_ ->]]]; done.
  - rewrite !andb_true_iff in Ho. destruct Ho as [[_ H1] H2]. destruct Ha as (_ & _ & [[-> ->]|[-> ->]]); [done|].
    by destruct r.
  - apply andb_true_iff in Ho as [_ Ho]. by destruct Ha as (-> & -> & _).
Qed.

Lemma advance_gone s choice t t' : advance s choice t = Some t' → gone t'.
Proof.
  intros (_ & _ & Ha)%advance_inv. unfold gone. destruct (rest t) as [|[l|l|l] r].
  - by destruct Ha as (_ & -> & _).
  - by destruct Ha as [_ [(_ & _ & ->)|[_ ->]]].
  - by destruct Ha as (_ & -> & _).
  - by destruct Ha as (_ & _ & ->).
Qed.

Lemma step_sound s s' : step s s' → sound s → sound s'.
Proof.
  intros Hs (Ho & Hk & Hg). unfold sound, keeps_order in *.
  destruct Hs as [(i & choice & (t & t' & Ht & Ha & ->)%exec_inv)|(looping & i & (t & Ht & _ & _ & ->)%fails_inv)];
    pose proof (Forall_lookup_1 _ _ _ _ Ho Ht) as Hot; pose proof (Forall_lookup_1 _ _ _ _ Hk Ht) as Hkt; cbn beta in *;
    (split; [|split]; (apply Forall_insert; [done|])).
  - by eapply advance_ordered.
  - by apply advance_inv in Ha as (_ & -> & _).
  - by eapply advance_gone.
  - by destruct looping.
  - by destruct looping.
  - by destruct looping.
Qed.

Lemma run_sound s s' : rtc step s s' → sound s → sound s'.
Proof. induction 1 as [|s1 s2 s3 Hs _ IH]; [done|]. intros H1. by apply IH, (step_sound s1). Qed.

Lemma not_free s l : free s l = false → ∃ j t, s !! j = Some t ∧ l ∈ held t.
Proof.
  unfold free. induction s as [|t s IH]; [done|]. cbn. case_bool_decide as Hl; cbn.
  - intros _. by exists 0, t.
  - intros (j & t' & Hj & Hl')%IH. by exists (S j), t'.
Qed.

(** How far the next lock is from the last one. *)
Definition next_rank (t : thread) : nat := match rest t with Take l :: _ | IfOk l :: _ => 4 - rank l | _ => 0 end.

Lemma next_above l' l h : rank l' <= 4 → above h l' = true → l ∈ h → 4 - rank l' < 4 - rank l.
Proof.
  unfold above. rewrite forallb_forall. intros Hr Hh Hl%list_elem_of_In%Hh%Nat.ltb_lt. lia.
Qed.

Lemma holder_next u l : ordered (held u) (rest u) = true → l ∈ held u →
  (∃ l' r, rest u = Drop l' :: r) ∨ rest u ≠ [] ∧ next_rank u < 4 - rank l.
Proof.
  intros Ho Hl. unfold next_rank. destruct (rest u) as [|[l'|l'|l'] r]; cbn [ordered] in Ho.
  - apply bool_decide_eq_true in Ho. rewrite Ho in Hl. by apply not_elem_of_nil in Hl.
  - right. split; [done|]. apply andb_true_iff in Ho as [Ho _]. apply (next_above l' l (held u)); [destruct l'; simpl; lia|done|done].
  - right. split; [done|]. rewrite !andb_true_iff in Ho. destruct Ho as [[Ho _] _].
    apply (next_above l' l (held u)); [destruct l'; simpl; lia|done|done].
  - left. eauto.
Qed.

Lemma holder_works s j u l : sound s → loops_free s → s !! j = Some u → l ∈ held u → fate u = Working.
Proof.
  intros (_ & _ & Hg) Hloop Hj Hl. destruct (fate u) eqn:Hf; [done|..]; exfalso; apply (not_elem_of_nil l).
  - pose proof (Forall_lookup_1 _ _ _ _ Hg Hj) as H. unfold gone in H. rewrite Hf in H. by destruct H as [_ <-].
  - by rewrite <- (Forall_lookup_1 _ _ _ _ Hloop Hj Hf).
Qed.

(** Who waits for a lock waits for a thread that is closer to its end. *)
Lemma someone_moves s : sound s → loops_free s → ∀ n i t, s !! i = Some t → rest t ≠ [] → fate t = Working →
  (next_rank t <= n)%nat → ∃ s', busy_step s s'.
Proof.
  intros Hs Hloop. induction n as [n IH] using lt_wf_ind. intros i t Ht Hr Hf Hn.
  assert (∀ i t t', s !! i = Some t → rest t ≠ [] → advance s 0 t = Some t' → ∃ s', busy_step s s') as Hmove.
  { intros j u u' Hj Hru Ha. exists (<[j := u']> s), j, u. split; [done|]. split; [done|]. unfold exec. by rewrite Hj; cbn; rewrite Ha. }
  assert (∀ l, free s l = false → next_rank t = (4 - rank l)%nat → ∃ s', busy_step s s') as Hwait.
  { intros l Hl Hnext. destruct (not_free s l Hl) as (j & u & Hj & Hh). pose proof (holder_works s j u l Hs Hloop Hj Hh) as Hfu.
    destruct (holder_next u l (Forall_lookup_1 _ _ _ _ (proj1 Hs) Hj) Hh) as [(l' & r & Hru)|[Hru Hlt]].
    - eapply (Hmove j u); [done|by rewrite Hru|]. unfold advance. by rewrite Hfu, Hru.
    - by apply (IH (next_rank u)) with (i := j) (t := u); [lia|..]. }
  unfold next_rank in Hwait. specialize (λ t', Hmove i t t' Ht Hr) as Hgo. unfold advance in Hgo. rewrite Hf in Hgo.
  destruct (rest t) as [|[l|l|l] r] eqn:Hrest; [done|..].
  - destruct (free s l) eqn:Hfree; [by eapply Hgo|by apply (Hwait l)].
  - destruct (free s l) eqn:Hfree; [by eapply Hgo|by apply (Hwait l)].
  - by eapply Hgo.
Qed.

(** What the working threads have left to do. *)
Definition work_left (t : thread) : nat := match fate t with Working => length (rest t) | _ => 0 end.
Definition left_over (s : t) : nat := sum_list (work_left <$> s).

Lemma left_over_insert s i t t' : s !! i = Some t → work_left t' < work_left t → left_over (<[i := t']> s) < left_over s.
Proof.
  unfold left_over. revert i. induction s as [|u s IH]; intros i Hi Hl; [done|]. destruct i as [|i]; cbn in *.
  - injection Hi as ->. change (work_left t' + sum_list (work_left <$> s) < work_left t + sum_list (work_left <$> s)). lia.
  - specialize (IH i Hi Hl). change (work_left u + sum_list (work_left <$> <[i := t']> s) < work_left u + sum_list (work_left <$> s)). lia.
Qed.

Lemma busy_shorter s s' : busy_step s s' → left_over s' < left_over s.
Proof.
  intros (i & t & Ht & Hr & (u & t' & Hu & Ha & ->)%exec_inv). rewrite Ht in Hu. injection Hu as <-.
  apply (left_over_insert s i t t' Ht). apply advance_inv in Ha as (Hf & _ & Ha). unfold work_left. rewrite Hf.
  destruct (rest t) as [|[l|l|l] r]; [done|..]; simpl.
  - destruct Ha as [_ [(_ & -> & ->)|[_ ->]]]; simpl; lia.
  - destruct Ha as (_ & -> & [[_ ->]|[_ ->]]); [lia|]. rewrite length_drop. lia.
  - destruct Ha as (_ & -> & ->). lia.
Qed.

Lemma all_settled s : sound s → left_over s = 0 → idle s.
Proof.
  unfold left_over. intros (Ho & _ & Hg) H0. apply Forall_forall. intros t Hin Hl.
  pose proof (proj1 (Forall_forall _ _) Ho t Hin) as Hot. pose proof (proj1 (Forall_forall _ _) Hg t Hin) as Hgt.
  unfold gone in Hgt. cbn beta in *. destruct (fate t) eqn:Hf; [|done|done].
  assert (rest t = []) as Hr; [|by rewrite Hr in *; apply bool_decide_eq_true in Hot].
  clear Ho Hg Hot Hgt Hl. induction s as [|u s IH]; [by apply not_elem_of_nil in Hin|].
  change (work_left u + sum_list (work_left <$> s) = 0) in H0.
  apply elem_of_cons in Hin as [<-|Hin]; [|apply IH; [lia|done]]. unfold work_left in H0. rewrite Hf in H0.
  destruct (rest t); [done|simpl in H0; lia].
Qed.

(** A step within an operation keeps who loops, and panics only at poison. *)
Lemma busy_fates s s' : busy_step s s' → loops_free s →
  loops_free s' ∧ ((∀ l, poisoned s l = false) → fate <$> s' = fate <$> s).
Proof.
  intros (i & t & Ht & Hr & (u & t' & Hu & Ha & ->)%exec_inv) Hl. rewrite Ht in Hu. injection Hu as <-.
  apply advance_inv in Ha as (Hf & _ & Ha).
  assert (fate t' = Working ∨ t' = crashed t ∧ ∃ l, poisoned s l = true) as Ht'.
  { destruct (rest t) as [|[l|l|l] r]; [done|..].
    - destruct Ha as [_ [(_ & _ & ->)|[Hp ->]]]; eauto.
    - destruct Ha as (_ & -> & _). auto.
    - destruct Ha as (_ & _ & ->). auto. }
  split.
  - apply Forall_insert; [done|]. by destruct Ht' as [->|[-> _]].
  - intros Hp. destruct Ht' as [Hw|[_ [l Hpl]]]; [|by rewrite Hp in Hpl].
    rewrite list_fmap_insert, list_insert_id; [done|]. by rewrite list_lookup_fmap, Ht, Hw; simpl; rewrite Hf.
Qed.

Lemma same_fates_poison s s' l : fate <$> s' = fate <$> s → poisoned s' l = poisoned s l.
Proof.
  revert s. unfold poisoned. induction s' as [|t s' IH]; intros [|u s] H; try done. rewrite !fmap_cons in H. injection H as H1 H2.
  cbn [existsb]. by rewrite H1, (IH s).
Qed.

Lemma finish s : sound s → loops_free s → ∃ s', rtc busy_step s s' ∧ sound s' ∧ loops_free s' ∧ idle s' ∧
  ((∀ l, poisoned s l = false) → fate <$> s' = fate <$> s).
Proof.
  remember (left_over s) as n eqn:Hn. revert s Hn. induction n as [n IH] using lt_wf_ind. intros s Hn Hs Hl.
  destruct (decide (left_over s = 0)) as [H0|H0].
  { exists s. split_and!; try done. by apply all_settled. }
  assert (∃ i t, s !! i = Some t ∧ fate t = Working ∧ rest t ≠ []) as (i & t & Ht & Hf & Hr).
  { clear IH Hs Hl Hn. unfold left_over in H0. induction s as [|t s IHs]; [done|].
    change (work_left t + sum_list (work_left <$> s) ≠ 0) in H0. destruct (decide (work_left t = 0)) as [Hz|Hz].
    - destruct IHs as (i & u & Hi & Hu); [lia|]. by exists (S i), u.
    - exists 0, t. unfold work_left in Hz. destruct (fate t); try done. split_and!; try done. by intros Hn; rewrite Hn in Hz. }
  destruct (someone_moves s Hs Hl _ i t Ht Hr Hf (le_n _)) as [s1 H1]. destruct (busy_fates _ _ H1 Hl) as [Hl1 Hf1].
  destruct (IH (left_over s1)) with (s := s1) as (s' & Hs' & H2 & H3 & H4 & H5); [subst; by apply busy_shorter|done| |done|].
  { destruct H1 as (j & u & _ & _ & He). eapply step_sound; [|exact Hs]. left. by exists j, 0. }
  exists s'. split_and!; try done; [by eapply rtc_l|]. intros Hp. rewrite H5, Hf1; [done|done|].
  intros l. by rewrite (same_fates_poison s s1 l (Hf1 Hp)).
Qed.

Lemma idle_all_free s l : sound s → loops_free s → idle s → free s l = true.
Proof.
  intros Hs Hl Hi. apply not_false_is_true. intros (j & t & Hj & Hh)%not_free.
  pose proof (holder_works s j t l Hs Hl Hj Hh) as Hf. destruct (Forall_lookup_1 _ _ _ _ Hi Hj) as [_ He]; [by rewrite Hf|].
  rewrite He in Hh. by apply not_elem_of_nil in Hh.
Qed.

(** C39: the threads do not block each other by the order of their locks. Whatever
    threads the program has - the main loop of the miner and its mining threads, key
    generators, the page and the threads of its events, the network, the threads of
    the DNS server, the main thread - however far each of them has come, and
    whichever have panicked: when none that runs in a loop for ever holds a lock,
    the operations under way can all come to their end, without a new one being
    begun, and then no lock is held. Where no panic has poisoned a lock each of
    them completes; a thread that meets a poisoned lock panics itself, or passes it
    by where the code asks for that. The main thread must not be one that founds a
    chain. *)
Theorem operations_finish roles s :
  Founder ∉ roles → rtc step (start roles) s → (∀ i t, s !! i = Some t → fate t = Looping → held t = []) →
  ∃ s', rtc busy_step s s' ∧ idle s' ∧ (∀ l, free s' l = true) ∧
    ((∀ l, poisoned s l = false) → fate <$> s' = fate <$> s).
Proof.
  intros Hr Hs Hl. destruct (finish s) as (s' & H1 & H2 & H3 & H4 & H5).
  - by eapply run_sound, start_sound.
  - by apply Forall_lookup.
  - exists s'. split_and!; try done. intros l. by apply idle_all_free.
Qed.

(** The other side of it: who loops with a lock keeps it from everybody for ever. *)
Lemma loop_keeps s s' i t : rtc step s s' → s !! i = Some t → fate t = Looping → s' !! i = Some t.
Proof.
  intros Hs Ht Hf. induction Hs as [|s1 s2 s3 Hs _ IH]; [done|]. apply IH. clear IH.
  destruct Hs as [(j & choice & (u & u' & Hu & Ha & ->)%exec_inv)|(looping & j & (u & Hu & Hw & _ & ->)%fails_inv)].
  - apply advance_inv in Ha as [Hw _]. destruct (decide (i = j)) as [->|]; [congruence|by rewrite list_lookup_insert_ne].
  - destruct (decide (i = j)) as [->|]; [congruence|by rewrite list_lookup_insert_ne].
Qed.

(** ** The founder *)

(** The founder with the context and the miner locked, the main loop with the queue. *)
Definition waits_jobs : thread :=
  mk Founder [MinerLock; ContextLock] [Take JobsLock; Drop JobsLock; Drop MinerLock; Drop ContextLock] Working.
Definition waits_context : thread :=
  mk MainLoop [JobsLock] [IfOk ContextLock; Drop ContextLock; Drop JobsLock; Take JobsLock; Drop JobsLock] Working.
Definition locked_up (s : t) : Prop := s !! 0 = Some waits_jobs ∧ s !! 1 = Some waits_context.

Lemma held_not_free (s : t) i t l : s !! i = Some t → l ∈ held t → free s l = false.
Proof.
  intros Hi Hl. unfold free. apply not_true_is_false. rewrite forallb_forall. intros Hall.
  specialize (Hall t). rewrite <- list_elem_of_In in Hall. specialize (Hall (list_elem_of_lookup_2 _ _ _ Hi)).
  rewrite bool_decide_true in Hall by done. done.
Qed.

Lemma locked_locks s : locked_up s → free s ContextLock = false ∧ free s JobsLock = false ∧ free s MinerLock = false.
Proof.
  intros [H0 H1]. split_and!; [eapply (held_not_free s 0)|eapply (held_not_free s 1)|eapply (held_not_free s 0)]; try done; cbn; set_solver.
Qed.

Lemma loop_blocks s s' i t l : rtc step s s' → s !! i = Some t → fate t = Looping → l ∈ held t →
  ∀ j choice u r, s' !! j = Some u → rest u = Take l :: r ∨ rest u = IfOk l :: r → exec j choice s' = None.
Proof.
  intros Hs Ht Hf Hl j choice u r Hu Hr. pose proof (held_not_free s' i t l (loop_keeps _ _ _ _ Hs Ht Hf) Hl) as Hfree.
  unfold exec. rewrite Hu. cbn. unfold advance. destruct (fate u); [|done|done]. by destruct Hr as [->| ->]; rewrite Hfree.
Qed.

Lemma locked_step s s' : step s s' → locked_up s → locked_up s'.
Proof.
  intros Hs Hl. destruct (locked_locks s Hl) as (Hc & Hj & _). destruct Hl as [H0 H1].
  destruct Hs as [(i & choice & (t & t' & Ht & Ha & ->)%exec_inv)|(looping & i & (t & Ht & _ & Hw & ->)%fails_inv)];
    destruct i as [|[|i]]; try by split; rewrite list_lookup_insert_ne.
  - rewrite H0 in Ht. injection Ht as <-. unfold advance in Ha. cbn [fate rest waits_jobs] in Ha. by rewrite Hj in Ha.
  - rewrite H1 in Ht. injection Ht as <-. unfold advance in Ha. cbn [fate rest waits_context] in Ha. by rewrite Hc in Ha.
  - rewrite H0 in Ht. injection Ht as <-. unfold waits in Hw. cbn [rest waits_jobs] in Hw. by rewrite Hj in Hw.
  - rewrite H1 in Ht. injection Ht as <-. unfold waits in Hw. cbn [rest waits_context] in Hw. by rewrite Hc in Hw.
Qed.

Lemma idle_free l others : forallb (λ t, negb (bool_decide (l ∈ held t))) (start others) = true.
Proof. apply forallb_forall. intros t (r & -> & _)%list_elem_of_In%list_elem_of_fmap. by rewrite bool_decide_false by apply not_elem_of_nil. Qed.

Lemma start_unpoisoned l others : poisoned (start others) l = false.
Proof. unfold poisoned. by induction others. Qed.

Fixpoint execs (acts : list (nat * nat)) (s : t) : option t :=
  match acts with [] => Some s | (i, choice) :: acts => s ← exec i choice s; execs acts s end.
Lemma script_steps acts s s' : execs acts s = Some s' → rtc step s s'.
Proof.
  revert s. induction acts as [|[i choice] acts IH]; intros s; [by intros [= <-]|]. cbn.
  intros (s1 & Hs & H)%bind_Some. eapply rtc_l; [left; by exists i, choice|by apply IH].
Qed.

(** C40: the first start of a new chain can stop the whole program. The main thread
    puts the genesis block into the queue of the miner with the context locked,
    while the main loop of the miner, which has just been started, locks its empty
    queue and then asks the context for a block to sign. When each has its first
    lock neither ever moves again, whatever other threads there are and whatever
    they do; nobody ever gets the context, the queue or the miner. *)
Theorem founding_can_deadlock others :
  ∃ s, rtc step (start (Founder :: MainLoop :: others)) s ∧
    ∀ s', rtc step s s' → s' !! 0 = s !! 0 ∧ s' !! 1 = s !! 1 ∧
      ∀ i choice t l r, s' !! i = Some t → rest t = Take l :: r ∨ rest t = IfOk l :: r →
        l ∈ [ContextLock; JobsLock; MinerLock] → exec i choice s' = None.
Proof.
  exists (waits_jobs :: waits_context :: start others). split.
  - pose proof (λ l, idle_free l others) as Hfree. apply (script_steps [(0, 0); (0, 0); (0, 0); (1, 1); (1, 0)]).
    change (start (Founder :: MainLoop :: others)) with (mk Founder [] [] Working :: mk MainLoop [] [] Working :: start others).
    pose proof (λ l, start_unpoisoned l others) as Hp. unfold poisoned in Hp.
    revert Hfree Hp. generalize (start others). intros o Hfree Hp. cbn [execs].
    repeat (progress (unfold exec, advance, free, poisoned; cbn) || rewrite Hfree || rewrite Hp
            || rewrite bool_decide_false by (clear; set_solver)). done.
  - intros s' Hs'. assert (locked_up s') as Hl.
    { assert (locked_up (waits_jobs :: waits_context :: start others)) as H0 by done.
      revert H0. induction Hs' as [|s1 s2 s3 Hs _ IH]; [done|]. intros H1. by apply IH, (locked_step s1). }
    destruct (locked_locks s' Hl) as (Hc & Hj & Hm). destruct Hl as [H0 H1]. split; [done|]. split; [done|].
    intros i choice t l r Ht Hr Hin. unfold exec. rewrite Ht. cbn. unfold advance. destruct (fate t); [|done|done].
    assert (free s' l = false) as Hf; [|by destruct Hr as [->| ->]; rewrite Hf].
    rewrite !list_elem_of_In in Hin. simpl in Hin. by destruct Hin as [<-|[<-|[<-|[]]]].
Qed.
End Locks.

(** ** Runs *)
Module LocksExamples.
Import Locks.

Definition roles : list role := [MainThread; MainLoop; Page; NetworkLoop; MiningThread].
(** A command to create a domain has the miner locked, the main loop its queue,
    and a mining thread the context. *)
Definition halfway : list (nat * nat) :=
  [(2, 14); (2, 0); (2, 0); (2, 0); (2, 0); (2, 0); (2, 0); (2, 0); (1, 1); (1, 0); (4, 4); (4, 0)].

(** The mining thread panics with the context; the page, which has the miner
    locked, then panics where it needs the context, and the main loop passes it by. *)
Definition after_panic : option t := s ← execs halfway (start roles); fails false 4 s.

Lemma operations_finish_witness : ∃ s s',
  after_panic = Some s ∧ rtc busy_step s s' ∧ idle s' ∧ free s JobsLock = false ∧ poisoned s ContextLock = true ∧
  ∀ l, free s' l = true.
Proof.
  destruct after_panic as [s|] eqn:Hs; [|vm_compute in Hs; discriminate].
  destruct (operations_finish roles s) as (s' & H1 & H2 & H3 & _).
  - intros Hin%list_elem_of_In. simpl in Hin. intuition congruence.
  - unfold after_panic in Hs. apply bind_Some in Hs as (s0 & Hs0 & Hs). eapply rtc_r; [exact (script_steps halfway (start roles) s0 Hs0)|].
    right. by exists false, 4.
  - intros i t Ht Hf. vm_compute in Hs. injection Hs as <-. do 5 (destruct i as [|i]; [injection Ht as <-; done|]). done.
  - exists s, s'. split; [reflexivity|]. split; [exact H1|]. split; [exact H2|].
    split; [|split; [|exact H3]]; vm_compute in Hs; injection Hs as <-; vm_compute; reflexivity.
Defined.
End LocksExamples.
