(* ===== verification/Program.v ===== *)
(** * The threads of a node on one context

    After the start of main.rs the network, the miner, the page and the key
    generators run side by side. They share the context, which each locks for what
    it does, and hear the events of the bus. The state of the program has the
    context once; a part gets it lent for a step ([node_of], [miner_of]) and hands
    it back. The steps are those of the parts, in any order. *)

From S2P Require Import Prelude Text Net Commons Hash Keystore Buffer Protocol Block Store Chain Peers Network NodeProps.
From S2P Require Import Cache PeersUpdate Miner Context Domains Ui KeyGen.
Open Scope Z_scope.

Module Program.

Record t := mk {
  context : Context.t;
  node : Network.t;
  (** [running] of the event loop. *)
  node_running : bool;
  miner : Miner.t;
  generators : list KeyGen.t;
  (** What the page did. *)
  posted : list Ui.Event;
  scripts : list rstr;
  files : list (rstr * bytes);
}.

Definition set_node_running (s : t) (b : bool) : t :=
  mk (context s) (node s) b (miner s) (generators s) (posted s) (scripts s) (files s).
Definition set_miner (s : t) (m : Miner.t) : t :=
  mk (context s) (node s) (node_running s) m (generators s) (posted s) (scripts s) (files s).
Definition set_generators (s : t) (l : list KeyGen.t) : t :=
  mk (context s) (node s) (node_running s) (miner s) l (posted s) (scripts s) (files s).

(** ** The context, lent *)

Definition with_chain (c : Context.t) (chain : Chain.t) : Context.t :=
  Context.mk (Context.app_version c) (Context.settings c) (Context.keystores c) (Context.active_key c) chain (Context.miner_state c).
Definition set_origin (settings : Settings.t) (origin : rstr) : Settings.t :=
  Settings.mk origin (Settings.key_files settings) (Settings.check_blocks settings) (Settings.net settings)
    (Settings.dns settings) (Settings.mining settings).

Definition node_of (s : t) : Network.t := Network.set_chain (node s) (Context.chain (context s)).
Definition after_node (s : t) (n : Network.t) : t :=
  mk (with_chain (context s) (Network.chain n)) n (node_running s) (miner s) (generators s) (posted s) (scripts s) (files s).

(** What the network reads of the settings. *)
Definition config_of (c : Context.t) : config := {|
  cfg_app_version := Context.app_version c;
  cfg_origin := Settings.origin (Context.settings c);
  cfg_public := Settings.public (Settings.net (Context.settings c));
  cfg_peers := Settings.peers (Settings.net (Context.settings c));
  cfg_ruvchain_only := Settings.ruvchain_only (Settings.net (Context.settings c));
|}.

(** The miner sees the chain, the keys and the settings, and changes the chain, the
    origin and its own state. *)
Definition lend_miner (c : Context.t) (m : Miner.t) : Miner.t :=
  Miner.mk (Context.chain c) (Context.keystores c) (Settings.origin (Context.settings c))
    (Settings.mining_threads (Settings.mining (Context.settings c))) (Context.miner_state c)
    (Miner.jobs m) (Miner.running m) (Miner.mining m) (Miner.current_job m) (Miner.pc m) (Miner.tasks m) (Miner.live m)
    (Miner.events m).
Definition miner_of (s : t) : Miner.t := lend_miner (context s) (miner s).
Definition after_miner (s : t) (m : Miner.t) : t :=
  let c := context s in
  mk (Context.mk (Context.app_version c) (set_origin (Context.settings c) (Miner.origin m)) (Context.keystores c)
        (Context.active_key c) (Miner.chain m) (Miner.miner_state m))
    (node s) (node_running s) m (generators s) (posted s) (scripts s) (files s).

Definition page_of (s : t) : Ui.t := Ui.mk (context s) (posted s) (scripts s) [] (files s).
Definition after_page (s : t) (p : Ui.t) : t :=
  mk (Ui.context p) (node s) (node_running s) (miner s) (generators s) (Ui.posted p) (Ui.scripts p) (Ui.files p).

Section Program.
Context {BP : Build} {U : Unicode} {CR : Crypto} {SD : Serde} {JD : JsonData} {EC : Ecies} {TM : Toml}.
Context {HI : HashIter} {CH : Choice} {W : Wire}.
Context (pkg_version : rstr) (fuel : nat).

(** ** The listeners of the bus *)

(** [subscribe_to_bus] of the network. *)
Definition subscribe_to_bus (e : Ui.Event) (running : bool) : bool :=
  match e with Ui.ActionQuit => false | _ => running end.
(** The listener of [start_mining_thread]. *)
Definition hear (e : Ui.Event) (m : Miner.t) : Miner.t :=
  match e with
  | Ui.ActionQuit => Miner.set_flags m false (Miner.mining m)
  | Ui.ActionStopMining => Miner.set_mining m false
  | _ => m
  end.
(** The listener of [create_key], which leaves the bus when it has heard. *)
Definition hear_stop (e : Ui.Event) (g : KeyGen.t) : KeyGen.t :=
  match e with
  | Ui.ActionStopMining =>
      if KeyGen.listening g
      then KeyGen.mk (KeyGen.context g) false (KeyGen.miners_count g) (KeyGen.threads g) (KeyGen.posted g) false
      else g
  | _ => g
  end.
Definition deliver (s : t) (e : Ui.Event) : t :=
  mk (context s) (node s) (subscribe_to_bus e (node_running s)) (hear e (miner s)) (hear_stop e <$> generators s)
    (posted s) (scripts s) (files s).

(** ** The start *)

(** The jobs of the page, and the genesis block, given to the miner. *)
Fixpoint add_jobs (jobs : list (Block.t * Keystore.t)) (m : Miner.t) : outcome Miner.blocked Miner.t :=
  match jobs with
  | [] => Ok m
  | (block, keystore) :: jobs =>
      let! (_, m) := Miner.exec fuel (Miner.AddBlock block keystore) m in add_jobs jobs m
  end.

(** The end of [start_services] and [create_genesis_if_needed]: the miner, whose
    main loop starts in its own time, and the network, with the keys and the id that
    it draws. *)
Definition start (c : Context.t) (job : option (Block.t * Keystore.t)) (secret public : bytes) (my_id : rstr)
    : outcome Miner.blocked t :=
  let m := Miner.new (Context.chain c) (Context.keystores c) (Settings.origin (Context.settings c))
             (Settings.mining_threads (Settings.mining (Context.settings c))) in
  let! m := add_jobs (match job with Some job => [job] | None => [] end) m in
  Ok (mk c (Network.new secret public my_id (Context.chain c)) true m [] [] [] []).

(** ** Steps *)

(** What the threads of the miner do by themselves. *)
Definition own (a : Miner.action) : bool :=
  match a with
  | Miner.AddBlock _ _ | Miner.StopAll | Miner.Quit_ | Miner.StopMining | Miner.Others _ => false
  | _ => true
  end.

Inductive action :=
  | Mine (a : Miner.action)
  | Command (w : Ui.env) (cmd : Ui.Cmd)
  | Close
  | Generate (i : nat) (a : KeyGen.action).

(** [None] when the action is not possible, or has to wait. *)
Definition exec (a : action) (s : t) : outcome DbError (option t) :=
  match a with
  | Mine a =>
      if negb (own a) then Ok None else
      match Miner.exec fuel a (miner_of s) with
      | Ok (_, m) => Ok (Some (after_miner s m))
      | Err _ => Ok None
      | Panic => Panic
      | OutOfFuel => OutOfFuel
      end
  | Command w cmd =>
      let! (_, p) := Ui.invoke w cmd (page_of s) in
      match add_jobs (Ui.jobs p) (miner s) with
      | Ok m =>
          let s1 := set_miner (after_page s p) m in
          let s1 := match cmd with
                    | Ui.CreateKey => set_generators s1 (generators s1 ++ [KeyGen.create_key (Ui.cpus w) (Ui.context p)])
                    | _ => s1
                    end in
          Ok (Some (fold_left deliver (drop (length (posted s)) (Ui.posted p)) s1))
      | Err _ => Ok None
      | Panic => Panic
      | OutOfFuel => OutOfFuel
      end
  | Close =>
      let! (_, p) := Ui.close (page_of s) in
      Ok (Some (fold_left deliver (drop (length (posted s)) (Ui.posted p)) (after_page s p)))
  | Generate i a =>
      match generators s !! i with
      | Some g =>
          if match a with KeyGen.Stop => true | _ => false end then Ok None else
          let! r := KeyGen.exec a (KeyGen.set_context g (context s)) in
          Ok ((λ g, mk (KeyGen.context g) (node s) (node_running s) (miner s) (<[i := g]> (generators s)) (posted s)
                      (scripts s) (files s)) <$> r)
      | None => Ok None
      end
  end.

(** The event loop runs until it has heard that the page was closed; the mining
    threads need one more block number. *)
Inductive step : t → t → Prop :=
  | network_step s n :
      node_running s = true → node_step (config_of (context s)) pkg_version (node_of s) n → step s (after_node s n)
  | action_step s a s' :
      Chain.get_height (Context.chain (context s)) + 1 < MAX → exec a s = Ok (Some s') → step s s'.
End Program.
End Program.
