(* ===== verification/ProgramProps.v ===== *)
(** * Theorems on the running program

    Whatever the threads of a node do, in any order, the context they share holds a
    ledger, and their steps are steps of that ledger. With the start of the program
    this covers a run from the database it finds. A domain created on the page goes
    all the way: once it is mined and the chain has gone on, its name resolves to
    the data that were entered. *)

From stdpp Require Import fin_maps.
From S2P Require Import Prelude Text Net Commons Hash Keystore Buffer Protocol Block Store Chain ChainFacts ChainProps Ledger.
From S2P Require Import Cache Peers PeersUpdate Network NodeProps Miner MinerProps Context Domains DomainsProps Ui KeyGen.
From S2P Require Import Answers Main MainProps Program.
Open Scope Z_scope.

Section Parts.
Context {BP : Build} {U : Unicode} {CR : Crypto} {SD : Serde} {JD : JsonData} {EC : Ecies} {TM : Toml}.
Context {HI : HashIter} {CH : Choice} {W : Wire}.
Context (pkg_version : rstr) (fuel : nat) (blakeout_bytes : ∀ data, bytes_ok (blakeout data)).
Import Program.

(** ** The miner on a ledger *)

Lemma represents_chain_ok c l : represents c l → chain_ok c.
Proof.
  intros Hr. split; [by eapply represents_wf|]. intros last Hl. rewrite (rp_last _ _ Hr) in Hl.
  pose proof (Ledger.ok_certified _ (rp_ok _ _ Hr)) as Hc. apply last_Some_elem_of in Hl. rewrite Forall_forall in Hc.
  destruct (Hc _ Hl) as [_ (d & Hd & _) _ _]. by eapply difficulty_nonempty.
Qed.

Lemma mine_step_refines c c' l : represents c l → mine_step fuel c c' → ∃ l', Ledger.step l l' ∧ represents c' l'.
Proof.
  intros Hr Hs. destruct Hs as [? ? ? ? ? ? Hs|? ? ? ? ? Hs|? ? ? ? ? ? Hty Hnum Hc Ha].
  - exists l. split; [apply Ledger.keep|]. eapply same_cache_represents; [by eapply sign_cache|done].
  - exists l. split; [apply Ledger.keep|]. destruct r as [q b']. eapply same_cache_represents; [by eapply check_cache|done].
  - eexists. by eapply add_refines.
Qed.

Lemma mine_steps_refine c c' l : represents c l → rtc (mine_step fuel) c c' → ∃ l', rtc Ledger.step l l' ∧ represents c' l'.
Proof.
  intros Hr Hs. revert l Hr. induction Hs as [c|c c1 c2 Hs _ IH]; intros l Hr; [by exists l|].
  destruct (mine_step_refines _ _ _ Hr Hs) as (l1 & H1 & Hr1). destruct (IH l1 Hr1) as (l2 & H2 & Hr2).
  exists l2. split; [by eapply rtc_l|done].
Qed.

(** The invariant of the miner without the chain, which is lent to it. *)
Record queue_ok (m : Miner.t) : Prop := {
  qu_jobs : Forall job_ok (Miner.jobs m);
  qu_current : ∀ job, Miner.current_job m = Some job → job_ok job;
  qu_pc : ∀ job, Miner.pc m = Miner.Replacing job → job_ok job;
  qu_tasks : Forall task_ok (Miner.tasks m);
}.

Lemma lent_minv c m l : represents (Context.chain c) l → queue_ok m → minv (lend_miner c m).
Proof. intros Hr [H1 H2 H3 H4]. split; try done. by eapply represents_chain_ok. Qed.
Lemma minv_queue m : minv m → queue_ok m.
Proof. intros [_ H1 H2 H3 H4]. by split. Qed.

Lemma hear_ok e m : queue_ok m → queue_ok (hear e m).
Proof. intros [H1 H2 H3 H4]. destruct e; by split. Qed.

Definition offers (jobs : list (Block.t * Keystore.t)) : Prop := Forall (λ '(b, k), offered b k) jobs.

Lemma add_jobs_ok jobs m m' : add_jobs fuel jobs m = Ok m' → offers jobs → queue_ok m → queue_ok m'.
Proof.
  revert m. induction jobs as [|[b k] jobs IH]; intros m; [by intros [= <-]|]. cbn [add_jobs].
  intros ([[] m1] & Ha & Hr)%obind_inv [(Htx & Hk & Hg) Hjobs]%Forall_cons Hm. apply (IH _ Hr Hjobs).
  unfold Miner.exec in Ha. apply mbind_inv in Ha as (? & m2 & [= <- <-] & Ha). destruct Hm as [H1 H2 H3 H4].
  assert (Miner.add_block b k m = Ok (tt, m1)) as Hadd by by destruct (Miner.pc m).
  unfold Miner.add_block, mput in Hadd. rewrite Htx in Hadd. injection Hadd as <-. split; try done.
  apply Forall_app. split; [done|]. constructor; [|done]. split; [done|by left].
Qed.

(** ** The page *)

(** Commands leave the chain alone, and what they offer to the miner is full. *)
Definition page_step (p p' : Ui.t) : Prop :=
  Context.chain (Ui.context p') = Context.chain (Ui.context p) ∧
  ∃ new, Ui.jobs p' = Ui.jobs p ++ new ∧ offers new.
#[local] Instance page_step_preorder : PreOrder page_step.
Proof.
  split; [intros p; split; [done|]; exists []; rewrite app_nil_r; split; [done|constructor]|].
  intros p1 p2 p3 [C1 (n1 & J1 & O1)] [C2 (n2 & J2 & O2)]. split; [by rewrite C2|].
  exists (n1 ++ n2). split; [by rewrite J2, J1, app_assoc|]. by apply Forall_app.
Qed.
Abbreviation Pages := (Steps page_step).

Lemma page_put {E} (f : Ui.t → Ui.t) :
  (∀ p, Context.chain (Ui.context (f p)) = Context.chain (Ui.context p) ∧ Ui.jobs (f p) = Ui.jobs p) → Pages (mput (E := E) f).
Proof. intros Hf. apply steps_put. intros p. destruct (Hf p) as [H1 H2]. split; [done|]. exists []. rewrite app_nil_r. split; [done|constructor]. Qed.

Lemma pages_post e : Pages (Ui.post e). Proof. by apply page_put. Qed.
Lemma pages_eval t : Pages (Ui.eval t). Proof. by apply page_put. Qed.
Lemma pages_eval_expect w t : Pages (Ui.eval_expect w t).
Proof. apply steps_bind; [apply _|apply pages_eval|intros _]. destruct (Ui.evaluates w t); [steps|intros ? ? ? [=]]. Qed.
Lemma pages_write n t : Pages (Ui.write_file n t). Proof. by apply page_put. Qed.
Lemma pages_keystore k : Pages (Ui.put_keystore k). Proof. by apply page_put. Qed.
Lemma pages_evals l : Pages (Ui.evals l).
Proof. unfold Ui.evals. induction l as [|t l IH]; simpl; [steps|]. apply steps_bind; [apply _|apply pages_eval|by intros _]. Qed.
Lemma pages_refuse t : Pages (Ui.refuse t).
Proof. apply steps_bind; [apply _|apply pages_eval|intros _; apply pages_eval]. Qed.
#[local] Hint Resolve pages_post pages_eval pages_eval_expect pages_write pages_keystore pages_evals pages_refuse : steps.

Lemma pages_save w : Pages (Ui.action_save_key w).
Proof.
  unfold Ui.action_save_key. apply steps_bind; [apply _|steps|intros c]. apply steps_if; [steps|].
  destruct (Ui.dialog w); [|steps]. destruct (Context.get_keystore c) as [k|]; [|steps].
  destruct (Keystore.get_hash k) as [hash k']. apply steps_bind; [apply _|steps|intros [file k'']].
  apply steps_bind; [apply _|destruct file; steps|intros _]. steps.
Qed.

Lemma pages_context f : (∀ c, Context.chain (f c) = Context.chain c) →
  Pages (mput (E := DbError) (λ s, Ui.set_context s (f (Ui.context s)))).
Proof. intros Hf. apply page_put. intros p. split; [apply Hf|done]. Qed.

Lemma pages_select w index : Pages (Ui.action_select_key w index).
Proof.
  intros p a p' Hr. unfold Ui.action_select_key in Hr. apply mbind_inv in Hr as (c & p1 & [= <- <-] & Hr).
  unfold Context.select_key_by_index in Hr. case_bool_decide; [|injection Hr as _ <-; reflexivity].
  apply mbind_inv in Hr as ([] & p1 & [= <-] & Hr). etransitivity; [|run_steps Hr].
  - split; [done|]. exists []. rewrite app_nil_r. split; [done|constructor].
  - destruct (Context.get_keystore _); steps.
Qed.

Lemma select_public_chain c public : Context.chain (Context.select_key_by_public c public).2 = Context.chain c.
Proof. unfold Context.select_key_by_public. by destruct (list_find _ _) as [[i k]|]. Qed.

Lemma pages_load w : Pages (Ui.action_load_key w).
Proof.
  unfold Ui.action_load_key. destruct (Ui.dialog w) as [name|]; [|steps]. apply steps_bind; [apply _|steps|intros loaded].
  destruct loaded as [k|]; [|steps]. cbv zeta. destruct (Keystore.get_hash k) as [hash k'].
  apply steps_bind; [apply _|steps|intros _]. intros p a p' Hr. apply mbind_inv in Hr as (c & p1 & [= <- <-] & Hr).
  pose proof (select_public_chain (Ui.context p) (Keystore.get_public k')) as Hc.
  destruct (Context.select_key_by_public _ _) as [found c]. simpl in Hc. injection Hr as _ <-.
  split; [by destruct found|]. exists []. rewrite app_nil_r. split; [by destruct found|constructor].
Qed.

Lemma pages_loaded w : Pages (Ui.action_loaded w).
Proof.
  unfold Ui.action_loaded. apply steps_bind; [apply _|steps|intros _]. apply steps_bind; [apply _|steps|intros c].
  apply steps_bind; [apply _| |intros _].
  { destruct (Context.get_keystore c) as [k|]; [|steps]. destruct (Keystore.get_hash k). steps. }
  cbv zeta. apply steps_bind; [apply _|steps|intros _]. apply steps_bind; [apply _|destruct (json_of_zones _); steps|intros _]. steps.
Qed.

(** A job of the page is full and names its key. *)
Lemma started_offered {E} t0 rnd ctx name data signing encryption renewal job k :
  action_create_domain (E := E) t0 rnd ctx name data signing encryption renewal = Ok (Started job k) → offered job k.
Proof.
  unfold action_create_domain. intros H. cbv zeta in H. destruct (negb _); [done|].
  apply obind_inv in H as (waiting & _ & H). destruct waiting; [done|]. destruct (Context.get_keystore _) as [k0|]; [|done].
  apply obind_inv in H as (k1 & _ & H). destruct (json_domain_data data) as [dd|]; [|done].
  case_bool_decide; [done|]. destruct (zone_violated _ dd); [done|].
  apply obind_inv in H as ([s e] & _ & H). apply obind_inv in H as (mine & _ & H).
  destruct mine; try done. apply obind_inv in H as ([b k2] & Hb & [= -> ->]).
  unfold create_domain in Hb. apply obind_inv in Hb as ([en|] & _ & Hb); [|done]. destruct (owner_keys _ _ _) as [owner box].
  apply obind_inv in Hb as (d & _ & Hb). apply obind_inv in Hb as (diff & _ & Hb). cbv zeta in Hb.
  apply obind_inv in Hb as (k3 & Hclone & [= <- <-]). apply clone_public in Hclone. split; [done|]. by split.
Qed.

Lemma pages_mine w name data signing encryption renewal :
  Pages (Ui.invoke w (Ui.MineDomain name data signing encryption renewal)).
Proof.
  intros p a p' Hr. unfold Ui.invoke in Hr. apply mbind_inv in Hr as (c & p1 & [= <- <-] & Hr).
  apply mbind_inv in Hr as (r & p1 & [Hc ->]%mlift_inv & Hr).
  destruct r as [| | | | |why|block k]; try (by run_steps Hr; apply pages_refuse).
  - run_steps Hr. destruct why; try apply pages_refuse; cbn [Ui.show_creation]; steps.
  - unfold Ui.show_creation in Hr. apply mbind_inv in Hr as ([] & p1 & [= <-] & Hr).
    etransitivity; [|run_steps Hr; steps]. split; [done|]. exists [(block, k)]. split; [done|].
    constructor; [|constructor]. by eapply started_offered.
Qed.

Lemma pages_invoke w cmd : Pages (Ui.invoke w cmd).
Proof.
  destruct cmd; try apply pages_mine; unfold Ui.invoke; (apply steps_bind; [apply _|steps|intros c]).
  - apply pages_loaded.
  - apply pages_load.
  - steps.
  - apply pages_save.
  - apply pages_select.
  - destruct (action_check_record data) as [[]|]; steps.
  - apply steps_bind; [apply _|steps|intros [[]|]]; steps.
  - steps.
  - steps.
  - steps.
Qed.

(** ** The key generators *)
Lemma generator_chain a g g' : KeyGen.exec a g = Ok (Some g') → Context.chain (KeyGen.context g') = Context.chain (KeyGen.context g).
Proof.
  destruct a as [i|i buf box|i|i|]; simpl; [destruct (KeyGen.threads g !! i) as [[]|]; try done..|].
  - by intros [= <-].
  - intros (d & _ & H)%obind_inv. destruct (_ <=? _); [by apply obind_inv in H as (k & _ & [= <-])|].
    destruct (negb _); by injection H as <-.
  - destruct (Keystore.get_hash _). by intros [= <-].
  - destruct (_ =? 0); by intros [= <-].
  - destruct (KeyGen.listening g); [|done]. by intros [= <-].
Qed.

(** ** Every state *)

Definition chain_of (s : t) : Chain.t := Context.chain (context s).
(** The context holds the ledger, and the parts are as they should be. *)
Record holds (l : Ledger.t) (s : t) : Prop := {
  ho_chain : represents (chain_of s) l;
  ho_node : node_ok (node s);
  ho_miner : queue_ok (miner s);
}.

Lemma deliver_holds l events s : holds l s → holds l (fold_left deliver events s).
Proof.
  revert s. induction events as [|e events IH]; intros s Hs; [done|]. apply IH. destruct Hs as [H1 H2 H3].
  split; try done. by apply hear_ok.
Qed.

(** The chain of the context takes a block that is not numbered ([ChainProps.broken]). *)
Definition breaks (s s' : t) : Prop := broken (chain_of s) (chain_of s').

Lemma network_holds l s n : holds l s → node_step (config_of (context s)) pkg_version (node_of s) n →
  (∃ l', rtc Ledger.step l l' ∧ holds l' (after_node s n)) ∨ breaks s (after_node s n).
Proof.
  intros [H1 H2 H3] Hs. destruct (node_step_good _ _ _ _ Hs H2) as [Hn Hc].
  destruct (chain_steps_refine _ _ _ H1 Hc) as [(l' & Hl & Hr)|Hb]; [left|by right]. exists l'. by split.
Qed.

Lemma mine_holds l s a m : holds l s → room (chain_of s) → own a = true → Miner.exec fuel a (miner_of s) = Ok (tt, m) →
  ∃ l', rtc Ledger.step l l' ∧ holds l' (after_miner s m).
Proof.
  intros [H1 H2 H3] Hroom Ha Hr. pose proof (lent_minv _ _ _ H1 H3) as Hm.
  destruct (act_kept fuel blakeout_bytes a (miner_of s) m Hm) as [Hm' Hsteps]; [by destruct a..|done|].
  destruct (mine_steps_refine _ _ _ H1 Hsteps) as (l' & Hl & Hr'). exists l'. split; [done|]. split; [done..|].
  by apply minv_queue.
Qed.

Lemma action_holds l s a s' : holds l s → room (chain_of s) → exec fuel a s = Ok (Some s') →
  ∃ l', rtc Ledger.step l l' ∧ holds l' s'.
Proof.
  intros Hs Hroom Hr. destruct a as [a|w cmd| |i a]; cbn [exec] in Hr.
  - destruct (own a) eqn:Ho; [|done]. cbn [negb] in Hr.
    destruct (Miner.exec fuel a (miner_of s)) as [[[] m]| | |] eqn:Hm; try done. injection Hr as <-.
    by apply (mine_holds l s a).
  - apply obind_inv in Hr as ([[] p] & Hp & Hr). destruct (pages_invoke w cmd _ _ _ Hp) as [Hc (new & Hj & Ho)].
    cbn [Ui.jobs page_of app] in Hj. rewrite Hj in Hr. destruct (add_jobs fuel new (miner s)) as [m| | |] eqn:Ha; try done.
    injection Hr as <-. exists l. split; [done|]. apply deliver_holds. destruct Hs as [H1 H2 H3].
    assert (represents (Context.chain (Ui.context p)) l) by (by rewrite Hc).
    destruct cmd; (split; [done..|]); by eapply add_jobs_ok.
  - apply obind_inv in Hr as ([[] p] & Hp & Hr). injection Hr as <-. exists l. split; [done|]. apply deliver_holds.
    injection Hp as <-. by destruct Hs.
  - destruct (generators s !! i) as [g|]; [|done]. destruct (match a with KeyGen.Stop => true | _ => false end); [done|].
    apply obind_inv in Hr as ([g'|] & Hg & [= <-]). apply generator_chain in Hg. exists l. split; [done|].
    destruct Hs as [H1 H2 H3]. split; try done. unfold chain_of. cbn. rewrite Hg. exact H1.
Qed.

Lemma step_holds l s s' : holds l s → step pkg_version fuel s s' →
  (∃ l', rtc Ledger.step l l' ∧ holds l' s') ∨ breaks s s'.
Proof.
  intros Hs Hst. destruct Hst as [s n _ Hn|s a s' Hroom Hr]; [by apply network_holds|left; by apply (action_holds l s a)].
Qed.

(** Every state has grown from [l], or a step before it broke the chain. *)
Lemma run_holds l s s' : holds l s → rtc (step pkg_version fuel) s s' →
  (∃ l', rtc Ledger.step l l' ∧ holds l' s') ∨
  ∃ u v, rtc (step pkg_version fuel) s u ∧ (∃ l', rtc Ledger.step l l' ∧ holds l' u) ∧
    step pkg_version fuel u v ∧ breaks u v ∧ rtc (step pkg_version fuel) v s'.
Proof.
  intros Hs Hr. apply (rtc_until _ breaks (λ s, ∃ l', rtc Ledger.step l l' ∧ holds l' s) s s'); [|done|by exists l].
  intros u v (l1 & H1 & Hu) Hst. destruct (step_holds _ _ _ Hu Hst) as [(l2 & H2 & Hv)|]; [left|by right].
  exists l2. split; [by etransitivity|done].
Qed.

(** ** The start *)

Lemma genesis_offered {E} c b k : create_genesis_if_needed (E := E) c = Ok (Some (b, k)) → offered b k.
Proof.
  unfold create_genesis_if_needed. intros H. destruct (_ && _); [|done]. destruct (Context.get_keystore c) as [k0|]; [|done].
  apply obind_inv in H as (k1 & Hk & [= <- <-]). apply clone_public in Hk. split; [done|]. by split.
Qed.

Lemma start_holds {E} c job secret public my_id s l : represents (Context.chain c) l →
  create_genesis_if_needed (E := E) c = Ok job → start fuel c job secret public my_id = Ok s → holds l s.
Proof.
  intros Hr Hj Hs. unfold start in Hs. apply obind_inv in Hs as (m & Hm & [= <-]). split; [done|apply new_ok|].
  eapply add_jobs_ok; [exact Hm| |by split]. destruct job as [[b k]|]; [|constructor].
  constructor; [by eapply genesis_offered|constructor].
Qed.
End Parts.

(** ** A run of the program *)
Section Run.
Context {BP : Build} {U : Unicode} {CR : Crypto} {SD : Serde} {JD : JsonData} {EC : Ecies} {TM : Toml}.
Context {HI : HashIter} {CH : Choice} {W : Wire} {SY : Main.System} {TX : Main.Texts}.

(** C1: from the database to any later state. The program has come up on a database
    that an earlier run left with the ledger [l] (or on none), its threads were
    started, and then the network, the miner, the page and the key generators took
    steps in any order, with any bytes from the network and any commands. Then the
    context they share holds a ledger that has grown, by certified blocks and forks
    alone, out of a beginning of [l]; and so does every step from there. There is
    one way out: a step of the network adds a block that is not numbered, with the
    number 0 in a build without overflow checks or with 2^63-1 ([ChainProps.broken]);
    up to that step it is as said. The transactions of [l] have no byte field of
    zeros, which serde would drop ([Ledger.fields_ok] in [left_with]). *)
Theorem program_refines_ledger pkg_version fuel now dns_server program parsed p p' ok c job gui l secret public my_id s0 s :
  (∀ data, bytes_ok (blakeout data)) → faithful →
  Main.main now fuel dns_server program parsed p = Ok (inr (Main.Serving ok c job gui), p') →
  left_with (Main.database (Main.cwd p')) l →
  Program.start fuel c job secret public my_id = Ok s0 → rtc (Program.step pkg_version fuel) s0 s →
  ∃ k, let found := stored <$> take k l in
  (∃ l', rtc Ledger.step found l' ∧ represents (chain_of s) l' ∧
    ∀ s', Program.step pkg_version fuel s s' →
      (∃ l'', rtc Ledger.step l' l'' ∧ represents (chain_of s') l'') ∨ broken (chain_of s) (chain_of s')) ∨
  (∃ u v l', rtc (Program.step pkg_version fuel) s0 u ∧ rtc Ledger.step found l' ∧ represents (chain_of u) l' ∧
    Program.step pkg_version fuel u v ∧ broken (chain_of u) (chain_of v) ∧ rtc (Program.step pkg_version fuel) v s).
Proof.
  intros Hbytes Hlaws Hm Hl Hs0 Hr.
  destruct (serving_represents _ _ _ _ _ _ _ _ _ _ _ _ Hlaws Hm Hl) as [Hj [k Hk]]. exists k. intros found.
  pose proof (start_holds _ _ _ _ _ _ _ _ Hk Hj Hs0) as H0.
  destruct (run_holds pkg_version fuel Hbytes _ _ _ H0 Hr) as [(l' & Hl' & Hs)|(u & v & Hu & (l' & Hl' & Hh) & Huv & Hb & Hv)].
  - left. exists l'. split; [done|]. split; [apply Hs|]. intros s' Hst.
    destruct (step_holds pkg_version fuel Hbytes _ _ _ Hs Hst) as [(l'' & H1 & H2)|]; [left|by right].
    exists l''. split; [done|apply H2].
  - right. exists u, v, l'. do 2 (split; [done|]). split; [apply Hh|done].
Qed.

(** ** A domain from the page to its resolution *)

Lemma registration_kept l b more r identity : Ledger.registers b = Some r → Store.d_identity r = identity → Store.d_id r = Ledger.height l + 1 →
  more ≠ [] → Forall (λ m, ∀ r, Ledger.registers m = Some r → Store.d_identity r ≠ identity) more →
  Ledger.registration (l ++ [b] ++ more) identity (Ledger.height (l ++ [b] ++ more)) = Some r.
Proof.
  intros Hb Hid Hr Hne Hmore. unfold Ledger.registration. rewrite !omap_app, !List.filter_app. simpl. rewrite Hb. simpl.
  rewrite bool_decide_true by done. assert (length more ≠ 0%nat) by by destruct more.
  rewrite (proj2 (Z.ltb_lt _ _)) by (unfold Ledger.height in *; rewrite !length_app; simpl; lia). simpl.
  assert (∀ n, List.filter (λ r, bool_decide (Store.d_identity r = identity) && (Store.d_id r <? n))
    (omap Ledger.registers more) = []) as ->.
  { clear Hne H. intros n. induction Hmore as [|m more Hm _ IH]; [done|]. simpl.
    destruct (Ledger.registers m) as [r'|] eqn:Hr'; simpl; [|exact IH].
    rewrite bool_decide_false by (by apply Hm). exact IH. }
  by rewrite last_snoc.
Qed.

(** C2: a domain created on the page is served, under conditions that it needs
    ([creatable]): the last block is a signing block ([second_domain_refused] is
    what happens above a registration), the name is in lower case
    ([capital_name]), the stored registration of the name, if there is one,
    confirms it and does not turn a year old while the block is mined, the key is
    strong, and the clocks of command, mining and check follow each other; further
    the data of each record have at most 255 bytes, and domain data are read back
    as they were written. The command started the miner, the block was found and
    submitted as in [created_domain_accepted], on a chain with the ledger [l]. Then
    the chain takes the block, and on every later ledger, of at least one more block
    and as long as nobody registers the name again, the name resolves for a year to
    the data that were entered, with the encrypted name that the page put in. *)
Theorem created_name_resolves t0 ts now fuel rnd ctx name data signing encryption renewal job k last f l :
  (∀ data, bytes_ok (blakeout data)) → ed25519_keys → ed25519_signs →
  (∀ b good, bincode_block (set_hash_good b good) = bincode_block b) →
  (∀ dd e, json_domain_data data = Some dd →
     json_domain_data (json_of_domain_data (with_encrypted dd e)) = Some (with_encrypted dd e)) →
  creatable (Context.chain ctx) last name k t0 ts now →
  (∀ dd r text, json_domain_data data = Some dd → r ∈ records dd → DnsRecord.get_data r = Some text →
     (length text <= MAX_DATA_LEN)%nat) →
  action_create_domain (E := DbError) t0 rnd ctx name data signing encryption renewal = Ok (Started job k) →
  found_for k job last ts f → represents (Context.chain ctx) l →
  let b := set_hash_good (sealed k f) true in
  ∃ c dd e, json_domain_data data = Some dd ∧
    Chain.check_new_block now fuel (sealed k f) (Context.chain ctx) = Ok ((Good, b), Context.chain ctx) ∧
    Chain.add_block b (Context.chain ctx) = Ok (tt, c) ∧ represents c (l ++ [b]) ∧
    ∀ c' more now', represents c' (l ++ [b] ++ more) → more ≠ [] →
      Forall (λ m, ∀ r, Ledger.registers m = Some r → Store.d_identity r ≠ hash_identity name None) more →
      now' <= ts + DOMAIN_LIFETIME →
      Chain.get_domain_info (E := DbError) now' c' name = Ok (Some (json_of_domain_data (with_encrypted dd e))).
Proof.
  intros Hbytes Hkeys Hsigs Hskip Hjson Hcr Hlen Hstart Hfor Hr b.
  pose proof (created_good t0 ts now fuel rnd ctx name data signing encryption renewal job k last f
    Hkeys Hsigs Hskip Hjson Hcr Hlen Hstart Hfor) as Hgood.
  destruct (started_inv _ _ _ _ _ _ _ _ _ _ Hstart) as (dd & e & owner & box & d & Hdata & _ & _ & _ & _ & _ & Htx & Hown).
  destruct Hfor as [Hok Ft _ Fi _ Fts _]. rewrite <- Ft in Htx. destruct Hok as ([Bs Bg Bv Bk Bi] & Hh & _).
  assert (numbered (sealed k f)) as Hnum by done.
  assert (typed (sealed k f)) as Hty by (apply typed_fresh; [by apply numbered_u64|simpl; rewrite Hh; apply Hbytes|done]).
  destruct (good_added _ _ _ _ _ _ (represents_wf _ _ Hr) Hty Hnum Hgood) as (c & Hadd & _ & _). fold b in Hgood, Hadd.
  destruct (add_refines _ _ _ _ _ _ _ _ Hr Hty Hnum Hgood Hadd) as [_ Hr2].
  assert (owner ≠ []) as Howner.
  { destruct Hown as [|Hown]; [done|]. intros ->. destruct (Hkeys (Keystore.keypair k)) as [Hl _].
    change (ed_public (Keystore.keypair k)) with (Keystore.get_public k) in Hl. by rewrite <- Hown in Hl. }
  exists c, dd, e. split; [done|]. split; [done|]. split; [done|]. split; [done|]. intros c' more now' Hr' Hne Hmore Hnow.
  set (text := json_of_domain_data (with_encrypted dd e)) in *.
  assert (Ledger.registers b = Some (Store.Drow (Block.index f) ts (hash_identity name None) (hash_identity name (Some owner)) text owner box)) as Hreg.
  { unfold Ledger.registers, b, sealed. cbn [Block.transaction set_hash_good set_signature]. rewrite Htx.
    cbn [mbind option_bind Transaction.class Transaction.signing transaction_from_str]. rewrite bool_decide_true by done.
    rewrite bool_decide_false by done. rewrite <- Fts. reflexivity. }
  destruct (cr_quiet _ _ _ _ _ _ _ Hcr) as [_ Hlast _ _ _ _]. pose proof (represents_height _ _ Hr) as Hhl.
  unfold Chain.get_height in Hhl. rewrite Hlast in Hhl.
  pose proof (registration_kept l b more _ (hash_identity name None) Hreg eq_refl ltac:(simpl; lia) Hne Hmore) as Hin.
  rewrite (ledger_domain_info _ _ _ _ Hr'); [|apply Hcr|].
  - unfold ledger_data. rewrite Hin. unfold check_identity. simpl. rewrite !same_hash_eq, !bool_decide_true by done.
    simpl. by rewrite (proj2 (Z.leb_le _ _) Hnow).
  - intros r Hreg'. rewrite Hin in Hreg'. injection Hreg' as <-. simpl. apply Hcr.
Qed.
End Run.
