(* ===== verification/ProgramExamples.v ===== *)
(** * A node from its start to a name that is served

    A small node is run on the database that an earlier run left: it starts, the
    page is told to create a domain, the miner finds the block and the chain takes
    it, a peer connects; then the name resolves. *)

From stdpp Require Import fin_maps.
From S2P Require Import Prelude Text Net Commons Hash Keystore Buffer Protocol Block Store Chain ChainFacts ChainProps Ledger.
From S2P Require Import Cache Peers PeersUpdate Network NodeProps Miner MinerProps MinerExamples Context ContextProps Domains DomainsProps.
From S2P Require Import Ui KeyGen Main MainProps Program ProgramProps DomainsExamples.
From S2P Require ChainExamples NodeExamples.
Open Scope Z_scope.

#[local] Existing Instances MinerExamples.toy_crypto ChainExamples.Toy.toy_ecies ascii_tables MinerExamples.release.
#[local] Existing Instances DomainsExamples.toy_serde DomainsExamples.toy_json.
#[local] Existing Instances NodeExamples.ToyWire.toy_iter NodeExamples.ToyWire.toy_choice NodeExamples.ToyWire.toy_wire.

(** ** The database *)
Definition good (b : Block.t) : Block.t := set_hash_good b true.
Definition ledger3 : Ledger.t := [good genesis; good registration; good signing_block].

Lemma after_represents now c l b : represents c l → ChainExamples.typedb b = true →
  Chain.check_new_block now 0 b c = Ok ((Good, good b), c) → represents (after b c) (l ++ [good b]).
Proof.
  intros Hr [Hty Hnum]%ChainExamples.typedb_both Hc. destruct (good_added _ _ _ _ _ _ (represents_wf _ _ Hr) Hty Hnum Hc) as (c2 & Ha & _ & _).
  unfold after. fold (good b). rewrite Ha. by destruct (add_refines _ _ _ _ _ _ _ _ Hr Hty Hnum Hc Ha).
Qed.

Lemma chain3_ledger : represents chain3 ledger3.
Proof.
  change chain3 with (after signing_block chain2). change ledger3 with (([good genesis] ++ [good registration]) ++ [good signing_block]).
  apply (after_represents 100000); [|vm_compute; reflexivity..]. change chain2 with (after registration chain1).
  apply (after_represents 100000); [|vm_compute; reflexivity..]. change chain1 with (after genesis no_chain).
  apply (after_represents 100000 no_chain []); [apply represents_new|vm_compute; reflexivity..].
Qed.

(** ** The start *)
Definition my_key : Keystore.t := Keystore.new (replicate 32 5) (CryptoBox.mk [1] [1]).
Definition settings : Settings.t :=
  Settings.mk (to_hex (Block.hash genesis)) [str "key.toml"] 8 Settings.default_net Settings.default_dns Settings.default_mining.
#[local] Instance two_files : Toml := {|
  toml_of_keys := λ _, []; toml_keys := λ text, if bool_decide (text = str "keys") then Some (get_keys my_key) else None;
  toml_settings := λ text, if bool_decide (text = str "settings") then Some settings else None |}.
#[local] Instance machine : Main.System := {|
  Main.windows := false; Main.webgui := true; Main.console_attached := true; Main.variable := λ _, None;
  Main.create_dir := λ _, true; Main.change_dir := λ _ _, true; Main.creates := λ _ _, true; Main.writes := λ _ _, true;
  Main.opens_log := λ _ _, None; Main.sets_logger := true;
  Main.reads := λ _ name, if bool_decide (name = str "ruvname.toml") then Some (str "settings")
                          else if bool_decide (name = str "key.toml") then Some (str "keys") else None;
  Main.database := λ _, Some (Chain.db chain3);
  Main.manager := false; Main.service_created := false; Main.service_started := None; Main.service_opened := None; Main.dispatches := true;
|}.
#[local] Existing Instance MainExamples.texts.
Definition opts : Main.Matches := {|
  Main.help := false; Main.nogui := false; Main.version := false; Main.debug := false; Main.trace := false; Main.blocks := false;
  Main.generate := false; Main.install := false; Main.uninstall := false; Main.service := false;
  Main.gen_key := None; Main.log := None; Main.status := None; Main.config := None; Main.work_dir := None; Main.upgrade := None |}.
Definition start_up := Main.main 99999 1000 (λ _, Ok true) (str "ruvname") (Some opts) Main.fresh.
Definition served : Context.t := Eval vm_compute in
  match start_up with
  | Ok (inr (Main.Serving _ c _ _), _) => c
  | _ => Context.new [] settings [] no_chain
  end.
Definition begun : Program.t := Eval vm_compute in
  match Program.start 1000 served None [1] [2] (str "id") with
  | Ok s => s
  | _ => Program.mk served (Network.new [] [] [] no_chain) false (Miner.new no_chain [] [] 0) [] [] [] []
  end.

(** ** The run *)
Definition world : Ui.env := {|
  Ui.now := 100000; Ui.time := str "now"; Ui.rnd := []; Ui.dialog := None; Ui.read := λ _, None; Ui.created := true;
  Ui.written := true; Ui.opens := true; Ui.cpus := 2;
  Ui.evaluates := λ _, true; Ui.dispatched := true |}.
Definition run : list Program.action :=
  [Program.Mine Miner.StartThread; Program.Command world Ui.Loaded;
   Program.Command world (Ui.MineDomain name (str "data") [] [] false);
   Program.Mine (Miner.Turn 101000 0 0 1); Program.Mine Miner.EndTurn; Program.Mine (Miner.Start 0);
   Program.Mine (Miner.Place 0 77 101001); Program.Mine (Miner.Decide 0); Program.Mine (Miner.Try 0);
   Program.Mine (Miner.Submit 0 101002)].

Fixpoint execs (acts : list Program.action) (s : Program.t) : option Program.t :=
  match acts with
  | [] => Some s
  | a :: acts =>
      if Chain.get_height (Context.chain (Program.context s)) + 1 <? MAX then
        match Program.exec 1000 a s with Ok (Some s) => execs acts s | _ => None end
      else None
  end.
Lemma execs_steps acts s s' : execs acts s = Some s' → rtc (Program.step (str "0.1.0") 1000) s s'.
Proof.
  revert s. induction acts as [|a acts IH]; intros s; [by intros [= <-]|]. cbn [execs].
  destruct (Z.ltb_spec (Chain.get_height (Context.chain (Program.context s)) + 1) MAX) as [Hh|]; [|done].
  destruct (Program.exec 1000 a s) as [[s1|]| | |] eqn:Ha; try done. intros Hr.
  eapply rtc_l; [by eapply Program.action_step|by apply IH].
Qed.

Lemma start_up_serves : start_up = Ok (inr (Main.Serving true served None true), snd (default (inl (Main.Exit 1), Main.fresh)
  (match start_up with Ok r => Some r | _ => None end))).
Proof. vm_compute. reflexivity. Qed.

Lemma laws : faithful.
Proof. split_and!; [exact ChainExamples.toy_json_law|reflexivity|reflexivity]. Qed.

Lemma program_refines_ledger_witness : ∃ s k,
  execs run begun = Some s ∧ Chain.get_height (chain_of s) = 4 ∧
  ((∃ l', rtc Ledger.step (stored <$> take k ledger3) l' ∧ represents (chain_of s) l') ∨
   ∃ u v, Program.step (str "0.1.0") 1000 u v ∧ broken (chain_of u) (chain_of v)).
Proof.
  destruct (execs run begun) as [s|] eqn:Hs; [|vm_compute in Hs; discriminate].
  destruct (program_refines_ledger (str "0.1.0") 1000 99999 (λ _, Ok true) (str "ruvname") (Some opts) Main.fresh
    (snd (default (inl (Main.Exit 1), Main.fresh) (match start_up with Ok r => Some r | _ => None end)))
    true served None true ledger3 [1] [2] (str "id") begun s) as (k & Hk).
  - exact toy_bytes.
  - exact laws.
  - exact start_up_serves.
  - exists chain3. split; [vm_compute; reflexivity|]. split; [exact chain3_ledger|]. split; [|vm_compute; reflexivity].
    repeat (constructor; [ChainExamples.fields_hold|]). constructor.
  - vm_compute. reflexivity.
  - exact (execs_steps run begun s Hs).
  - exists s, k. split; [reflexivity|]. split; [vm_compute in Hs; injection Hs as <-; vm_compute; reflexivity|].
    destruct Hk as [(l' & Hl & Hr & _)|(u & v & l' & _ & _ & _ & Huv & Hb & _)]; [left|right].
    + exists l'. split; [exact Hl|exact Hr].
    + exists u, v. split; [exact Huv|exact Hb].
Defined.

(** ** The name *)
Definition created_block : Block.t := Eval vm_compute in sealed worker found_block.
Definition chain4 : Chain.t := Eval vm_compute in after created_block chain3.
Definition signing5 : Block.t := sealed_block 5 102000 16 (Block.hash created_block) None.
Definition chain5 : Chain.t := Eval vm_compute in after signing5 chain4.

Lemma chain5_ledger : represents chain5 (ledger3 ++ [good (sealed worker found_block)] ++ [good signing5]).
Proof.
  change (ledger3 ++ [good (sealed worker found_block)] ++ [good signing5]) with
    ((ledger3 ++ [good (sealed worker found_block)]) ++ [good signing5]).
  change chain5 with (after signing5 chain4). apply (after_represents 102000); [|vm_compute; reflexivity..].
  change chain4 with (after created_block chain3). apply (after_represents 101002 chain3 ledger3 created_block chain3_ledger); vm_compute; reflexivity.
Qed.

Lemma created_name_resolves_witness : ∃ e,
  created 100000 = Ok (Started job worker) ∧
  Chain.get_domain_info (E := DbError) 110000 chain5 name = Ok (Some (json_of_domain_data (with_encrypted (data_of (str "data")) e))).
Proof.
  destruct (created_name_resolves 100000 101001 101002 0 [] ctx name (str "data") [] [] false job worker last found_block ledger3)
    as (c & dd & e & Hdata & _ & _ & _ & Hres).
  - exact toy_bytes.
  - exact toy_keys.
  - exact toy_signs.
  - reflexivity.
  - intros dd e [= <-]. reflexivity.
  - exact chain3_creatable.
  - intros dd r text [= <-]. by intros ?%not_elem_of_nil.
  - exact job_started.
  - exact found_for_job.
  - exact chain3_ledger.
  - exists e. split; [exact job_started|]. injection Hdata as <-.
    apply (Hres chain5 [good signing5] 110000 chain5_ledger); [discriminate| |vm_compute; discriminate].
    constructor; [|constructor]. intros r Hr. vm_compute in Hr. discriminate Hr.
Defined.
